(* ===== verification/_CoqProject ===== *)
-Q . S2P
Prelude.v
Endian.v
CxxString.v
Utils.v
Interfaces.v
UtilsFiles.v
Filter.v
Reporter.v
ReporterInv.v
ReporterReplay.v
ReporterDb.v
MergeParser.v
MergeProofs.v
Scripts.v
BashEngine.v
BashProofs.v
PythonEngine.v
Ptrace.v
PtraceFreeBSD.v
SystemMode.v
SystemProofs.v
Collector.v
Writers.v
Configuration.v
MachEngine.v
HtmlWriter.v
Selection.v
SystemEngine.v
PtraceStart.v
Launch.v
Daemon.v
Handshake.v
KernelModule.v
KernelProofs.v
KernelPipeline.v
SystemPipeline.v
MainProgram.v
Background.v
Reports.v
CoverallsWriter.v
Disassembler.v
Crc32.v
Elf.v
MachoParser.v
LibDwarf.v
SolibHandler.v
SolibStart.v
ElfParser.v
