(* ===== verification/Prelude.v ===== *)
(** * kcov: a verification development

    kcov runs a program - a native executable under ptrace, or a bash or python
    script under its interpreter - and reports which lines of its source were
    executed.  This library models the program's own logic, file by file, and
    proves what makes it correct.

    ** The program and the files of this library

    A run goes like this.  A parser announces the lines of the program
    ([IFileParser::ILineListener::onLine]) to its listeners: the collector, which
    sets a breakpoint for each; the reporter, which keeps the lines; the writers,
    which keep the source files.  The collector continues the engine until it is
    done and passes on the addresses that were hit
    ([ICollector::IListener::onAddressHit]).  The reporter counts them and tells
    its own listeners ([IReporter::IListener]), among them the merge parser,
    which collects the coverage of several runs.  The writers ask the reporter
    and produce the reports.

    - Prelude.v (this file): outcomes of C++ code, machine integers, bytes,
      blocks of memory, counting; Endian.v (src/src/include/swap-endian.hh):
      byte order; CxxString.v: std::string; Utils.v (src/src/utils.cc);
      UtilsFiles.v (the same): formatting, writing and joining files, the clock,
      waiting;
      Interfaces.v (src/src/include): [IFilter], the calls of the listener
      interfaces, and the [World] of files and hashes.
    - Filter.v (src/src/filter.cc): the file and line filters; [Filter] and
      [BasicFilter] are instances of [IFilter].
    - Reporter.v (src/src/reporter.cc): lines, files, the reporter's handlers
      and its database; ReporterInv.v: its invariant, kept by every handler, and
      the state after a hit; ReporterReplay.v: what lines do with the hits that
      wait for them; ReporterDb.v: the database's layout and the theorems about
      whole runs.
    - MergeParser.v (src/src/merge-file-parser.cc): the merge parser and its
      metadata files; MergeProofs.v: their layout, round trip and merging.
    - Scripts.v (src/src/source-file-cache.cc,
      src/src/engines/script-engine-base.hh): what script engines share, and the
      class [LineScanner] of their line parsers; BashEngine.v and BashProofs.v
      (src/src/engines/bash-engine.cc); PythonEngine.v
      (src/src/engines/python-engine.cc).
    - Ptrace.v (src/src/engines/ptrace.cc, ptrace_linux.cc): the ptrace engine
      on the processors of the source, over the platform class [PtraceSys];
      PtraceFreeBSD.v (ptrace_freebsd.cc): its instance for FreeBSD;
      PtraceStart.v: how it forks the program or attaches to all threads of a
      running one; MachEngine.v (mach-engine.cc): breakpoints on macOS.
    - Launch.v (bash-engine.cc, python-engine.cc, bash-execve-redirector.c,
      bash-tracefd-cloexec.c): how the script engines start their interpreters,
      and the libraries preloaded into them.
    - Disassembler.v (src/src/parsers/bfd-disassembler.cc, dummy-disassembler.cc):
      instruction boundaries and basic blocks; Crc32.v: the checksum of debug
      links; Elf.v (src/src/include/elf.hh, src/src/parsers/elf.cc, dwarf.cc):
      segments, build-ids, debug links and line tables; LibDwarf.v
      (dwarf-libdwarf.cc): line tables by the other library; MachoParser.v
      (macho-parser.cc): programs of macOS; SolibHandler.v
      (src/src/solib-handler.cc, src/src/solib-parser): the shared libraries of
      the traced program, with the parser as a class; SolibStart.v: the pipe, the
      thread and the semaphore behind them; ElfParser.v
      (src/src/parsers/elf-parser.cc): the parser of programs and libraries, over
      the class [IDisassembler].
    - SystemMode.v and SystemProofs.v
      (src/src/engines/system-mode-file-format.cc,
      src/src/system-mode/file-data.cc, registration.cc): the coverage memory
      shared between processes, and the formats of system mode; SystemEngine.v
      (src/src/engines/system-mode-engine.cc, kernel-engine.cc): the engines
      that record binaries, read back their coverage, and read the kernel
      module's; Daemon.v (src/src/main-system-daemon.cc): the daemon of system
      mode and its output thread; Handshake.v (the same and
      system-mode-binary-lib.cc): how instrumented processes and the daemon meet
      at their fifos; SystemPipeline.v: the theorem about all of them together.
    - KernelModule.v (src/src/kernel/kprobe-coverage.c): the kernel module, as
      functions and as a machine of critical sections; KernelProofs.v: its
      invariants; KernelPipeline.v: the module under the engine that drives it.
    - Collector.v (src/src/collector.cc): the loop of a run; [IEngine].
    - Writers.v (src/src/writers/writer-base.cc, html-writer.cc): what report
      writers share, and the lines of an HTML page; [IReporter].  HtmlWriter.v:
      the pages, indices and totals of the HTML report.  Reports.v
      (sonarqube-xml-writer.cc, codecov-writer.cc, cobertura-writer.cc,
      json-writer.cc): the XML and JSON reports; CoverallsWriter.v
      (coveralls-writer.cc): the one that is sent away.
    - Configuration.v (src/src/configuration.cc): the tables of keys and the
      command line; Selection.v (src/src/engine-factory.cc, parser-manager.cc,
      capabilities.cc, output-handler.cc): the choice of engine and parser, and
      the calls of the writers; MainProgram.v (src/src/main.cc): the modes of
      the program; Background.v: a run in the background and the parent that
      waits for its exit code.

    ** How the code is modelled

    A method is a function from the object's state to the new state, in the
    monad [res] below where it can panic, throw or touch memory it must not; a
    definition has the name of the method, with a prefix where two classes share
    it.  Integers are [Z] with the wrap-around of their width written out
    ([u32], [u64], [s32]).  Memory that is marshalled is a list of bytes and
    accessed at offsets; an access outside it is [Fault].  Objects that several
    maps point to (the reporter's lines) live in a heap.  Calls on listeners are
    recorded in order.  Hash maps are finite maps; where the program iterates
    over one, the order is a parameter ([iter_files], [iter_lines]) known only to
    list the map.  Concurrent code is a machine: [reportIndex] with one step per
    memory access, the kernel module with one per critical section, the daemon and
    its clients with one per operation on a fifo.  Programs that differ between
    platforms are written over a class of the platform ([PtraceSys], [MachOS]) whose
    laws ([PtraceLaws], [MachLaws]) the instances discharge.

    Outside the model, and hence parameters: the kernels ([PtraceOS], [FreeBSD],
    [MachOS], [StartOS], [Kernel]) and the results of system calls (records named
    after the code that makes them, [BashAnswers] and so on), the file system and
    its time stamps, zlib's crc32 and [std::hash] ([World]), regular expressions,
    getenv, realpath and getopt_long, libelf, libdw, libdwarf and libopcodes
    ([ElfHandle], [Dwarf], [LdLine], [MachoLine], [print_insn]), curl and git.
    What is assumed of them is stated where it is used ([PtraceLaws], the
    hypotheses of the theorems), and the concrete runs that come with a theorem
    instantiate them.

    ** What the theorems show

    - Reporter: no operation faults, whatever lines, hits, libraries and
      databases arrive ([reporter_safe], [database_any_content]) but one kind of
      broken header ([truncated_database_faults]); a hit changes what it must and
      nothing else ([onAddressHit_effect]), the summary counts the lines it claims
      ([summary_counts]), and a database, read before the lines are known, is
      restored on hosts of either byte order up to the addresses after the first
      of a line ([database_restores], [pending_index_lost]).
    - Merging: metadata files are read back as written ([merge_roundtrip]), the
      order of files does not matter when they fit the source
      ([merge_order_irrelevant]), early hits are kept ([late_line]), addresses do
      not collide ([hashAddress_inj]).
    - Scripts: the parsers are total and announce each code line once, in order
      ([bash_parse_announces], [python_parse_announces]), never one inside a here
      document, a continued line or a multi-line string; traces and pipe records
      become the hits they encode ([trace_line_hit], [python_stream]).
    - Breakpoints: the traced program keeps its text but for traps
      ([breakpoints_transparent], [freebsd_engine], [mach_transparent]); a trap is
      reported and undone, once ([trap_hit], [mach_trap_hit]), where the processor's
      instructions do not share a word ([neighbour_lost], [trap_misplaced]);
      attaching ends with a PTRACE_ATTACH for every thread
      ([attachAll_complete]) and the engine then has its stopped process
      ([ptrace_start_ready]).
    - Starting: the shell's channels and environment ([bash_channels]), the
      preloaded libraries ([execve_redirects]), the pipe of the shared libraries
      ([solib_startup_ready]).
    - Kernel module: each entry has one owner ([kpc_one_owner]), calm schedules
      touch no freed memory ([kpc_calm_safe]) and drain ([kpc_drains]); with its
      engine it reports the probes that fired ([kernel_coverage_end_to_end]).
    - System mode: concurrent reports lose nothing and end
      ([concurrent_reports], [concurrent_reports_terminate]); the three formats
      are read back as written ([processed_file_roundtrip],
      [memory_file_roundtrip]).
    - System mode as a whole: recording, daemon and report together give what
      tracing the program directly would give ([system_mode_refines]); however
      the output thread and the reporting processes interleave, a file shows
      only reported hits ([daemon_output]), and all of them once the thread has
      settled without being told to exit ([daemon_settles]; told to, it leaves
      without a last round, [exit_loses_reports]); every process that registers in
      a calm schedule is answered and let go ([handshake_calm]).
    - Native programs: the lines announced are exactly those at which an
      instruction of the text starts ([lines_on_instructions], over
      [verify_exact]); debug information is taken from where it belongs
      ([debug_information_source], [debugLinkCrc32_correct],
      [debug_sections_read]); libraries are parsed once each
      ([solibs_parsed_once]); text is divided into basic blocks
      ([basic_blocks]); the commands of a Mach-O file are found
      ([macho_go_binary], [macho_debug_file]); descriptors are not leaked
      ([ld_descriptors]).
    - Collector: a run ends with its engine, passes every hit on, and gives the
      right exit code ([collector_run]).
    - Configuration and main program: once the command line is accepted every
      key is read at its type ([parse_types]), the program gets its arguments
      ([parse_arguments]), every option has an outcome ([option_outcomes]);
      the best engine is chosen ([matchEngine_best]), the writers are called in
      order ([output_run]), the merged report is written when there is
      something to merge ([merged_report_iff]), and the exit code reaches the
      parent of a run in the background ([exit_code_handed_over]).
    - Writers: summaries are read back, the common path is a prefix of all
      names, pages and indices show and count the reporter's lines
      ([html_report], [html_global_index]), all reports agree on lines and totals
      ([report_totals_agree], [reports_list_code_lines]), and coveralls gets each
      file once ([coveralls_report]).
    - Filter and utilities: region matching, the files a filter accepts, the
      escapers, numbers, paths and [read_file].

    Where the code does not do what it means to, a theorem shows what it does:
    [truncated_database_faults], [pending_index_lost], [stale_data_order_matters],
    [pending_hits_overwritten], [bash_counts_nocode], [python_small_record],
    [long_name_overflows], [parse_bad_command_lines], [report_options_lost],
    [exit_loses_reports], [report_slips], [disassembler_slips], [units_lost],
    [solib_slips], [kernel_module_slips], [html_percentage_slips],
    [coveralls_slips], [launch_slips], [handshake_slips], [solib_wait_passes],
    [mach_slips], [macho_slips], [neighbour_lost], [trap_misplaced],
    [killed_never_handed_over].

    ** Bounds and fuel

    Loops whose recursion is not structural take fuel: the length of the text or
    block they consume (every round consumes at least a character or an entry),
    the length of the path in [shorten], 64 digits for numbers below 2^64, the
    length of a section in [disassemble_loop], twice the number of threads in
    [attach_loop], the length of the output and one in [run_loop]. The theorems
    about them give the result for that fuel, so that running out is excluded.
    [col_loop] takes any number of rounds and its theorem asks for as many as the
    engine makes. Theorems about marshalled data ask for sizes that fit the 32-bit
    (or 16-bit) fields of the format.

    ** Not modelled

    What has no logic of kcov's own: the exception server for macOS
    (src/src/engines/osx), which mig generates; the helper scripts in shell and
    Python that run inside the traced programs (src/src/engines/*.sh, *.py) and
    the data embedded by the build, which are inputs of the modelled engines; the
    tools beside the program (src/tools).  Of the modelled files: debug messages and
    help texts, the registration of objects at start-up by static constructors,
    freeing of memory, and the callbacks that tests install in utils.cc.  Three sides of the
    concurrency are left to the schedules the theorems name: the signal handlers run
    between two operations and not inside one, the thread that reads library data is
    a sequence of its reads, and the kernel's own seq_file machinery is trusted. *)
From Stdlib Require String.
From Stdlib Require Export ZArith Ascii.
From stdpp Require Export base tactics numbers option list gmap strings fin_maps.
From stdpp Require Import options.
#[global] Open Scope Z_scope.

Create Rewrite HintDb kcov_len.
Create HintDb kcov.

(** ** Outcomes of C++ code *)

(** What running a piece of C++ can do besides returning a value:
    [Panic] is the [panic] macro of utils.hh (message and [exit(1)]), [Throw] an
    uncaught C++ exception, [Fault] an access outside an object (undefined
    behaviour). *)
Inductive res (A : Type) : Type :=
  | Ok (a : A)
  | Panic
  | Throw
  | Fault.
Arguments Ok {_} _.
Arguments Panic {_}.
Arguments Throw {_}.
Arguments Fault {_}.

Definition res_bind {A B} (f : A → res B) (m : res A) : res B :=
  match m with
  | Ok a => f a
  | Panic => Panic
  | Throw => Throw
  | Fault => Fault
  end.

#[global] Instance res_mret : MRet res := @Ok.
#[global] Instance res_mbind : MBind res := @res_bind.
#[global] Instance res_fmap : FMap res := λ A B f m, res_bind (λ a, Ok (f a)) m.

#[global] Instance res_eq_dec {A} `{EqDecision A} : EqDecision (res A).
Proof. solve_decision. Defined.

Definition or_fault {A} (o : option A) : res A :=
  match o with Some a => Ok a | None => Fault end.

Definition or_throw {A} (o : option A) : res A :=
  match o with Some a => Ok a | None => Throw end.

Lemma bind_Ok {A B} (m : res A) (f : A → res B) b :
  (a ← m; f a) = Ok b ↔ ∃ a, m = Ok a ∧ f a = Ok b.
Proof.
  destruct m as [a| | |]; cbn; split; [by eauto|..].
  - by intros (? & [= <-] & ?).
  - done.
  - by intros (? & ? & ?).
  - done.
  - by intros (? & ? & ?).
  - done.
  - by intros (? & ? & ?).
Qed.

(** Left-to-right iteration of a body that can stop the program. *)
Fixpoint res_foldl {A S} (f : S → A → res S) (s : S) (l : list A) : res S :=
  match l with
  | [] => Ok s
  | x :: l => s ← f s x; res_foldl f s l
  end.

Lemma res_foldl_app {A S} (f : S → A → res S) s l k :
  res_foldl f s (l ++ k) = (s ← res_foldl f s l; res_foldl f s k).
Proof.
  revert s; induction l as [|x l IH]; intros s; [done|].
  cbn. destruct (f s x); cbn; auto.
Qed.

(** An invariant of the body is an invariant of the loop. *)
Lemma res_foldl_inv {A S} (P : S → Prop) (f : S → A → res S) s l s' :
  (∀ s x s', P s → x ∈ l → f s x = Ok s' → P s') →
  P s → res_foldl f s l = Ok s' → P s'.
Proof.
  revert s; induction l as [|x l IH]; intros s Hf Hs; cbn.
  - by intros [= <-].
  - intros (s1 & H1 & H2)%bind_Ok.
    eapply IH; [| |exact H2].
    + intros; eapply Hf; eauto. by right.
    + eapply Hf; eauto. by left.
Qed.

(** A loop whose body never stops the program, under an invariant, returns. *)
Lemma res_foldl_total {A S} (P : S → Prop) (f : S → A → res S) s l :
  (∀ s x, P s → x ∈ l → ∃ s', f s x = Ok s' ∧ P s') →
  P s → ∃ s', res_foldl f s l = Ok s' ∧ P s'.
Proof.
  revert s; induction l as [|x l IH]; intros s Hf Hs; cbn; [by eauto|].
  destruct (Hf s x) as (s1 & -> & H1); [done|by left|].
  cbn. apply IH; [|done]. intros; apply Hf; [done|]. by right.
Qed.

(** An assertion about the elements seen so far holds after the loop. *)
Lemma res_foldl_prefix {A S} (P : list A → S → Prop) (f : S → A → res S) l s :
  P [] s →
  (∀ pre x post s, l = pre ++ x :: post → P pre s → ∃ s', f s x = Ok s' ∧ P (pre ++ [x]) s') →
  ∃ s', res_foldl f s l = Ok s' ∧ P l s'.
Proof.
  intros H0 Hf.
  assert (∀ post pre s, l = pre ++ post → P pre s → ∃ s', res_foldl f s post = Ok s' ∧ P l s') as H.
  { induction post as [|x post IH]; intros pre s1 E HP; [exists s1; by rewrite E, app_nil_r|].
    cbn. destruct (Hf pre x post s1 E HP) as (s2 & -> & H2). cbn.
    apply (IH (pre ++ [x])); [|done]. by rewrite <-app_assoc. }
  by apply (H l []).
Qed.

(** ** Machine integers *)

Definition uw (w z : Z) : Z := z mod 2 ^ w.
Abbreviation u8 := (uw 8).
Abbreviation u16 := (uw 16).
Abbreviation u32 := (uw 32).
Abbreviation u64 := (uw 64).

(** [int]: the two's complement reading of the low 32 bits. *)
Definition s32 (z : Z) : Z := (z + 2 ^ 31) mod 2 ^ 32 - 2 ^ 31.
Definition s64 (z : Z) : Z := (z + 2 ^ 63) mod 2 ^ 64 - 2 ^ 63.

Lemma uw_range w z : 0 ≤ w → 0 ≤ uw w z < 2 ^ w.
Proof. intros. apply Z.mod_pos_bound. lia. Qed.
Lemma uw_small w z : 0 ≤ z < 2 ^ w → uw w z = z.
Proof. apply Z.mod_small. Qed.
Lemma uw_idem w z : uw w (uw w z) = uw w z.
Proof. apply Z.mod_mod_divide, Z.divide_refl. Qed.
Lemma uw_add_l w a b : uw w (uw w a + b) = uw w (a + b).
Proof. apply Zplus_mod_idemp_l. Qed.
Lemma uw_add_r w a b : uw w (a + uw w b) = uw w (a + b).
Proof. apply Zplus_mod_idemp_r. Qed.
Lemma u32_range z : 0 ≤ u32 z < 2 ^ 32.
Proof. by apply uw_range. Qed.
Lemma u64_range z : 0 ≤ u64 z < 2 ^ 64.
Proof. by apply uw_range. Qed.
Lemma s32_range z : - 2 ^ 31 ≤ s32 z < 2 ^ 31.
Proof. unfold s32. pose proof (Z.mod_pos_bound (z + 2 ^ 31) (2 ^ 32)). lia. Qed.
Lemma s32_small z : - 2 ^ 31 ≤ z < 2 ^ 31 → s32 z = z.
Proof. intros. unfold s32. rewrite Z.mod_small; lia. Qed.
Lemma u32_s32 z : u32 (s32 z) = u32 z.
Proof.
  unfold s32, uw. rewrite Zminus_mod_idemp_l. f_equal. lia.
Qed.

(** ** Bytes *)

Abbreviation bytes := (list ascii).

(** Literals of the source. *)
Definition str (s : string) : bytes := Stdlib.Strings.String.list_ascii_of_string s.

Definition byte_val (c : ascii) : Z := Z.of_N (N_of_ascii c).
Definition byte_of (z : Z) : ascii := ascii_of_N (Z.to_N (u8 z)).
Abbreviation NUL := ("000"%char).

Lemma byte_val_range c : 0 ≤ byte_val c < 256.
Proof. unfold byte_val. pose proof (N_ascii_bounded c). lia. Qed.
Lemma byte_of_val c : byte_of (byte_val c) = c.
Proof.
  unfold byte_of, uw. rewrite Z.mod_small by apply byte_val_range.
  unfold byte_val. rewrite N2Z.id. apply ascii_N_embedding.
Qed.
Lemma byte_val_of z : byte_val (byte_of z) = u8 z.
Proof.
  unfold byte_of, byte_val. pose proof (uw_range 8 z ltac:(done)).
  rewrite N_ascii_embedding; lia.
Qed.
#[global] Instance byte_val_inj : Inj (=) (=) byte_val.
Proof. intros a b H. by rewrite <-(byte_of_val a), H, byte_of_val. Qed.
Lemma byte_val_zero c : byte_val c = 0 ↔ c = NUL.
Proof.
  split; [|by intros ->]. intros H. apply byte_val_inj. by rewrite H.
Qed.

(** ** Little-endian integers in memory *)

Fixpoint le_bytes (n : nat) (z : Z) : bytes :=
  match n with
  | O => []
  | S n => byte_of z :: le_bytes n (z / 256)
  end.

Fixpoint le_val (bs : bytes) : Z :=
  match bs with
  | [] => 0
  | b :: bs => byte_val b + 256 * le_val bs
  end.

Lemma length_le_bytes n z : length (le_bytes n z) = n.
Proof. revert z; induction n; cbn; auto. Qed.

Lemma le_val_range bs : 0 ≤ le_val bs < 256 ^ Z.of_nat (length bs).
Proof.
  induction bs as [|b bs IH]; cbn [le_val length]; [lia|].
  rewrite Nat2Z.inj_succ, Z.pow_succ_r by lia.
  pose proof (byte_val_range b). lia.
Qed.

Lemma le_val_bytes n z : le_val (le_bytes n z) = z mod 256 ^ Z.of_nat n.
Proof.
  revert z; induction n as [|n IH]; intros z; cbn [le_val le_bytes].
  { symmetry. apply Z.mod_1_r. }
  rewrite IH, byte_val_of, Nat2Z.inj_succ, Z.pow_succ_r by lia.
  unfold uw. change (2 ^ 8) with 256.
  pose proof (Z.pow_pos_nonneg 256 (Z.of_nat n)).
  rewrite Z.rem_mul_r by lia. lia.
Qed.

Lemma le_bytes_val bs : le_bytes (length bs) (le_val bs) = bs.
Proof.
  induction bs as [|b bs IH]; cbn [le_val le_bytes length]; [done|].
  pose proof (byte_val_range b).
  f_equal.
  - rewrite <-(byte_of_val b) at 2. unfold byte_of, uw.
    change (2 ^ 8) with 256. 
    rewrite (Z.mul_comm 256), Z.mod_add by lia. done.
  - etransitivity; [|exact IH]. f_equal.
    rewrite (Z.mul_comm 256), Z.div_add, Z.div_small by lia. lia.
Qed.

Lemma le_val_inj bs bs' :
  length bs = length bs' → le_val bs = le_val bs' → bs = bs'.
Proof.
  intros Hl Hv. by rewrite <-(le_bytes_val bs), <-(le_bytes_val bs'), Hl, Hv.
Qed.

Lemma le_bytes_mod n z : le_bytes n (z mod 256 ^ Z.of_nat n) = le_bytes n z.
Proof.
  apply le_val_inj; [by rewrite !length_le_bytes|].
  rewrite !le_val_bytes. apply Z.mod_mod.
  pose proof (Z.pow_pos_nonneg 256 (Z.of_nat n)). lia.
Qed.

Lemma le_val_zeros n : le_val (replicate n NUL) = 0.
Proof. induction n as [|n IH]; cbn; [done|]. rewrite IH. done. Qed.

(** ** Memory blocks *)

(** A block of memory is its bytes; an access outside it is a [Fault]. *)
Definition buf_read (b : bytes) (off n : nat) : res bytes :=
  if bool_decide (off + n ≤ length b)%nat then Ok (take n (drop off b)) else Fault.

Definition buf_write (off : nat) (d b : bytes) : res bytes :=
  if bool_decide (off + length d ≤ length b)%nat
  then Ok (take off b ++ d ++ drop (off + length d) b)
  else Fault.

(** [xmalloc]/[malloc]+[memset]. *)
Definition zeros (n : nat) : bytes := replicate n NUL.

Lemma buf_read_app a d c n :
  n = length d → buf_read (a ++ d ++ c) (length a) n = Ok d.
Proof.
  intros ->. unfold buf_read. rewrite bool_decide_eq_true_2.
  - by rewrite drop_app_length, take_app_length.
  - rewrite !length_app. lia.
Qed.

Lemma buf_read_length b off n d : buf_read b off n = Ok d → length d = n.
Proof.
  unfold buf_read. case_bool_decide; intros [= <-].
  rewrite length_take, length_drop. lia.
Qed.

(** Writing over a block whose shape is known. *)
Lemma buf_write_app a o c d off :
  off = length a → length o = length d →
  buf_write off d (a ++ o ++ c) = Ok (a ++ d ++ c).
Proof.
  intros -> Hl. unfold buf_write. rewrite bool_decide_eq_true_2.
  - by rewrite take_app_length, <-Hl, drop_app_add, drop_app_length.
  - rewrite !length_app. lia.
Qed.

(** Filling a zeroed block from the left. *)
Lemma buf_write_zeros a k d off :
  off = length a → (length d ≤ k)%nat →
  buf_write off d (a ++ zeros k) = Ok (a ++ d ++ zeros (k - length d)).
Proof.
  intros -> Hk. unfold zeros.
  replace k with (length d + (k - length d))%nat at 1 by lia.
  rewrite replicate_add. apply buf_write_app; [done|].
  by rewrite length_replicate.
Qed.

Lemma length_buf_write off d b b' :
  buf_write off d b = Ok b' → length b' = length b.
Proof.
  unfold buf_write. case_bool_decide; intros [= <-].
  rewrite !length_app, length_take, length_drop. lia.
Qed.

(** The string at an address: up to the terminating NUL, which must be inside
    the block. *)
Fixpoint c_str (b : bytes) : res bytes :=
  match b with
  | [] => Fault
  | c :: b => if bool_decide (c = NUL) then Ok [] else s ← c_str b; Ok (c :: s)
  end.

Definition c_str_at (b : bytes) (off : nat) : res bytes := c_str (drop off b).

(** Accesses at computed offsets. *)

Definition zread (b : bytes) (off : Z) (n : nat) : res bytes :=
  if (0 <=? off) && (off + Z.of_nat n <=? Z.of_nat (length b))
  then buf_read b (Z.to_nat off) n else Fault.
Definition zwrite (off : Z) (d b : bytes) : res bytes :=
  if (0 <=? off) && (off + Z.of_nat (length d) <=? Z.of_nat (length b))
  then buf_write (Z.to_nat off) d b else Fault.
Definition zc_str (b : bytes) (off : Z) : res bytes :=
  if (0 <=? off) && (off <? Z.of_nat (length b)) then c_str_at b (Z.to_nat off) else Fault.

(** [strcpy]: the characters and the terminator. *)
Definition strcpy (off : nat) (s b : bytes) : res bytes := buf_write off (s ++ [NUL]) b.

(** A [std::string] without an embedded NUL: the ones a C string can hold. *)
Definition no_nul (s : bytes) : Prop := NUL ∉ s.
#[global] Instance no_nul_dec s : Decision (no_nul s).
Proof. unfold no_nul. apply _. Defined.

Lemma no_nul_cons c s : no_nul (c :: s) ↔ c ≠ NUL ∧ no_nul s.
Proof. unfold no_nul. rewrite not_elem_of_cons. naive_solver. Qed.

Lemma no_nul_app a b : no_nul a → no_nul b → no_nul (a ++ b).
Proof. intros Ha Hb [?|?]%elem_of_app; [by apply Ha|by apply Hb]. Qed.

Lemma c_str_app s b : no_nul s → c_str (s ++ NUL :: b) = Ok s.
Proof.
  induction s as [|c s IH]; cbn; [done|].
  intros [? ?]%no_nul_cons. by rewrite bool_decide_eq_false_2, IH.
Qed.

Lemma c_str_at_app a s b off :
  off = length a → no_nul s → c_str_at (a ++ s ++ NUL :: b) off = Ok s.
Proof. intros -> ?. unfold c_str_at. rewrite drop_app_length. by apply c_str_app. Qed.

(** ** Counting *)

Fixpoint count_if {A} (p : A → bool) (l : list A) : nat :=
  match l with
  | [] => O
  | x :: l => (if p x then S else id) (count_if p l)
  end.

Lemma count_if_app {A} (p : A → bool) l k :
  count_if p (l ++ k) = (count_if p l + count_if p k)%nat.
Proof. induction l as [|x l IH]; cbn; [done|]. rewrite IH. by destruct (p x). Qed.

Lemma count_if_ext {A} (p q : A → bool) l :
  (∀ x, x ∈ l → p x = q x) → count_if p l = count_if q l.
Proof.
  induction l as [|x l IH]; cbn; intros H; [done|].
  rewrite H by left. rewrite IH; [done|]. intros; apply H; by right.
Qed.

Lemma count_if_le {A} (p : A → bool) l : (count_if p l ≤ length l)%nat.
Proof. induction l as [|x l IH]; cbn; [done|]. destruct (p x); cbn; lia. Qed.

Lemma count_if_mono {A} (p q : A → bool) l :
  (∀ x, x ∈ l → p x = true → q x = true) → (count_if p l ≤ count_if q l)%nat.
Proof.
  induction l as [|x l IH]; cbn; intros H; [done|].
  assert (count_if p l ≤ count_if q l)%nat by (apply IH; intros; apply H; [by right|done]).
  specialize (H x ltac:(left)).
  destruct (p x), (q x); cbn; lia.
Qed.

Lemma count_if_insert {A} (p : A → bool) l i x y :
  l !! i = Some x → p x = false →
  count_if p (<[i:=y]> l) = (count_if p l + if p y then 1 else 0)%nat.
Proof.
  intros Hi Hx. rewrite insert_take_drop by eauto using lookup_lt_Some.
  rewrite <-(take_drop_middle l i x Hi) at 3.
  rewrite !count_if_app. cbn. rewrite Hx. destruct (p y); cbn; lia.
Qed.

Lemma count_if_replicate_false {A} (p : A → bool) n x :
  p x = false → count_if p (replicate n x) = O.
Proof. intros H. induction n; cbn; [done|]. by rewrite H. Qed.

Lemma existsb_false {A} (p : A → bool) l : (∀ x, x ∈ l → p x = false) → existsb p l = false.
Proof.
  induction l as [|x l IH]; cbn; intros H; [done|].
  rewrite H by left. apply IH. intros; apply H. by right.
Qed.

Lemma sum_list_with_perm {A} (f : A → nat) l k : l ≡ₚ k → sum_list_with f l = sum_list_with f k.
Proof. induction 1; cbn; lia. Qed.

(** ** Accesses to blocks given as concatenations *)

Lemma zwrite_skip (a b d : bytes) off :
  Z.of_nat (length a) ≤ off →
  zwrite off d (a ++ b) = (b' ← zwrite (off - Z.of_nat (length a)) d b; Ok (a ++ b')).
Proof.
  intros H. unfold zwrite, buf_write. rewrite length_app.
  destruct (Z.leb_spec 0 off); [|lia].
  destruct (Z.leb_spec 0 (off - Z.of_nat (length a))); [|lia]. cbn [andb].
  destruct (Z.leb_spec (off + Z.of_nat (length d)) (Z.of_nat (length a + length b)));
    destruct (Z.leb_spec (off - Z.of_nat (length a) + Z.of_nat (length d)) (Z.of_nat (length b)));
    try lia; [|done].
  rewrite !bool_decide_eq_true_2 by lia. cbn.
  rewrite take_app_ge, drop_app_ge by lia. rewrite <-!app_assoc.
  repeat f_equal; lia.
Qed.

Lemma zwrite_here (o c d : bytes) off :
  off = 0 → length o = length d → zwrite off d (o ++ c) = Ok (d ++ c).
Proof.
  intros -> H. unfold zwrite, buf_write. rewrite length_app. cbn [Z.leb Z.compare andb].
  destruct (Z.leb_spec (0 + Z.of_nat (length d)) (Z.of_nat (length o + length c))); [|lia].
  change (Z.to_nat 0) with O. rewrite bool_decide_eq_true_2 by lia. cbn [Nat.add take app].
  rewrite <-H. by rewrite drop_app_length.
Qed.

Lemma zread_skip (a b : bytes) off n :
  Z.of_nat (length a) ≤ off → zread (a ++ b) off n = zread b (off - Z.of_nat (length a)) n.
Proof.
  intros H. unfold zread, buf_read. rewrite length_app.
  destruct (Z.leb_spec 0 off); [|lia].
  destruct (Z.leb_spec 0 (off - Z.of_nat (length a))); [|lia]. cbn [andb].
  destruct (Z.leb_spec (off + Z.of_nat n) (Z.of_nat (length a + length b)));
    destruct (Z.leb_spec (off - Z.of_nat (length a) + Z.of_nat n) (Z.of_nat (length b)));
    try lia; [|done].
  rewrite !bool_decide_eq_true_2 by lia. rewrite drop_app_ge by lia. repeat f_equal; lia.
Qed.

Lemma zread_here (o c : bytes) off n : off = 0 → length o = n → zread (o ++ c) off n = Ok o.
Proof.
  intros -> <-. unfold zread, buf_read. rewrite length_app. cbn [Z.leb Z.compare andb].
  destruct (Z.leb_spec (0 + Z.of_nat (length o)) (Z.of_nat (length o + length c))); [|lia].
  change (Z.to_nat 0) with O. rewrite bool_decide_eq_true_2, drop_0 by lia.
  by rewrite take_app_length.
Qed.

Lemma zc_str_at (a s b : bytes) off :
  off = Z.of_nat (length a) → no_nul s → zc_str (a ++ s ++ NUL :: b) off = Ok s.
Proof.
  intros -> Hs. unfold zc_str. rewrite !length_app. cbn [length].
  destruct (Z.leb_spec 0 (Z.of_nat (length a))); [|lia].
  destruct (Z.ltb_spec (Z.of_nat (length a)) (Z.of_nat (length a + (length s + S (length b))))); [|lia].
  cbn [andb]. rewrite Nat2Z.id. by apply c_str_at_app.
Qed.

Lemma zeros_add m n : zeros (m + n) = zeros m ++ zeros n.
Proof. apply replicate_add. Qed.
Lemma length_zeros n : length (zeros n) = n.
Proof. apply length_replicate. Qed.
#[export] Hint Rewrite @length_app length_zeros : kcov_len.

(** [|] of parts that do not overlap. *)
Lemma or_high w lo hi : 0 ≤ w → 0 ≤ lo < 2 ^ w → Z.lor lo (hi * 2 ^ w) = lo + hi * 2 ^ w.
Proof.
  intros Hw Hlo. pose proof (Z.add_lor_land lo (hi * 2 ^ w)) as H.
  assert (Z.land lo (hi * 2 ^ w) = 0) as E; [|lia].
  apply Z.bits_inj'. intros n Hn. rewrite Z.land_spec, Z.bits_0.
  destruct (Z.lt_ge_cases n w).
  - by rewrite Z.mul_pow2_bits_low, andb_false_r by lia.
  - rewrite <-(Z.mod_small lo (2 ^ w)), Z.mod_pow2_bits_high by lia. done.
Qed.
