(* ===== verification/Endian.v ===== *)
(** * Byte order (src/src/include/swap-endian.hh)

    The host's byte order is a parameter, so that what one host writes can be
    read by another. *)
From S2P Require Export Prelude.
From stdpp Require Import options.

Inductive endian := LittleEndian | BigEndian.
#[global] Instance endian_eq_dec : EqDecision endian.
Proof. solve_decision. Defined.

(** How a host stores an [n]-byte unsigned integer, and reads it back. *)
Definition native_bytes (e : endian) (n : nat) (u : Z) : bytes :=
  match e with LittleEndian => le_bytes n u | BigEndian => reverse (le_bytes n u) end.
Definition native_val (e : endian) (bs : bytes) : Z :=
  match e with LittleEndian => le_val bs | BigEndian => le_val (reverse bs) end.

(** The wire format kcov aims at. *)
Definition be_bytes (n : nat) (u : Z) : bytes := reverse (le_bytes n u).
Definition be_val (bs : bytes) : Z := le_val (reverse bs).

(** The union's two arrays: [dest.u8[k] = source.u8[sizeof(T) - k - 1]]. *)
Definition swap_u8 (source : bytes) : bytes :=
  (λ k, nth (length source - k - 1) source NUL) <$> seq 0 (length source).

Definition swap_endian (e : endian) (n : nat) (u : Z) : Z :=
  native_val e (swap_u8 (native_bytes e n u)).

(** [static const uint16_t data = 0x1122; p[0] == 0x22]. *)
Definition cpu_is_little_endian (e : endian) : bool :=
  bool_decide (head (native_bytes e 2 0x1122) = Some (byte_of 0x22)).

Definition to_be (e : endian) (n : nat) (u : Z) : Z :=
  if cpu_is_little_endian e then swap_endian e n u else u.
Definition to_le (e : endian) (n : nat) (u : Z) : Z :=
  if cpu_is_little_endian e then u else swap_endian e n u.
Definition be_to_host (e : endian) (n : nat) (u : Z) : Z :=
  if cpu_is_little_endian e then swap_endian e n u else u.
Definition le_to_host (e : endian) (n : nat) (u : Z) : Z :=
  if cpu_is_little_endian e then u else swap_endian e n u.

(** ** Lemmas *)

Lemma length_native_bytes e n u : length (native_bytes e n u) = n.
Proof. destruct e; cbn -[reverse]; rewrite ?length_reverse; apply length_le_bytes. Qed.
Lemma length_be_bytes n u : length (be_bytes n u) = n.
Proof. unfold be_bytes. rewrite length_reverse. apply length_le_bytes. Qed.

Lemma swap_u8_reverse bs : swap_u8 bs = reverse bs.
Proof.
  apply list_eq. intros i. unfold swap_u8. rewrite list_lookup_fmap.
  destruct (decide (i < length bs)%nat) as [Hi|Hi].
  - rewrite lookup_seq_lt, reverse_lookup by done. cbn.
    destruct (nth_lookup_or_length bs (length bs - i - 1) NUL) as [H|H]; [|lia].
    rewrite <-H. f_equal. lia.
  - rewrite lookup_seq_ge, lookup_ge_None_2; [done| |lia].
    rewrite length_reverse. lia.
Qed.

Lemma native_val_bytes e n u : native_val e (native_bytes e n u) = u mod 256 ^ Z.of_nat n.
Proof. destruct e; cbn -[reverse]; rewrite ?reverse_involutive; apply le_val_bytes. Qed.

Lemma native_bytes_val e bs : native_bytes e (length bs) (native_val e bs) = bs.
Proof.
  destruct e; cbn -[reverse]; [apply le_bytes_val|].
  rewrite <-(length_reverse bs), le_bytes_val. apply reverse_involutive.
Qed.

Lemma native_val_range e bs : 0 ≤ native_val e bs < 256 ^ Z.of_nat (length bs).
Proof.
  destruct e; cbn -[reverse]; [apply le_val_range|].
  rewrite <-(length_reverse bs). apply le_val_range.
Qed.

Lemma be_val_bytes n u : be_val (be_bytes n u) = u mod 256 ^ Z.of_nat n.
Proof. unfold be_val, be_bytes. rewrite reverse_involutive. apply le_val_bytes. Qed.

(** What a marshaller stores is big-endian on every host ... *)
Lemma native_to_be e n u : native_bytes e n (to_be e n u) = be_bytes n u.
Proof.
  destruct e; unfold to_be, be_bytes; [|done]. cbn -[swap_endian reverse].
  unfold swap_endian. rewrite swap_u8_reverse. cbn -[reverse].
  rewrite <-(length_le_bytes n u) at 1.
  rewrite <-(length_reverse (le_bytes n u)). apply le_bytes_val.
Qed.

(** ... and what an unmarshaller reads is the big-endian value. *)
Lemma be_to_host_native e bs :
  be_to_host e (length bs) (native_val e bs) = be_val bs.
Proof.
  destruct e; unfold be_to_host, be_val; [|done]. cbn -[swap_endian reverse].
  unfold swap_endian. rewrite swap_u8_reverse. cbn -[reverse]. by rewrite le_bytes_val.
Qed.
#[export] Hint Rewrite length_native_bytes length_be_bytes length_le_bytes : kcov_len.

Lemma native_bytes_mod e n u : native_bytes e n (u mod 256 ^ Z.of_nat n) = native_bytes e n u.
Proof. destruct e; cbn -[reverse]; by rewrite le_bytes_mod. Qed.

(** Reading a big-endian field and storing it back as the host reads it. *)
Lemma native_of_be e n u :
  native_bytes e n (be_to_host e n (native_val e (be_bytes n u))) = native_bytes e n u.
Proof.
  rewrite <-(length_be_bytes n u) at 2. rewrite be_to_host_native, be_val_bytes.
  apply native_bytes_mod.
Qed.

(** What one host marshals another can read, whatever the two byte orders:
    the bytes stored by a host are big-endian, and reading them on any host
    gives the value back modulo its width. *)
Theorem to_be_portable (writer reader : endian) (n : nat) (u : Z) :
  native_bytes writer n (to_be writer n u) = be_bytes n u ∧
  be_to_host reader n (native_val reader (native_bytes writer n (to_be writer n u)))
  = uw (8 * Z.of_nat n) u.
Proof.
  rewrite native_to_be. split; [done|].
  rewrite <-(length_be_bytes n u) at 1. rewrite be_to_host_native, be_val_bytes.
  unfold uw. by rewrite Z.pow_mul_r by lia.
Qed.

(** ** Fields in memory *)

(** An [n]-byte field of a structure, in the host's byte order. *)
Definition load (e : endian) (n : nat) (b : bytes) (off : Z) : res Z :=
  d ← zread b off n; Ok (native_val e d).
Definition store (e : endian) (n : nat) (off v : Z) (b : bytes) : res bytes :=
  zwrite off (native_bytes e n v) b.

Lemma load_skip e n a b off :
  Z.of_nat (length a) ≤ off → load e n (a ++ b) off = load e n b (off - Z.of_nat (length a)).
Proof. intros. unfold load. by rewrite zread_skip. Qed.
Lemma load_here e n v c off : off = 0 →
  load e n (native_bytes e n v ++ c) off = Ok (v mod 256 ^ Z.of_nat n).
Proof.
  intros ->. unfold load. rewrite zread_here by (done || apply length_native_bytes).
  cbn. by rewrite native_val_bytes.
Qed.
Lemma store_skip e n v a b off :
  Z.of_nat (length a) ≤ off →
  store e n off v (a ++ b) = (b' ← store e n (off - Z.of_nat (length a)) v b; Ok (a ++ b')).
Proof. apply zwrite_skip. Qed.
Lemma store_zeros e n v c off : off = 0 →
  store e n off v (zeros n ++ c) = Ok (native_bytes e n v ++ c).
Proof. intros. apply zwrite_here; [done|]. by rewrite length_native_bytes, length_zeros. Qed.

(** Reading and writing a field of a block whose shape is known: skip the parts
    before it. *)
Ltac len := rewrite ?length_app, ?length_be_bytes, ?length_native_bytes, ?length_zeros,
                    ?length_le_bytes; cbn [length].
Ltac skip_parts :=
  repeat first
    [ rewrite zwrite_skip by (len; lia); len; cbn [mbind res_mbind res_bind]
    | rewrite zread_skip by (len; lia); len ].
