(* ===== verification/CxxString.v ===== *)
(** * std::string

    The operations of the C++ standard library's [std::string] that kcov uses,
    on byte lists, with the lemmas the components share.  [npos] is [None]; an
    index past the end is [Throw] where the standard throws
    [std::out_of_range] and [Fault] where it is undefined. *)
From S2P Require Export Prelude.
From stdpp Require Import options.
#[local] Open Scope nat_scope.

Fixpoint prefixb (p s : bytes) : bool :=
  match p, s with
  | [], _ => true
  | _ :: _, [] => false
  | a :: p, b :: s => bool_decide (a = b) && prefixb p s
  end.

(** [s.str_find(pat)] *)
Fixpoint str_find (pat s : bytes) : option nat :=
  if prefixb pat s then Some 0
  else match s with [] => None | _ :: s' => S <$> str_find pat s' end.

(** [s.str_find(pat) != std::string::npos] *)
Definition contains (pat s : bytes) : bool :=
  match str_find pat s with Some _ => true | None => false end.

(** [s.str_find(pat, pos)] *)
Definition find_from (pat s : bytes) (pos : nat) : option nat :=
  if bool_decide (pos ≤ length s) then Nat.add pos <$> str_find pat (drop pos s) else None.

(** [s.str_rfind(pat, pos)]: the last match that starts at or before [pos]. *)
Definition rfind_from (pat s : bytes) (pos : nat) : option nat :=
  last (filter (λ i, prefixb pat (drop i s) = true) (seq 0 (S (Nat.min pos (length s))))).
Definition str_rfind (pat s : bytes) : option nat := rfind_from pat s (length s).

(** [find_first_not_of], [find_last_not_of] *)
Fixpoint find_first_not_of (set s : bytes) : option nat :=
  match s with
  | [] => None
  | c :: s => if bool_decide (c ∈ set) then S <$> find_first_not_of set s else Some 0
  end.
Definition find_last_not_of (set s : bytes) : option nat :=
  (λ i, length s - S i) <$> find_first_not_of set (reverse s).

(** [s.substr(pos, n)] and [s.substr(pos)] *)
Definition substr (s : bytes) (pos n : nat) : res bytes :=
  if bool_decide (pos ≤ length s) then Ok (take n (drop pos s)) else Throw.
Definition substr_from (s : bytes) (pos : nat) : res bytes :=
  if bool_decide (pos ≤ length s) then Ok (drop pos s) else Throw.

(** [s[i]]: the terminator when [i] is the size. *)
Definition at_ (s : bytes) (i : nat) : res ascii :=
  match s !! i with
  | Some c => Ok c
  | None => if bool_decide (i = length s) then Ok NUL else Fault
  end.

(** [s[s.size() - 1]] *)
Definition at_back (s : bytes) : res ascii := or_fault (last s).

Definition count (c : ascii) (s : bytes) : nat := length (filter (c =.) s).

(** [std::getline(ss, item, delim)] until it fails: a last piece that is empty
    is not delivered. *)
Fixpoint getlines (delim : ascii) (item s : bytes) : list bytes :=
  match s with
  | [] => match item with [] => [] | _ => [item] end
  | c :: s =>
      if bool_decide (c = delim) then item :: getlines delim [] s
      else getlines delim (item ++ [c]) s
  end.

(** ** Lemmas *)

Lemma prefixb_spec p s : prefixb p s = true ↔ p `prefix_of` s.
Proof.
  revert s; induction p as [|a p IH]; intros s; cbn.
  - split; [intros _; apply prefix_nil|done].
  - destruct s as [|b s].
    + split; [done|]. intros H%prefix_nil_not; done.
    + rewrite andb_true_iff, bool_decide_eq_true, IH. split.
      * intros [-> ?]. by apply prefix_cons.
      * intros H. split; [by eapply prefix_cons_inv_1|by eapply prefix_cons_inv_2].
Qed.

Lemma prefixb_app p s : prefixb p (p ++ s) = true.
Proof. apply prefixb_spec. by exists s. Qed.

Lemma find_Some_split pat s i :
  str_find pat s = Some i → ∃ b, s = take i s ++ pat ++ b ∧ i + length pat ≤ length s.
Proof.
  revert i; induction s as [|c s IH]; intros i; cbn [str_find].
  - destruct (prefixb pat []) eqn:E; [|done].
    intros [= <-]. apply prefixb_spec in E as [b Hb]. exists b. split; [done|].
    rewrite Hb, length_app. cbn. lia.
  - destruct (prefixb pat (c :: s)) eqn:E.
    + intros [= <-]. apply prefixb_spec in E as [b Hb]. exists b. split; [done|].
      rewrite Hb, length_app. cbn. lia.
    + intros (j & Hj & ->)%fmap_Some. apply IH in Hj as (b & Hb & Hl).
      exists b. cbn. split; [by f_equal|lia].
Qed.

Lemma find_prefix pat s : prefixb pat s = true → str_find pat s = Some 0.
Proof. intros H. destruct s; cbn [str_find]; by rewrite H. Qed.

Lemma find_is_Some_app pat a b : is_Some (str_find pat (a ++ pat ++ b)).
Proof.
  induction a as [|c a IH]; cbn [app].
  - rewrite find_prefix; [done|apply prefixb_app].
  - cbn [str_find]. destruct (prefixb pat _); [done|].
    destruct IH as [i ->]. done.
Qed.

Lemma contains_spec pat s : contains pat s = true ↔ ∃ a b, s = a ++ pat ++ b.
Proof.
  unfold contains. split.
  - destruct (str_find pat s) as [i|] eqn:E; [|done].
    apply find_Some_split in E as (b & Hb & _). by exists (take i s), b.
  - intros (a & b & ->). by destruct (find_is_Some_app pat a b) as [i ->].
Qed.

(** [s.str_find(pat) == 0] *)
Lemma find_0_prefix pat s : str_find pat s = Some 0 ↔ prefixb pat s = true.
Proof.
  split; [|apply find_prefix].
  destruct s; cbn [str_find]; destruct (prefixb pat _); try done.
  by intros (?&?&?)%fmap_Some.
Qed.

Lemma rfind_from_Some pat s pos i :
  rfind_from pat s pos = Some i →
  prefixb pat (drop i s) = true ∧ i ≤ pos ∧ i ≤ length s ∧
  ∀ j, i < j → j ≤ pos → j ≤ length s → prefixb pat (drop j s) = false.
Proof.
  unfold rfind_from. generalize (Nat.min pos (length s)) as m, (Nat.min_glb_iff pos (length s)).
  intros m. set (P := λ i, prefixb pat (drop i s) = true). intros Hm.
  assert (Hr : ∀ n, last (filter P (seq 0 n)) = Some i →
     P i ∧ i < n ∧ ∀ j, i < j → j < n → prefixb pat (drop j s) = false).
  { induction n as [|n IH]; [done|].
    rewrite seq_S, filter_app, filter_cons, filter_nil. cbn [Nat.add].
    case_decide as HP.
    - rewrite last_snoc. intros [= <-]. split_and!; [done|lia|lia].
    - rewrite app_nil_r. intros (? & ? & Hj)%IH. split_and!; [done|lia|].
      intros j ? ?. destruct (decide (j = n)) as [->|]; [|apply Hj; lia].
      by apply not_true_is_false. }
  intros (? & ? & Hj)%Hr. split_and!; [done| | |].
  - apply Hm. lia.
  - apply Hm. lia.
  - intros j ???. apply Hj; [done|]. apply Nat.lt_succ_r. by apply Hm.
Qed.

Lemma find_first_not_of_Some set s i :
  find_first_not_of set s = Some i →
  ∃ a c b, s = a ++ c :: b ∧ length a = i ∧ (c ∉ set) ∧ Forall (.∈ set) a.
Proof.
  revert i; induction s as [|c s IH]; intros i; cbn; [done|].
  case_bool_decide as Hc.
  - intros (j & (a & d & b & -> & <- & ? & ?)%IH & ->)%fmap_Some.
    exists (c :: a), d, b. split_and!; [done|done|done|by constructor].
  - intros [= <-]. exists [], c, s. split_and!; done.
Qed.

Lemma find_first_not_of_None set s :
  find_first_not_of set s = None ↔ Forall (.∈ set) s.
Proof.
  induction s as [|c s IH]; cbn; [by split|].
  rewrite Forall_cons. case_bool_decide as Hc.
  - rewrite fmap_None, IH. tauto.
  - split; [done|tauto].
Qed.

Lemma find_last_not_of_Some set s i :
  find_last_not_of set s = Some i →
  ∃ a c b, s = a ++ c :: b ∧ length a = i ∧ (c ∉ set) ∧ Forall (.∈ set) b.
Proof.
  unfold find_last_not_of.
  intros (j & (b & c & a & Hs & <- & ? & ?)%find_first_not_of_Some & ->)%fmap_Some.
  apply (f_equal reverse) in Hs.
  rewrite reverse_involutive, reverse_app, reverse_cons, <-app_assoc in Hs.
  exists (reverse a), c, (reverse b). split_and!; [done| |done|by apply Forall_reverse].
  rewrite Hs, !length_app, !length_reverse. cbn. lia.
Qed.

Lemma find_last_not_of_None set s :
  find_last_not_of set s = None ↔ Forall (.∈ set) s.
Proof.
  unfold find_last_not_of.
  by rewrite fmap_None, find_first_not_of_None, Forall_reverse.
Qed.

Lemma substr_from_app s pos r : substr_from s pos = Ok r → s = take pos s ++ r.
Proof.
  unfold substr_from. case_bool_decide; intros [= <-]. by rewrite take_drop.
Qed.

Lemma getlines_app delim item s :
  delim ∉ s → getlines delim item s = match item ++ s with [] => [] | x => [x] end.
Proof.
  revert item; induction s as [|c s IH]; intros item; cbn.
  - intros _. destruct item; cbn; by rewrite ?app_nil_r.
  - intros [? ?]%not_elem_of_cons. rewrite bool_decide_eq_false_2 by done.
    by rewrite IH, <-app_assoc.
Qed.

Lemma getlines_cons delim item a s :
  delim ∉ a → getlines delim item (a ++ delim :: s) = (item ++ a) :: getlines delim [] s.
Proof.
  revert item; induction a as [|c a IH]; intros item; cbn.
  - intros _. rewrite bool_decide_eq_true_2 by done. by rewrite app_nil_r.
  - intros [? ?]%not_elem_of_cons. rewrite bool_decide_eq_false_2 by done.
    by rewrite IH, <-app_assoc.
Qed.

(** No piece holds the delimiter. *)
Lemma getlines_no_delim delim item s x :
  delim ∉ item → x ∈ getlines delim item s → delim ∉ x.
Proof.
  revert item; induction s as [|c s IH]; intros item Hi; cbn.
  - destruct item; [by intros ?%not_elem_of_nil|]. by intros ->%list_elem_of_singleton.
  - case_bool_decide as Hc.
    + intros [->|?]%elem_of_cons; [done|].
      eapply IH; [|done]. apply not_elem_of_nil.
    + apply IH. rewrite elem_of_app, list_elem_of_singleton. intros [|]; done.
Qed.

(** *** Accesses that are in range *)

Lemma at_ok s i : i ≤ length s → ∃ c, at_ s i = Ok c.
Proof.
  intros Hi. unfold at_. destruct (s !! i) as [c|] eqn:E; [by eexists|].
  apply lookup_ge_None in E. rewrite bool_decide_eq_true_2 by lia. by eexists.
Qed.
Lemma at_back_ok s : s ≠ [] → ∃ c, at_back s = Ok c.
Proof.
  intros Hs. unfold at_back. destruct (last s) as [c|] eqn:E; [by eexists|].
  by apply last_None in E.
Qed.
Lemma substr_ok s pos n : pos ≤ length s → substr s pos n = Ok (take n (drop pos s)).
Proof. intros H. unfold substr. by rewrite bool_decide_eq_true_2. Qed.
Lemma substr_from_ok s pos : pos ≤ length s → substr_from s pos = Ok (drop pos s).
Proof. intros H. unfold substr_from. by rewrite bool_decide_eq_true_2. Qed.
Lemma find_bound pat s i : str_find pat s = Some i → i + length pat ≤ length s.
Proof. by intros (b & _ & H)%find_Some_split. Qed.
