(* ===== verification/Utils.v ===== *)
(** * Utilities (src/src/utils.cc)

    Numbers to and from text, the string helpers, the path helpers and the two
    escapers.  System calls are arguments: what [lstat], [realpath] and
    [getenv] answer is passed in. *)
From S2P Require Export CxxString Endian.
From stdpp Require Import options.

(** ** printf conversions *)

(** The digit characters of [0..15]. *)
Definition digit_char (d : Z) : ascii := byte_of (if d <? 10 then 48 + d else 87 + d).

(** Digits in a base, most significant first; 64 of them hold any 64-bit value
    in any base from 2 on. *)
Fixpoint digits (base : Z) (fuel : nat) (z : Z) (acc : bytes) : bytes :=
  match fuel with
  | O => acc
  | S fuel =>
      let acc := digit_char (z mod base) :: acc in
      if z / base =? 0 then acc else digits base fuel (z / base) acc
  end.

Definition fmt_u (z : Z) : bytes := digits 10 64 z [].              (* "%u", "%lu", "%llu" *)
Definition fmt_d (z : Z) : bytes :=                                  (* "%d" *)
  if z <? 0 then "-"%char :: fmt_u (- z) else fmt_u z.
Definition fmt_x (z : Z) : bytes := digits 16 64 z [].               (* "%x" *)
Definition pad_left (c : ascii) (n : nat) (s : bytes) : bytes :=
  replicate (n - length s) c ++ s.
Definition fmt_5u (z : Z) : bytes := pad_left " "%char 5 (fmt_u z).  (* "%5u" *)
Definition fmt_08x (z : Z) : bytes := pad_left "0"%char 8 (fmt_x z). (* "%08x" *)

(** ** std::stoull *)

Definition digit_of (c : ascii) : option Z :=
  let v := byte_val c in
  if (48 <=? v) && (v <=? 57) then Some (v - 48)
  else if (97 <=? v) && (v <=? 122) then Some (v - 87)
  else if (65 <=? v) && (v <=? 90) then Some (v - 55)
  else None.

Definition digit_in (base : Z) (c : ascii) : option Z :=
  match digit_of c with Some d => if d <? base then Some d else None | None => None end.

(** The longest run of digits: its value, and the number of characters. *)
Fixpoint parse_digits (base acc : Z) (n : nat) (s : bytes) : Z * nat :=
  match s with
  | [] => (acc, n)
  | c :: s =>
      match digit_in base c with
      | Some d => parse_digits base (acc * base + d) (S n) s
      | None => (acc, n)
      end
  end.

Definition isspace (c : ascii) : bool :=
  bool_decide (byte_val c = 32) || ((9 <=? byte_val c) && (byte_val c <=? 13)).

Fixpoint skip_space (s : bytes) : nat * bytes :=
  match s with
  | c :: s' => if isspace c then let '(n, r) := skip_space s' in (S n, r) else (O, s)
  | [] => (O, [])
  end.

Definition strip_sign (s : bytes) : bool * nat * bytes :=
  match s with
  | c :: s' =>
      if bool_decide (c = "-"%char) then (true, 1%nat, s')
      else if bool_decide (c = "+"%char) then (false, 1%nat, s') else (false, O, s)
  | [] => (false, O, [])
  end.

(** "0x" counts as a prefix only before a hexadecimal digit. *)
Definition has_0x (s : bytes) : bool :=
  match s with
  | z :: x :: c :: _ =>
      bool_decide (z = "0"%char) && bool_decide (x ∈ ["x"; "X"]%char)
      && match digit_in 16 c with Some _ => true | None => false end
  | _ => false
  end.

Definition strtoull_base (base : Z) (s : bytes) : Z * nat * bytes :=
  if ((base =? 0) || (base =? 16)) && has_0x s then (16, 2%nat, drop 2 s)
  else if base =? 0 then
    match s with
    | c :: _ => if bool_decide (c = "0"%char) then (8, O, s) else (10, O, s)
    | [] => (10, O, s)
    end
  else (base, O, s).

Inductive sto := StoValue (v : Z) (pos : nat) | InvalidArgument | OutOfRange.

Definition stoull (s : bytes) (base : Z) : sto :=
  let '(n1, s1) := skip_space s in
  let '(neg, n2, s2) := strip_sign s1 in
  let '(b, n3, s3) := strtoull_base base s2 in
  let '(v, n4) := parse_digits b 0 0 s3 in
  match n4 with
  | O => InvalidArgument
  | _ =>
      if 2 ^ 64 <=? v then OutOfRange
      else StoValue (if neg then u64 (- v) else v) (n1 + n2 + n3 + n4)
  end.

(** [string_is_integer]: both exceptions are caught, and nothing may follow. *)
Definition string_is_integer (s : bytes) (base : Z) : bool :=
  match stoull s base with
  | StoValue _ pos => bool_decide (pos = length s)
  | InvalidArgument | OutOfRange => false
  end.

Definition string_to_integer (s : bytes) (base : Z) : res Z :=
  match stoull s base with
  | StoValue v _ => Ok (s64 v)
  | InvalidArgument | OutOfRange => Throw
  end.

(** ** Strings *)

Definition split_string (s : bytes) (delim : ascii) : list bytes := getlines delim [] s.

(** [trim_string(strIn, trimEndChars)] *)
Definition trim_string (strIn trimEndChars : bytes) : bytes :=
  let s :=
    match find_last_not_of trimEndChars strIn with
    | Some endpos => take (endpos + 1) strIn
    | None => strIn
    end in
  match find_first_not_of [" "; "009"]%char s with
  | Some startpos => drop startpos s
  | None => []
  end.

(** The default argument of [trimEndChars]: space, tab, newline, return. *)
Definition trim_default : bytes := [" "; "009"; "010"; "013"]%char.

Definition get_aligned (addr : Z) : Z := addr / 8 * 8.
Definition get_aligned_4b (addr : Z) : Z := Z.land addr (u64 (Z.lnot 3)).

Definition split_path (pathStr : bytes) : bytes * bytes :=
  match str_rfind (str "/") pathStr with
  | Some pos => (take (pos + 1) pathStr, drop (pos + 1) pathStr)
  | None => ([], pathStr)
  end.

(** [while (dir[dir.size() - 1] == '/') dir = dir.substr(0, dir.size() - 1)]:
    on an empty string the index is out of bounds. *)
Fixpoint slash_end (rdir : bytes) : res bytes :=
  match rdir with
  | [] => Fault
  | c :: r => if bool_decide (c = "/"%char) then slash_end r else Ok rdir
  end.

(** [while (filename[0] == '/') filename = filename.substr(1)] *)
Fixpoint slash_front (filename : bytes) : bytes :=
  match filename with
  | c :: r => if bool_decide (c = "/"%char) then slash_front r else filename
  | [] => []
  end.

Definition dir_concat (dirIn filenameIn : bytes) : res bytes :=
  if bool_decide (dirIn = []) then Ok filenameIn
  else
    rdir ← slash_end (reverse dirIn);
    Ok (reverse rdir ++ str "/" ++ slash_front filenameIn).

(** ** Escaping *)

(** The string of the C array: [buf] is zeroed, [dst] is [buf + length out];
    [strcpy] also writes the terminator. *)
Definition escape_helper (cap : nat) (out what : bytes) : res bytes :=
  if bool_decide (length out + length what + 1 ≤ cap)%nat then Ok (out ++ what) else Fault.

Definition escape_store (cap : nat) (out : bytes) (c : ascii) : res bytes :=
  if bool_decide (length out + 1 ≤ cap)%nat then Ok (out ++ [c]) else Fault.

Definition escape_html_char (out : bytes) (c : ascii) : res bytes :=
  if bool_decide (c = "<"%char) then escape_helper 4096 out (str "&lt;")
  else if bool_decide (c = ">"%char) then escape_helper 4096 out (str "&gt;")
  else if bool_decide (c = "&"%char) then escape_helper 4096 out (str "&amp;")
  else if bool_decide (c = "034"%char) then escape_helper 4096 out (str "&quot;")
  else if bool_decide (c = "'"%char) then escape_helper 4096 out (str "&#039;")
  else if bool_decide (c = "/"%char) then escape_helper 4096 out (str "&#047;")
  else if bool_decide (c = "\"%char) then escape_helper 4096 out (str "&#092;")
  else if bool_decide (c = "010"%char) || bool_decide (c = "013"%char)
  then escape_helper 4096 out (str " ")
  else escape_store 4096 out c.

(** [strlen] stops at the first NUL. *)
Fixpoint c_prefix (s : bytes) : bytes :=
  match s with
  | [] => []
  | c :: s => if bool_decide (c = NUL) then [] else c :: c_prefix s
  end.

Definition escape_html (s : bytes) : res bytes :=
  let s := c_prefix s in
  let truncated := bool_decide (512 < length s)%nat in
  out ← res_foldl escape_html_char [] (take 512 s);
  (* std::string(buf) needs a terminator inside buf *)
  if bool_decide (length out < 4096)%nat
  then Ok (if truncated then out ++ str "..." else out) else Fault.

(** The characters [escape_json] escapes: double quote, backslash, tab, return, quote. *)
Definition escapeChars : bytes := ["034"; "\"; "009"; "013"; "'"]%char.

Definition set_at (i : nat) (c : ascii) (out : bytes) : res bytes :=
  if bool_decide (i < length out)%nat then Ok (<[i:=c]> out) else Fault.

(** The inner loop's body: [str[i] == escapeChars[n]]. *)
Definition escape_json_quote (c : ascii) (st : bytes * nat) (e : ascii) : res (bytes * nat) :=
  let '(out, cur) := st in
  if bool_decide (c = e) then
    out ← set_at cur "\"%char out;
    out ← set_at (cur + 1) c out;
    Ok (out, cur + 1)%nat
  else Ok (out, cur).

(** One iteration of the second loop: the string so far and [cur]. *)
Definition escape_json_char (st : bytes * nat) (c : ascii) : res (bytes * nat) :=
  let '(out, cur) := st in
  out ← set_at cur c out;
  if bool_decide (c = "009"%char) then
    out ← set_at cur "\"%char out;
    out ← set_at (cur + 1) "t"%char out;
    Ok (out, cur + 2)%nat
  else
    '(out, cur) ← res_foldl (escape_json_quote c) (out, cur) escapeChars;
    Ok (out, cur + 1)%nat.

Definition escape_json (s : bytes) : res bytes :=
  let n_escapes :=
    sum_list ((λ c, length (filter (c =.) escapeChars)) <$> s) in
  if bool_decide (n_escapes = 0)%nat then Ok s
  else
    '(out, _) ← res_foldl escape_json_char (zeros (length s + n_escapes), O) s;
    Ok out.

(** ** Caches, executables and files *)

(** [file_exists] and its [statCache]; [lstat] says whether the call succeeds. *)
Definition file_exists (lstat : bytes → bool) (statCache : gmap bytes bool) (path : bytes)
  : bool * gmap bytes bool :=
  match statCache !! path with
  | None => let out := lstat path in (out, <[path:=out]> statCache)
  | Some out => (out, statCache)
  end.

(** [get_real_path] and its [realPathCache]; [None] is a failed [realpath]. *)
Definition get_real_path (realpath : bytes → option bytes) (cache : gmap bytes bytes)
    (path : bytes) : bytes * gmap bytes bytes :=
  match cache !! path with
  | Some p => (p, cache)
  | None =>
      let p := match realpath path with None => path | Some rp => rp end in
      (p, <[path:=p]> cache)
  end.

(** A sequence of look-ups. *)
Fixpoint lookups {K V} `{Countable K} (f : gmap K V → K → V * gmap K V)
    (cache : gmap K V) (ks : list K) : list V * gmap K V :=
  match ks with
  | [] => ([], cache)
  | k :: ks =>
      let '(v, cache) := f cache k in
      let '(vs, cache) := lookups f cache ks in (v :: vs, cache)
  end.

(** [find_executable] on a [stat] result: directory?, any execute bit? *)
Definition find_executable (lstat : bytes → option (bool * bool)) (file : bytes) : Z :=
  match lstat file with
  | None => -1
  | Some (is_dir, is_x) => if is_dir then -1 else if negb is_x then -1 else 0
  end.

(** [executable_exists_in_path]: the name itself, then each directory of PATH.
    [getenv] may not return NULL here: the code builds a [std::string] from it. *)
Definition executable_exists_in_path (exists_ : bytes → bool) (PATH : option bytes)
    (executableName : bytes) : res bool :=
  if exists_ executableName then Ok true
  else
    path ← or_throw PATH;
    Ok (existsb (λ it, exists_ (it ++ str "/" ++ executableName)) (split_string path ":"%char)).

(** [look_path]: 0 and the name found, or -1. *)
Definition look_path (lstat : bytes → option (bool * bool)) (realpath : bytes → bytes)
    (PATH : option bytes) (file : bytes) : Z * option bytes :=
  if find_executable lstat file =? 0 then (0, Some file)
  else
    match PATH with
    | None => (-1, None)
    | Some sys_path =>
        let cands := (λ root, realpath (root ++ str "/" ++ file)) <$> split_string sys_path ":"%char in
        match list_find (λ p, find_executable lstat p = 0) cands with
        | Some (_, path) => (0, Some path)
        | None => (-1, None)
        end
    end.

(** [read_file_int] on a regular file: [read] delivers what is left of
    [content], at most [chunk] bytes, and the loop stops at a short read.  The
    result is the block and [*out_size]. *)
Definition read_chunk : nat := 1024.

Fixpoint read_loop (fuel : nat) (content : bytes) (data : bytes) (pos : nat)
  : option (bytes * nat) :=
  match fuel with
  | O => None
  | S fuel =>
      let data := take pos data ++ zeros read_chunk in
      let got := take read_chunk (drop pos content) in
      let data := take pos data ++ got ++ drop (pos + length got) data in
      let pos := (pos + length got)%nat in
      if bool_decide (length got = read_chunk) then read_loop fuel content data pos
      else Some (data, pos)
  end.

Definition read_file (content : bytes) : option (bytes * nat) :=
  read_loop (S (length content)) content [] 0.

(** ** Specifications *)

(** What each character becomes. *)
Definition html_char (c : ascii) : bytes :=
  if bool_decide (c = "<"%char) then str "&lt;"
  else if bool_decide (c = ">"%char) then str "&gt;"
  else if bool_decide (c = "&"%char) then str "&amp;"
  else if bool_decide (c = "034"%char) then str "&quot;"
  else if bool_decide (c = "'"%char) then str "&#039;"
  else if bool_decide (c = "/"%char) then str "&#047;"
  else if bool_decide (c = "\"%char) then str "&#092;"
  else if bool_decide (c = "010"%char) || bool_decide (c = "013"%char) then str " "
  else [c].

(** What [escape_json] makes of a character. *)
Definition json_char (c : ascii) : bytes :=
  if bool_decide (c = "009"%char) then str "\t"
  else if bool_decide (c ∈ escapeChars) then ["\"%char; c] else [c].

(** The inverse: a backslash announces the escaped character. *)
Fixpoint json_unescape (s : bytes) : bytes :=
  match s with
  | [] => []
  | c :: s' =>
      if bool_decide (c = "\"%char) then
        match s' with
        | d :: s'' => (if bool_decide (d = "t"%char) then "009"%char else d) :: json_unescape s''
        | [] => [c]
        end
      else c :: json_unescape s'
  end.

Definition join (delim : ascii) (xs : list bytes) : bytes :=
  match xs with
  | [] => []
  | x :: xs => x ++ concat ((λ y, delim :: y) <$> xs)
  end.

(** ** Lemmas: escaping *)

Lemma html_char_length c : (length (html_char c) ≤ 6)%nat.
Proof. unfold html_char. repeat case_match; cbn; lia. Qed.

Lemma escape_helper_ok cap out what :
  (length out + length what + 1 ≤ cap)%nat → escape_helper cap out what = Ok (out ++ what).
Proof. intros. unfold escape_helper. by rewrite bool_decide_eq_true_2. Qed.
Lemma escape_store_ok cap out c :
  (length out + 1 ≤ cap)%nat → escape_store cap out c = Ok (out ++ [c]).
Proof. intros. unfold escape_store. by rewrite bool_decide_eq_true_2. Qed.

Lemma escape_html_char_ok out c :
  (length out + 7 ≤ 4096)%nat → escape_html_char out c = Ok (out ++ html_char c).
Proof.
  intros Hl. unfold escape_html_char, html_char.
  repeat case_match; first [apply escape_helper_ok|apply escape_store_ok]; cbn; lia.
Qed.

Lemma concat_html_length s : (length (concat (html_char <$> s)) ≤ 6 * length s)%nat.
Proof.
  induction s as [|c s IH]; cbn; [lia|].
  rewrite length_app. pose proof (html_char_length c). lia.
Qed.

Lemma escape_html_loop out s :
  (length out + 6 * length s + 1 ≤ 4096)%nat →
  res_foldl escape_html_char out s = Ok (out ++ concat (html_char <$> s)).
Proof.
  revert out; induction s as [|c s IH]; intros out Hl; cbn.
  - by rewrite app_nil_r.
  - cbn in Hl. rewrite escape_html_char_ok by lia. cbn.
    pose proof (html_char_length c).
    rewrite IH, <-app_assoc; [done|]. rewrite length_app. lia.
Qed.

Lemma c_prefix_no_nul s : no_nul s → c_prefix s = s.
Proof.
  induction s as [|c s IH]; [done|]. intros [? ?]%no_nul_cons. cbn.
  rewrite bool_decide_eq_false_2 by done. by rewrite IH.
Qed.

Lemma c_prefix_is_no_nul s : no_nul (c_prefix s).
Proof.
  induction s as [|c s IH]; cbn; [apply not_elem_of_nil|].
  case_bool_decide; [apply not_elem_of_nil|]. by apply no_nul_cons.
Qed.

Lemma set_at_app a x b c i : i = length a → set_at i c (a ++ x :: b) = Ok (a ++ c :: b).
Proof.
  intros ->. unfold set_at. rewrite bool_decide_eq_true_2.
  - f_equal. rewrite insert_app_r_alt by lia. by rewrite Nat.sub_diag.
  - rewrite length_app. cbn. lia.
Qed.

Lemma json_char_cases c :
  (c = "009"%char ∧ json_char c = str "\t")
  ∨ (c ≠ "009"%char ∧ c ∈ escapeChars ∧ json_char c = ["\"%char; c])
  ∨ ((c ∉ escapeChars) ∧ json_char c = [c]).
Proof.
  unfold json_char. case_bool_decide as H1; [by left|].
  case_bool_decide as H2; [right; left|right; right]; done.
Qed.

Lemma escapes_count c :
  length (filter (c =.) escapeChars) = if bool_decide (c ∈ escapeChars) then 1%nat else 0%nat.
Proof.
  case_bool_decide as H; unfold escapeChars in *; set_unfold in H.
  - by destruct_or!; subst.
  - rewrite !filter_cons, filter_nil. repeat (rewrite decide_False by tauto). done.
Qed.

Lemma json_char_length c :
  length (json_char c) = S (length (filter (c =.) escapeChars)).
Proof.
  rewrite escapes_count.
  destruct (json_char_cases c) as [[-> ->]|[(? & ? & ->)|[? ->]]].
  - done.
  - by rewrite bool_decide_eq_true_2.
  - by rewrite bool_decide_eq_false_2.
Qed.

Lemma escape_json_quote_skip c st l :
  c ∉ l → res_foldl (escape_json_quote c) st l = Ok st.
Proof.
  destruct st as [out cur]. induction l as [|e l IH]; [done|].
  intros [? ?]%not_elem_of_cons. cbn. rewrite bool_decide_eq_false_2 by done. auto.
Qed.

Lemma escape_json_quote_hit a c x k :
  c ∈ escapeChars →
  res_foldl (escape_json_quote c) (a ++ c :: x :: k, length a) escapeChars
  = Ok (a ++ "\"%char :: c :: k, length a + 1)%nat.
Proof.
  intros Hc.
  assert (NoDup escapeChars) as Hnd by (apply (bool_decide_unpack (NoDup escapeChars)); by vm_compute).
  apply list_elem_of_split in Hc as (l1 & l2 & Hl). rewrite Hl in Hnd |- *.
  apply NoDup_app in Hnd as (_ & H1 & H2).
  rewrite res_foldl_app, escape_json_quote_skip by (intros ?; eapply H1; [done|by left]).
  cbn. rewrite bool_decide_eq_true_2, set_at_app by done. cbn.
  rewrite (cons_middle _ a), app_assoc, set_at_app by (rewrite length_app; cbn; lia).
  cbn. rewrite escape_json_quote_skip by (by apply NoDup_cons in H2 as []).
  by rewrite <-app_assoc.
Qed.

(** One character: the block is [a] (done) followed by enough room. *)
Lemma escape_json_char_ok a k c :
  (length (json_char c) ≤ k)%nat →
  escape_json_char (a ++ zeros k, length a) c
  = Ok (a ++ json_char c ++ zeros (k - length (json_char c)), length a + length (json_char c))%nat.
Proof.
  intros Hk. destruct (json_char_cases c) as [[-> E]|[(H1 & Hin & E)|[Hout E]]];
    rewrite E in *; cbn [length str String.list_ascii_of_string] in Hk |- *;
    unfold escape_json_char, zeros.
  - do 2 (destruct k as [|k]; [cbn in Hk; lia|]). cbn [replicate].
    rewrite set_at_app by done. cbn [mbind res_mbind res_bind].
    rewrite bool_decide_eq_true_2, set_at_app by done. cbn [mbind res_mbind res_bind].
    rewrite (cons_middle _ a), app_assoc, set_at_app by (rewrite length_app; cbn; lia).
    cbn. by rewrite <-app_assoc, Nat.sub_0_r.
  - do 2 (destruct k as [|k]; [cbn in Hk; lia|]). cbn [replicate].
    rewrite set_at_app by done. cbn [mbind res_mbind res_bind].
    rewrite bool_decide_eq_false_2 by done.
    rewrite escape_json_quote_hit by done. cbn.
    rewrite Nat.sub_0_r. f_equal; f_equal; lia.
  - destruct k as [|k]; [cbn in Hk; lia|]. cbn [replicate].
    rewrite set_at_app by done. cbn [mbind res_mbind res_bind].
    rewrite bool_decide_eq_false_2 by (intros ->; apply Hout; unfold escapeChars; set_solver).
    rewrite escape_json_quote_skip by done. cbn. by rewrite Nat.sub_0_r.
Qed.

Lemma escape_json_loop a k s :
  (length (concat (json_char <$> s)) ≤ k)%nat →
  res_foldl escape_json_char (a ++ zeros k, length a) s
  = Ok (a ++ concat (json_char <$> s) ++ zeros (k - length (concat (json_char <$> s))),
        length a + length (concat (json_char <$> s)))%nat.
Proof.
  revert a k; induction s as [|c s IH]; intros a k Hk.
  - cbn. by rewrite Nat.add_0_r, Nat.sub_0_r.
  - rewrite fmap_cons in *. cbn [concat] in *. rewrite length_app in Hk.
    cbn [res_foldl]. rewrite escape_json_char_ok by lia.
    cbn [mbind res_mbind res_bind]. rewrite <-length_app, app_assoc, IH by lia.
    rewrite !length_app, <-!app_assoc. f_equal; f_equal; [|lia].
    do 4 f_equal. lia.
Qed.

Lemma json_total_length s :
  length (concat (json_char <$> s))
  = (length s + sum_list ((λ c, length (filter (c =.) escapeChars)) <$> s))%nat.
Proof.
  induction s as [|c s IH]; [done|].
  rewrite !fmap_cons. cbn [concat sum_list sum_list_with length].
  rewrite length_app, IH, json_char_length. cbn [id]. lia.
Qed.

Lemma json_char_plain s :
  sum_list ((λ c, length (filter (c =.) escapeChars)) <$> s) = 0%nat →
  concat (json_char <$> s) = s.
Proof.
  induction s as [|c s IH]; cbn [fmap list_fmap sum_list concat]; [done|]. intros H.
  pose proof (json_char_length c) as Hl.
  destruct (filter _ _) eqn:E; cbn in H; [|lia].
  rewrite IH by done. unfold json_char in *.
  case_bool_decide; [done|]. by case_bool_decide.
Qed.

Lemma escape_json_eq s : escape_json s = Ok (concat (json_char <$> s)).
Proof.
  unfold escape_json. case_bool_decide as H.
  - by rewrite json_char_plain.
  - pose proof (json_total_length s) as Hl.
    pose proof (escape_json_loop [] _ s (Nat.le_refl _)) as Hr.
    rewrite Nat.sub_diag in Hr. cbn [app length] in Hr.
    rewrite <-Hl, Hr. cbn. by rewrite app_nil_r.
Qed.

Lemma json_unescape_char c s : json_unescape (json_char c ++ s) = c :: json_unescape s.
Proof.
  unfold json_char. case_bool_decide as H1; [by subst|].
  case_bool_decide as H2.
  - unfold escapeChars in H2. set_unfold in H2. by destruct_or!; subst.
  - cbn. rewrite bool_decide_eq_false_2; [done|].
    intros ->. apply H2. unfold escapeChars. set_solver.
Qed.

Lemma json_unescape_concat s : json_unescape (concat (json_char <$> s)) = s.
Proof. induction s as [|c s IH]; cbn; [done|]. by rewrite json_unescape_char, IH. Qed.

Lemma json_concat_length s : (length s ≤ length (concat (json_char <$> s)) ≤ 2 * length s)%nat.
Proof.
  induction s as [|c s IH]; [done|].
  rewrite fmap_cons. cbn [concat]. rewrite length_app. cbn [length].
  destruct (json_char_cases c) as [[_ ->]|[(_ & _ & ->)|[_ ->]]]; cbn [length str String.list_ascii_of_string]; lia.
Qed.

(** ** Lemmas: numbers *)

Lemma digit_of_char d : 0 ≤ d < 16 → digit_of (digit_char d) = Some d.
Proof.
  intros H.
  assert (HF : Forall (λ d, digit_of (digit_char d) = Some d) (seqZ 0 16)).
  { apply (bool_decide_unpack (Forall _ _)). by vm_compute. }
  rewrite Forall_forall in HF. apply HF, elem_of_seqZ. lia.
Qed.

Lemma digit_in_char base d : 0 ≤ d < base → base ≤ 16 → digit_in base (digit_char d) = Some d.
Proof.
  intros ??. unfold digit_in. rewrite digit_of_char by lia.
  by rewrite (proj2 (Z.ltb_lt d base)) by lia.
Qed.

(** What [digits] puts before [acc]: digits only, the first one not zero. *)
Lemma digits_shape base fuel z acc :
  2 ≤ base ≤ 16 → 0 ≤ z →
  ∃ c D, digits base (S fuel) z acc = c :: D ++ acc
         ∧ Forall (λ c, ∃ d, 0 ≤ d < base ∧ c = digit_char d) (c :: D)
         ∧ (0 < z → z < base ^ Z.of_nat (S fuel) → c ≠ digit_char 0)
         ∧ ∀ a n, z < base ^ Z.of_nat (S fuel) →
             parse_digits base a n (c :: D ++ acc)
             = parse_digits base (a * base ^ Z.of_nat (S (length D)) + z) (n + S (length D)) acc.
Proof.
  intros Hb. revert z acc; induction fuel as [|fuel IH]; intros z acc Hz.
  - exists (digit_char (z mod base)), []. pose proof (Z.mod_pos_bound z base).
    assert (digits base 1 z acc = digit_char (z mod base) :: acc) as ->.
    { cbn. by case_match. }
    split_and!; [done|repeat constructor; eauto with lia|..].
    + intros ?? [=H1]%(f_equal digit_of). rewrite !digit_of_char in H1 by lia.
      rewrite Z.mod_small in H1 by lia. simplify_eq. lia.
    + intros a n Hlt. cbn [parse_digits app length]. rewrite digit_in_char by lia.
      rewrite Z.mod_small by lia. rewrite Nat.add_1_r. do 2 f_equal; lia.
  - pose proof (Z.mod_pos_bound z base). pose proof (Z.div_mod z base).
    assert (Hp : base ^ Z.of_nat (S (S fuel)) = base * base ^ Z.of_nat (S fuel)).
    { rewrite (Nat2Z.inj_succ (S fuel)), Z.pow_succ_r; lia. }
    change (digits base (S (S fuel)) z acc) with
      (if z / base =? 0 then digit_char (z mod base) :: acc
       else digits base (S fuel) (z / base) (digit_char (z mod base) :: acc)).
    destruct (Z.eqb_spec (z / base) 0) as [E|E].
    + exists (digit_char (z mod base)), [].
      split_and!; [done|repeat constructor; eauto with lia|..].
      * intros ?? [=H2]%(f_equal digit_of). rewrite !digit_of_char in H2 by lia.
        simplify_eq. nia.
      * intros a n Hlt. cbn [parse_digits app length]. rewrite digit_in_char by lia.
        rewrite Nat.add_1_r. do 2 f_equal; lia.
    + assert (0 ≤ z / base) as Hd by (apply Z.div_pos; lia).
      destruct (IH (z / base) (digit_char (z mod base) :: acc) Hd) as (c & D & -> & HF & Hc & Hpd).
      exists c, (D ++ [digit_char (z mod base)]).
      assert (z < base ^ Z.of_nat (S (S fuel)) → z / base < base ^ Z.of_nat (S fuel)) as Hlt.
      { intros. apply Z.div_lt_upper_bound; lia. }
      split_and!.
      * by rewrite <-app_assoc.
      * rewrite app_comm_cons. apply Forall_app. split; [done|repeat constructor; eauto with lia].
      * intros ??. apply Hc; [lia|auto].
      * intros a n Hz2. rewrite <-app_assoc. cbn [app]. rewrite Hpd by auto.
        cbn [parse_digits]. rewrite digit_in_char by lia.
        rewrite length_app. cbn [length].
        assert (Hl : Z.of_nat (S (length D + 1)) = Z.of_nat (S (length D)) + 1) by lia.
        rewrite Hl, Z.pow_add_r by lia. f_equal; [lia|f_equal; lia] || (do 2 f_equal; lia).
Qed.

Lemma digit_char_not_special d c :
  0 ≤ d < 16 → (isspace c = true ∨ c ∈ ["+"; "-"; "x"; "X"]%char) → digit_char d ≠ c.
Proof.
  intros Hd Hc <-.
  assert (d ∈ seqZ 0 16) as Hin by (apply elem_of_seqZ; lia).
  assert (Forall (λ d, ¬ (isspace (digit_char d) = true ∨ digit_char d ∈ ["+"; "-"; "x"; "X"]%char)) (seqZ 0 16)) as HF.
  { apply (bool_decide_unpack (Forall _ _)). by vm_compute. }
  rewrite Forall_forall in HF. by apply (HF d).
Qed.

Lemma stoull_fmt_u_eq base z :
  base = 0 ∨ base = 10 → 0 ≤ z < 2 ^ 64 →
  stoull (fmt_u z) base = StoValue z (length (fmt_u z)).
Proof.
  intros Hbase Hz. destruct (decide (z = 0)) as [->|Hz0].
  { by destruct Hbase as [-> | ->]. }
  unfold fmt_u.
  destruct (digits_shape 10 63 z [] ltac:(lia) ltac:(lia)) as (c & D & -> & HF & Hc & Hp).
  assert (z < 10 ^ Z.of_nat 64) as Hz2 by lia. specialize (Hp 0 0%nat Hz2).
  rewrite app_nil_r in *. apply Forall_cons in HF as [(d & Hd & ->) HF].
  unfold stoull. cbn [skip_space].
  destruct (isspace (digit_char d)) eqn:Hs.
  { exfalso. apply (digit_char_not_special d (digit_char d)); [lia|by left|done]. }
  cbn [strip_sign].
  rewrite !bool_decide_eq_false_2 by (apply digit_char_not_special; [lia|right; set_solver]).
  assert (strtoull_base base (digit_char d :: D) = (10, 0%nat, digit_char d :: D)) as ->.
  { unfold strtoull_base. destruct Hbase as [-> | ->]; cbn [Z.eqb orb andb]; [|done].
    assert (digit_char d ≠ "0"%char) as H0 by (apply Hc; lia).
    rewrite bool_decide_eq_false_2 by done.
    assert (has_0x (digit_char d :: D) = false) as ->; [|done].
    unfold has_0x. destruct D as [|? [|? ?]]; [done|done|].
    by rewrite bool_decide_eq_false_2. }
  rewrite Hp. cbn [parse_digits]. rewrite Z.mul_0_l, Z.add_0_l.
  rewrite (proj2 (Z.leb_gt (2 ^ 64) z)) by lia. done.
Qed.

Lemma fmt_u_inj z z' :
  0 ≤ z < 2 ^ 64 → 0 ≤ z' < 2 ^ 64 → fmt_u z = fmt_u z' → z = z'.
Proof.
  intros Hz Hz' H. pose proof (stoull_fmt_u_eq 10 z) as H1.
  rewrite H, stoull_fmt_u_eq in H1 by auto. specialize (H1 (or_intror eq_refl) Hz).
  by simplify_eq.
Qed.

(** Hexadecimal names with leading zeros are integers. *)
Lemma parse_zeros base k n s :
  2 ≤ base →
  parse_digits base 0 n (replicate k "0"%char ++ s) = parse_digits base 0 (n + k) s.
Proof.
  intros Hb. revert n; induction k as [|k IH]; intros n; cbn [replicate app].
  { by rewrite Nat.add_0_r. }
  cbn [parse_digits]. change (digit_in base "0"%char) with (if 0 <? base then Some 0 else None).
  rewrite (proj2 (Z.ltb_lt 0 base)) by lia. rewrite Z.mul_0_l, Z.add_0_l, IH. f_equal. lia.
Qed.

Lemma hex_name_is_integer z : 0 ≤ z < 2 ^ 32 → string_is_integer (fmt_08x z) 16 = true.
Proof.
  intros Hz. unfold string_is_integer, fmt_08x, pad_left, fmt_x.
  destruct (digits_shape 16 63 z [] ltac:(lia) ltac:(lia)) as (c & D & E & HF & _ & Hp).
  change 64%nat with (S 63). rewrite E, app_nil_r in *.
  set (k := (8 - length (c :: D))%nat).
  assert (HF' : Forall (λ c, ∃ d, 0 ≤ d < 16 ∧ c = digit_char d) (replicate k "0"%char ++ c :: D)).
  { apply Forall_app. split; [|done]. apply Forall_replicate. by exists 0. }
  assert (Hv : parse_digits 16 0 0 (replicate k "0"%char ++ c :: D)
               = (z, length (replicate k "0"%char ++ c :: D))).
  { rewrite parse_zeros by lia. rewrite Hp by (change (16 ^ Z.of_nat 64) with (2 ^ 256); lia).
    cbn [parse_digits]. rewrite length_app, length_replicate. cbn [length]. f_equal; lia. }
  assert (Hne : replicate k "0"%char ++ c :: D ≠ []) by (by destruct k).
  revert HF' Hv Hne. generalize (replicate k "0"%char ++ c :: D) as s. clear -Hz.
  intros s HF Hv Hne. unfold stoull. destruct s as [|c s]; [done|].
  pose proof HF as [(d & Hd & ->) HF1]%Forall_cons. cbn [skip_space].
  destruct (isspace (digit_char d)) eqn:Hs.
  { exfalso. apply (digit_char_not_special d (digit_char d)); [lia|by left|done]. }
  cbn [strip_sign].
  rewrite !bool_decide_eq_false_2 by (apply digit_char_not_special; [lia|right; set_solver]).
  assert (has_0x (digit_char d :: s) = false) as Hx.
  { destruct s as [|c1 [|c2 s]]; [done|done|]. cbn [has_0x].
    apply Forall_cons in HF1 as [(d1 & Hd1 & ->) _].
    rewrite (bool_decide_eq_false_2 (digit_char d1 ∈ _)); [by rewrite andb_false_r|].
    intros Hin. apply (digit_char_not_special d1 (digit_char d1)); [lia|right; set_solver|done]. }
  unfold strtoull_base. rewrite Hx. cbn [Z.eqb Pos.eqb orb andb]. rewrite Hv. cbn [length].
  rewrite (proj2 (Z.leb_gt (2 ^ 64) z)) by lia. by apply bool_decide_eq_true_2.
Qed.

(** ** Lemmas: strings and paths *)

Lemma split_join_eq delim xs :
  Forall (delim ∉.) xs → last xs ≠ Some [] → split_string (join delim xs) delim = xs.
Proof.
  unfold split_string. destruct xs as [|x xs]; [done|]. cbn [join].
  revert x; induction xs as [|y xs IH]; intros x; rewrite ?Forall_cons.
  - intros [Hx _] Hl. cbn. rewrite app_nil_r, getlines_app by done.
    destruct x; [by destruct Hl|done].
  - intros (Hx & Hy) Hl. cbn [fmap list_fmap concat app].
    rewrite getlines_cons by done. f_equal. apply IH; [by apply Forall_cons|].
    by rewrite last_cons_cons in Hl.
Qed.

Lemma slash_char_str : str "/" = ["/"%char].
Proof. done. Qed.

Lemma prefixb_slash s : prefixb (str "/") s = true ↔ ∃ t, s = "/"%char :: t.
Proof.
  rewrite prefixb_spec. split.
  - intros [t ->]. by exists t.
  - intros [t ->]. by exists t.
Qed.

Lemma split_path_eq s a b :
  split_path s = (a, b) →
  s = a ++ b ∧ "/"%char ∉ b ∧ (a = [] ∨ last a = Some "/"%char).
Proof.
  unfold split_path. destruct (str_rfind (str "/") s) as [pos|] eqn:E; intros [= <- <-].
  - unfold str_rfind in E. apply rfind_from_Some in E as (Hp & _ & Hle & Hj).
    apply prefixb_slash in Hp as [t Ht].
    assert (s = take pos s ++ "/"%char :: t) as Hs by (by rewrite <-Ht, take_drop).
    assert (length (take pos s) = pos) as Hlen.
    { rewrite length_take. apply (f_equal length) in Ht. rewrite length_drop in Ht.
      cbn in Ht. lia. }
    rewrite take_drop. split; [done|]. split.
    + rewrite Hs, <-Hlen at 1. rewrite drop_app_add. cbn. rewrite drop_0.
      intros (k & Hk)%list_elem_of_lookup.
      assert (Hd : drop (pos + 1 + k) s = drop k t).
      { rewrite Hs, <-Hlen at 1. rewrite <-Nat.add_assoc, drop_app_add. done. }
      assert (pos + 1 + k < length s)%nat as Hlt.
      { apply lookup_lt_Some in Hk. rewrite Hs, length_app. cbn. lia. }
      specialize (Hj (pos + 1 + k)%nat ltac:(lia) ltac:(lia) ltac:(lia)).
      rewrite Hd in Hj. erewrite drop_S in Hj by done. done.
    + right. rewrite Hs, <-Hlen at 1. rewrite take_app_add. cbn.
      rewrite take_0. by rewrite last_snoc.
  - split; [done|]. split; [|by left].
    intros (k & Hk)%list_elem_of_lookup. unfold str_rfind, rfind_from in E.
    apply last_None in E.
    assert (k ∈ filter (λ i, prefixb (str "/") (drop i s) = true)
                  (seq 0 (S (Nat.min (length s) (length s))))) as Hin.
    { apply list_elem_of_filter. split.
      - erewrite drop_S by done. done.
      - apply elem_of_seq. apply lookup_lt_Some in Hk. lia. }
    rewrite E in Hin. by apply not_elem_of_nil in Hin.
Qed.

Lemma slash_end_eq a c k :
  c ≠ "/"%char → Forall (.= "/"%char) k → slash_end (k ++ c :: a) = Ok (c :: a).
Proof.
  intros Hc. induction 1 as [|x k -> _ IH]; cbn.
  - by rewrite bool_decide_eq_false_2.
  - by rewrite bool_decide_eq_true_2.
Qed.

Lemma slash_end_all k : Forall (.= "/"%char) k → slash_end k = Fault.
Proof. induction 1 as [|x k -> _ IH]; cbn; [done|]. by rewrite bool_decide_eq_true_2. Qed.

(** A string is a stem and trailing slashes, or only slashes. *)
Lemma slash_tail_cases s :
  Forall (.= "/"%char) s ∨
  ∃ a c k, s = a ++ c :: k ∧ c ≠ "/"%char ∧ Forall (.= "/"%char) k.
Proof.
  induction s as [|x s [IH|(a & c & k & -> & ? & ?)]].
  - left. constructor.
  - destruct (decide (x = "/"%char)) as [->|].
    + left. by constructor.
    + right. by exists [], x, s.
  - right. by exists (x :: a), c, k.
Qed.

Lemma dir_concat_stem a c k filename :
  c ≠ "/"%char → Forall (.= "/"%char) k →
  dir_concat (a ++ c :: k) filename = Ok (a ++ c :: "/"%char :: slash_front filename).
Proof.
  intros Hc Hk. unfold dir_concat. rewrite bool_decide_eq_false_2 by (by destruct a).
  rewrite reverse_app, reverse_cons, <-app_assoc. cbn [app].
  rewrite slash_end_eq by (done || by apply Forall_reverse). cbn [mbind res_mbind res_bind].
  rewrite reverse_cons, reverse_involutive, <-app_assoc. done.
Qed.

Lemma slash_front_eq s : ∃ k, s = k ++ slash_front s ∧ Forall (.= "/"%char) k
                              ∧ head (slash_front s) ≠ Some "/"%char.
Proof.
  induction s as [|c s (k & Hk & ? & ?)]; cbn; [by exists []|].
  case_bool_decide as Hc.
  - exists (c :: k). split; [cbn; by f_equal|]. split; [by constructor|done].
  - exists []. split; [done|]. split; [constructor|]. cbn. congruence.
Qed.

(** Trimming with the default set, on a line with something to keep. *)
Lemma trim_string_eq s c :
  c ∈ s → c ∉ trim_default →
  ∃ a b, s = a ++ trim_string s trim_default ++ b
    ∧ Forall (.∈ [" "; "009"]%char) a ∧ Forall (.∈ trim_default) b
    ∧ (∃ x, head (trim_string s trim_default) = Some x ∧ x ∉ [" "; "009"]%char)
    ∧ (∃ x, last (trim_string s trim_default) = Some x ∧ x ∉ trim_default).
Proof.
  intros Hin Hc. unfold trim_string.
  destruct (find_last_not_of trim_default s) as [e|] eqn:E; cycle 1.
  { apply find_last_not_of_None in E. rewrite Forall_forall in E. by destruct Hc; apply E. }
  apply find_last_not_of_Some in E as (p & x & b & -> & <- & Hx & Hb).
  assert (take (length p + 1) (p ++ x :: b) = p ++ [x]) as ->.
  { rewrite take_app_add. done. }
  destruct (find_first_not_of _ (p ++ [x])) as [f|] eqn:Ef; cycle 1.
  { apply find_first_not_of_None in Ef. apply Forall_app in Ef as [_ Ef].
    apply Forall_cons in Ef as [Ef _]. destruct Hx.
    unfold trim_default. set_solver. }
  apply find_first_not_of_Some in Ef as (a & y & q & Hq & <- & Hy & Ha).
  exists a, b. rewrite Hq, drop_app_length. split_and!.
  - rewrite app_assoc, <-Hq, <-app_assoc. done.
  - done.
  - done.
  - by exists y.
  - exists x. split; [|done]. apply (f_equal last) in Hq.
    rewrite last_snoc, last_app in Hq. destruct (last (y :: q)) eqn:El; [done|].
    by apply last_None in El.
Qed.

(** ** Caches *)

Section memo.
Context {K V : Type} `{Countable K} (f : gmap K V → K → V * gmap K V) (g : K → V).
Hypothesis Hf : ∀ cache k, f cache k =
  match cache !! k with Some v => (v, cache) | None => (g k, <[k:=g k]> cache) end.

Lemma lookups_memo cache ks :
  map_Forall (λ k v, v = g k) cache →
  (lookups f cache ks).1 = g <$> ks ∧ map_Forall (λ k v, v = g k) (lookups f cache ks).2.
Proof using Hf.
  revert cache; induction ks as [|k ks IH]; intros cache Hc; [done|].
  cbn. rewrite Hf. destruct (cache !! k) as [v|] eqn:E.
  - apply Hc in E as ->. specialize (IH cache Hc).
    destruct (lookups f cache ks); cbn in *. destruct IH as [-> ?]. done.
  - assert (map_Forall (λ k v, v = g k) (<[k:=g k]> cache)) as Hc'.
    { by apply map_Forall_insert_2. }
    specialize (IH _ Hc'). destruct (lookups f _ ks); cbn in *. by destruct IH as [-> ?].
Qed.
End memo.

(** ** Files *)

Lemma read_loop_ok fuel content data pos :
  (length content < fuel + pos)%nat → (pos ≤ length content)%nat →
  take pos data = take pos content → length (take pos data) = pos →
  ∃ k, read_loop fuel content data pos = Some (content ++ zeros k, length content)
       ∧ (read_chunk ≤ length content + k)%nat.
Proof.
  revert data pos; induction fuel as [|fuel IH]; intros data pos Hf Hp Hd Hl; [lia|].
  cbn [read_loop].
  set (got := take read_chunk (drop pos content)).
  assert (Hg : length got = Nat.min read_chunk (length content - pos)).
  { unfold got. by rewrite length_take, length_drop. }
  assert (Ht : take pos (take pos data ++ zeros read_chunk) = take pos content).
  { rewrite <-Hl at 1. by rewrite take_app_length. }
  assert (Hlen : length (take pos content) = pos) by (rewrite length_take; lia).
  assert (Happ : take pos content ++ got = take (pos + length got) content).
  { unfold got at 1. rewrite take_take_drop, Hg.
    destruct (Nat.le_ge_cases read_chunk (length content - pos)).
    - by rewrite Nat.min_l.
    - rewrite !take_ge by lia. done. }
  rewrite Ht, app_assoc, Happ.
  assert (Hl2 : length (take (pos + length got) content) = (pos + length got)%nat).
  { rewrite length_take. lia. }
  case_bool_decide as Hc.
  - apply IH.
    + unfold read_chunk in *. lia.
    + lia.
    + rewrite <-Hl2 at 1. by rewrite take_app_length.
    + rewrite <-Hl2 at 1. by rewrite take_app_length.
  - assert (pos + length got = length content)%nat as Hfin by lia.
    assert (Hdrop : drop (pos + length got) (take pos data ++ zeros read_chunk)
                    = zeros (read_chunk - length got)).
    { rewrite drop_app_ge by lia. rewrite Hl. unfold zeros. rewrite drop_replicate. f_equal. lia. }
    rewrite Hdrop, Hfin, take_ge by lia. eexists. split; [done|]. lia.
Qed.

(** ** Properties *)

(** [escape_json] never writes outside the string it sized, and loses
    nothing: undoing the escapes of its result gives the input back. *)
Theorem escape_json_roundtrip (s : bytes) :
  ∃ out, escape_json s = Ok out ∧ json_unescape out = s
         ∧ (length s ≤ length out ≤ 2 * length s)%nat.
Proof.
  exists (concat (json_char <$> s)). rewrite escape_json_eq, json_unescape_concat.
  split_and!; [done|done|apply json_concat_length..].
Qed.

(** [escape_html] never overruns its 4096-byte buffer, whatever the input:
    the 512 characters it keeps grow at most sixfold.  Its result is the
    character-wise escape of the C string, with an ellipsis when it was cut. *)
Theorem escape_html_safe (s : bytes) :
  escape_html s
  = Ok (concat (html_char <$> take 512 (c_prefix s))
        ++ if bool_decide (512 < length (c_prefix s))%nat then str "..." else []).
Proof.
  unfold escape_html. set (t := take 512 (c_prefix s)).
  assert (length t ≤ 512)%nat as Hl by (unfold t; rewrite length_take; lia).
  pose proof (concat_html_length t).
  rewrite escape_html_loop by (cbn; lia). cbn [mbind res_mbind res_bind app].
  rewrite bool_decide_eq_true_2 by lia. case_bool_decide; by rewrite ?app_nil_r.
Qed.

(** Numbers survive the trip through text: what [fmt("%u")] (or ["%lu"])
    prints of a number below 2^63 is recognised as an integer and read back as
    that number, in base 10 and in the default base 0. *)
Theorem string_to_integer_fmt_u (base z : Z) :
  base = 0 ∨ base = 10 → 0 ≤ z < 2 ^ 63 →
  string_is_integer (fmt_u z) base = true ∧ string_to_integer (fmt_u z) base = Ok z.
Proof.
  intros Hb Hz. unfold string_is_integer, string_to_integer.
  rewrite stoull_fmt_u_eq by (done || lia). split; [by apply bool_decide_eq_true_2|].
  f_equal. unfold s64. rewrite Z.mod_small; lia.
Qed.
Lemma string_to_integer_fmt_u_witness :
  string_is_integer (str "1027") 0 = true ∧ string_to_integer (str "1027") 0 = Ok 1027.
Proof.
  change (str "1027") with (fmt_u 1027).
  apply (string_to_integer_fmt_u 0 1027); [by left|lia].
Defined.

(** [read_file] on a regular file terminates for every length of the file,
    a multiple of the chunk included, and returns the whole content, zeros to
    the end of a block of at least one chunk, and the exact size. *)
Theorem read_file_content (content : bytes) :
  ∃ k, read_file content = Some (content ++ zeros k, length content)
       ∧ (read_chunk ≤ length content + k)%nat.
Proof. apply read_loop_ok; cbn; first [lia|done]. Qed.

(** [dir_concat] joins a directory that is not made of slashes only and a
    file name with exactly one slash; the root directory alone makes its first
    loop index an empty string. *)
Theorem dir_concat_joins (dir filename : bytes) :
  dir ≠ [] →
  (Forall (.= "/"%char) dir ∧ dir_concat dir filename = Fault) ∨
  ∃ d k1 k2 f, dir = d ++ k1 ∧ filename = k2 ++ f
    ∧ Forall (.= "/"%char) k1 ∧ Forall (.= "/"%char) k2
    ∧ last d ≠ Some "/"%char ∧ head f ≠ Some "/"%char
    ∧ dir_concat dir filename = Ok (d ++ str "/" ++ f).
Proof.
  intros Hne. destruct (slash_tail_cases dir) as [Hall|(a & c & k & -> & Hc & Hk)].
  - left. split; [done|]. unfold dir_concat. rewrite bool_decide_eq_false_2 by done.
    by rewrite slash_end_all by by apply Forall_reverse.
  - right. destruct (slash_front_eq filename) as (k2 & Hf & Hk2 & Hh).
    exists (a ++ [c]), k, k2, (slash_front filename).
    rewrite dir_concat_stem by done.
    split_and!; [by rewrite <-app_assoc|done..| |done|by rewrite <-app_assoc].
    rewrite last_snoc. congruence.
Qed.
Lemma dir_concat_joins_witness :
  ∃ d k1 k2 f, str "/tmp//" = d ++ k1 ∧ str "/a.sh" = k2 ++ f
    ∧ Forall (.= "/"%char) k1 ∧ Forall (.= "/"%char) k2
    ∧ last d ≠ Some "/"%char ∧ head f ≠ Some "/"%char
    ∧ dir_concat (str "/tmp//") (str "/a.sh") = Ok (d ++ str "/" ++ f).
Proof.
  destruct (dir_concat_joins (str "/tmp//") (str "/a.sh")) as [[H _]|H]; [done| |exact H].
  exfalso. cbn in H. do 2 apply Forall_cons in H as [_ H]. by apply Forall_cons in H as [[=] _].
Defined.
