(* ===== verification/Interfaces.v ===== *)
(** * The interfaces between the components (src/src/include)

    kcov's parts talk through abstract classes.  [IFilter] is a type class over
    the filter object's state; the events of the listener interfaces are data,
    the list of calls a component makes on each registered listener, in order. *)
From S2P Require Export Utils.
From stdpp Require Import options.

(** [IFilter] (include/filter.hh).  [runLineFilters] updates the object. *)
Class IFilter (F : Type) := {
  runFilters : F → bytes → bool;
  runLineFilters : F → bytes → Z → bytes → bool * F;
  mangleSourcePath : F → bytes → bytes;
}.

(** [IFileParser::PossibleHits] (include/file-parser.hh) *)
Inductive PossibleHits := HITS_SINGLE | HITS_LIMITED | HITS_UNLIMITED.
#[global] Instance PossibleHits_eq_dec : EqDecision PossibleHits.
Proof. solve_decision. Defined.

(** [enum match_type] (include/manager.hh) *)
Definition match_none : Z := 0.
Definition match_perfect : Z := 0xffffffff.

(** Calls on [IFileParser::ILineListener]: [onLine(file, lineNr, addr)]. *)
Record LineCall := OnLine { line_file : bytes; line_nr : Z; line_addr : Z }.

(** Calls on [ICollector::IListener]: [onAddressHit(addr, hits)]. *)
Record HitCall := OnAddressHit { hit_addr : Z; hit_hits : Z }.

(** Calls on [IReporter::IListener]. *)
Inductive ReportCall :=
  | OnAddress (addr hits : Z)
  | OnLineReporter (file : bytes) (lineNr addr : Z).

(** What the components ask of the world around them: the file system, the
    source-file cache, and the two hashes.  [hash_block] is zlib's crc32 and
    [std_hash] the library's [std::hash<std::string>]; both are left
    unspecified. *)
Record World := {
  w_file_exists : bytes → bool;
  w_read_file : bytes → option bytes;
  w_getLines : bytes → list bytes;
  w_hash_block : bytes → Z;
  w_std_hash : bytes → Z;
  w_timestamp : bytes → Z;
  w_real_path : bytes → bytes;
}.

(** ** For concrete runs *)

(** A filter that keeps every file and line, and a world where [file] is the one
    file there is. *)
Definition keep_all : IFilter unit := {|
  runFilters := λ _ _, true;
  runLineFilters := λ f _ _ _, (true, f);
  mangleSourcePath := λ _ p, p;
|}.
Definition one_file_world (file content : bytes) : World := {|
  w_file_exists := λ f, bool_decide (f = file);
  w_read_file := λ f, if bool_decide (f = file) then Some content else None;
  w_getLines := λ _, [];
  w_hash_block := λ d, Z.of_nat (length d);
  w_std_hash := λ _, 7;
  w_timestamp := λ _, 0;
  w_real_path := id |}.
