(* ===== verification/UtilsFiles.v ===== *)
(** * Utilities around files, time and text (src/src/utils.cc)

    What the program writes files with, the formatting behind every text it makes,
    the clock of its intervals, and the escaping of links.  The results of the
    system calls are arguments. *)
From S2P Require Export Interfaces.
From S2P Require Import CxxString Utils.
From stdpp Require Import options.

(** ** [fmt] *)

(** [vsnprintf(buf, size, ...)] for the text the format gives: its length, and the
    buffer, terminated. *)
Definition vsnprintf (size : nat) (text : bytes) : Z * bytes :=
  (Z.of_nat (length text), take (size - 1) text ++ [NUL]).

Definition fmt (text : bytes) : res bytes :=
  let '(r, buf) := vsnprintf 4096 text in
  if 4096 <=? r then
    let size := Z.to_nat (r + 1) in
    let '(r, result) := vsnprintf size text in
    if Z.of_nat size <=? r then Panic else Ok (take (Z.to_nat r) result)
  else Ok (c_prefix buf).

(** ** Writing a file *)

(** What the system answers [write_file_int]: the two calls of [open] with their
    errno, [select], and the bytes written. *)
Record WriteAnswers := mkWriteAnswers {
  wa_open1 : Z * Z;
  wa_open2 : Z * Z;
  wa_select : Z;
  wa_write : Z;
}.

Definition ENXIO : Z := 6.
Definition EWOULDBLOCK : Z := 11.

(** The result, the time slept, and whether the descriptor is left open. *)
Definition write_file_int (len : Z) (timeout : Z) (a : WriteAnswers) : Z * Z * bool :=
  let again fd_errno := (fd_errno.1 <? 0) && ((fd_errno.2 =? ENXIO) || (fd_errno.2 =? EWOULDBLOCK)) in
  let finish fd slept :=
    if fd <? 0 then (fd, slept, false)
    else
      let ret := wa_select a in
      if ret =? -1 then (ret, slept, false)
      else if ret =? 0 then (-2, slept, false)
      else if negb (wa_write a =? s32 len) then (-3, slept, true)
      else (0, slept, false) in
  if again (wa_open1 a) then
    if again (wa_open2 a) then (-2, timeout, false) else finish (wa_open2 a).1 timeout
  else finish (wa_open1 a).1 0.

(** [write_file] cuts the path to its buffer. *)
Definition write_file_path (path : bytes) : bytes := c_prefix (vsnprintf 2048 path).2.

(** ** Concatenating files *)

(** [read_write]: blocks of 1024, until one of them is cut short by the end. *)
Fixpoint read_write (fuel : nat) (dst src : bytes) : option bytes :=
  match fuel with
  | O => None
  | S fuel =>
      let buf := take 1024 src in
      let eof := (length buf <? 1024)%nat in
      if eof then Some (dst ++ buf) else read_write fuel (dst ++ buf) (drop 1024 src)
  end.

(** [None] for a file that can not be opened; the result, and what the destination
    holds.  The result is -1 whatever happens. *)
Definition concat_files (dst_ok : bool) (file_a file_b : option bytes) : Z * option bytes :=
  if negb dst_ok then (-1, None)
  else
    match file_a, file_b with
    | Some a, Some b =>
        (-1, d ← read_write (S (length a)) [] a; read_write (S (length b)) d b)
    | _, _ => (-1, Some [])
    end.

(** ** Time *)

(** The time spec [nanosleep] gets. *)
Definition msleep (ms : Z) : Z * Z :=
  let ns := u64 (ms * 1000 * 1000) in (ns / (1000 * 1000 * 1000), ns mod (1000 * 1000 * 1000)).
Definition mdelay (ms : Z) : Z * Z := (0, u32 (ms * 1000 * 1000)).

(** What [nanosleep] accepts. *)
Definition valid_timespec (ts : Z * Z) : Prop := 0 ≤ ts.1 ∧ 0 ≤ ts.2 < 1000 * 1000 * 1000.

(** [first] is the static variable; [gettimeofday] gives seconds and microseconds. *)
Definition get_ms_timestamp (tv : Z * Z) (first : Z) : Z * Z :=
  let now := u64 (tv.1 * 1000000 + tv.2) / 1000 in
  let first := if first =? 0 then now else first in
  (u64 (now - first), first).

(** ** Files by name *)

(** [lstat] of the path: its time in seconds. *)
Definition get_file_timestamp (lstat : bytes → option Z) (path : bytes) : Z :=
  match lstat path with Some t => u64 t | None => 0 end.

Definition hash_file (W : World) (filename : bytes) : Z :=
  match w_read_file W filename with Some p => w_hash_block W p | None => 0 end.

(** ** Links *)

(** [curl_easy_escape] of a C string. *)
Definition escape_url (curl_easy_escape : bytes → option bytes) (s : bytes) : bytes :=
  (foldl (λ '(out, delim) it,
     let cur := match curl_easy_escape (c_prefix it) with Some p => p | None => it end in
     (out ++ delim ++ cur, str "/"))
     ([], []) (split_string s "/"%char)).1.

(** ** Waiting for input *)

(** [select] on the descriptor alone, with the seconds and microseconds it may take. *)
Definition file_readable (select : Z * Z → Z) (ms : Z) : bool :=
  0 <? select (ms / 1000, ms mod 1000 * 1000).

Definition O_NONBLOCK : Z := 2048.

(** [fcntl] with [F_GETFL] and [F_SETFL]. *)
Definition make_file_non_blocking (getfl : Z) (setfl : Z → Z) : bool :=
  if getfl =? -1 then false else negb (setfl (Z.lor getfl O_NONBLOCK) =? -1).

(** ** Debugging *)

Definition kcov_debug_prints (g_kcov_debug_mask dbg : Z) : bool := negb (Z.land g_kcov_debug_mask dbg =? 0).

(** ** Properties *)

(** [fmt] gives the whole text, however long: what fits its buffer of 4096 is
    taken from there, and anything longer is formatted again into a string of the
    size it needs. *)
Theorem fmt_whole (text : bytes) : no_nul text → fmt text = Ok text.
Proof.
  intros Hn. unfold fmt, vsnprintf. cbn [fst snd].
  assert (∀ t, no_nul t → c_prefix (t ++ [NUL]) = t) as Hc.
  { clear. induction t as [|c t IH]; intros H; [done|]. apply no_nul_cons in H as [H1 H2].
    cbn. by rewrite bool_decide_eq_false_2, IH. }
  destruct (Z.leb_spec 4096 (Z.of_nat (length text))) as [H | H].
  - replace (Z.to_nat (Z.of_nat (length text) + 1)) with (S (length text)) by lia.
    rewrite (proj2 (Z.leb_gt _ _)) by lia. rewrite Nat2Z.id. cbn [Nat.sub].
    rewrite Nat.sub_0_r, firstn_all. by rewrite take_app_length.
  - rewrite take_ge by lia. by rewrite Hc.
Qed.

Lemma fmt_whole_witness : fmt (replicate 5000 "x"%char) = Ok (replicate 5000 "x"%char).
Proof.
  apply (fmt_whole (replicate 5000 "x"%char)). unfold no_nul.
  intros H. apply elem_of_replicate in H as [H _]. discriminate H.
Defined.

Lemma read_write_all fuel dst src : (length src < fuel)%nat → read_write fuel dst src = Some (dst ++ src).
Proof.
  revert dst src; induction fuel as [|fuel IH]; intros dst src Hf; [lia|]. cbn [read_write].
  rewrite length_take. destruct (Nat.ltb_spec (Nat.min 1024 (length src)) 1024).
  - by rewrite take_ge by lia.
  - rewrite IH by (rewrite length_drop; lia). by rewrite <-app_assoc, take_drop.
Qed.

(** Both files are copied whole, and the result says that it failed. *)
Lemma concat_files_content a b : concat_files true (Some a) (Some b) = (-1, Some (a ++ b)).
Proof.
  unfold concat_files. cbn [negb]. rewrite read_write_all by lia. cbn [mbind option_bind].
  by rewrite read_write_all by lia.
Qed.

(** A file counts as written only if it was opened, could be written and took all
    the bytes; a short write leaves the descriptor open. *)
Lemma write_file_int_ok len timeout a slept leaked :
  0 ≤ len < 2 ^ 31 → write_file_int len timeout a = (0, slept, leaked) →
  wa_write a = len ∧ wa_select a ≠ 0 ∧ wa_select a ≠ -1 ∧ leaked = false.
Proof.
  intros Hl. unfold write_file_int. rewrite s32_small by lia.
  repeat case_match; intros ?; simplify_eq; rewrite ?negb_true_iff, ?negb_false_iff in *; split_and!; try lia; done.
Qed.

Lemma msleep_valid ms : 0 ≤ ms → valid_timespec (msleep ms).
Proof.
  intros H. unfold valid_timespec, msleep. cbn [fst snd].
  pose proof (u64_range (ms * 1000 * 1000)). split; [apply Z.div_pos; lia|]. apply Z.mod_pos_bound. lia.
Qed.

(** A delay of a second or more is refused. *)
Lemma mdelay_slip : ¬ valid_timespec (mdelay 1000).
Proof. unfold valid_timespec, mdelay. vm_compute. naive_solver. Qed.

(** The clock starts at zero and does not go back while the system's does not. *)
Lemma get_ms_timestamp_mono s1 us1 s2 us2 :
  0 ≤ s1 * 1000000 + us1 → s1 * 1000000 + us1 ≤ s2 * 1000000 + us2 → s2 * 1000000 + us2 < 2 ^ 64 →
  1000 ≤ s1 * 1000000 + us1 →
  let '(t1, first) := get_ms_timestamp (s1, us1) 0 in
  t1 = 0 ∧ (get_ms_timestamp (s2, us2) first).2 = first ∧
  (get_ms_timestamp (s2, us2) first).1 = (s2 * 1000000 + us2) / 1000 - (s1 * 1000000 + us1) / 1000.
Proof.
  intros H0 H1 H2 H3. unfold get_ms_timestamp. cbn [fst snd Z.eqb].
  rewrite !(uw_small 64 (_ * _ + _)) by lia.
  assert (0 < (s1 * 1000000 + us1) / 1000) by (apply Z.div_str_pos; lia).
  assert ((s1 * 1000000 + us1) / 1000 ≤ (s2 * 1000000 + us2) / 1000) by (apply Z.div_le_mono; lia).
  assert ((s2 * 1000000 + us2) / 1000 < 2 ^ 64) by (apply Z.div_lt_upper_bound; lia).
  rewrite Z.sub_diag. destruct (Z.eqb_spec ((s1 * 1000000 + us1) / 1000) 0); [lia|].
  cbn [fst snd]. split_and!; [done|done|]. apply uw_small. lia.
Qed.

(** The parts of an escaped link are the escaped parts of the name. *)
Lemma escape_url_join esc s :
  escape_url esc s
    = join "/"%char ((λ it, match esc (c_prefix it) with Some p => p | None => it end)
                       <$> split_string s "/"%char).
Proof.
  unfold escape_url. generalize (split_string s "/"%char). intros l.
  set (f := λ it, match esc (c_prefix it) with Some p => p | None => it end).
  assert (∀ l out, (foldl (λ '(out, delim) it, (out ++ delim ++ f it, str "/")) (out, str "/") l).1
             = out ++ concat ((λ it, "/"%char :: f it) <$> l)) as Hl.
  { clear. induction l as [|x l IH]; intros out; cbn [foldl fmap list_fmap concat]; [by rewrite app_nil_r|].
    rewrite IH. by rewrite <-!app_assoc. }
  destruct l as [|x l]; [done|]. cbn [foldl]. rewrite Hl. cbn [app fmap list_fmap join].
  f_equal. f_equal. apply (list_fmap_compose f (cons "/"%char)).
Qed.

(** The time [file_readable] waits is the one it was asked for, as [select] wants it. *)
Lemma file_readable_waits ms (select : Z * Z → Z) :
  0 ≤ ms →
  ∃ s us, file_readable select ms = (0 <? select (s, us)) ∧
    0 ≤ s ∧ 0 ≤ us < 1000 * 1000 ∧ 1000 * 1000 * s + us = 1000 * ms.
Proof.
  intros Hms. eexists _, _. split; [reflexivity|].
  pose proof (Z.div_mod ms 1000). pose proof (Z.mod_pos_bound ms 1000). lia.
Qed.

(** A descriptor made non-blocking keeps its other flags. *)
Lemma make_file_non_blocking_flags flags setfl :
  flags ≠ -1 → setfl (Z.lor flags O_NONBLOCK) ≠ -1 →
  make_file_non_blocking flags setfl = true ∧
  ∀ n, Z.testbit (Z.lor flags O_NONBLOCK) n = Z.testbit flags n || (n =? 11).
Proof.
  intros Hf Hs. unfold make_file_non_blocking.
  rewrite (proj2 (Z.eqb_neq _ _) Hf), (proj2 (Z.eqb_neq _ _) Hs). split; [done|]. intros n.
  rewrite Z.lor_spec. f_equal. change O_NONBLOCK with (2 ^ 11).
  destruct (Z.eqb_spec n 11) as [->|Hn]; [by apply Z.pow2_bits_true|by apply Z.pow2_bits_false].
Qed.
