(* ===== verification/Filter.v ===== *)
(** * Source filters (src/src/filter.cc)

    [BasicFilter] accepts every file and only hides the lines between markers;
    [Filter] adds the include/exclude patterns and paths.  The line handler is
    a state machine: [m_excludeStart] is the nesting depth of excluded regions
    in the current file. *)
From S2P Require Export Interfaces.
From stdpp Require Import options.

(** ** FileLineHandler *)

Record FileLineHandler := {
  m_curFile : bytes;
  m_ignoreSingleLinePatterns : list bytes;
  m_lineBeginPatterns : list bytes;
  m_lineEndPatterns : list bytes;
  m_excludeStart : Z;
}.

(** The pairs of [--exclude-region=start:stop,...]. *)
Definition region_patterns (pats : list bytes * list bytes) (it : bytes)
  : list bytes * list bytes :=
  let '(b, e) := pats in
  let entries := split_string it ":"%char in
  let b := match entries !! 0%nat with Some p => b ++ [p] | None => b end in
  let e := match entries !! 1%nat with Some p => e ++ [p] | None => e end in
  (b, e).

Definition new_FileLineHandler (exclude_line exclude_region : bytes) : FileLineHandler :=
  let single := [str "LCOV_EXCL_LINE"; str "#[should_panic]"] in
  let single := if bool_decide (exclude_line = []) then single
                else single ++ split_string exclude_line ","%char in
  let be := ([str "LCOV_EXCL_START"], [str "LCOV_EXCL_STOP"]) in
  let '(b, e) := if bool_decide (exclude_region = []) then be
                 else foldl region_patterns be (split_string exclude_region ","%char) in
  {| m_curFile := []; m_ignoreSingleLinePatterns := single;
     m_lineBeginPatterns := b; m_lineEndPatterns := e; m_excludeStart := 0 |}.

Definition has_pattern (pats : list bytes) (line : bytes) : bool :=
  existsb (λ p, contains p line) pats.

(** [FileLineHandler::match] *)
Definition FileLineHandler_match (h : FileLineHandler) (filePath : bytes) (lineNr : Z)
    (line : bytes) : bool * FileLineHandler :=
  (* Source file swapped *)
  let depth := if bool_decide (m_curFile h = filePath) then m_excludeStart h else 0 in
  let out := negb (has_pattern (m_ignoreSingleLinePatterns h) line) in
  let depth := if has_pattern (m_lineBeginPatterns h) line then s32 (depth + 1) else depth in
  (* The line including the stop should be covered *)
  let out := if 0 <? depth then false else out in
  let depth := if has_pattern (m_lineEndPatterns h) line then s32 (depth - 1) else depth in
  (* Ignore multiple stops *)
  let depth := if depth <? 0 then 0 else depth in
  (out, {| m_curFile := filePath;
           m_ignoreSingleLinePatterns := m_ignoreSingleLinePatterns h;
           m_lineBeginPatterns := m_lineBeginPatterns h;
           m_lineEndPatterns := m_lineEndPatterns h;
           m_excludeStart := depth |}).

(** ** BasicFilter *)

Record BasicFilter := { bf_fileLineHandler : FileLineHandler }.

Definition BasicFilter_runFilters (f : BasicFilter) (file : bytes) : bool := true.
Definition BasicFilter_runLineFilters (f : BasicFilter) (filePath : bytes) (lineNr : Z)
    (line : bytes) : bool * BasicFilter :=
  let '(out, h) := FileLineHandler_match (bf_fileLineHandler f) filePath lineNr line in
  (out, {| bf_fileLineHandler := h |}).
Definition BasicFilter_mangleSourcePath (f : BasicFilter) (path : bytes) : bytes := path.

(** ** Filter *)

Record PatternHandler := { m_includePatterns : list bytes; m_excludePatterns : list bytes }.
Record PathHandler := { m_includePaths : list bytes; m_excludePaths : list bytes }.

Definition PatternHandler_isSetup (h : PatternHandler) : bool :=
  negb (bool_decide (length (m_includePatterns h) = 0%nat)
        && bool_decide (length (m_excludePatterns h) = 0%nat)).

Definition PatternHandler_includeFile (h : PatternHandler) (file : bytes) : bool :=
  if bool_decide (length (m_includePatterns h) = 0%nat)
     && bool_decide (length (m_excludePatterns h) = 0%nat) then true
  else
    let out := bool_decide (length (m_includePatterns h) = 0%nat) in
    let out := foldl (λ out pattern, if contains pattern file then true else out)
                 out (m_includePatterns h) in
    foldl (λ out pattern, if contains pattern file then false else out)
      out (m_excludePatterns h).

Section paths.
(** [get_real_path] and the regular-expression replacement of the standard
    library ([std::regex_replace]). *)
Context (get_real_path : bytes → bytes).
Context (regex_replace : bytes → bytes → bytes → bytes).

Definition new_PathHandler (include exclude : list bytes) : PathHandler :=
  {| m_includePaths := get_real_path <$> include;
     m_excludePaths := get_real_path <$> exclude |}.

Definition PathHandler_isSetup (h : PathHandler) : bool :=
  negb (bool_decide (length (m_includePaths h) = 0%nat)
        && bool_decide (length (m_excludePaths h) = 0%nat)).

(** The test of both loops: the pattern is a prefix that ends at a component. *)
Definition path_matches (pathStr pathPattern : bytes) : bool :=
  let last := length pathPattern in
  bool_decide (str_find pathPattern pathStr = Some 0%nat)
  && (bool_decide (length pathStr ≤ last)%nat
      || bool_decide (pathStr !! last = Some "/"%char)).

Definition PathHandler_includeFile (h : PathHandler) (file : bytes) : bool :=
  if bool_decide (length (m_includePaths h) = 0%nat)
     && bool_decide (length (m_excludePaths h) = 0%nat) then true
  else
    let out := bool_decide (length (m_includePaths h) = 0%nat) in
    let pathStr := get_real_path file in
    (* If found in --include-path=, accept this path *)
    let out := if existsb (path_matches pathStr) (m_includePaths h) then true else out in
    (* ... unless it's found in --exclude-path=. *)
    if existsb (path_matches pathStr) (m_excludePaths h) then false else out.

Record Filter := {
  m_fileLineHandler : FileLineHandler;
  m_patternHandler : PatternHandler;
  m_pathHandler : PathHandler;
  m_origRoot : bytes;
  m_newRoot : bytes;
}.

Definition Filter_runFilters (f : Filter) (file : bytes) : bool :=
  let out := true in
  let out := if PathHandler_isSetup (m_pathHandler f)
             then PathHandler_includeFile (m_pathHandler f) file else out in
  if out && PatternHandler_isSetup (m_patternHandler f)
  then PatternHandler_includeFile (m_patternHandler f) file
  else out.

Definition Filter_runLineFilters (f : Filter) (filePath : bytes) (lineNr : Z)
    (line : bytes) : bool * Filter :=
  let '(out, h) := FileLineHandler_match (m_fileLineHandler f) filePath lineNr line in
  (out, {| m_fileLineHandler := h; m_patternHandler := m_patternHandler f;
           m_pathHandler := m_pathHandler f; m_origRoot := m_origRoot f;
           m_newRoot := m_newRoot f |}).

Definition Filter_mangleSourcePath (f : Filter) (path : bytes) : bytes :=
  let filename := get_real_path path in
  if bool_decide (0 < length (m_origRoot f))%nat && bool_decide (0 < length (m_newRoot f))%nat
  then get_real_path (regex_replace filename (m_origRoot f) (m_newRoot f))
  else filename.

(** [Filter::Filter]; the options are those of the configuration. *)
Definition new_Filter (exclude_line exclude_region : bytes)
    (include_pattern exclude_pattern include_path exclude_path : list bytes)
    (orig_path_prefix new_path_prefix : bytes) : Filter :=
  {| m_fileLineHandler := new_FileLineHandler exclude_line exclude_region;
     m_patternHandler := {| m_includePatterns := include_pattern;
                            m_excludePatterns := exclude_pattern |};
     m_pathHandler := new_PathHandler include_path exclude_path;
     m_origRoot := orig_path_prefix; m_newRoot := new_path_prefix |}.
End paths.

#[global] Instance BasicFilter_IFilter : IFilter BasicFilter := {
  runFilters := BasicFilter_runFilters;
  runLineFilters := BasicFilter_runLineFilters;
  mangleSourcePath := BasicFilter_mangleSourcePath;
}.

Definition Filter_IFilter (get_real_path : bytes → bytes)
    (regex_replace : bytes → bytes → bytes → bytes) : IFilter Filter := {|
  runFilters := Filter_runFilters get_real_path;
  runLineFilters := Filter_runLineFilters;
  mangleSourcePath := Filter_mangleSourcePath get_real_path regex_replace;
|}.

(** ** Specification *)

(** The handler run over consecutive lines of one file. *)
Fixpoint match_lines (h : FileLineHandler) (file : bytes) (nr : Z) (lines : list bytes)
  : list bool * FileLineHandler :=
  match lines with
  | [] => ([], h)
  | l :: lines =>
      let '(o, h) := FileLineHandler_match h file nr l in
      let '(os, h) := match_lines h file (nr + 1) lines in
      (o :: os, h)
  end.

Section regions.
Context (single begin_ end_ : list bytes).
Abbreviation isb := (has_pattern begin_).
Abbreviation ise := (has_pattern end_).

(** Lines between which every start has its stop. *)
Inductive balanced : list bytes → Prop :=
  | balanced_nil : balanced []
  | balanced_plain l k : isb l = ise l → balanced k → balanced (l :: k)
  | balanced_region s m e k :
      isb s = true → ise s = false → balanced m →
      isb e = false → ise e = true → balanced k →
      balanced (s :: m ++ e :: k).

Definition handler (file : bytes) (depth : Z) : FileLineHandler :=
  {| m_curFile := file; m_ignoreSingleLinePatterns := single;
     m_lineBeginPatterns := begin_; m_lineEndPatterns := end_; m_excludeStart := depth |}.

Lemma match_handler file d nr l :
  FileLineHandler_match (handler file d) file nr l =
  (negb (has_pattern single l) && negb (0 <? if isb l then s32 (d + 1) else d),
   handler file
     (let d := if isb l then s32 (d + 1) else d in
      let d := if ise l then s32 (d - 1) else d in if d <? 0 then 0 else d)).
Proof.
  unfold FileLineHandler_match, handler; cbn -[has_pattern].
  rewrite bool_decide_eq_true_2 by done. f_equal.
  by destruct (0 <? _), (has_pattern single l).
Qed.

Lemma match_lines_app h file nr l k :
  match_lines h file nr (l ++ k) =
  (let '(os, h) := match_lines h file nr l in
   let '(os', h) := match_lines h file (nr + Z.of_nat (length l)) k in (os ++ os', h)).
Proof.
  revert h nr; induction l as [|x l IH]; intros h nr.
  - cbn. rewrite Z.add_0_r. by destruct (match_lines h file nr k).
  - cbn [app match_lines length].
    destruct (FileLineHandler_match h file nr x) as [o h1]. rewrite IH.
    destruct (match_lines h1 file (nr + 1) l) as [os h2].
    replace (nr + Z.of_nat (S (length l))) with (nr + 1 + Z.of_nat (length l)) by lia.
    by destruct (match_lines h2 _ _ k).
Qed.

(** Inside an open region nothing is covered, and a balanced stretch leaves
    the depth as it was. *)
Lemma match_lines_inside file d nr lines :
  balanced lines → 0 < d → d + Z.of_nat (length lines) < 2 ^ 31 →
  match_lines (handler file d) file nr lines
  = (replicate (length lines) false, handler file d).
Proof.
  intros Hb. revert d nr.
  induction Hb as [|l k Hl _ IH|s m e k Hs1 Hs2 _ IHm He1 He2 _ IHk]; intros d nr Hd Hlt.
  - done.
  - cbn [match_lines length] in *. rewrite match_handler, <-Hl. cbv zeta.
    destruct (isb l).
    + rewrite (s32_small (d + 1)), s32_small by lia.
      rewrite (proj2 (Z.ltb_lt 0 (d + 1))), andb_false_r by lia.
      rewrite (proj2 (Z.ltb_ge (d + 1 - 1) 0)) by lia.
      replace (d + 1 - 1) with d by lia. by rewrite IH by lia.
    + rewrite (proj2 (Z.ltb_lt 0 d)), andb_false_r by lia.
      rewrite (proj2 (Z.ltb_ge d 0)) by lia. by rewrite IH by lia.
  - cbn [match_lines length] in *. rewrite length_app in *. cbn [length] in *.
    rewrite match_handler, Hs1, Hs2. cbv zeta. rewrite s32_small by lia.
    rewrite (proj2 (Z.ltb_lt 0 (d + 1))), andb_false_r by lia.
    rewrite (proj2 (Z.ltb_ge (d + 1) 0)) by lia.
    rewrite match_lines_app, IHm by lia. cbn [match_lines].
    rewrite match_handler, He1, He2. cbv zeta. rewrite s32_small by lia.
    rewrite (proj2 (Z.ltb_lt 0 (d + 1))), andb_false_r by lia.
    rewrite (proj2 (Z.ltb_ge (d + 1 - 1) 0)) by lia.
    replace (d + 1 - 1) with d by lia. rewrite IHk by lia.
    cbn [replicate Nat.add]. by rewrite replicate_add.
Qed.

(** Outside every region only the single-line patterns exclude. *)
Lemma match_lines_outside file nr lines :
  Forall (λ l, isb l = false) lines →
  match_lines (handler file 0) file nr lines
  = ((λ l, negb (has_pattern single l)) <$> lines, handler file 0).
Proof.
  intros HF. revert nr; induction HF as [|l k Hl _ IH]; intros nr; [done|].
  cbn [match_lines fmap list_fmap]. rewrite match_handler, Hl. cbv zeta.
  change (0 <? 0) with false. rewrite andb_true_r.
  destruct (ise l); [change (s32 (0 - 1)) with (-1)|]; cbn [Z.ltb Z.compare];
    by rewrite IH.
Qed.
End regions.

(** A path below, or equal to, a directory pattern. *)
Definition below (pattern path : bytes) : Prop :=
  ∃ rest, path = pattern ++ rest ∧ (rest = [] ∨ head rest = Some "/"%char).

Lemma path_matches_spec path pattern : path_matches path pattern = true ↔ below pattern path.
Proof.
  unfold path_matches, below.
  rewrite andb_true_iff, orb_true_iff, !bool_decide_eq_true, find_0_prefix, prefixb_spec.
  split.
  - intros [[r ->] H]. exists r. split; [done|].
    rewrite length_app, lookup_app_r, Nat.sub_diag in H by lia.
    destruct r as [|c r]; [by left|]. right. cbn in *. destruct H; [lia|done].
  - intros (r & -> & H). split; [by exists r|].
    rewrite length_app, lookup_app_r, Nat.sub_diag by lia.
    destruct H as [-> | H]; [left; cbn; lia|right; by destruct r].
Qed.

Lemma existsb_spec {A} (f : A → bool) l : existsb f l = true ↔ ∃ x, x ∈ l ∧ f x = true.
Proof.
  rewrite existsb_exists. setoid_rewrite list_elem_of_In. done.
Qed.

Lemma foldl_set {A} (f : A → bool) (v out : bool) (l : list A) :
  foldl (λ out p, if f p then v else out) out l = if existsb f l then v else out.
Proof.
  revert out; induction l as [|x l IH]; intros out; cbn; [done|].
  rewrite IH. destruct (f x), (existsb f l); done.
Qed.

Lemma length_0_dec {A} (l : list A) : bool_decide (length l = 0%nat) = match l with [] => true | _ => false end.
Proof. by destruct l. Qed.

(** The shape both handlers share: accepted by an include entry, or there are
    none, and by no exclude entry. *)
Lemma include_exclude_spec {A} (f : A → bool) (inc exc : list A) :
  (if negb (bool_decide (length inc = 0%nat) && bool_decide (length exc = 0%nat)) then
     if bool_decide (length inc = 0%nat) && bool_decide (length exc = 0%nat) then true
     else if existsb f exc then false
          else if existsb f inc then true else bool_decide (length inc = 0%nat)
   else true) = true ↔
  (inc = [] ∨ ∃ p, p ∈ inc ∧ f p = true) ∧ (∀ p, p ∈ exc → f p = false).
Proof.
  assert (HE : existsb f exc = false ↔ ∀ p, p ∈ exc → f p = false).
  { rewrite <-not_true_iff_false, existsb_spec. split.
    - intros H p Hp. apply not_true_iff_false. eauto.
    - intros H (p & Hp & Hc). by rewrite H in Hc. }
  rewrite <-HE, <-existsb_spec, !length_0_dec.
  assert (inc = [] → existsb f inc = false) by (by intros ->).
  assert (exc = [] → existsb f exc = false) by (by intros ->).
  clear HE. generalize dependent (existsb f exc). generalize dependent (existsb f inc).
  intros I HI E HE. destruct inc, exc, I, E; cbn;
    repeat match goal with H : ?x = ?x → _ |- _ => specialize (H eq_refl) end;
    split; try done; try (by auto); intros [[|] ?]; done.
Qed.

Lemma PatternHandler_spec h file :
  (if PatternHandler_isSetup h then PatternHandler_includeFile h file else true) = true ↔
  (m_includePatterns h = [] ∨ ∃ p, p ∈ m_includePatterns h ∧ contains p file = true) ∧
  (∀ p, p ∈ m_excludePatterns h → contains p file = false).
Proof.
  unfold PatternHandler_isSetup, PatternHandler_includeFile.
  rewrite !(foldl_set (λ p, contains p file)). apply include_exclude_spec.
Qed.

Lemma PathHandler_spec get_real_path h file :
  (if PathHandler_isSetup h then PathHandler_includeFile get_real_path h file else true) = true ↔
  (m_includePaths h = [] ∨
     ∃ p, p ∈ m_includePaths h ∧ path_matches (get_real_path file) p = true) ∧
  (∀ p, p ∈ m_excludePaths h → path_matches (get_real_path file) p = false).
Proof. apply (include_exclude_spec (path_matches (get_real_path file))). Qed.

(** ** Properties *)

(** C39: excluded regions.  In a file read from its first line, with any text
    outside the region that has no start marker, a region from a start line to
    its matching stop line is excluded as a whole, both lines included, however
    regions are nested in it; outside it a line is excluded exactly when it has
    a single-line marker, and stray stops change nothing. *)
Theorem match_lines_region (h : FileLineHandler) (file : bytes) (nr : Z)
    (pre : list bytes) (s : bytes) (mid : list bytes) (e : bytes) (post : list bytes) :
  let isb := has_pattern (m_lineBeginPatterns h) in
  let ise := has_pattern (m_lineEndPatterns h) in
  let keep := λ l, negb (has_pattern (m_ignoreSingleLinePatterns h) l) in
  m_curFile h ≠ file ∨ m_excludeStart h = 0 →
  Forall (λ l, isb l = false) pre → Forall (λ l, isb l = false) post →
  isb s = true → ise s = false →
  balanced (m_lineBeginPatterns h) (m_lineEndPatterns h) mid →
  isb e = false → ise e = true →
  Z.of_nat (length mid) < 2 ^ 31 - 1 →
  (match_lines h file nr (pre ++ s :: mid ++ e :: post)).1
  = (keep <$> pre) ++ replicate (length mid + 2) false ++ (keep <$> post).
Proof.
  intros isb ise keep H0 Hpre Hpost Hs1 Hs2 Hmid He1 He2 Hlt.
  destruct h as [cf sg bg en d0]. unfold isb, ise in *. cbn -[has_pattern] in *.
  set (hd := handler sg bg en file).
  assert (Hstart : ∀ l, match_lines {| m_curFile := cf; m_ignoreSingleLinePatterns := sg;
             m_lineBeginPatterns := bg; m_lineEndPatterns := en; m_excludeStart := d0 |} file nr l
           = match_lines (hd 0) file nr l ∨ l = []).
  { intros [|l k]; [by right|left]. cbn [match_lines].
    assert (FileLineHandler_match {| m_curFile := cf; m_ignoreSingleLinePatterns := sg;
             m_lineBeginPatterns := bg; m_lineEndPatterns := en; m_excludeStart := d0 |} file nr l
            = FileLineHandler_match (hd 0) file nr l) as ->; [|done].
    unfold FileLineHandler_match, hd, handler; cbn -[has_pattern].
    rewrite (bool_decide_eq_true_2 (file = file)) by done.
    case_bool_decide as Hcf; [|done]. by destruct H0 as [?| ->]. }
  destruct (Hstart (pre ++ s :: mid ++ e :: post)) as [->|Hnil]; [|by destruct pre].
  unfold hd in *. rewrite match_lines_app, match_lines_outside by done.
  cbn [match_lines]. rewrite match_handler. rewrite Hs1, Hs2. cbv zeta.
  change (s32 (0 + 1)) with 1. cbn [Z.ltb Z.compare negb]. rewrite andb_false_r.
  rewrite match_lines_app, match_lines_inside by (done || lia).
  cbn [match_lines]. rewrite match_handler. rewrite He1, He2. cbv zeta.
  change (s32 (1 - 1)) with 0. cbn [Z.ltb Z.compare negb]. rewrite andb_false_r.
  rewrite match_lines_outside by done. cbn [fst].
  replace (length mid + 2)%nat with (1 + (length mid + 1))%nat by lia.
  rewrite !replicate_add. cbn. by rewrite <-app_assoc.
Qed.
Lemma match_lines_region_witness :
  (match_lines (new_FileLineHandler [] []) (str "a.c") 1
     ((str "int x;") :: [] ++ (str "// LCOV_EXCL_START") :: (str "f(); // LCOV_EXCL_START")
        :: (str "g(); // LCOV_EXCL_STOP") :: [] ++ (str "// LCOV_EXCL_STOP")
        :: [(str "h(); // LCOV_EXCL_LINE"); (str "k();")])).1
  = [true; false; false; false; false; false; true].
Proof.
  refine (match_lines_region (new_FileLineHandler [] []) (str "a.c") 1 [str "int x;"]
    (str "// LCOV_EXCL_START") [str "f(); // LCOV_EXCL_START"; str "g(); // LCOV_EXCL_STOP"]
    (str "// LCOV_EXCL_STOP") [str "h(); // LCOV_EXCL_LINE"; str "k();"] _ _ _ _ _ _ _ _ _).
  - by right.
  - repeat constructor.
  - repeat constructor.
  - reflexivity.
  - reflexivity.
  - apply (balanced_region _ _ _ [] _ []); try reflexivity; constructor.
  - reflexivity.
  - reflexivity.
  - reflexivity.
Defined.

(** Which files are reported.  [Filter::runFilters] accepts a file exactly
    when its real path lies below some include path (if there are any) and below
    no exclude path, and its name contains some include pattern (if there are
    any) and no exclude pattern: excludes win over includes, and a path option
    never matches in the middle of a component. *)
Theorem Filter_runFilters_spec (get_real_path : bytes → bytes) (f : Filter) (file : bytes) :
  let inc := m_includePaths (m_pathHandler f) in
  let exc := m_excludePaths (m_pathHandler f) in
  let incp := m_includePatterns (m_patternHandler f) in
  let excp := m_excludePatterns (m_patternHandler f) in
  Filter_runFilters get_real_path f file = true ↔
  ((inc = [] ∨ ∃ p, p ∈ inc ∧ below p (get_real_path file))
   ∧ ∀ p, p ∈ exc → ¬ below p (get_real_path file)) ∧
  ((incp = [] ∨ ∃ p, p ∈ incp ∧ ∃ a b, file = a ++ p ++ b)
   ∧ ∀ p, p ∈ excp → ¬ ∃ a b, file = a ++ p ++ b).
Proof.
  intros inc exc incp excp.
  assert (Hp := PathHandler_spec get_real_path (m_pathHandler f) file).
  assert (Hq := PatternHandler_spec (m_patternHandler f) file).
  setoid_rewrite <-path_matches_spec. setoid_rewrite <-contains_spec.
  setoid_rewrite not_true_iff_false.
  fold inc exc in Hp. fold incp excp in Hq. rewrite <-Hp, <-Hq. clear Hp Hq.
  unfold Filter_runFilters.
  destruct (PathHandler_isSetup (m_pathHandler f)).
  - destruct (PathHandler_includeFile get_real_path (m_pathHandler f) file); cbn; [|naive_solver].
    destruct (PatternHandler_isSetup _); naive_solver.
  - cbn. destruct (PatternHandler_isSetup _); naive_solver.
Qed.
