(* ===== verification/Reporter.v ===== *)
(** * The reporter (src/src/reporter.cc)

    The reporter owns the lines of the program under test and the number of
    times each of their addresses was hit, answers the writers' questions, and
    keeps the database of previous runs.

    [Line] objects are shared: the file that owns them, the address map and the
    line-id map all point to them.  They live in a heap indexed by location;
    [File] objects are only reachable through [m_files] and are stored there by
    value.  [r_out] is the trace of the calls made on every registered
    [IReporter::IListener], in order. *)
From S2P Require Export Interfaces.
From stdpp Require Import options.

Definition KCOV_MAGIC : Z := 0x6b636f76.
Definition KCOV_DB_VERSION : Z := 6.

(** ** Line *)

Record Line := mkLine {
  ln_addrs : list (Z * Z);      (* m_addrs: address, hits (an int) *)
  ln_lineId : Z;                (* m_lineId *)
  ln_order : Z;                 (* m_order *)
  ln_unreachable : bool;        (* m_unreachable *)
}.

Definition line_id (fileHash lineNr : Z) : Z := Z.lor (u64 (Z.shiftl fileHash 32)) lineNr.

Definition new_Line (fileHash lineNr : Z) (unreachable : bool) : Line :=
  mkLine [] (line_id fileHash lineNr) 0 unreachable.

Definition Line_with_addrs (addrs : list (Z * Z)) (l : Line) : Line :=
  mkLine addrs (ln_lineId l) (ln_order l) (ln_unreachable l).

Definition Line_setOrder (order : Z) (l : Line) : Line :=
  mkLine (ln_addrs l) (ln_lineId l) order (ln_unreachable l).

Definition Line_addAddress (addr : Z) (l : Line) : Line :=
  if bool_decide (addr ∈ (ln_addrs l).*1) then l
  else Line_with_addrs (ln_addrs l ++ [(addr, 0)]) l.

(** The entry of an address: [it->second = f(it->second)] at the first match. *)
Fixpoint addr_update (addr : Z) (f : Z → Z) (addrs : list (Z * Z)) : option (list (Z * Z)) :=
  match addrs with
  | [] => None
  | (a, h) :: addrs =>
      if bool_decide (a = addr) then Some ((a, f h) :: addrs)
      else ((a, h) ::.) <$> addr_update addr f addrs
  end.

(** When the address is missing the code appends it and decrements an iterator
    that [push_back] has invalidated: undefined behaviour. *)
Definition Line_registerHit (addr hits : Z) (singleShot : bool) (l : Line) : res Line :=
  addrs ← or_fault (addr_update addr (λ h, if singleShot then 1 else s32 (h + hits)) (ln_addrs l));
  Ok (Line_with_addrs addrs l).

Definition Line_registerHitIndex (index hits : Z) (singleShot : bool) (l : Line) : Line :=
  if Z.of_nat (length (ln_addrs l)) <=? index then l
  else Line_with_addrs
         (alter (λ '(a, h), (a, s32 (h + hits))) (Z.to_nat index) (ln_addrs l)) l.

Definition Line_clearHits (l : Line) : Line :=
  Line_with_addrs ((λ '(a, _), (a, 0)) <$> ln_addrs l) l.

Definition Line_hits (l : Line) : Z := foldl (λ out p, u32 (out + p.2)) 0 (ln_addrs l).

Definition Line_possibleHits (singleShot : bool) (l : Line) : Z :=
  if singleShot then u32 (Z.of_nat (length (ln_addrs l))) else 0.

(** The store of a big-endian word through the moving pointer [data]: the block
    and the offset of the pointer in it. *)
Definition put_u64 (e : endian) (v : Z) (st : bytes * nat) : res (bytes * nat) :=
  let '(buf, p) := st in
  buf ← buf_write p (native_bytes e 8 (to_be e 8 v)) buf; Ok (buf, p + 8)%nat.

(** The loop of [Line::marshal]; [int] to [uint64_t] extends the sign. *)
Fixpoint Line_marshal_addrs (e : endian) (hash addrIndex : Z) (addrs : list (Z * Z))
    (st : bytes * nat) : res (bytes * nat) :=
  match addrs with
  | [] => Ok st
  | (addr, hits) :: addrs =>
      st ← (if bool_decide (hits = 0) then Ok st
            else
              st ← put_u64 e addr st;
              st ← put_u64 e hash st;
              st ← put_u64 e addrIndex st;
              put_u64 e (u64 hits) st);
      Line_marshal_addrs e hash (u32 (addrIndex + 1)) addrs st
  end.

Definition Line_marshal (e : endian) (l : Line) (st : bytes * nat) : res (bytes * nat) :=
  Line_marshal_addrs e (ln_lineId l) 0 (ln_addrs l) st.

Definition Line_marshalSize (l : Line) : nat :=
  length (filter (λ p, p.2 ≠ 0) (ln_addrs l)) * 8 * 4.

Definition get_u64 (e : endian) (data : bytes) (p : nat) : res Z :=
  b ← buf_read data p 8; Ok (be_to_host e 8 (native_val e b)).
Definition get_u32 (e : endian) (data : bytes) (p : nat) : res Z :=
  b ← buf_read data p 4; Ok (be_to_host e 4 (native_val e b)).

Record Entry := mkEntry { en_addr : Z; en_fileHash : Z; en_addrIndex : Z; en_hits : Z }.

Definition Line_unMarshal (e : endian) (data : bytes) (p : nat) : res (Entry * nat) :=
  addr ← get_u64 e data p;
  fileHash ← get_u64 e data (p + 8);
  index ← get_u64 e data (p + 16);
  hits ← get_u64 e data (p + 24);
  Ok (mkEntry addr fileHash index hits, p + 32)%nat.

(** ** File *)

Record File := mkFile {
  fl_fileHash : Z;
  fl_lines : list (option nat);   (* m_lines: pointers to lines, NULL is None *)
  fl_nrLines : Z;
}.

Definition new_File (hash : Z) : File := mkFile hash [] 0.

Abbreviation heap := (gmap nat Line).

(** [addLine]: [l] is where the line lives.  The vector index is checked
    because [lineNr + 1] can wrap. *)
Definition File_addLine (lineNr : Z) (l : nat) (line : Line) (f : File) : res File :=
  let lines := if Z.of_nat (length (fl_lines f)) <=? lineNr
               then resize (Z.to_nat (u32 (lineNr + 1))) None (fl_lines f) else fl_lines f in
  if bool_decide (Z.to_nat lineNr < length lines)%nat then
    Ok (mkFile (fl_fileHash f) (<[Z.to_nat lineNr:=Some l]> lines)
          (if ln_unreachable line then fl_nrLines f else u32 (fl_nrLines f + 1)))
  else Fault.

Definition File_getLine (lineNr : Z) (f : File) : option nat :=
  if Z.of_nat (length (fl_lines f)) <=? lineNr then None
  else fl_lines f !! Z.to_nat lineNr ≫= id.

(** The loops over [m_lines] skip the NULL pointers. *)
Definition File_fold {S} (h : heap) (body : Line → S → res S) (f : File) (s : S) : res S :=
  res_foldl (λ s cur, match cur with
                      | None => Ok s
                      | Some l => line ← or_fault (h !! l); body line s
                      end) s (fl_lines f).

Definition File_marshal (e : endian) (h : heap) (f : File) (st : bytes * nat)
  : res (bytes * nat) := File_fold h (Line_marshal e) f st.

Definition File_marshalSize (h : heap) (f : File) : res nat :=
  File_fold h (λ line out, Ok (out + Line_marshalSize line)%nat) f O.

Definition File_getExecutedLines (h : heap) (f : File) : res Z :=
  File_fold h (λ line out,
    if ln_unreachable line then Ok out
    else Ok (u32 (out + if bool_decide (Line_hits line = 0) then 0 else 1))) f 0.

Definition File_getNrLines (f : File) : Z := fl_nrLines f.

Definition File_lineIsCode (h : heap) (lineNr : Z) (f : File) : res bool :=
  match File_getLine lineNr f with
  | None => Ok false
  | Some l => line ← or_fault (h !! l); Ok (negb (ln_unreachable line))
  end.

(** ** Reporter *)

Record PendingFileAddress := mkPending { pf_index : Z; pf_hits : Z }.

Record Reporter (F : Type) := mkReporter {
  r_heap : heap;
  r_brk : nat;                                       (* next free location *)
  m_files : gmap bytes File;
  m_addrToLine : gmap Z (list nat);
  m_pendingFiles : gmap Z (list PendingFileAddress);
  m_lineIdToFileMap : gmap Z nat;
  m_filter : F;
  m_unmarshallingDone : bool;
  m_order : Z;
  r_out : list ReportCall;
}.
Arguments mkReporter {F}.
Arguments r_heap {F}.
Arguments r_brk {F}.
Arguments m_files {F}.
Arguments m_addrToLine {F}.
Arguments m_pendingFiles {F}.
Arguments m_lineIdToFileMap {F}.
Arguments m_filter {F}.
Arguments m_unmarshallingDone {F}.
Arguments m_order {F}.
Arguments r_out {F}.

Record LineExecutionCount := mkCount { lc_hits : Z; lc_possibleHits : Z; lc_order : Z }.
Record ExecutionSummary := mkSummary {
  es_lines : Z; es_executedLines : Z; es_includeInTotals : Z }.

Section reporter.
Context {F : Type} `{!IFilter F}.
Context (W : World) (e : endian).
(** The parser's answers, fixed for a run: [m_hashFilename] (the parser is the
    ELF parser), [m_maxPossibleHits], [getChecksum()]. *)
Context (hashFilename : bool) (maxPossibleHits : PossibleHits) (checksum : Z).
(** The iteration order of [m_files], an [unordered_map]. *)
Context (iter_files : gmap bytes File → list (bytes * File)).

Implicit Types r : Reporter F.

Definition singleShot : bool := bool_decide (maxPossibleHits ≠ HITS_UNLIMITED).

Definition new_Reporter (filter : F) : Reporter F :=
  mkReporter ∅ O ∅ ∅ ∅ ∅ filter false 1 [].

(** Field updates. *)
Definition set_heap (h : heap) r : Reporter F :=
  mkReporter h (r_brk r) (m_files r) (m_addrToLine r) (m_pendingFiles r)
    (m_lineIdToFileMap r) (m_filter r) (m_unmarshallingDone r) (m_order r) (r_out r).
Definition alloc_line (line : Line) r : nat * Reporter F :=
  (r_brk r,
   mkReporter (<[r_brk r:=line]> (r_heap r)) (S (r_brk r)) (m_files r) (m_addrToLine r)
     (m_pendingFiles r) (m_lineIdToFileMap r) (m_filter r) (m_unmarshallingDone r)
     (m_order r) (r_out r)).
Definition set_file (file : bytes) (f : File) r : Reporter F :=
  mkReporter (r_heap r) (r_brk r) (<[file:=f]> (m_files r)) (m_addrToLine r)
    (m_pendingFiles r) (m_lineIdToFileMap r) (m_filter r) (m_unmarshallingDone r)
    (m_order r) (r_out r).
Definition set_addrToLine (m : gmap Z (list nat)) r : Reporter F :=
  mkReporter (r_heap r) (r_brk r) (m_files r) m (m_pendingFiles r)
    (m_lineIdToFileMap r) (m_filter r) (m_unmarshallingDone r) (m_order r) (r_out r).
Definition set_pendingFiles (m : gmap Z (list PendingFileAddress)) r : Reporter F :=
  mkReporter (r_heap r) (r_brk r) (m_files r) (m_addrToLine r) m
    (m_lineIdToFileMap r) (m_filter r) (m_unmarshallingDone r) (m_order r) (r_out r).
Definition set_lineIdToFileMap (m : gmap Z nat) r : Reporter F :=
  mkReporter (r_heap r) (r_brk r) (m_files r) (m_addrToLine r) (m_pendingFiles r)
    m (m_filter r) (m_unmarshallingDone r) (m_order r) (r_out r).
Definition set_filter (f : F) r : Reporter F :=
  mkReporter (r_heap r) (r_brk r) (m_files r) (m_addrToLine r) (m_pendingFiles r)
    (m_lineIdToFileMap r) f (m_unmarshallingDone r) (m_order r) (r_out r).
Definition set_unmarshallingDone (b : bool) r : Reporter F :=
  mkReporter (r_heap r) (r_brk r) (m_files r) (m_addrToLine r) (m_pendingFiles r)
    (m_lineIdToFileMap r) (m_filter r) b (m_order r) (r_out r).
Definition set_order (o : Z) r : Reporter F :=
  mkReporter (r_heap r) (r_brk r) (m_files r) (m_addrToLine r) (m_pendingFiles r)
    (m_lineIdToFileMap r) (m_filter r) (m_unmarshallingDone r) o (r_out r).
Definition emit (c : ReportCall) r : Reporter F :=
  mkReporter (r_heap r) (r_brk r) (m_files r) (m_addrToLine r) (m_pendingFiles r)
    (m_lineIdToFileMap r) (m_filter r) (m_unmarshallingDone r) (m_order r) (r_out r ++ [c]).

(** Update the line a pointer refers to. *)
Definition update_line (l : nat) (f : Line → res Line) r : res (Reporter F) :=
  line ← or_fault (r_heap r !! l);
  line ← f line;
  Ok (set_heap (<[l:=line]> (r_heap r)) r).

Definition fileIsIncluded (file : bytes) r : bool := runFilters (m_filter r) file.

Definition lineIsCode (file : bytes) (lineNr : Z) r : res bool :=
  match m_files r !! file with
  | None => Ok false
  | Some f => File_lineIsCode (r_heap r) lineNr f
  end.

Definition getLineExecutionCount (file : bytes) (lineNr : Z) r : res LineExecutionCount :=
  match m_files r !! file with
  | None => Ok (mkCount 0 0 0)
  | Some f =>
      match File_getLine lineNr f with
      | None => Ok (mkCount 0 0 0)
      | Some l =>
          line ← or_fault (r_heap r !! l);
          if ln_unreachable line then Ok (mkCount 0 0 0)
          else Ok (mkCount (Line_hits line) (Line_possibleHits singleShot line) (ln_order line))
      end
  end.

Definition getExecutionSummary r : res ExecutionSummary :=
  '(executedLines, nrLines) ← res_foldl (λ '(ex, nr) '(fileName, file),
      if negb (w_file_exists W fileName) then Ok (ex, nr)
      else if negb (runFilters (m_filter r) fileName) then Ok (ex, nr)
      else n ← File_getExecutedLines (r_heap r) file;
           Ok (u32 (ex + n), u32 (nr + File_getNrLines file)))
    (0, 0) (iter_files (m_files r));
  Ok (mkSummary nrLines executedLines 1).

(** *** Listeners' notifications *)

Definition reportAddress (lineHash hits : Z) r : Reporter F := emit (OnAddress lineHash hits) r.

(** The body of [onAddressHit]'s loop. *)
Definition hit_line (addr hits : Z) r (l : nat) : res (Reporter F) :=
  r ← update_line l (Line_registerHit addr hits singleShot) r;
  line ← or_fault (r_heap r !! l);
  (* Setup the hit order *)
  r ← (if bool_decide (ln_order line = 0) then
         r ← update_line l (λ line, Ok (Line_setOrder (m_order r) line)) r;
         Ok (set_order (u64 (m_order r + 1)) r)
       else Ok r);
  Ok (reportAddress (ln_lineId line) hits r).

(** From [ICollector::IListener]. *)
Definition onAddressHit (addr hits : Z) r : res (Reporter F) :=
  match m_addrToLine r !! addr with
  | None => Ok r
  | Some ls =>
      res_foldl (hit_line addr hits) r ls
  end.

(** *** The database *)

Definition getMarshalEntrySize : nat := 4 * 8.
Definition sizeof_header : nat := 16.

Definition getMarshalSize r : res nat :=
  out ← res_foldl (λ out '(_, f), n ← File_marshalSize (r_heap r) f; Ok (out + n)%nat)
          O (iter_files (m_files r));
  Ok (out * getMarshalEntrySize + sizeof_header)%nat.

Definition marshalHeader (buf : bytes) : res (bytes * nat) :=
  buf ← buf_write 0 (native_bytes e 4 (to_be e 4 KCOV_MAGIC)) buf;
  buf ← buf_write 4 (native_bytes e 4 (to_be e 4 KCOV_DB_VERSION)) buf;
  buf ← buf_write 8 (native_bytes e 8 (to_be e 8 checksum)) buf;
  Ok (buf, sizeof_header).

Definition Reporter_marshal r : res bytes :=
  sz ← getMarshalSize r;
  st ← marshalHeader (zeros sz);
  '(buf, _) ← res_foldl (λ st '(_, f), File_marshal e (r_heap r) f st)
                st (iter_files (m_files r));
  Ok buf.

Definition unMarshalHeader (data : bytes) : res (option nat) :=
  magic ← get_u32 e data 0;
  if negb (magic =? KCOV_MAGIC) then Ok None
  else
    version ← get_u32 e data 4;
    if negb (version =? KCOV_DB_VERSION) then Ok None
    else
      sum ← get_u64 e data 8;
      if negb (sum =? checksum) then Ok None
      else Ok (Some sizeof_header).

(** The body of [unMarshal]'s loop. *)
Definition unMarshal_entry r (en : Entry) : res (Reporter F) :=
  if en_hits en =? 0 then Ok r
  else
    match m_addrToLine r !! en_addr en with
    | None =>
        match m_lineIdToFileMap r !! en_fileHash en with
        | None =>
            (* No line ID (shared library?). Add to pending *)
            let l := default [] (m_pendingFiles r !! en_fileHash en) in
            Ok (set_pendingFiles
                  (<[en_fileHash en:=l ++ [mkPending (en_addrIndex en) (en_hits en)]]>
                     (m_pendingFiles r)) r)
        | Some l =>
            (* line ID exists, but not address (PIEs etc) *)
            update_line l (λ line, Ok (Line_registerHitIndex (en_addrIndex en) (en_hits en) singleShot line))
              (reportAddress (en_fileHash en) (en_hits en) r)
        end
    | Some _ => onAddressHit (en_addr en) (en_hits en) r
    end.

(** [n] entries from [p] on.  Every iteration consumes 32 bytes of [data] or
    faults, so that [length data] is fuel enough. *)
Fixpoint unMarshal_loop (fuel : nat) (data : bytes) (p : nat) (n : Z) r : res (Reporter F) :=
  if n <=? 0 then Ok r
  else
    match fuel with
    | O => Fault
    | S fuel =>
        '(en, p) ← Line_unMarshal e data p;
        r ← unMarshal_entry r en;
        unMarshal_loop fuel data p (n - 1) r
    end.

(** [data] is the block, [sz] the size it is said to have: [size_t]
    arithmetic. *)
Definition unMarshal (data : bytes) (sz : Z) r : res (Reporter F * bool) :=
  h ← unMarshalHeader data;
  match h with
  | None => Ok (r, false)
  | Some p =>
      let n := u64 (sz - Z.of_nat p) / Z.of_nat getMarshalEntrySize in
      r ← unMarshal_loop (length data) data p n r;
      Ok (r, true)
  end.

(** Called when a file is added; [db] is the content of the database file. *)
Definition onFile (clean_output : bool) (db : option bytes) r : res (Reporter F) :=
  if m_unmarshallingDone r then Ok r
  else
    r ← (if clean_output then Ok r
         else match db with
              | None => Ok r
              | Some content =>
                  '(data, sz) ← or_fault (read_file content);
                  '(r, _) ← unMarshal data (Z.of_nat sz) r;
                  Ok r
              end);
    Ok (set_unmarshallingDone true r).

(** *** Lines *)

(** The hash of a new file: of the name for binaries, of the content (crc32)
    for scripts. *)
Definition file_hash (file : bytes) : Z :=
  if hashFilename then w_std_hash W file
  else match w_read_file W file with
       | Some data => w_hash_block W data
       | None => 0
       end.

(** Mark unreachable lines, [nr] counting from 1. *)
Fixpoint mark_unreachable (file : bytes) (lineNr nr : Z) (lines : list bytes)
    (st : File * Reporter F) : res (File * Reporter F) :=
  match lines with
  | [] => Ok st
  | text :: lines =>
      let '(fp, r) := st in
      let '(keep, filter) := runLineFilters (m_filter r) file lineNr text in
      let r := set_filter filter r in
      st ← (if keep then Ok (fp, r)
            else
              let line := new_Line (fl_fileHash fp) nr true in
              let '(l, r) := alloc_line line r in
              fp ← File_addLine nr l line fp;
              Ok (fp, r));
      mark_unreachable file lineNr (nr + 1) lines st
  end.

(** The file object of a line, created on first use. *)
Definition get_file (file : bytes) (lineNr : Z) r : res (File * Reporter F) :=
  match m_files r !! file with
  | Some fp => Ok (fp, r)
  | None =>
      '(fp, r) ← mark_unreachable file lineNr 1 (w_getLines W file) (new_File (file_hash file), r);
      Ok (fp, set_file file fp r)
  end.

(** The line object, created on first use. *)
Definition get_line (file : bytes) (fp : File) (lineNr : Z) r : res (nat * Reporter F) :=
  match File_getLine lineNr fp with
  | Some l => Ok (l, r)
  | None =>
      let line := new_Line (fl_fileHash fp) lineNr false in
      let '(l, r) := alloc_line line r in
      fp ← File_addLine lineNr l line fp;
      Ok (l, set_file file fp r)
  end.

(** [m_addrToLine[addr].push_back(line)] unless the list has a line of that id. *)
Definition link_address (addr : Z) (l : nat) (lineId : Z) r : res (Reporter F) :=
  let ls := default [] (m_addrToLine r !! addr) in
  dup ← res_foldl (λ dup k,
    line ← or_fault (r_heap r !! k);
    Ok (if bool_decide (lineId = ln_lineId line) then true else dup)) false ls;
  let ls := if dup : bool then ls else ls ++ [l] in
  Ok (set_addrToLine (<[addr:=ls]> (m_addrToLine r)) r).

(** Report pending addresses for this file/line. *)
Definition flush_pending (l : nat) (lineId : Z) r : res (Reporter F) :=
  match m_pendingFiles r !! lineId with
  | None => Ok r
  | Some vals =>
      r ← res_foldl (λ r val,
            update_line l
              (λ line, Ok (Line_registerHitIndex (pf_index val) (pf_hits val) singleShot line))
              (reportAddress lineId (pf_hits val) r)) r vals;
      Ok (set_pendingFiles (<[lineId:=[]]> (m_pendingFiles r)) r)
  end.

(** From [IFileParser::ILineListener]. *)
Definition onLine (file : bytes) (lineNr addr : Z) r : res (Reporter F) :=
  if negb (runFilters (m_filter r) file) then Ok r
  else
    '(fp, r) ← get_file file lineNr r;
    '(l, r) ← get_line file fp lineNr r;
    line ← or_fault (r_heap r !! l);
    let lineId := ln_lineId line in
    r ← update_line l (λ line, Ok (Line_addAddress addr line)) r;
    r ← link_address addr l lineId r;
    let r := set_lineIdToFileMap (<[lineId:=l]> (m_lineIdToFileMap r)) r in
    r ← flush_pending l lineId r;
    Ok (emit (OnLineReporter file lineNr lineId) r).
End reporter.

(** The merge mode's [DummyReporter]. *)
Definition DummyReporter_fileIsIncluded (file : bytes) : bool := false.
Definition DummyReporter_lineIsCode (file : bytes) (lineNr : Z) : bool := false.
Definition DummyReporter_getLineExecutionCount (file : bytes) (lineNr : Z) : LineExecutionCount :=
  mkCount 0 0 0.
Definition DummyReporter_getExecutionSummary : ExecutionSummary := mkSummary 0 0 1.
