(* ===== verification/ReporterInv.v ===== *)
(** * The reporter's invariant

    Every pointer the reporter keeps refers to a live line: the lines of the
    files, the address map and the line-id map.  The invariant holds initially
    and is kept by every notification the reporter handles, and under it none
    of them faults.  Lines only ever gain addresses, which is the order
    [heap_le] below. *)
From S2P Require Export Reporter.
From stdpp Require Import options.

(** ** Lines grow *)

Definition line_le (a b : Line) : Prop :=
  ln_lineId a = ln_lineId b ∧ ln_unreachable a = ln_unreachable b ∧
  (ln_addrs a).*1 `prefix_of` (ln_addrs b).*1.

Definition heap_le (h h' : heap) : Prop :=
  ∀ l a, h !! l = Some a → ∃ b, h' !! l = Some b ∧ line_le a b.

(** ** The invariant *)

Definition addr_ok (h : heap) (addr : Z) (l : nat) : Prop :=
  ∃ line, h !! l = Some line ∧ addr ∈ (ln_addrs line).*1.

Definition id_ok (h : heap) (id : Z) (l : nat) : Prop :=
  ∃ line, h !! l = Some line ∧ ln_lineId line = id.

Definition is_reachable (h : heap) (c : option nat) : bool :=
  match c ≫= (h !!.) with Some line => negb (ln_unreachable line) | None => false end.

Record file_ok (h : heap) (f : File) : Prop := {
  fo_len : Z.of_nat (length (fl_lines f)) < 2 ^ 32;
  fo_ids : ∀ nr l, fl_lines f !! nr = Some (Some l) →
    id_ok h (line_id (fl_fileHash f) (Z.of_nat nr)) l;
  fo_nr : fl_nrLines f = u32 (Z.of_nat (count_if (is_reachable h) (fl_lines f)));
}.

Definition NoDup_addrs (h : heap) : Prop :=
  map_Forall (λ _ line, NoDup (ln_addrs line).*1) h.

Definition ids_distinct (h : heap) (ls : list nat) : Prop :=
  ∀ l l' a b, l ∈ ls → l' ∈ ls → h !! l = Some a → h !! l' = Some b →
    ln_lineId a = ln_lineId b → l = l'.

Section inv.
Context {F : Type}.
Implicit Types r : Reporter F.

Record wf r : Prop := {
  wf_brk : map_Forall (λ l _, (l < r_brk r)%nat) (r_heap r);
  wf_nodup : NoDup_addrs (r_heap r);
  wf_files : map_Forall (λ _ f, file_ok (r_heap r) f) (m_files r);
  wf_addrs : map_Forall (λ a ls, Forall (addr_ok (r_heap r) a) ls) (m_addrToLine r);
  wf_lists : map_Forall (λ _ ls, NoDup ls) (m_addrToLine r);
  wf_ids : map_Forall (λ id l, id_ok (r_heap r) id l) (m_lineIdToFileMap r);
}.
End inv.

#[global] Instance line_le_preorder : PreOrder line_le.
Proof.
  split; [by intros a; repeat split|].
  intros a b c (?&?&?) (?&?&?). repeat split; [congruence..|by etrans].
Qed.
#[global] Instance heap_le_preorder : PreOrder heap_le.
Proof.
  split; [intros h l a ?; by exists a|].
  intros h1 h2 h3 H12 H23 l a (b & (c & ? & ?)%H23 & ?)%H12.
  exists c. split; [done|by etrans].
Qed.

Lemma addr_ok_mono h h' a l : heap_le h h' → addr_ok h a l → addr_ok h' a l.
Proof.
  intros Hh (x & (y & Hy & _ & _ & [k Hk])%Hh & Hin). exists y.
  split; [done|]. rewrite Hk. apply elem_of_app. by left.
Qed.
Lemma id_ok_mono h h' i l : heap_le h h' → id_ok h i l → id_ok h' i l.
Proof. intros Hh (x & (y & Hy & Hid & _)%Hh & <-). by exists y. Qed.

Lemma is_reachable_Some h l line :
  h !! l = Some line → is_reachable h (Some l) = negb (ln_unreachable line).
Proof. unfold is_reachable. cbn. by intros ->. Qed.

Lemma is_reachable_mono h h' c :
  heap_le h h' → (∀ l, c = Some l → ∃ i, id_ok h i l) → is_reachable h' c = is_reachable h c.
Proof.
  intros Hh Hc. destruct c as [l|]; [|done]. cbn.
  destruct (Hc l eq_refl) as (i & x & Hx & _).
  destruct (Hh _ _ Hx) as (y & Hy & _ & Hu & _). by rewrite (is_reachable_Some _ _ _ Hx), (is_reachable_Some _ _ _ Hy), Hu.
Qed.

Lemma count_reachable_mono h h' f :
  heap_le h h' → file_ok h f →
  count_if (is_reachable h') (fl_lines f) = count_if (is_reachable h) (fl_lines f).
Proof.
  intros Hh Hf. apply count_if_ext. intros c [nr Hnr]%list_elem_of_lookup.
  apply is_reachable_mono; [done|]. intros l ->. eauto using fo_ids.
Qed.

Lemma file_ok_mono h h' f : heap_le h h' → file_ok h f → file_ok h' f.
Proof.
  intros Hh Hf. split.
  - by apply Hf.
  - intros. eapply id_ok_mono, fo_ids; eauto.
  - rewrite (count_reachable_mono h) by done. apply Hf.
Qed.
Lemma addrs_ok_mono h h' a ls :
  heap_le h h' → Forall (addr_ok h a) ls → Forall (addr_ok h' a) ls.
Proof. intros Hh Hf. eapply Forall_impl; [exact Hf|]. intros l. by apply addr_ok_mono. Qed.
#[export] Hint Resolve addr_ok_mono id_ok_mono file_ok_mono addrs_ok_mono : kcov.

(** Replacing a line by a greater one, and allocating. *)
Lemma heap_le_update h l a b : h !! l = Some a → line_le a b → heap_le h (<[l:=b]> h).
Proof.
  intros Hl Hab k c Hk. destruct (decide (l = k)) as [<-|Hne].
  - exists b. rewrite lookup_insert_eq. split; [done|congruence].
  - exists c. by rewrite lookup_insert_ne.
Qed.
Lemma heap_le_alloc h l a : h !! l = None → heap_le h (<[l:=a]> h).
Proof. intros Hl k c Hk. exists c. rewrite lookup_insert_ne; [done|congruence]. Qed.

(** ** Lines *)

Lemma Line_addAddress_le a l : line_le l (Line_addAddress a l).
Proof.
  unfold Line_addAddress. case_bool_decide; [done|].
  repeat split; cbn. rewrite fmap_app. by apply prefix_app_r.
Qed.
Lemma Line_addAddress_in a l : a ∈ (ln_addrs (Line_addAddress a l)).*1.
Proof.
  unfold Line_addAddress. case_bool_decide; [done|].
  cbn. rewrite fmap_app. apply elem_of_app. right. by left.
Qed.
Lemma Line_addAddress_nodup a l :
  NoDup (ln_addrs l).*1 → NoDup (ln_addrs (Line_addAddress a l)).*1.
Proof.
  intros H. unfold Line_addAddress. case_bool_decide; [done|].
  cbn. rewrite fmap_app. apply NoDup_app. split; [done|]. split; [|apply NoDup_singleton].
  set_solver.
Qed.

(** What a hit does to the entries of a line, as a map. *)
Definition hit_addrs (addr : Z) (f : Z → Z) (addrs : list (Z * Z)) : list (Z * Z) :=
  (λ '(a, h), (a, if bool_decide (a = addr) then f h else h)) <$> addrs.

Lemma hit_addrs_notin a f l : a ∉ l.*1 → hit_addrs a f l = l.
Proof.
  induction l as [|[b h] l IH]; cbn; [done|]. rewrite not_elem_of_cons. intros [??].
  rewrite bool_decide_eq_false_2 by done. f_equal. by apply IH.
Qed.
Lemma addr_update_hit a f l :
  NoDup l.*1 → a ∈ l.*1 → addr_update a f l = Some (hit_addrs a f l).
Proof.
  induction l as [|[b h] l IH]; cbn; [by intros _ ?%not_elem_of_nil|].
  intros [Hb Hn]%NoDup_cons Ha. case_bool_decide as E.
  - subst. do 2 f_equal. symmetry. by apply hit_addrs_notin.
  - apply elem_of_cons in Ha as [->|Ha]; [done|]. rewrite IH by done. done.
Qed.

Definition hit_value (singleShot : bool) (hits h : Z) : Z :=
  if singleShot then 1 else s32 (h + hits).

Lemma Line_registerHit_eq addr hits ss l :
  NoDup (ln_addrs l).*1 → addr ∈ (ln_addrs l).*1 →
  Line_registerHit addr hits ss l =
    Ok (Line_with_addrs (hit_addrs addr (hit_value ss hits) (ln_addrs l)) l).
Proof. intros. unfold Line_registerHit. by rewrite addr_update_hit. Qed.

Lemma hit_addrs_fst a f l : (hit_addrs a f l).*1 = l.*1.
Proof. unfold hit_addrs. rewrite <-list_fmap_compose. apply list_fmap_ext. by intros ? []. Qed.

Lemma Line_registerHitIndex_fst i h ss l :
  (ln_addrs (Line_registerHitIndex i h ss l)).*1 = (ln_addrs l).*1.
Proof.
  unfold Line_registerHitIndex. case_match; [done|]. cbn.
  apply list_eq. intros n. rewrite !list_lookup_fmap, list_lookup_alter.
  case_decide; [|done]. subst. by destruct (ln_addrs l !! _) as [[??]|].
Qed.
Lemma Line_registerHitIndex_le i h ss l : line_le l (Line_registerHitIndex i h ss l).
Proof.
  repeat split.
  - unfold Line_registerHitIndex. by case_match.
  - unfold Line_registerHitIndex. by case_match.
  - by rewrite Line_registerHitIndex_fst.
Qed.

(** ** Updates of the state *)

Section keep.
Context {F : Type}.
Implicit Types r : Reporter F.

Lemma wf_heap_grow r h :
  wf r → heap_le (r_heap r) h → NoDup_addrs h →
  map_Forall (λ l _, (l < r_brk r)%nat) h → wf (set_heap h r).
Proof.
  intros H Hh Hn Hb. split; cbn; [done|done|..].
  - eapply map_Forall_impl; [by apply (wf_files r H)|]. cbn. eauto with kcov.
  - eapply map_Forall_impl; [by apply (wf_addrs r H)|].
    cbn. eauto with kcov.
  - apply H.
  - eapply map_Forall_impl; [by apply (wf_ids r H)|]. cbn. eauto with kcov.
Qed.

(** An update that only adds addresses or hits. *)
Lemma update_line_ok r l a b f :
  wf r → r_heap r !! l = Some a → f a = Ok b → line_le a b → NoDup (ln_addrs b).*1 →
  let h := <[l:=b]> (r_heap r) in
  update_line l f r = Ok (set_heap h r) ∧ wf (set_heap h r) ∧ heap_le (r_heap r) h.
Proof.
  intros H Hl Hf Hab Hb h. unfold update_line. rewrite Hl. cbn. rewrite Hf. cbn.
  assert (heap_le (r_heap r) h) by eauto using heap_le_update.
  split; [done|]. split; [|done]. apply wf_heap_grow; [done|done|..].
  - apply map_Forall_insert_2; [done|]. apply H.
  - apply map_Forall_insert_2; [|by apply H]. by apply (wf_brk r H l a).
Qed.

(** Changes that the invariant does not mention. *)
Lemma wf_same r r' :
  r_heap r' = r_heap r → r_brk r' = r_brk r → m_files r' = m_files r →
  m_addrToLine r' = m_addrToLine r → m_lineIdToFileMap r' = m_lineIdToFileMap r →
  wf r → wf r'.
Proof. intros E1 E2 E3 E4 E5 []. split; by rewrite ?E1, ?E2, ?E3, ?E4, ?E5. Qed.

Lemma wf_emit c r : wf r → wf (emit c r).
Proof. by apply wf_same. Qed.
Lemma wf_set_pending m r : wf r → wf (set_pendingFiles m r).
Proof. by apply wf_same. Qed.
Lemma wf_set_filter f r : wf r → wf (set_filter f r).
Proof. by apply wf_same. Qed.
Lemma wf_set_order o r : wf r → wf (set_order o r).
Proof. by apply wf_same. Qed.
Lemma wf_set_done b r : wf r → wf (set_unmarshallingDone b r).
Proof. by apply wf_same. Qed.

Lemma wf_set_file name f r : wf r → file_ok (r_heap r) f → wf (set_file name f r).
Proof. intros [] ?. split; cbn; [done..| |done|done|done]. by apply map_Forall_insert_2. Qed.

Lemma wf_set_id id l r :
  wf r → id_ok (r_heap r) id l → wf (set_lineIdToFileMap (<[id:=l]> (m_lineIdToFileMap r)) r).
Proof. intros [] ?. split; cbn; try done. by apply map_Forall_insert_2. Qed.

Lemma wf_new_Reporter flt : wf (@new_Reporter F flt).
Proof. split; cbn; apply map_Forall_empty. Qed.

(** A new line, not yet reachable from anywhere. *)
Lemma alloc_line_ok line r :
  wf r → NoDup (ln_addrs line).*1 →
  let '(l, r') := alloc_line line r in
  wf r' ∧ heap_le (r_heap r) (r_heap r') ∧ r_heap r' !! l = Some line ∧
  m_files r' = m_files r.
Proof.
  intros H Hn. cbn.
  assert (Hfresh : r_heap r !! r_brk r = None).
  { destruct (r_heap r !! r_brk r) as [a|] eqn:E; [|done].
    pose proof (wf_brk r H _ _ E). cbn in *. lia. }
  assert (Hle : heap_le (r_heap r) (<[r_brk r:=line]> (r_heap r)))
    by by apply heap_le_alloc.
  split; [|by rewrite lookup_insert_eq].
  split; cbn.
  - apply map_Forall_insert_2; [lia|].
    eapply map_Forall_impl; [by apply (wf_brk r H)|]. cbn. lia.
  - apply map_Forall_insert_2; [done|]. apply H.
  - eapply map_Forall_impl; [by apply (wf_files r H)|]. cbn. eauto with kcov.
  - eapply map_Forall_impl; [by apply (wf_addrs r H)|].
    cbn. eauto with kcov.
  - apply H.
  - eapply map_Forall_impl; [by apply (wf_ids r H)|]. cbn. eauto with kcov.
Qed.
End keep.

(** ** Operations *)

Lemma File_getLine_lookup nr f :
  0 ≤ nr → File_getLine nr f = mjoin (fl_lines f !! Z.to_nat nr).
Proof.
  intros. unfold File_getLine. destruct (_ <=? _) eqn:E.
  - rewrite lookup_ge_None_2; [done|lia].
  - by destruct (fl_lines f !! _).
Qed.

(** The vector after the resize of [addLine]. *)
Definition grown (nr : Z) (lines : list (option nat)) : list (option nat) :=
  lines ++ replicate (S (Z.to_nat nr) - length lines) None.

Lemma File_addLine_eq nr l line f :
  0 ≤ nr < 2 ^ 32 - 1 →
  File_addLine nr l line f =
    Ok (mkFile (fl_fileHash f) (<[Z.to_nat nr:=Some l]> (grown nr (fl_lines f)))
          (if ln_unreachable line then fl_nrLines f else u32 (fl_nrLines f + 1))).
Proof.
  intros Hnr. unfold File_addLine, grown.
  destruct (_ <=? _) eqn:E.
  - rewrite uw_small by lia. replace (Z.to_nat (nr + 1)) with (S (Z.to_nat nr)) by lia.
    rewrite resize_ge by lia. rewrite bool_decide_eq_true_2; [done|].
    rewrite length_app, length_replicate. lia.
  - replace (_ - _)%nat with O by lia. cbn. rewrite app_nil_r, bool_decide_eq_true_2 by lia.
    done.
Qed.

Lemma length_grown nr lines : length (grown nr lines) = max (length lines) (S (Z.to_nat nr)).
Proof. unfold grown. rewrite length_app, length_replicate. lia. Qed.

Lemma lookup_grown nr lines k l : grown nr lines !! k = Some (Some l) → lines !! k = Some (Some l).
Proof.
  unfold grown. intros [H|[_ [? _]%lookup_replicate]]%lookup_app_Some; [done|].
  done.
Qed.

Lemma lookup_grown_slot nr f :
  0 ≤ nr → File_getLine nr f = None → grown nr (fl_lines f) !! Z.to_nat nr = Some None.
Proof.
  intros Hnr Hg. rewrite File_getLine_lookup in Hg by done.
  destruct (grown nr (fl_lines f) !! Z.to_nat nr) as [[l|]|] eqn:E; [|done|].
  - apply lookup_grown in E. by rewrite E in Hg.
  - apply lookup_ge_None in E. rewrite length_grown in E. lia.
Qed.

Lemma File_addLine_ok h nr l line f :
  file_ok h f → 0 ≤ nr < 2 ^ 32 - 1 → File_getLine nr f = None →
  h !! l = Some line → ln_lineId line = line_id (fl_fileHash f) nr →
  ∃ f', File_addLine nr l line f = Ok f' ∧ file_ok h f' ∧
    length (fl_lines f') = max (length (fl_lines f)) (S (Z.to_nat nr)) ∧
    fl_fileHash f' = fl_fileHash f.
Proof.
  intros Hf Hnr Hg Hl Hid. rewrite File_addLine_eq by done. eexists. split; [done|].
  pose proof (lookup_grown_slot nr f ltac:(lia) Hg) as Hslot.
  pose proof (fo_len _ _ Hf). cbn. rewrite length_insert, length_grown.
  split; [|done]. split; cbn.
  - rewrite length_insert, length_grown. lia.
  - intros k l' [(<- & [= <-] & _)|[_ Hk%lookup_grown]]%list_lookup_insert_Some.
    + exists line. rewrite Z2Nat.id by lia. done.
    + by apply (fo_ids _ _ Hf).
  - rewrite (count_if_insert _ _ _ None) by done. unfold grown.
    rewrite count_if_app, count_if_replicate_false by done.
    rewrite (fo_nr _ _ Hf), (is_reachable_Some _ _ _ Hl).
    destruct (ln_unreachable line); cbn; rewrite Nat.add_0_r.
    + by rewrite Nat.add_0_r.
    + rewrite uw_add_l. f_equal. lia.
Qed.

Section ops.
Context {F : Type} `{!IFilter F}.
Context (W : World) (e : endian) (hashFilename : bool) (maxPossibleHits : PossibleHits).
Implicit Types r : Reporter F.

Lemma mark_unreachable_ok file lineNr lines : ∀ nr fp r,
  wf r → file_ok (r_heap r) fp → 1 ≤ nr → nr + Z.of_nat (length lines) < 2 ^ 32 →
  Z.of_nat (length (fl_lines fp)) ≤ nr →
  ∃ fp' r', mark_unreachable file lineNr nr lines (fp, r) = Ok (fp', r') ∧
    wf r' ∧ heap_le (r_heap r) (r_heap r') ∧ file_ok (r_heap r') fp' ∧
    m_files r' = m_files r.
Proof.
  induction lines as [|text lines IH]; intros nr fp r Hr Hf Hnr Hmax Hlen.
  { exists fp, r. by cbn. }
  cbn [length] in Hmax. cbn [mark_unreachable].
  destruct (runLineFilters (m_filter r) file lineNr text) as [keep filter].
  assert (Hr1 : wf (set_filter filter r)) by by apply wf_set_filter.
  destruct keep; cbn [mbind res_mbind res_bind].
  { destruct (IH (nr + 1) fp (set_filter filter r)) as (?&?&?&?&?&?&?); [done|done|lia..|].
    by eexists _, _. }
  destruct (alloc_line (new_Line (fl_fileHash fp) nr true) (set_filter filter r))
    as [l r2] eqn:E2.
  pose proof (alloc_line_ok (new_Line (fl_fileHash fp) nr true) _ Hr1 ltac:(constructor)) as H2.
  rewrite E2 in H2. destruct H2 as (Hr2 & Hle & Hl & Hfs).
  destruct (File_addLine_ok (r_heap r2) nr l (new_Line (fl_fileHash fp) nr true) fp)
    as (fp' & -> & Hf' & Hlen' & _); [by eauto with kcov|lia| |done|done|].
  { rewrite File_getLine_lookup, lookup_ge_None_2 by lia. done. }
  cbn. destruct (IH (nr + 1) fp' r2) as (fp'' & r' & Heq & ? & ? & ? & Hfs'); [done|done|lia..|].
  exists fp'', r'. split; [done|]. split; [done|]. split; [by etrans|].
  split; [done|]. by rewrite Hfs', Hfs.
Qed.

(** The lines the cache has of a file are fewer than [unsigned int] counts. *)
Definition lines_bounded : Prop :=
  ∀ file, Z.of_nat (length (w_getLines W file)) < 2 ^ 32 - 1.

Lemma get_file_ok file lineNr r :
  lines_bounded → wf r →
  ∃ fp r', get_file W hashFilename file lineNr r = Ok (fp, r') ∧
    wf r' ∧ heap_le (r_heap r) (r_heap r') ∧ m_files r' !! file = Some fp.
Proof.
  intros HW Hr. unfold get_file. destruct (m_files r !! file) as [fp|] eqn:E.
  { exists fp, r. done. }
  destruct (mark_unreachable_ok file lineNr (w_getLines W file) 1
              (new_File (file_hash W hashFilename file)) r)
    as (fp & r' & -> & Hw & Hle & Hf & _); [done| |done|by specialize (HW file); lia|done|].
  { by split. }
  cbn. eexists _, _. split; [done|]. split; [by apply wf_set_file|].
  split; [done|]. cbn. by rewrite lookup_insert_eq.
Qed.

Lemma get_line_ok file fp lineNr r :
  wf r → m_files r !! file = Some fp → 0 ≤ lineNr < 2 ^ 32 - 1 →
  ∃ l r', get_line file fp lineNr r = Ok (l, r') ∧
    wf r' ∧ heap_le (r_heap r) (r_heap r') ∧
    id_ok (r_heap r') (line_id (fl_fileHash fp) lineNr) l.
Proof.
  intros Hr Hf Hnr. pose proof (wf_files r Hr _ _ Hf) as Hok. unfold get_line.
  destruct (File_getLine lineNr fp) as [l|] eqn:E.
  - exists l, r. split; [done|]. split; [done|]. split; [done|].
    rewrite File_getLine_lookup in E by lia.
    destruct (fl_lines fp !! Z.to_nat lineNr) as [[l'|]|] eqn:E'; try done.
    injection E as ->. pose proof (fo_ids _ _ Hok _ _ E') as Hid.
    by rewrite Z2Nat.id in Hid by lia.
  - destruct (alloc_line (new_Line (fl_fileHash fp) lineNr false) r) as [l r1] eqn:E1.
    pose proof (alloc_line_ok (new_Line (fl_fileHash fp) lineNr false) _ Hr ltac:(constructor)) as H2.
    rewrite E1 in H2. destruct H2 as (Hr1 & Hle & Hl & Hfs).
    destruct (File_addLine_ok (r_heap r1) lineNr l (new_Line (fl_fileHash fp) lineNr false) fp)
      as (fp' & -> & Hf' & _); [by eauto with kcov|done..|].
    cbn. eexists _, _. split; [done|]. split; [by apply wf_set_file|].
    split; [done|]. by eexists.
Qed.

(** The search for a line of the same id in the list of an address. *)
Definition has_id (h : heap) (id : Z) (k : nat) : bool :=
  match h !! k with Some line => bool_decide (id = ln_lineId line) | None => false end.

Lemma dup_loop (h : heap) id ls d :
  Forall (λ k, is_Some (h !! k)) ls →
  res_foldl (λ dup k, line ← or_fault (h !! k);
    Ok (if bool_decide (id = ln_lineId line) then true else dup)) d ls =
  Ok (d || existsb (has_id h id) ls).
Proof.
  intros H. revert d. induction H as [|k ls [x Hx] Hls IH]; intros d; cbn.
  { by rewrite orb_false_r. }
  rewrite Hx. cbn. rewrite IH. unfold has_id at 2. rewrite Hx.
  case_bool_decide; destruct d; done.
Qed.

Lemma wf_set_addrs r addr ls :
  wf r → Forall (addr_ok (r_heap r) addr) ls → NoDup ls →
  wf (set_addrToLine (<[addr:=ls]> (m_addrToLine r)) r).
Proof. intros [] ??. split; cbn; try done; by apply map_Forall_insert_2. Qed.

Lemma link_address_ok addr l lineId r :
  wf r → id_ok (r_heap r) lineId l → addr_ok (r_heap r) addr l →
  ∃ m, link_address addr l lineId r = Ok (set_addrToLine m r) ∧ wf (set_addrToLine m r).
Proof.
  intros Hr Hid Ha. unfold link_address.
  set (ls := default [] (m_addrToLine r !! addr)).
  assert (Forall (addr_ok (r_heap r) addr) ls ∧ NoDup ls) as [Hls Hnd].
  { unfold ls. destruct (m_addrToLine r !! addr) as [k|] eqn:E; [|by repeat constructor].
    split; [by apply (wf_addrs r Hr _ _ E)|by apply (wf_lists r Hr _ _ E)]. }
  rewrite dup_loop by by eapply Forall_impl; [exact Hls|]; intros ? (?&?&_); eexists.
  cbn. destruct (existsb _ ls) eqn:Hdup.
  - eexists. split; [done|]. apply wf_set_addrs; done.
  - eexists. split; [done|]. apply wf_set_addrs; [done|..].
    + apply Forall_app. split; [done|]. by apply Forall_singleton.
    + apply NoDup_app. split; [done|]. split; [|apply NoDup_singleton].
      intros k Hk ->%list_elem_of_singleton.
      enough (existsb (has_id (r_heap r) lineId) ls = true) by congruence.
      apply existsb_exists. exists l. split; [by apply list_elem_of_In|].
      destruct Hid as (y & Hy & <-). unfold has_id. rewrite Hy.
      by apply bool_decide_eq_true_2.
Qed.

(** Registering hits by index: only counters change. *)
Lemma registerHitIndex_ok r l i hits ss :
  wf r → is_Some (r_heap r !! l) →
  ∃ r', update_line l (λ line, Ok (Line_registerHitIndex i hits ss line)) r = Ok r' ∧
    wf r' ∧ heap_le (r_heap r) (r_heap r').
Proof.
  intros Hr [a Ha].
  destruct (update_line_ok r l a (Line_registerHitIndex i hits ss a)
    (λ line, Ok (Line_registerHitIndex i hits ss line))) as (-> & Hw & Hle); [done|done|done|..].
  - apply Line_registerHitIndex_le.
  - rewrite Line_registerHitIndex_fst. by apply (wf_nodup r Hr l).
  - eexists. done.
Qed.

Lemma flush_pending_ok l lineId r :
  wf r → is_Some (r_heap r !! l) →
  ∃ r', flush_pending maxPossibleHits l lineId r = Ok r' ∧ wf r' ∧
    heap_le (r_heap r) (r_heap r').
Proof.
  intros Hr Hl. unfold flush_pending. destruct (m_pendingFiles r !! lineId) as [vals|]; [|by exists r].
  destruct (res_foldl_total (λ r', wf r' ∧ heap_le (r_heap r) (r_heap r'))
    (λ r val, update_line l
       (λ line, Ok (Line_registerHitIndex (pf_index val) (pf_hits val)
                      (singleShot maxPossibleHits) line))
       (reportAddress lineId (pf_hits val) r)) r vals) as (r' & -> & Hw & Hle).
  - intros r1 v [H1 Hle] _.
    destruct (registerHitIndex_ok (reportAddress lineId (pf_hits v) r1) l (pf_index v)
      (pf_hits v) (singleShot maxPossibleHits)) as (r2 & -> & H2 & Hle2).
    + by apply wf_emit.
    + destruct Hl as [a (b & Hb & _)%Hle]. by eexists.
    + exists r2. split; [done|]. split; [done|]. by etrans.
  - done.
  - cbn. eexists. split; [done|]. split; [by apply wf_set_pending|done].
Qed.

Lemma onLine_ok file lineNr addr r :
  lines_bounded → 0 ≤ lineNr < 2 ^ 32 - 1 → wf r →
  ∃ r', onLine W hashFilename maxPossibleHits file lineNr addr r = Ok r' ∧ wf r' ∧
    heap_le (r_heap r) (r_heap r').
Proof.
  intros HW Hnr Hr. unfold onLine. destruct (negb _); [by exists r|].
  destruct (get_file_ok file lineNr r) as (fp & r1 & -> & H1 & Hle1 & Hfp); [done..|]. cbn.
  destruct (get_line_ok file fp lineNr r1) as (l & r2 & -> & H2 & Hle2 & (a & Ha & Hid)); [done..|].
  cbn. rewrite Ha. cbn.
  destruct (update_line_ok r2 l a (Line_addAddress addr a)
    (λ line, Ok (Line_addAddress addr line))) as (-> & H3 & Hle3); [done|done|done|..].
  { apply Line_addAddress_le. }
  { apply Line_addAddress_nodup, (wf_nodup r2 H2 l a Ha). }
  cbn. set (r3 := set_heap _ r2) in *.
  assert (Hl3 : r_heap r3 !! l = Some (Line_addAddress addr a)) by (cbn; by rewrite lookup_insert_eq).
  assert (Hid3 : id_ok (r_heap r3) (ln_lineId a) l).
  { eexists. split; [done|]. unfold Line_addAddress. by case_bool_decide. }
  destruct (link_address_ok addr l (ln_lineId a) r3) as (m & -> & H4); [done|done|..].
  { eexists. split; [done|]. apply Line_addAddress_in. }
  cbn. set (r5 := set_lineIdToFileMap _ _).
  assert (H5 : wf r5) by by apply (wf_set_id _ _ (set_addrToLine m r3)).
  destruct (flush_pending_ok l (ln_lineId a) r5) as (r6 & -> & H6 & Hle6); [done|by eexists|].
  cbn. eexists. split; [done|]. split; [by apply wf_emit|].
  cbn. etrans; [done|]. etrans; [done|]. by etrans.
Qed.

(** ** Hits *)

Definition line_id_at (h : heap) (l : nat) : Z := from_option ln_lineId 0 (h !! l).

(** The effect of a hit of [addr] on the lines [ls]: their entries of that
    address are updated, every other line is as before, and each line is
    reported once, in order.  A line that has an order keeps it. *)
Record hit_post (addr hits : Z) (ls : list nat) r r' : Prop := {
  hp_wf : wf r';
  hp_le : heap_le (r_heap r) (r_heap r');
  hp_lines : ∀ l a, r_heap r !! l = Some a → ∃ b, r_heap r' !! l = Some b ∧
    ln_addrs b = (if bool_decide (l ∈ ls)
                  then hit_addrs addr (hit_value (singleShot maxPossibleHits) hits) (ln_addrs a)
                  else ln_addrs a) ∧
    (ln_order a ≠ 0 → ln_order b = ln_order a);
  hp_files : m_files r' = m_files r;
  hp_addrs : m_addrToLine r' = m_addrToLine r;
  hp_ids : m_lineIdToFileMap r' = m_lineIdToFileMap r;
  hp_pending : m_pendingFiles r' = m_pendingFiles r;
  hp_done : m_unmarshallingDone r' = m_unmarshallingDone r;
  hp_out : r_out r' = r_out r ++ ((λ l, OnAddress (line_id_at (r_heap r) l) hits) <$> ls);
}.

Lemma hit_post_nil addr hits r : wf r → hit_post addr hits [] r r.
Proof.
  intros Hr. split; try done.
  - intros l a Hl. exists a. split; [done|]. split; [|done].
    rewrite bool_decide_eq_false_2; [done|apply not_elem_of_nil].
  - by rewrite app_nil_r.
Qed.

Lemma line_id_at_le h h' l : heap_le h h' → is_Some (h !! l) → line_id_at h' l = line_id_at h l.
Proof.
  intros Hle [a Ha]. destruct (Hle _ _ Ha) as (b & Hb & Hid & _).
  unfold line_id_at. by rewrite Ha, Hb.
Qed.

Lemma hit_post_cons addr hits l ls r r1 r2 :
  l ∉ ls → Forall (λ l, is_Some (r_heap r !! l)) ls →
  hit_post addr hits [l] r r1 → hit_post addr hits ls r1 r2 →
  hit_post addr hits (l :: ls) r r2.
Proof.
  intros Hl Hls H1 H2. split; [by apply H2|etrans; [apply H1|apply H2]|..].
  - intros k a Ha. destruct (hp_lines _ _ _ _ _ H1 _ _ Ha) as (b & Hb & Hab & Ho1).
    destruct (hp_lines _ _ _ _ _ H2 _ _ Hb) as (c & Hc & Hbc & Ho2).
    exists c. split; [done|]. split.
    + rewrite Hbc, Hab. repeat case_bool_decide; set_solver.
    + intros ?. rewrite Ho2; auto. by rewrite Ho1.
  - by rewrite (hp_files _ _ _ _ _ H2), (hp_files _ _ _ _ _ H1).
  - by rewrite (hp_addrs _ _ _ _ _ H2), (hp_addrs _ _ _ _ _ H1).
  - by rewrite (hp_ids _ _ _ _ _ H2), (hp_ids _ _ _ _ _ H1).
  - by rewrite (hp_pending _ _ _ _ _ H2), (hp_pending _ _ _ _ _ H1).
  - by rewrite (hp_done _ _ _ _ _ H2), (hp_done _ _ _ _ _ H1).
  - rewrite (hp_out _ _ _ _ _ H2), (hp_out _ _ _ _ _ H1), <-app_assoc. f_equal. cbn. f_equal.
    apply list_fmap_ext. intros i k Hk%list_elem_of_lookup_2.
    rewrite (line_id_at_le _ _ _ (hp_le _ _ _ _ _ H1)); [done|].
    by eapply Forall_forall in Hls.
Qed.

Lemma hit_line_ok addr hits r l :
  wf r → addr_ok (r_heap r) addr l →
  ∃ r', hit_line maxPossibleHits addr hits r l = Ok r' ∧ hit_post addr hits [l] r r'.
Proof.
  intros Hr (a & Ha & Hin). pose proof (wf_nodup r Hr _ _ Ha) as Hnd.
  set (ss := singleShot maxPossibleHits).
  set (b := Line_with_addrs (hit_addrs addr (hit_value ss hits) (ln_addrs a)) a).
  assert (Hab : line_le a b).
  { repeat split. unfold b. cbn. by rewrite hit_addrs_fst. }
  assert (Hb : NoDup (ln_addrs b).*1) by (cbn; by rewrite hit_addrs_fst).
  destruct (update_line_ok r l a b (Line_registerHit addr hits ss)) as (Heq & Hw & Hle);
    [done|done|by apply Line_registerHit_eq|done|done|].
  unfold hit_line. fold ss. rewrite Heq. cbn. rewrite lookup_insert_eq. cbn.
  assert (Hid : line_id_at (r_heap r) l = ln_lineId a) by (unfold line_id_at; by rewrite Ha).
  case_bool_decide as Ho.
  - set (r1 := set_heap _ r) in *.
    destruct (update_line_ok r1 l b (Line_setOrder (m_order r) b)
      (λ line, Ok (Line_setOrder (m_order r) line))) as (Heq2 & Hw2 & Hle2);
      [done|cbn; by rewrite lookup_insert_eq|done|done|done|].
    cbn [m_order r1 set_heap]. rewrite Heq2. cbn. eexists. split; [done|].
    split; cbn; try done.
    + apply wf_emit, wf_set_order, Hw2.
    + etrans; [exact Hle|exact Hle2].
    + intros k c Hk. destruct (decide (k = l)) as [->|Hne].
      * rewrite Ha in Hk. injection Hk as <-. rewrite lookup_insert_eq. eexists. split; [done|].
        rewrite bool_decide_eq_true_2 by by apply list_elem_of_singleton. by split.
      * rewrite !lookup_insert_ne by done. exists c. split; [done|].
        rewrite bool_decide_eq_false_2 by by rewrite list_elem_of_singleton. done.
    + by rewrite Hid.
  - eexists. split; [done|]. split; cbn; try done.
    + by apply wf_emit.
    + intros k c Hk. destruct (decide (k = l)) as [->|Hne].
      * rewrite Ha in Hk. injection Hk as <-. rewrite lookup_insert_eq. eexists. split; [done|].
        rewrite bool_decide_eq_true_2 by by apply list_elem_of_singleton. by split.
      * rewrite lookup_insert_ne by done. exists c. split; [done|].
        rewrite bool_decide_eq_false_2 by by rewrite list_elem_of_singleton. done.
    + by rewrite Hid.
Qed.

Lemma hit_lines_ok addr hits ls : ∀ r,
  wf r → NoDup ls → Forall (addr_ok (r_heap r) addr) ls →
  ∃ r', res_foldl (hit_line maxPossibleHits addr hits) r ls = Ok r' ∧
    hit_post addr hits ls r r'.
Proof.
  induction ls as [|l ls IH]; intros r Hr Hnd Hls.
  { exists r. split; [done|by apply hit_post_nil]. }
  apply NoDup_cons in Hnd as [Hl Hnd]. apply Forall_cons in Hls as [Hx Hls].
  destruct (hit_line_ok addr hits r l) as (r1 & Heq & H1); [done|done|].
  cbn. rewrite Heq. cbn. pose proof (hp_le _ _ _ _ _ H1).
  destruct (IH r1) as (r2 & Heq2 & H2); [by apply H1|done|by eauto with kcov|].
  exists r2. split; [done|]. eapply hit_post_cons; [done| |done|done].
  eapply Forall_impl; [exact Hls|]. intros ? (? & ? & _). by eexists.
Qed.

Definition lines_at r addr : list nat := default [] (m_addrToLine r !! addr).

(** The state after a hit, exactly: the counter, the order for a line that has none
    yet, and the call. *)
Definition hit_Line (addr hits o : Z) (a : Line) : Line :=
  mkLine (hit_addrs addr (hit_value (singleShot maxPossibleHits) hits) (ln_addrs a)) (ln_lineId a)
    (if ln_order a =? 0 then o else ln_order a) (ln_unreachable a).

Lemma hit_line_eq addr hits r l a :
  wf r → r_heap r !! l = Some a → addr ∈ (ln_addrs a).*1 →
  hit_line maxPossibleHits addr hits r l =
    Ok (mkReporter (<[l := hit_Line addr hits (m_order r) a]> (r_heap r)) (r_brk r) (m_files r)
          (m_addrToLine r) (m_pendingFiles r) (m_lineIdToFileMap r) (m_filter r)
          (m_unmarshallingDone r)
          (if ln_order a =? 0 then u64 (m_order r + 1) else m_order r)
          (r_out r ++ [OnAddress (ln_lineId a) hits])).
Proof.
  intros Hr Ha Hin. unfold hit_line, update_line. rewrite Ha. cbn [or_fault mbind res_mbind res_bind].
  rewrite Line_registerHit_eq by (done || by apply (wf_nodup r Hr l a)).
  cbn [or_fault mbind res_mbind res_bind r_heap set_heap]. rewrite lookup_insert_eq.
  cbn [or_fault mbind res_mbind res_bind Line_with_addrs ln_order ln_lineId].
  unfold hit_Line. destruct (Z.eqb_spec (ln_order a) 0) as [E|E].
  - rewrite bool_decide_eq_true_2 by done. cbn -[insert]. by rewrite insert_insert_eq.
  - rewrite bool_decide_eq_false_2 by done. done.
Qed.

(** The [n]-th order after [o]. *)
Definition order_after (o : Z) (n : nat) : Z := Nat.iter n (λ o, u64 (o + 1)) o.

Lemma order_after_S o n : order_after (u64 (o + 1)) n = order_after o (S n).
Proof. unfold order_after. by rewrite Nat.iter_succ_r. Qed.

(** A line that no hit has reached. *)
Definition unordered (h : heap) (l : nat) : bool :=
  match h !! l with Some a => ln_order a =? 0 | None => false end.

Lemma unordered_insert h l b ls : l ∉ ls → count_if (unordered (<[l := b]> h)) ls = count_if (unordered h) ls.
Proof.
  intros Hl. apply count_if_ext. intros k Hk. unfold unordered.
  rewrite lookup_insert_ne; [done|]. by intros ->.
Qed.

Lemma hit_lines_eq addr hits ls : ∀ r,
  wf r → NoDup ls → Forall (addr_ok (r_heap r) addr) ls →
  ∃ h, res_foldl (hit_line maxPossibleHits addr hits) r ls =
    Ok (mkReporter h (r_brk r) (m_files r) (m_addrToLine r) (m_pendingFiles r)
          (m_lineIdToFileMap r) (m_filter r) (m_unmarshallingDone r)
          (order_after (m_order r) (count_if (unordered (r_heap r)) ls))
          (r_out r ++ ((λ l, OnAddress (line_id_at (r_heap r) l) hits) <$> ls))) ∧
    (∀ l, l ∉ ls → h !! l = r_heap r !! l) ∧
    ∀ i l a, ls !! i = Some l → r_heap r !! l = Some a →
      h !! l = Some (hit_Line addr hits
                       (order_after (m_order r) (count_if (unordered (r_heap r)) (take i ls))) a).
Proof.
  induction ls as [|l ls IH]; intros r Hr Hnd Hls.
  { exists (r_heap r). cbn. rewrite app_nil_r. by destruct r. }
  apply NoDup_cons in Hnd as [Hl Hnd]. apply Forall_cons in Hls as [(a & Ha & Hin) Hls].
  destruct (hit_line_ok addr hits r l) as (r1 & E1 & H1); [done|by exists a|].
  pose proof (hit_line_eq addr hits r l a Hr Ha Hin) as E. rewrite E in E1. injection E1 as <-.
  match type of E with _ = Ok ?x => set (r1 := x) in * end.
  destruct (IH r1) as (h & E2 & Hsame & Hhit); [by apply H1|done| |].
  { eapply addrs_ok_mono; [apply H1|done]. }
  assert (Hn : count_if (unordered (r_heap r1)) ls = count_if (unordered (r_heap r)) ls)
    by (by apply unordered_insert).
  assert (Hu : unordered (r_heap r) l = (ln_order a =? 0)) by (unfold unordered; by rewrite Ha).
  assert (Ho : ∀ n, order_after (m_order r1) n =
    order_after (m_order r) ((if ln_order a =? 0 then 1 else 0) + n)).
  { intros n. cbn. destruct (ln_order a =? 0); [apply order_after_S|done]. }
  exists h. split; [|split].
  - cbn [res_foldl]. rewrite E. cbn [mbind res_mbind res_bind]. rewrite E2. rewrite Hn, Ho.
    cbn [r_out r_brk m_files m_addrToLine m_pendingFiles m_lineIdToFileMap m_filter m_unmarshallingDone r1].
    do 2 f_equal.
    + cbn [count_if]. rewrite Hu. by destruct (ln_order a =? 0).
    + rewrite <-app_assoc. f_equal. cbn [fmap list_fmap app]. f_equal; [unfold line_id_at; by rewrite Ha|].
      apply list_fmap_ext. intros i k Hk%list_elem_of_lookup_2. unfold line_id_at. cbn.
      rewrite lookup_insert_ne; [done|]. by intros ->.
  - intros k [Hk1 Hk2]%not_elem_of_cons. rewrite Hsame by done. cbn. by rewrite lookup_insert_ne.
  - intros [|i] k b Hi Hb.
    + injection Hi as <-. rewrite Hsame by done. cbn. rewrite lookup_insert_eq. congruence.
    + cbn in Hi. rewrite (Hhit i k b Hi), Ho.
      * change (r_heap r1) with (<[l:=hit_Line addr hits (m_order r) a]> (r_heap r)).
        rewrite unordered_insert by (intros Hk; by apply subseteq_take in Hk).
        cbn [take count_if]. rewrite Hu. by destruct (ln_order a =? 0).
      * cbn. rewrite lookup_insert_ne; [done|]. intros ->. apply Hl. by eapply list_elem_of_lookup_2.
Qed.

Lemma onAddressHit_ok addr hits r :
  wf r → ∃ r', onAddressHit maxPossibleHits addr hits r = Ok r' ∧
    hit_post addr hits (lines_at r addr) r r'.
Proof.
  intros Hr. unfold onAddressHit, lines_at.
  destruct (m_addrToLine r !! addr) as [ls|] eqn:E; cbn.
  - apply hit_lines_ok; [done|..].
    + by apply (wf_lists r Hr _ _ E).
    + by apply (wf_addrs r Hr _ _ E).
  - exists r. split; [done|by apply hit_post_nil].
Qed.
End ops.
