(* ===== verification/ReporterReplay.v ===== *)
(** * Lines announced after a database was read

    The program reads its database when the first file is added, before the lines of
    the file are announced: what it read waits in [m_pendingFiles] under the ids of
    the lines and is applied when a line gets its first address.  This file follows
    the counters of all lines from there on. *)
From S2P Require Export ReporterInv.
From stdpp Require Import options.

(** The counters of a line of [n] addresses that got [c] with the first of them. *)
Definition counts (c : Z) (n : nat) : list Z :=
  match n with O => [] | S n => c :: replicate n 0 end.

Lemma counts_snoc c n : (0 < n)%nat → counts c n ++ [0] = counts c (S n).
Proof.
  destruct n as [|n]; [lia|]. intros _. cbn [counts app]. by rewrite replicate_S_end.
Qed.

Lemma counts_0 n : counts 0 n = replicate n 0.
Proof. by destruct n. Qed.

Definition line_counts (c : Z) (b : Line) : Prop := (ln_addrs b).*2 = counts c (length (ln_addrs b)).

(** What the records waiting for a line make of the counter of its first address. *)
Definition first_count (vals : list PendingFileAddress) : Z :=
  foldl (λ h v, if pf_index v =? 0 then s32 (h + pf_hits v) else h) 0 vals.

(** The hits the listeners were told of for a line. *)
Definition told_hits (id : Z) (calls : list ReportCall) : list Z :=
  omap (λ c, match c with
             | OnAddress i h => if decide (i = id) then Some h else None
             | OnLineReporter _ _ _ => None
             end) calls.

Lemma told_hits_app id c d : told_hits id (c ++ d) = told_hits id c ++ told_hits id d.
Proof. apply omap_app. Qed.

Lemma told_hits_same id hs : told_hits id (OnAddress id <$> hs) = hs.
Proof. induction hs as [|h hs IH]; [done|]. cbn. rewrite decide_True by done. by f_equal. Qed.

Lemma told_hits_other id id' hs : id' ≠ id → told_hits id (OnAddress id' <$> hs) = [].
Proof. intros Hne. induction hs as [|h hs IH]; [done|]. cbn. by rewrite decide_False by done. Qed.

(** Registering by index on a line of one address. *)
Lemma register_indexed ss vals ad h b :
  Forall (λ v, 0 ≤ pf_index v) vals → ln_addrs b = [(ad, h)] →
  ln_addrs (foldl (λ a v, Line_registerHitIndex (pf_index v) (pf_hits v) ss a) b vals)
  = [(ad, foldl (λ h v, if pf_index v =? 0 then s32 (h + pf_hits v) else h) h vals)].
Proof.
  intros Hv. revert b h. induction Hv as [|v vals Hi Hv IH]; intros b h Hb; [done|]. cbn [foldl].
  apply IH. unfold Line_registerHitIndex. rewrite Hb. cbn [length].
  destruct (Z.eqb_spec (pf_index v) 0) as [->|Hne]; [reflexivity|].
  destruct (Z.leb_spec (Z.of_nat 1) (pf_index v)); [done|lia].
Qed.

Lemma register_line_id ss vals b :
  ln_lineId (foldl (λ a v, Line_registerHitIndex (pf_index v) (pf_hits v) ss a) b vals) = ln_lineId b.
Proof.
  revert b. induction vals as [|v vals IH]; intros b; [done|]. cbn. rewrite IH.
  unfold Line_registerHitIndex. by case_match.
Qed.

Section replay.
Context {F : Type} `{!IFilter F}.
Context (W : World) (hashFilename : bool) (maxPossibleHits : PossibleHits).
Implicit Types r : Reporter F.

(** Nothing happened but that blank lines were made. *)
Record grows r r' : Prop := {
  gr_old : ∀ l b, r_heap r !! l = Some b → r_heap r' !! l = Some b;
  gr_new : ∀ l b, r_heap r' !! l = Some b → r_heap r !! l = Some b ∨ ln_addrs b = [];
  gr_pending : m_pendingFiles r' = m_pendingFiles r;
  gr_out : r_out r' = r_out r;
}.

#[export] Instance grows_preorder : PreOrder grows.
Proof.
  split; [intros r; split; auto|]. intros r1 r2 r3 [O1 N1 P1 T1] [O2 N2 P2 T2].
  split; [auto| |congruence..]. intros l b Hb. destruct (N2 l b Hb) as [Hb'|]; auto.
Qed.

Lemma alloc_grows line r : wf r → ln_addrs line = [] → grows r (alloc_line line r).2.
Proof.
  intros Hr Hl. assert (r_heap r !! r_brk r = None) as Hn.
  { destruct (r_heap r !! r_brk r) as [a|] eqn:E; [|done]. pose proof (wf_brk r Hr _ _ E). cbn in *. lia. }
  split; cbn; [| |done..].
  - intros l b Hb. rewrite lookup_insert_ne; [done|congruence].
  - intros l b [[_ <-]|[_ Hb]]%lookup_insert_Some; [by right|by left].
Qed.

Lemma mark_unreachable_grows file lineNr lines : ∀ nr fp r fp' r',
  wf r → mark_unreachable file lineNr nr lines (fp, r) = Ok (fp', r') → grows r r'.
Proof.
  induction lines as [|text lines IH]; intros nr fp r fp' r' Hr; cbn [mark_unreachable].
  { by intros [= _ <-]. }
  destruct (runLineFilters (m_filter r) file lineNr text) as [keep flt].
  assert (wf (set_filter flt r)) as Hw by by apply wf_set_filter.
  assert (grows r (set_filter flt r)) as Hg by by split; auto.
  destruct keep; [cbn [mbind res_mbind res_bind]; intros E; etrans; [exact Hg|]; by eapply IH|].
  pose proof (alloc_line_ok (new_Line (fl_fileHash fp) nr true) _ Hw ltac:(constructor)) as Ha.
  pose proof (alloc_grows (new_Line (fl_fileHash fp) nr true) _ Hw eq_refl) as Hg'.
  destruct (alloc_line _ _) as [l r1] eqn:E1. destruct Ha as (Hw1 & _).
  intros E. apply bind_Ok in E as ([fp1 r2] & E & E').
  apply bind_Ok in E as (fp2 & _ & [= -> ->]). etrans; [exact Hg|]. etrans; [exact Hg'|]. by eapply IH.
Qed.

Lemma get_file_grows file lineNr r fp r' :
  wf r → get_file W hashFilename file lineNr r = Ok (fp, r') → grows r r'.
Proof.
  intros Hr. unfold get_file. destruct (m_files r !! file); [by intros [= _ <-]|].
  intros ([fp1 r1] & E & [= _ <-])%bind_Ok. apply mark_unreachable_grows in E as []; [|done].
  by split.
Qed.

Lemma get_line_grows file fp lineNr r l r' :
  wf r → get_line file fp lineNr r = Ok (l, r') → grows r r'.
Proof.
  intros Hr. unfold get_line. destruct (File_getLine lineNr fp); [by intros [= _ <-]|].
  pose proof (alloc_grows (new_Line (fl_fileHash fp) lineNr false) _ Hr eq_refl) as [].
  destruct (alloc_line _ _) as [k r1]. intros (fp1 & _ & [= _ <-])%bind_Ok. by split.
Qed.

Lemma update_line_eq l f r a b :
  r_heap r !! l = Some a → f a = Ok b → update_line l f r = Ok (set_heap (<[l:=b]> (r_heap r)) r).
Proof. intros Ha Hf. unfold update_line. rewrite Ha. cbn [or_fault mbind res_mbind res_bind]. by rewrite Hf. Qed.

(** What waits for a line is applied to it and told, in order. *)
Lemma flush_pending_eq l id r a :
  r_heap r !! l = Some a →
  ∃ r', flush_pending maxPossibleHits l id r = Ok r' ∧
    r_heap r' = <[l := foldl (λ a v, Line_registerHitIndex (pf_index v) (pf_hits v) (singleShot maxPossibleHits) a)
                       a (default [] (m_pendingFiles r !! id))]> (r_heap r) ∧
    (∀ id', default [] (m_pendingFiles r' !! id') =
            if decide (id' = id) then [] else default [] (m_pendingFiles r !! id')) ∧
    r_out r' = r_out r ++ (OnAddress id <$> (pf_hits <$> default [] (m_pendingFiles r !! id))).
Proof.
  intros Ha. unfold flush_pending. destruct (m_pendingFiles r !! id) as [vals|] eqn:E; cbn [default from_option].
  - enough (∀ r a, r_heap r !! l = Some a →
      ∃ r', res_foldl (λ r val, update_line l
              (λ line, Ok (Line_registerHitIndex (pf_index val) (pf_hits val) (singleShot maxPossibleHits) line))
              (reportAddress id (pf_hits val) r)) r vals = Ok r' ∧
        r_heap r' = <[l := foldl (λ a v, Line_registerHitIndex (pf_index v) (pf_hits v) (singleShot maxPossibleHits) a)
                           a vals]> (r_heap r) ∧
        m_pendingFiles r' = m_pendingFiles r ∧
        r_out r' = r_out r ++ (OnAddress id <$> (pf_hits <$> vals))) as H.
    { destruct (H r a Ha) as (r' & -> & Hh & Hp & Ho). eexists. split; [done|].
      split; [exact Hh|]. split; [|exact Ho]. intros id'. cbn. rewrite Hp. case_decide as Hd.
      - subst. by rewrite lookup_insert_eq.
      - by rewrite lookup_insert_ne. }
    clear E a Ha. induction vals as [|v vals IH]; intros r1 a Ha.
    { exists r1. cbn. by rewrite insert_id, app_nil_r. }
    cbn [res_foldl].
    rewrite (update_line_eq l (λ line, Ok (Line_registerHitIndex (pf_index v) (pf_hits v)
      (singleShot maxPossibleHits) line)) (reportAddress id (pf_hits v) r1) a _ Ha eq_refl). cbn [mbind res_mbind res_bind].
    match goal with |- context [res_foldl _ ?x vals] => destruct (IH x _ (lookup_insert_eq _ _ _)) as (r' & -> & Hh & Hp & Ho) end.
    exists r'. split; [done|]. split; [by rewrite Hh; cbn; rewrite insert_insert_eq|]. split; [done|].
    rewrite Ho. cbn. by rewrite <-app_assoc.
  - exists r. split; [done|]. split; [cbn; by rewrite insert_id|]. split; [|cbn; by rewrite app_nil_r].
    intros id'. case_decide; [subst; by rewrite E|done].
Qed.

(** *** The invariant

    [P] is what was read.  For every id, either nothing has been applied yet and the
    lines of it are blank; or it was applied, to one line. *)
Definition waiting (P : Z → list PendingFileAddress) r (id : Z) : Prop :=
  default [] (m_pendingFiles r !! id) = P id ∧ told_hits id (r_out r) = [] ∧
  ∀ l b, r_heap r !! l = Some b → ln_lineId b = id → ln_addrs b = [].

Definition applied (P : Z → list PendingFileAddress) r (id : Z) : Prop :=
  default [] (m_pendingFiles r !! id) = [] ∧ told_hits id (r_out r) = pf_hits <$> P id ∧
  ∃ l0 b0, r_heap r !! l0 = Some b0 ∧ ln_lineId b0 = id ∧ ln_addrs b0 ≠ [] ∧
    ∀ l b, r_heap r !! l = Some b → ln_lineId b = id →
      line_counts (if decide (l = l0) then first_count (P id) else 0) b.

Definition replayed P r : Prop := ∀ id, waiting P r id ∨ applied P r id.

Lemma grows_replayed P r r' : grows r r' → replayed P r → replayed P r'.
Proof.
  intros [Hold Hnew Hp Ho] H id. destruct (H id) as [(H1 & H2 & H3) | (H1 & H2 & l0 & b0 & H3 & H4 & H5 & H6)].
  - left. split_and!; [by rewrite Hp|by rewrite Ho|]. intros l b Hb Hid.
    destruct (Hnew l b Hb); [by eapply H3|done].
  - right. split_and!; [by rewrite Hp|by rewrite Ho|]. exists l0, b0. split_and!; [by apply Hold|done..|].
    intros l b Hb Hid. destruct (Hnew l b Hb) as [Hb'|Hb']; [by apply H6|].
    unfold line_counts. by rewrite Hb'.
Qed.

Lemma addAddress_counts addr c b :
  ln_addrs b ≠ [] ∨ c = 0 → line_counts c b → line_counts c (Line_addAddress addr b).
Proof.
  unfold line_counts, Line_addAddress. intros Hc Hb. case_bool_decide; [done|].
  cbn. rewrite fmap_app, length_app, Hb, Nat.add_1_r. cbn [fmap list_fmap snd].
  destruct (ln_addrs b) as [|x k]; [by destruct Hc as [?| ->]|]. apply counts_snoc. cbn. lia.
Qed.

Lemma addAddress_id addr b : ln_lineId (Line_addAddress addr b) = ln_lineId b.
Proof. unfold Line_addAddress. by case_bool_decide. Qed.

Lemma addAddress_nonempty addr b : ln_addrs (Line_addAddress addr b) ≠ [].
Proof. intros E. pose proof (Line_addAddress_in addr b) as Hin. rewrite E in Hin. by apply not_elem_of_nil in Hin. Qed.

(** A line gets an address and what waits for it. *)
Lemma replayed_address P r r' addr l a :
  (∀ id, Forall (λ v, 0 ≤ pf_index v) (P id)) →
  replayed P r → r_heap r !! l = Some a →
  let a' := Line_addAddress addr a in
  let vals := default [] (m_pendingFiles r !! ln_lineId a) in
  r_heap r' = <[l := foldl (λ a v, Line_registerHitIndex (pf_index v) (pf_hits v) (singleShot maxPossibleHits) a) a' vals]> (r_heap r) →
  (∀ id', default [] (m_pendingFiles r' !! id') =
          if decide (id' = ln_lineId a) then [] else default [] (m_pendingFiles r !! id')) →
  r_out r' = r_out r ++ (OnAddress (ln_lineId a) <$> (pf_hits <$> vals)) →
  replayed P r'.
Proof.
  intros HP H Ha a' vals Hh Hp Ho id. set (a2 := foldl _ a' vals) in Hh.
  assert (ln_lineId a2 = ln_lineId a) as Hid2 by (unfold a2, a'; by rewrite register_line_id, addAddress_id).
  destruct (decide (id = ln_lineId a)) as [->|Hne].
  - right. split; [by rewrite Hp, decide_True|]. rewrite Ho, told_hits_app, told_hits_same.
    destruct (H (ln_lineId a)) as [(H1 & H2 & H3) | (H1 & H2 & l0 & b0 & H3 & H4 & H5 & H6)].
    + fold vals in H1. split; [by rewrite H2, H1|].
      assert (ln_addrs a2 = [(addr, first_count (P (ln_lineId a)))]) as E2.
      { unfold a2. rewrite H1. apply register_indexed; [done|]. unfold a', Line_addAddress.
        rewrite (H3 l a) by done. done. }
      exists l, a2. split_and!; [by rewrite Hh, lookup_insert_eq|done|by rewrite E2|].
      intros k b. rewrite Hh. intros [[<- <-]|[Hk Hb]]%lookup_insert_Some Hid.
      * rewrite decide_True by done. unfold line_counts. by rewrite E2.
      * rewrite decide_False by congruence. unfold line_counts. by rewrite (H3 k b).
    + fold vals in H1. split; [by rewrite H2, H1, app_nil_r|].
      assert (a2 = a') as E2 by (unfold a2; by rewrite H1). rewrite E2 in Hh.
      assert (∀ k b, r_heap r' !! k = Some b → ln_lineId b = ln_lineId a →
        line_counts (if decide (k = l0) then first_count (P (ln_lineId a)) else 0) b) as Hc.
      { intros k b. rewrite Hh. intros [[<- <-]|[Hk Hb]]%lookup_insert_Some Hid; [|by apply H6].
        apply addAddress_counts; [|by apply H6]. case_decide; [left; congruence|by right]. }
      destruct (decide (l = l0)) as [->|Hl].
      * exists l0, a'. split_and!; [by rewrite Hh, lookup_insert_eq|by rewrite <-E2|apply addAddress_nonempty|done].
      * exists l0, b0. split_and!; [by rewrite Hh, lookup_insert_ne|done..].
  - assert (∀ k b, r_heap r' !! k = Some b → ln_lineId b = id → r_heap r !! k = Some b) as Hback.
    { intros k b. rewrite Hh. by intros [[<- <-]|[_ Hb]]%lookup_insert_Some Hid; [congruence|]. }
    destruct (H id) as [(H1 & H2 & H3) | (H1 & H2 & l0 & b0 & H3 & H4 & H5 & H6)].
    + left. split_and!; [by rewrite Hp, decide_False| |eauto].
      by rewrite Ho, told_hits_app, H2, told_hits_other.
    + right. split_and!; [by rewrite Hp, decide_False| |].
      { by rewrite Ho, told_hits_app, H2, told_hits_other, app_nil_r. }
      exists l0, b0. split_and!; [|done|done|eauto]. rewrite Hh, lookup_insert_ne; [done|congruence].
Qed.

Lemma onLine_replayed P file lineNr addr r r' :
  (∀ id, Forall (λ v, 0 ≤ pf_index v) (P id)) →
  lines_bounded W → 0 ≤ lineNr < 2 ^ 32 - 1 → wf r → replayed P r →
  onLine W hashFilename maxPossibleHits file lineNr addr r = Ok r' → replayed P r'.
Proof.
  intros HP HW Hnr Hr H. unfold onLine. destruct (negb _); [by intros [= <-]|].
  destruct (get_file_ok W hashFilename file lineNr r) as (fp & r1 & E1 & Hr1 & _ & Hfp); [done..|].
  pose proof (get_file_grows _ _ _ _ _ Hr E1) as G1. rewrite E1. cbn [mbind res_mbind res_bind].
  destruct (get_line_ok file fp lineNr r1) as (l & r2 & E2 & Hr2 & _ & (a & Ha & Hid)); [done..|].
  pose proof (get_line_grows _ _ _ _ _ _ Hr1 E2) as G2. rewrite E2. cbn [mbind res_mbind res_bind]. rewrite Ha. cbn [or_fault mbind res_mbind res_bind].
  apply (grows_replayed _ _ _ G1), (grows_replayed _ _ _ G2) in H.
  rewrite (update_line_eq l (λ line, Ok (Line_addAddress addr line)) r2 a _ Ha eq_refl). cbn [mbind res_mbind res_bind].
  intros (r4 & E4 & E)%bind_Ok.
  assert (∃ m, r4 = set_addrToLine m (set_heap (<[l:=Line_addAddress addr a]> (r_heap r2)) r2)) as [m ->].
  { unfold link_address in E4. apply bind_Ok in E4 as (dup & _ & [= <-]). by eexists. }
  destruct (flush_pending_eq l (ln_lineId a)
    (set_lineIdToFileMap (<[ln_lineId a:=l]> (m_lineIdToFileMap (set_addrToLine m (set_heap
      (<[l:=Line_addAddress addr a]> (r_heap r2)) r2)))) (set_addrToLine m (set_heap
      (<[l:=Line_addAddress addr a]> (r_heap r2)) r2))) (Line_addAddress addr a))
    as (r5 & E5 & Hh & Hp & Ho); [cbn; by rewrite lookup_insert_eq|].
  rewrite E5 in E. cbn [mbind res_mbind res_bind] in E. injection E as <-.
  cbn [set_lineIdToFileMap set_addrToLine set_heap r_heap m_pendingFiles r_out] in Hh, Hp, Ho.
  rewrite insert_insert_eq in Hh.
  assert (replayed P r5) as H5 by by eapply (replayed_address P r2 r5 addr l a).
  intros id. destruct (H5 id) as [(H1 & H2 & H3) | (H1 & H2 & H3)]; [left|right]; (split; [done|]); (split; [|done]);
    cbn [emit r_out]; rewrite told_hits_app, H2; cbn [told_hits omap list_omap]; by rewrite ?app_nil_r.
Qed.
End replay.
