(* ===== verification/ReporterDb.v ===== *)
(** * The coverage database of the reporter

    What [marshal] writes, what [unMarshal] makes of it in a later run, and the
    theorems about the reporter as a whole: it never faults, hits land where
    they should, and what one run stored the next one restores. *)
From S2P Require Export ReporterReplay.
From stdpp Require Import options.

(** ** The format *)

Definition entry_bytes (en : Entry) : bytes :=
  be_bytes 8 (en_addr en) ++ be_bytes 8 (en_fileHash en) ++
  be_bytes 8 (en_addrIndex en) ++ be_bytes 8 (en_hits en).

(** The records of a line: its addresses that were hit. *)
Fixpoint addr_entries (hash idx : Z) (addrs : list (Z * Z)) : list Entry :=
  match addrs with
  | [] => []
  | (a, h) :: addrs =>
      (if bool_decide (h = 0) then [] else [mkEntry a hash idx (u64 h)]) ++
      addr_entries hash (u32 (idx + 1)) addrs
  end.

Definition line_entries (l : Line) : list Entry := addr_entries (ln_lineId l) 0 (ln_addrs l).

Definition slot_entries (h : heap) (c : option nat) : list Entry :=
  match c ≫= (h !!.) with Some line => line_entries line | None => [] end.

Lemma slot_entries_Some h l line :
  h !! l = Some line → slot_entries h (Some l) = line_entries line.
Proof. unfold slot_entries. cbn. by intros ->. Qed.

Definition file_entries (h : heap) (f : File) : list Entry :=
  fl_lines f ≫= slot_entries h.

Definition header_bytes (checksum : Z) : bytes :=
  be_bytes 4 KCOV_MAGIC ++ be_bytes 4 KCOV_DB_VERSION ++ be_bytes 8 checksum.

Definition entries_bytes (es : list Entry) : bytes := es ≫= entry_bytes.

(** A record as its reader sees it: 64-bit fields. *)
Definition norm_entry (en : Entry) : Entry :=
  mkEntry (u64 (en_addr en)) (u64 (en_fileHash en)) (u64 (en_addrIndex en)) (u64 (en_hits en)).

Definition zero_entry : Entry := mkEntry 0 0 0 0.

Lemma length_entry_bytes en : length (entry_bytes en) = 32%nat.
Proof. unfold entry_bytes. by rewrite !length_app, !length_be_bytes. Qed.

Lemma length_entries_bytes es : length (entries_bytes es) = (32 * length es)%nat.
Proof.
  induction es as [|en es IH]; [done|].
  change (entries_bytes (en :: es)) with (entry_bytes en ++ entries_bytes es).
  rewrite length_app, length_entry_bytes, IH. cbn [length]. lia.
Qed.

Lemma entries_bytes_app es fs : entries_bytes (es ++ fs) = entries_bytes es ++ entries_bytes fs.
Proof. apply bind_app. Qed.

Lemma entries_bytes_cons en es : entries_bytes (en :: es) = entry_bytes en ++ entries_bytes es.
Proof. done. Qed.

(** A zeroed tail reads as zero records. *)
Lemma entries_bytes_zeros n : entries_bytes (replicate n zero_entry) = zeros (32 * n).
Proof.
  induction n as [|n IH]; [done|].
  change (entry_bytes zero_entry ++ entries_bytes (replicate n zero_entry) = zeros (32 * S n)).
  rewrite IH. replace (32 * S n)%nat with (32 + 32 * n)%nat by lia.
  unfold zeros. by rewrite replicate_add.
Qed.

(** ** Writing *)

(** A cursor over a zeroed block, [pre] written. *)
Definition cursor (pre : bytes) (k : nat) : bytes * nat := (pre ++ zeros k, length pre).

Lemma put_u64_ok e v pre k :
  (8 ≤ k)%nat → put_u64 e v (cursor pre k) = Ok (cursor (pre ++ be_bytes 8 v) (k - 8)).
Proof.
  intros Hk. unfold put_u64, cursor.
  rewrite native_to_be, buf_write_zeros by (rewrite ?length_be_bytes; lia).
  cbn -[be_bytes]. by rewrite app_assoc, length_app, !length_be_bytes.
Qed.

Lemma Line_marshal_addrs_ok e hash addrs : ∀ idx pre k,
  (32 * length (addr_entries hash idx addrs) ≤ k)%nat →
  Line_marshal_addrs e hash idx addrs (cursor pre k) =
    Ok (cursor (pre ++ entries_bytes (addr_entries hash idx addrs))
               (k - 32 * length (addr_entries hash idx addrs))).
Proof.
  induction addrs as [|[a h] addrs IH]; intros idx pre k Hk;
    cbn [addr_entries Line_marshal_addrs] in *.
  { rewrite Nat.mul_0_r, Nat.sub_0_r. unfold entries_bytes. cbn. by rewrite app_nil_r. }
  rewrite length_app, Nat.mul_add_distr_l in *.
  case_bool_decide; cbn [length] in Hk.
  { apply IH. lia. }
  rewrite put_u64_ok by lia. cbn [mbind res_mbind res_bind].
  do 3 (rewrite put_u64_ok by lia; cbn [mbind res_mbind res_bind]).
  rewrite IH by lia. f_equal. f_equal.
  - rewrite entries_bytes_app, entries_bytes_cons, app_nil_r.
    unfold entry_bytes. cbn -[be_bytes]. by rewrite <-!app_assoc.
  - cbn [length]. lia.
Qed.

Lemma Line_marshalSize_entries l : Line_marshalSize l = (32 * length (line_entries l))%nat.
Proof.
  unfold Line_marshalSize, line_entries.
  enough (H : ∀ idx, (length (filter (λ p, p.2 ≠ 0%Z) (ln_addrs l)) * 8 * 4 =
    32 * length (addr_entries (ln_lineId l) idx (ln_addrs l)))%nat) by apply H.
  induction (ln_addrs l) as [|[a h] addrs IH]; intros idx; [done|].
  rewrite filter_cons. cbn [addr_entries snd]. specialize (IH (u32 (idx + 1))).
  rewrite length_app. case_decide; case_bool_decide; cbn [length]; lia.
Qed.

Section marshal.
Context {F : Type} `{!IFilter F} (e : endian) (checksum : Z).
Context (iter_files : gmap bytes File → list (bytes * File)).
Implicit Types r : Reporter F.

(** All the records of a reporter, in the order of [m_files]' iteration. *)
Definition db_entries r : list Entry :=
  iter_files (m_files r) ≫= λ '(_, f), file_entries (r_heap r) f.

(** A loop over the files, or over the lines of one, that moves a cursor. *)
Lemma fold_cursor {A} (f : bytes * nat → A → res (bytes * nat)) (g : A → list Entry) l :
  (∀ x pre k, x ∈ l → (32 * length (g x) ≤ k)%nat →
     f (cursor pre k) x = Ok (cursor (pre ++ entries_bytes (g x)) (k - 32 * length (g x)))) →
  ∀ pre k, (32 * length (l ≫= g) ≤ k)%nat →
    res_foldl f (cursor pre k) l =
      Ok (cursor (pre ++ entries_bytes (l ≫= g)) (k - 32 * length (l ≫= g))).
Proof.
  induction l as [|x l IH]; intros Hf pre k Hk.
  { cbn -[Nat.mul]. unfold entries_bytes. cbn. by rewrite app_nil_r, Nat.sub_0_r. }
  rewrite bind_cons in *. rewrite length_app, Nat.mul_add_distr_l in *.
  cbn [res_foldl]. rewrite Hf by (first [by left|lia]). cbn [mbind res_mbind res_bind].
  rewrite IH by (first [lia|intros; apply Hf; [by right|done]]).
  rewrite entries_bytes_app, <-app_assoc. do 2 f_equal. lia.
Qed.

Lemma File_marshal_ok h f pre k :
  file_ok h f → (32 * length (file_entries h f) ≤ k)%nat →
  File_marshal e h f (cursor pre k) =
    Ok (cursor (pre ++ entries_bytes (file_entries h f)) (k - 32 * length (file_entries h f))).
Proof.
  intros Hf. unfold File_marshal, File_fold, file_entries. apply fold_cursor.
  intros [l|] pre' k' [i Hi]%list_elem_of_lookup Hk'.
  - destruct (fo_ids _ _ Hf _ _ Hi) as (a & Ha & _).
    rewrite (slot_entries_Some _ _ _ Ha) in *. rewrite Ha. by apply Line_marshal_addrs_ok.
  - unfold slot_entries in *. cbn -[Nat.mul] in *. unfold entries_bytes. cbn.
    by rewrite app_nil_r, Nat.sub_0_r.
Qed.

(** A loop that adds up sizes. *)
Lemma fold_size {A} (f : nat → A → res nat) (g : A → list Entry) l :
  (∀ x n, x ∈ l → f n x = Ok (n + 32 * length (g x))%nat) →
  ∀ n, res_foldl f n l = Ok (n + 32 * length (l ≫= g))%nat.
Proof.
  induction l as [|x l IH]; intros Hf n.
  { cbn -[Nat.mul]. by rewrite Nat.mul_0_r, Nat.add_0_r. }
  rewrite bind_cons, length_app, Nat.mul_add_distr_l, Nat.add_assoc.
  cbn [res_foldl]. rewrite Hf by left. cbn [mbind res_mbind res_bind].
  apply IH. intros; apply Hf. by right.
Qed.

Lemma File_marshalSize_ok h f :
  file_ok h f → File_marshalSize h f = Ok (32 * length (file_entries h f))%nat.
Proof.
  intros Hf. unfold File_marshalSize, File_fold, file_entries.
  apply (fold_size _ (slot_entries h)).
  intros [l|] n [i Hi]%list_elem_of_lookup; [|by rewrite Nat.mul_0_r, Nat.add_0_r].
  destruct (fo_ids _ _ Hf _ _ Hi) as (a & Ha & _).
  rewrite (slot_entries_Some _ _ _ Ha), Ha. cbn [or_fault mbind res_mbind res_bind].
  by rewrite Line_marshalSize_entries.
Qed.

(** The iteration visits files of the map. *)
Definition iter_sound : Prop := ∀ m, iter_files m ≡ₚ map_to_list m.

Lemma iter_files_ok r name f :
  iter_sound → wf r → (name, f) ∈ iter_files (m_files r) → file_ok (r_heap r) f.
Proof.
  intros HI Hr Hin. pose proof (HI (m_files r)) as Hp. rewrite Hp in Hin. apply elem_of_map_to_list in Hin.
  by apply (wf_files r Hr _ _ Hin).
Qed.

(** The size asked for counts every byte of a record thirty-two times. *)
Definition db_size r : nat := 32 * (32 * length (db_entries r)) + 16.

Lemma getMarshalSize_ok r :
  iter_sound → wf r → getMarshalSize iter_files r = Ok (db_size r).
Proof.
  intros HI Hr. unfold getMarshalSize.
  rewrite (fold_size _ (λ '(_, f), file_entries (r_heap r) f)).
  - cbn -[Nat.mul Nat.add]. unfold db_size, getMarshalEntrySize, sizeof_header, db_entries.
    f_equal. lia.
  - intros [name f] n Hin. by rewrite (File_marshalSize_ok _ _ (iter_files_ok r name f HI Hr Hin)).
Qed.

Definition db_bytes r : bytes :=
  header_bytes checksum ++ entries_bytes (db_entries r) ++
  zeros (32 * (31 * length (db_entries r))).

Lemma marshalHeader_ok k :
  (16 ≤ k)%nat → marshalHeader e checksum (zeros k) = Ok (cursor (header_bytes checksum) (k - 16)).
Proof.
  intros Hk. unfold marshalHeader, cursor. rewrite !native_to_be.
  rewrite (buf_write_zeros [] k _ 0) by (rewrite ?length_be_bytes; cbn; lia).
  cbn [mbind res_mbind res_bind app].
  rewrite buf_write_zeros by (rewrite ?length_be_bytes; lia).
  cbn [mbind res_mbind res_bind]. rewrite app_assoc.
  rewrite buf_write_zeros by (rewrite ?length_app, ?length_be_bytes; lia).
  cbn [mbind res_mbind res_bind]. unfold header_bytes, sizeof_header.
  rewrite !length_be_bytes, <-!app_assoc. do 2 f_equal.
  do 4 f_equal; lia.
Qed.

Lemma Reporter_marshal_ok r :
  iter_sound → wf r → Reporter_marshal e checksum iter_files r = Ok (db_bytes r).
Proof.
  intros HI Hr. unfold Reporter_marshal. rewrite getMarshalSize_ok by done.
  cbn [mbind res_mbind res_bind]. unfold db_size.
  rewrite marshalHeader_ok by lia. cbn [mbind res_mbind res_bind].
  rewrite (fold_cursor _ (λ '(_, f), file_entries (r_heap r) f)).
  - cbn [mbind res_mbind res_bind cursor]. unfold db_bytes, db_entries.
    rewrite <-app_assoc. do 4 f_equal. lia.
  - intros [name f] pre k Hin Hk. apply File_marshal_ok; [|done].
    by eapply iter_files_ok.
  - unfold db_entries. lia.
Qed.
End marshal.

(** ** Reading *)

Lemma get_be e n data pre d rest :
  data = pre ++ d ++ rest → n = length d →
  (b ← buf_read data (length pre) n; Ok (be_to_host e n (native_val e b))) = Ok (be_val d).
Proof. intros -> ->. rewrite buf_read_app by done. cbn. by rewrite be_to_host_native. Qed.

Lemma get_u64_at e data pre v rest p :
  data = pre ++ be_bytes 8 v ++ rest → p = length pre → get_u64 e data p = Ok (u64 v).
Proof.
  intros Hd ->. unfold get_u64.
  rewrite (get_be e 8 data pre (be_bytes 8 v) rest) by (rewrite ?length_be_bytes; done).
  by rewrite be_val_bytes.
Qed.
Lemma get_u32_at e data pre v rest p :
  data = pre ++ be_bytes 4 v ++ rest → p = length pre → get_u32 e data p = Ok (u32 v).
Proof.
  intros Hd ->. unfold get_u32.
  rewrite (get_be e 4 data pre (be_bytes 4 v) rest) by (rewrite ?length_be_bytes; done).
  by rewrite be_val_bytes.
Qed.

(** Read the next field, [H] saying what the block holds; the field read moves
    to the part of the block already passed. *)
Ltac read_field H :=
  lazymatch type of H with
  | ?d = _ =>
      first
        [ match goal with |- context [get_u64 ?e d ?p] =>
            rewrite (get_u64_at e d _ _ _ p H) by (rewrite ?length_app, ?length_be_bytes; cbn; lia)
          end
        | match goal with |- context [get_u32 ?e d ?p] =>
            rewrite (get_u32_at e d _ _ _ p H) by (rewrite ?length_app, ?length_be_bytes; cbn; lia)
          end ];
      cbn [mbind res_mbind res_bind]; rewrite app_assoc in H
  end.

Lemma Line_unMarshal_at e data pre en rest p :
  data = pre ++ entry_bytes en ++ rest → p = length pre →
  Line_unMarshal e data p = Ok (norm_entry en, (p + 32)%nat).
Proof.
  intros Hd ->. unfold entry_bytes in Hd. rewrite <-!app_assoc in Hd. unfold Line_unMarshal.
  do 4 read_field Hd. done.
Qed.

(** Any block of whole records is the records of some entries. *)
Lemma be_bytes_val d : be_bytes (length d) (be_val d) = d.
Proof.
  unfold be_bytes, be_val. rewrite <-(length_reverse d), le_bytes_val.
  apply reverse_involutive.
Qed.

Lemma split_bytes n (d : bytes) :
  (n ≤ length d)%nat → ∃ v k, d = be_bytes n v ++ k ∧ length d = (n + length k)%nat.
Proof.
  intros Hn. exists (be_val (take n d)), (drop n d).
  assert (n = length (take n d)) as E by (rewrite length_take; lia).
  rewrite E at 1. rewrite be_bytes_val, take_drop, length_drop. split; [done|lia].
Qed.

Lemma bytes_entries n : ∀ d : bytes,
  (32 * n ≤ length d)%nat → ∃ es rest, length es = n ∧ d = entries_bytes es ++ rest.
Proof.
  induction n as [|n IH]; intros d Hd; [by exists [], d|].
  destruct (split_bytes 8 d) as (a & k1 & -> & H1); [lia|].
  destruct (split_bytes 8 k1) as (h & k2 & -> & H2); [lia|].
  destruct (split_bytes 8 k2) as (i & k3 & -> & H3); [lia|].
  destruct (split_bytes 8 k3) as (c & k4 & -> & H4); [lia|].
  destruct (IH k4) as (es & rest & Hes & ->); [lia|].
  exists (mkEntry a h i c :: es), rest. split; [cbn; lia|].
  rewrite entries_bytes_cons. unfold entry_bytes. cbn [en_addr en_fileHash en_addrIndex en_hits].
  by rewrite <-!app_assoc.
Qed.

Section unmarshal.
Context {F : Type} `{!IFilter F} (e : endian) (checksum : Z).
Context (maxPossibleHits : PossibleHits).
Implicit Types r : Reporter F.

Abbreviation restore := (res_foldl (unMarshal_entry (F := F) maxPossibleHits)).

Lemma unMarshal_loop_at data es rest : ∀ fuel pre p r,
  data = pre ++ entries_bytes es ++ rest → p = length pre → (length es ≤ fuel)%nat →
  unMarshal_loop e maxPossibleHits fuel data p (Z.of_nat (length es)) r
  = restore r (norm_entry <$> es).
Proof.
  induction es as [|en es IH]; intros fuel pre p r Hd Hp Hf.
  { by destruct fuel. }
  cbn [length] in Hf. destruct fuel as [|fuel]; [lia|].
  cbn [unMarshal_loop length]. destruct (Z.leb_spec (Z.of_nat (S (length es))) 0); [lia|].
  rewrite entries_bytes_cons, <-app_assoc in Hd.
  rewrite (Line_unMarshal_at _ _ _ _ _ _ Hd Hp). cbn [mbind res_mbind res_bind].
  cbn [fmap list_fmap res_foldl].
  destruct (unMarshal_entry maxPossibleHits r (norm_entry en)) as [r1| | |]; try done.
  cbn [mbind res_mbind res_bind].
  replace (Z.of_nat (S (length es)) - 1) with (Z.of_nat (length es)) by lia.
  apply (IH fuel (pre ++ entry_bytes en)); [|subst p|lia].
  - by rewrite Hd, app_assoc.
  - by rewrite length_app, length_entry_bytes.
Qed.

(** A database whose header is this program's. *)
Lemma unMarshal_at es rest sz r :
  0 ≤ checksum < 2 ^ 64 → 16 ≤ sz < 2 ^ 64 → (sz - 16) / 32 = Z.of_nat (length es) →
  unMarshal e maxPossibleHits checksum (header_bytes checksum ++ entries_bytes es ++ rest) sz r
  = (r ← restore r (norm_entry <$> es); Ok (r, true)).
Proof.
  intros Hc Hsz Hn. set (data := header_bytes checksum ++ entries_bytes es ++ rest).
  assert (Hd : data = [] ++ be_bytes 4 KCOV_MAGIC ++ be_bytes 4 KCOV_DB_VERSION ++
                 be_bytes 8 checksum ++ entries_bytes es ++ rest).
  { unfold data, header_bytes. by rewrite <-!app_assoc. }
  unfold unMarshal, unMarshalHeader.
  do 2 (read_field Hd; rewrite uw_small, Z.eqb_refl by done; cbn [negb]).
  read_field Hd. rewrite (uw_small 64 checksum), Z.eqb_refl by done. cbn [negb mbind res_mbind res_bind].
  change (Z.of_nat sizeof_header) with 16. change (Z.of_nat getMarshalEntrySize) with 32.
  rewrite uw_small, Hn by lia.
  rewrite (unMarshal_loop_at _ es rest _ (header_bytes checksum)); [done|done|..].
  - by unfold header_bytes; rewrite !length_app, !length_be_bytes.
  - unfold data. rewrite !length_app, length_entries_bytes. lia.
Qed.

(** *** Restoring one record *)

Definition entry_safe r r' : Prop :=
  wf r' ∧ heap_le (r_heap r) (r_heap r') ∧ m_files r' = m_files r ∧
  m_addrToLine r' = m_addrToLine r ∧ m_lineIdToFileMap r' = m_lineIdToFileMap r.

Lemma unMarshal_entry_ok en r :
  wf r → ∃ r', unMarshal_entry maxPossibleHits r en = Ok r' ∧ entry_safe r r'.
Proof.
  intros Hr. unfold unMarshal_entry. destruct (en_hits en =? 0); [by exists r|].
  destruct (m_addrToLine r !! en_addr en) as [ls|].
  - destruct (onAddressHit_ok maxPossibleHits (en_addr en) (en_hits en) r Hr) as (r' & Hok & Hp).
    exists r'. split; [done|]. destruct Hp. by split_and!.
  - destruct (m_lineIdToFileMap r !! en_fileHash en) as [l|] eqn:El.
    + destruct (wf_ids r Hr _ _ El) as (a & Ha & _). set (r1 := reportAddress _ _ r).
      destruct (update_line_ok r1 l a
        (Line_registerHitIndex (en_addrIndex en) (en_hits en) (singleShot maxPossibleHits) a)
        (λ line, Ok (Line_registerHitIndex (en_addrIndex en) (en_hits en)
                       (singleShot maxPossibleHits) line))) as (Heq & Hw & Hle);
        [by apply wf_emit|done|done|apply Line_registerHitIndex_le| |].
      { rewrite Line_registerHitIndex_fst. by apply (wf_nodup r Hr l). }
      eexists. split; [exact Heq|]. by split_and!.
    + eexists. split; [done|]. split; [by apply wf_set_pending|done].
Qed.

Lemma restore_ok es r : wf r → ∃ r', restore r es = Ok r' ∧ entry_safe r r'.
Proof.
  intros Hr. apply (res_foldl_total (entry_safe r)); [|by split_and!].
  intros r1 en (Hw & Hle & Hf & Ha & Hi) _.
  destruct (unMarshal_entry_ok en r1 Hw) as (r2 & Heq & Hw2 & Hle2 & Hf2 & Ha2 & Hi2).
  exists r2. split; [done|]. split; [done|]. split; [by etrans|].
  split; [congruence|]. split; congruence.
Qed.

(** What the records leave waiting for a line when no line is known yet. *)
Definition pending_of (es : list Entry) (id : Z) : list PendingFileAddress :=
  (λ en, mkPending (en_addrIndex en) (en_hits en)) <$>
    filter (λ en, en_fileHash en = id ∧ en_hits en ≠ 0) es.

Lemma pending_of_cons en es id :
  pending_of (en :: es) id =
    (if decide (en_fileHash en = id ∧ en_hits en ≠ 0) then [mkPending (en_addrIndex en) (en_hits en)] else [])
    ++ pending_of es id.
Proof. unfold pending_of. rewrite filter_cons. by case_decide. Qed.

Lemma unMarshal_entry_fresh en r :
  m_addrToLine r = ∅ → m_lineIdToFileMap r = ∅ →
  ∃ m, unMarshal_entry maxPossibleHits r en = Ok (set_pendingFiles m r) ∧
    ∀ id, default [] (m !! id) = default [] (m_pendingFiles r !! id) ++ pending_of [en] id.
Proof.
  intros Ha Hi. unfold unMarshal_entry. destruct (Z.eqb_spec (en_hits en) 0) as [E|E].
  - exists (m_pendingFiles r). split; [by destruct r|]. intros id.
    rewrite pending_of_cons, decide_False by naive_solver. by rewrite app_nil_r.
  - rewrite Ha, Hi, !lookup_empty. eexists. split; [done|]. intros id. rewrite pending_of_cons, app_nil_r.
    destruct (decide (en_fileHash en = id)) as [<-|Hne].
    + by rewrite lookup_insert_eq, decide_True.
    + rewrite lookup_insert_ne, decide_False by naive_solver. by rewrite app_nil_r.
Qed.

Lemma restore_fresh es : ∀ r,
  m_addrToLine r = ∅ → m_lineIdToFileMap r = ∅ →
  ∃ m, restore r es = Ok (set_pendingFiles m r) ∧
    ∀ id, default [] (m !! id) = default [] (m_pendingFiles r !! id) ++ pending_of es id.
Proof.
  induction es as [|en es IH]; intros r Ha Hi; cbn [res_foldl].
  { exists (m_pendingFiles r). split; [by destruct r|]. intros id. by rewrite app_nil_r. }
  destruct (unMarshal_entry_fresh en r Ha Hi) as (m1 & -> & H1). cbn [mbind res_mbind res_bind].
  destruct (IH (set_pendingFiles m1 r) Ha Hi) as (m & -> & Hm). exists m. split; [done|].
  intros id. rewrite Hm. cbn [set_pendingFiles m_pendingFiles]. rewrite H1, <-app_assoc. f_equal.
  rewrite !pending_of_cons. cbn. by rewrite app_nil_r.
Qed.

(** A file that breaks off inside the header, the missing bytes being zeros: they
    are read as zeros. *)
Definition cut_header (content : bytes) : Prop :=
  (length content < 16)%nat ∧ content ++ zeros (16 - length content) = header_bytes checksum.

Lemma be_bytes_of_val n v w : be_val (be_bytes n v) = w → be_bytes n v = be_bytes n w.
Proof. intros <-. rewrite <-(length_be_bytes n v) at 2. by rewrite be_bytes_val. Qed.

(** A database file of any content, if it is not such a one. *)
Lemma unMarshal_ok_whole content k r :
  wf r → 16 ≤ Z.of_nat (length content) < 2 ^ 64 →
  ∃ r' b, unMarshal e maxPossibleHits checksum (content ++ zeros k)
            (Z.of_nat (length content)) r = Ok (r', b) ∧ entry_safe r r' ∧
          (b = false → r' = r).
Proof.
  intros Hr Hsz.
  destruct (split_bytes 4 content) as (a & k1 & -> & H1); [lia|].
  destruct (split_bytes 4 k1) as (h & k2 & -> & H2); [lia|].
  destruct (split_bytes 8 k2) as (i & k3 & -> & H3); [lia|].
  set (n := Z.to_nat (Z.of_nat (length k3) / 32)).
  pose proof (Z.div_mod (Z.of_nat (length k3)) 32) as Hdiv.
  pose proof (Z.mod_pos_bound (Z.of_nat (length k3)) 32) as Hmod.
  destruct (bytes_entries n k3) as (es & rest & Hes & ->); [lia|].
  set (content := be_bytes 4 a ++ _) in *.
  assert (Hlen : length content = (16 + length (entries_bytes es ++ rest))%nat).
  { unfold content. rewrite !length_app, !length_be_bytes. lia. }
  unfold unMarshal, unMarshalHeader.
  set (data := content ++ zeros k).
  assert (Hd : data = [] ++ be_bytes 4 a ++ be_bytes 4 h ++
                 be_bytes 8 i ++ entries_bytes es ++ rest ++ zeros k).
  { unfold data, content. by rewrite <-!app_assoc. }
  do 3 (read_field Hd; destruct (negb _); [by exists r, false|]).
  cbn [mbind res_mbind res_bind].
  change (Z.of_nat sizeof_header) with 16. change (Z.of_nat getMarshalEntrySize) with 32.
  rewrite uw_small by lia.
  replace (Z.of_nat (length content) - 16) with (Z.of_nat (length (entries_bytes es ++ rest))) by lia.
  replace (Z.of_nat (length (entries_bytes es ++ rest)) / 32) with (Z.of_nat (length es)) by lia.
  rewrite (unMarshal_loop_at _ es _ _ _ _ _ Hd).
  - destruct (restore_ok (norm_entry <$> es) r Hr) as (r' & -> & Hs). by exists r', true.
  - by rewrite !length_app, !length_be_bytes.
  - rewrite Hd, !length_app, length_entries_bytes. lia.
Qed.

Lemma unMarshal_ok_short content k r :
  (length content < 16)%nat → (16 ≤ length content + k)%nat → ¬ cut_header content →
  unMarshal e maxPossibleHits checksum (content ++ zeros k) (Z.of_nat (length content)) r = Ok (r, false).
Proof.
  intros Hs Hk Hcut.
  assert (∃ c, content ++ zeros k = (content ++ zeros (16 - length content)) ++ c) as [c Hc].
  { exists (zeros (k - (16 - length content))). rewrite <-app_assoc. f_equal. rewrite <-zeros_add. f_equal. lia. }
  assert (content ++ zeros (16 - length content) ≠ header_bytes checksum) as Hne by (by intros ?; apply Hcut).
  assert (length (content ++ zeros (16 - length content)) = 16%nat) as Hlen
    by (rewrite length_app, length_zeros; lia).
  rewrite Hc. clear Hc Hcut Hk. revert Hne Hlen. generalize (content ++ zeros (16 - length content)).
  intros h Hne Hlen.
  destruct (split_bytes 4 h) as (a & k1 & -> & H1); [lia|].
  destruct (split_bytes 4 k1) as (v & k2 & -> & H2); [lia|].
  destruct (split_bytes 8 k2) as (i & k3 & -> & H3); [lia|].
  destruct k3 as [|x k3]; [|rewrite !length_app, !length_be_bytes in Hlen; cbn in Hlen; lia].
  unfold unMarshal, unMarshalHeader. set (data := (_ ++ _) ++ c).
  assert (Hd : data = [] ++ be_bytes 4 a ++ be_bytes 4 v ++ be_bytes 8 i ++ c)
    by (unfold data; by rewrite app_nil_r, <-!app_assoc).
  read_field Hd. destruct (Z.eqb_spec (u32 a) KCOV_MAGIC) as [E1|?]; [cbn [negb]|done].
  read_field Hd. destruct (Z.eqb_spec (u32 v) KCOV_DB_VERSION) as [E2|?]; [cbn [negb]|done].
  read_field Hd. destruct (Z.eqb_spec (u64 i) checksum) as [E3|?]; [cbn [negb]|done].
  destruct Hne. unfold header_bytes. rewrite app_nil_r.
  by rewrite (be_bytes_of_val 4 a KCOV_MAGIC), (be_bytes_of_val 4 v KCOV_DB_VERSION), (be_bytes_of_val 8 i checksum)
    by (by rewrite be_val_bytes).
Qed.

Lemma unMarshal_ok content k r :
  wf r → Z.of_nat (length content) < 2 ^ 64 → (16 ≤ length content + k)%nat → ¬ cut_header content →
  ∃ r' b, unMarshal e maxPossibleHits checksum (content ++ zeros k)
            (Z.of_nat (length content)) r = Ok (r', b) ∧ entry_safe r r' ∧
          (b = false → r' = r).
Proof.
  intros Hr Hsz Hk Hcut. destruct (le_lt_dec 16 (length content)).
  - apply unMarshal_ok_whole; [done|lia].
  - rewrite unMarshal_ok_short by done. exists r, false. by split_and!.
Qed.
End unmarshal.

(** ** What the reporter promises *)

(** The notifications a reporter gets in a run. *)
Inductive Event :=
  | EvLine (file : bytes) (lineNr addr : Z)
  | EvHit (addr hits : Z)
  | EvFile (clean_output : bool) (db : option bytes).

Section promises.
Context {F : Type} `{!IFilter F}.
Context (W : World) (e : endian) (hashFilename : bool) (maxPossibleHits : PossibleHits).
Context (checksum : Z) (iter_files : gmap bytes File → list (bytes * File)).
Implicit Types r : Reporter F.

Definition handle r (ev : Event) : res (Reporter F) :=
  match ev with
  | EvLine file lineNr addr => onLine W hashFilename maxPossibleHits file lineNr addr r
  | EvHit addr hits => onAddressHit maxPossibleHits addr hits r
  | EvFile clean db => onFile e maxPossibleHits checksum clean db r
  end.

(** What the other components send: line numbers below the type's last value,
    and a database that does not break off inside its header. *)
Definition ev_ok (ev : Event) : Prop :=
  match ev with
  | EvLine _ lineNr _ => 0 ≤ lineNr < 2 ^ 32 - 1
  | EvHit _ _ => True
  | EvFile _ db => from_option (λ c, Z.of_nat (length c) < 2 ^ 64 ∧ ¬ cut_header checksum c) True db
  end.

Lemma onFile_ok clean db r :
  wf r → ev_ok (EvFile clean db) →
  ∃ r', onFile e maxPossibleHits checksum clean db r = Ok r' ∧ wf r' ∧
    heap_le (r_heap r) (r_heap r').
Proof.
  intros Hr Hok. unfold onFile. destruct (m_unmarshallingDone r); [by exists r|].
  destruct clean; [|destruct db as [content|]]; cbn [mbind res_mbind res_bind] in *;
    [by eexists; split; [done|]; split; [by apply wf_set_done|]..| |
     by eexists; split; [done|]; split; [by apply wf_set_done|]].
  destruct (read_loop_ok (S (length content)) content [] 0) as (k & Hrd & Hk); [lia|lia|done|done|].
  unfold read_file. rewrite Hrd. cbn [or_fault mbind res_mbind res_bind].
  destruct Hok as [Hsz Hcut]. unfold read_chunk in Hk.
  destruct (unMarshal_ok e checksum maxPossibleHits content k r Hr Hsz ltac:(lia) Hcut)
    as (r' & b & -> & (Hw & Hle & _) & _).
  cbn [mbind res_mbind res_bind]. eexists. split; [done|]. split; [by apply wf_set_done|done].
Qed.

Lemma handle_ok ev r :
  lines_bounded W → ev_ok ev → wf r →
  ∃ r', handle r ev = Ok r' ∧ wf r' ∧ heap_le (r_heap r) (r_heap r').
Proof.
  intros HW Hok Hr. destruct ev as [file nr addr|addr hits|clean db]; cbn [handle].
  - by apply onLine_ok.
  - destruct (onAddressHit_ok maxPossibleHits addr hits r Hr) as (r' & Heq & Hp).
    exists r'. split; [done|]. split; apply Hp.
  - by apply onFile_ok.
Qed.

(** *** Totals *)

(** Executed lines: reachable, with a hit. *)
Definition is_executed (h : heap) (c : option nat) : bool :=
  match c ≫= (h !!.) with
  | Some line => negb (ln_unreachable line) && negb (bool_decide (Line_hits line = 0))
  | None => false
  end.

Lemma is_executed_Some h l line :
  h !! l = Some line →
  is_executed h (Some l) = negb (ln_unreachable line) && negb (bool_decide (Line_hits line = 0)).
Proof. unfold is_executed. cbn. by intros ->. Qed.

Lemma File_getExecutedLines_ok h f :
  file_ok h f →
  File_getExecutedLines h f = Ok (u32 (Z.of_nat (count_if (is_executed h) (fl_lines f)))).
Proof.
  intros Hf. unfold File_getExecutedLines, File_fold.
  assert (Hids : ∀ l, Some l ∈ fl_lines f → is_Some (h !! l)).
  { intros l [i Hi]%list_elem_of_lookup. destruct (fo_ids _ _ Hf _ _ Hi) as (a & Ha & _). by eexists. }
  enough (HH : ∀ n ls, (∀ l, Some l ∈ ls → is_Some (h !! l)) →
    res_foldl (λ s cur, match cur with
      | None => Ok s
      | Some l => line ← or_fault (h !! l);
          if ln_unreachable line then Ok s
          else Ok (u32 (s + if bool_decide (Line_hits line = 0) then 0 else 1))
      end) (u32 (Z.of_nat n)) ls =
    Ok (u32 (Z.of_nat (n + count_if (is_executed h) ls)))).
  { apply (HH O _ Hids). }
  clear Hids. intros n ls; revert n. induction ls as [|[l|] ls IH]; intros n Hids.
  - cbn. by rewrite Nat.add_0_r.
  - destruct (Hids l ltac:(left)) as [a Ha]. cbn [res_foldl].
    rewrite Ha. cbn [or_fault mbind res_mbind res_bind count_if].
    rewrite (is_executed_Some _ _ _ Ha).
    assert (Hids' : ∀ l, Some l ∈ ls → is_Some (h !! l)) by (intros; apply Hids; by right).
    destruct (ln_unreachable a); cbn [negb andb mbind res_mbind res_bind id].
    + by apply IH.
    + case_bool_decide; cbn [negb id].
      * rewrite Z.add_0_r, uw_idem. by apply IH.
      * rewrite uw_add_l. replace (Z.of_nat n + 1) with (Z.of_nat (S n)) by lia.
        rewrite IH by done. do 3 f_equal. lia.
  - cbn [res_foldl mbind res_mbind res_bind count_if]. apply IH. intros; apply Hids; by right.
Qed.

Lemma is_executed_reachable h c : is_executed h c = true → is_reachable h c = true.
Proof.
  unfold is_executed, is_reachable. destruct (c ≫= _) as [a|]; [|done].
  by destruct (ln_unreachable a).
Qed.

(** The files a summary is about. *)
Definition counted r (file : bytes) : bool :=
  w_file_exists W file && runFilters (m_filter r) file.

Definition total (p : option nat → bool) r : nat :=
  sum_list_with (λ '(name, f), if counted r name then count_if p (fl_lines f) else O)
    (iter_files (m_files r)).

Lemma getExecutionSummary_ok r :
  iter_sound iter_files → wf r →
  getExecutionSummary W iter_files r =
    Ok (mkSummary (u32 (Z.of_nat (total (is_reachable (r_heap r)) r)))
                  (u32 (Z.of_nat (total (is_executed (r_heap r)) r))) 1).
Proof.
  intros HI Hr. unfold getExecutionSummary, total.
  assert (Hok : ∀ name f, (name, f) ∈ iter_files (m_files r) → file_ok (r_heap r) f).
  { intros name f. by apply iter_files_ok. }
  enough (HH : ∀ fs a b, (∀ name f, (name, f) ∈ fs → file_ok (r_heap r) f) →
    res_foldl (λ '(ex, nr) '(fileName, file),
      if negb (w_file_exists W fileName) then Ok (ex, nr)
      else if negb (runFilters (m_filter r) fileName) then Ok (ex, nr)
      else n ← File_getExecutedLines (r_heap r) file;
           Ok (u32 (ex + n), u32 (nr + File_getNrLines file)))
      (u32 (Z.of_nat a), u32 (Z.of_nat b)) fs =
    Ok (u32 (Z.of_nat (a + sum_list_with (λ '(name, f),
          if counted r name then count_if (is_executed (r_heap r)) (fl_lines f) else O) fs)),
        u32 (Z.of_nat (b + sum_list_with (λ '(name, f),
          if counted r name then count_if (is_reachable (r_heap r)) (fl_lines f) else O) fs)))).
  { pose proof (HH _ O O Hok) as H0. change (u32 (Z.of_nat 0)) with 0 in H0.
    rewrite H0. done. }
  clear Hok. induction fs as [|[name f] fs IH]; intros a b Hok.
  { cbn. by rewrite !Nat.add_0_r. }
  assert (Hok' : ∀ name f, (name, f) ∈ fs → file_ok (r_heap r) f)
    by (intros; eapply Hok; by right).
  cbn [res_foldl sum_list_with]. unfold counted at 1 3.
  destruct (w_file_exists W name); cbn [negb andb mbind res_mbind res_bind]; [|by apply IH].
  destruct (runFilters (m_filter r) name); cbn [negb mbind res_mbind res_bind]; [|by apply IH].
  pose proof (Hok name f ltac:(left)) as Hf.
  rewrite File_getExecutedLines_ok by done. cbn [mbind res_mbind res_bind].
  unfold File_getNrLines. rewrite (fo_nr _ _ Hf), !uw_add_l, !uw_add_r, <-!Nat2Z.inj_add.
  rewrite IH by done. do 3 f_equal; lia.
Qed.

Lemma total_executed_le r :
  (total (is_executed (r_heap r)) r ≤ total (is_reachable (r_heap r)) r)%nat.
Proof.
  unfold total. induction (iter_files (m_files r)) as [|[name f] fs IH]; cbn; [done|].
  assert (count_if (is_executed (r_heap r)) (fl_lines f) ≤
          count_if (is_reachable (r_heap r)) (fl_lines f))%nat.
  { apply count_if_mono. intros x _. apply is_executed_reachable. }
  destruct (counted r name); lia.
Qed.

(** *** Runs *)

Definition run (flt : F) (evs : list Event) : res (Reporter F) :=
  res_foldl handle (new_Reporter flt) evs.

Lemma run_ok flt evs :
  lines_bounded W → Forall ev_ok evs → ∃ r, run flt evs = Ok r ∧ wf r.
Proof.
  intros HW Hevs. apply (res_foldl_total wf); [|apply wf_new_Reporter].
  intros r ev Hr Hev. eapply Forall_forall in Hevs; [|exact Hev].
  destruct (handle_ok ev r HW Hevs Hr) as (r' & ? & ? & _). by exists r'.
Qed.

Lemma run_wf flt evs r :
  lines_bounded W → Forall ev_ok evs → run flt evs = Ok r → wf r.
Proof. intros HW Hevs Hr. destruct (run_ok flt evs HW Hevs) as (r' & Hr' & ?). congruence. Qed.

(** The records of a whole database file, its zeroed tail included. *)
Definition all_entries r : list Entry :=
  db_entries iter_files r ++ replicate (31 * length (db_entries iter_files r)) zero_entry.

Lemma db_bytes_all r :
  db_bytes checksum iter_files r = header_bytes checksum ++ entries_bytes (all_entries r) ++ [].
Proof.
  unfold db_bytes, all_entries. by rewrite entries_bytes_app, entries_bytes_zeros, app_nil_r.
Qed.

Lemma length_all_entries r :
  length (all_entries r) = (32 * length (db_entries iter_files r))%nat.
Proof. unfold all_entries. rewrite length_app, length_replicate. lia. Qed.

Lemma length_db_bytes r :
  Z.of_nat (length (db_bytes checksum iter_files r)) = 16 + 32 * Z.of_nat (length (all_entries r)).
Proof.
  rewrite db_bytes_all. rewrite app_nil_r, length_app, length_entries_bytes.
  unfold header_bytes. rewrite !length_app, !length_be_bytes. lia.
Qed.

Lemma unMarshal_db r r0 k :
  0 ≤ checksum < 2 ^ 64 → Z.of_nat (length (db_bytes checksum iter_files r)) < 2 ^ 64 →
  unMarshal e maxPossibleHits checksum (db_bytes checksum iter_files r ++ zeros k)
    (Z.of_nat (length (db_bytes checksum iter_files r))) r0 =
  (r1 ← res_foldl (unMarshal_entry maxPossibleHits) r0 (norm_entry <$> all_entries r);
   Ok (r1, true)).
Proof.
  intros Hc Hsz. rewrite length_db_bytes in *.
  rewrite db_bytes_all, <-!app_assoc. cbn [app].
  apply unMarshal_at; [done|lia|].
  rewrite Z.add_simpl_l, Z.mul_comm. by rewrite Z.div_mul.
Qed.

(** What the database of [r] leaves waiting in a reporter that has no line yet. *)
Definition stored r (id : Z) : list PendingFileAddress := pending_of (norm_entry <$> all_entries r) id.

Lemma onFile_fresh flt r :
  0 ≤ checksum < 2 ^ 64 → Z.of_nat (length (db_bytes checksum iter_files r)) < 2 ^ 64 →
  ∃ m, onFile e maxPossibleHits checksum false (Some (db_bytes checksum iter_files r)) (@new_Reporter F flt)
    = Ok (set_unmarshallingDone true (set_pendingFiles m (new_Reporter flt))) ∧
    ∀ id, default [] (m !! id) = stored r id.
Proof.
  intros Hc Hsz. unfold onFile. cbn [new_Reporter m_unmarshallingDone].
  set (db := db_bytes checksum iter_files r) in *.
  destruct (read_loop_ok (S (length db)) db [] 0) as (k & Hrd & _); [lia|lia|done|done|].
  unfold read_file. rewrite Hrd. cbn [or_fault mbind res_mbind res_bind].
  unfold db. rewrite (unMarshal_db r _ k) by done.
  destruct (restore_fresh maxPossibleHits (norm_entry <$> all_entries r) (new_Reporter flt)) as (m & -> & Hm); [done..|].
  exists m. split; [done|]. intros id. by rewrite Hm.
Qed.

(** The lines of an id in the files of a reporter. *)
Definition slot_line (h : heap) (c : option nat) : option Line := c ≫= (h !!.).
Definition filed r (id : Z) : list Line :=
  filter (λ a, ln_lineId a = id)
    (iter_files (m_files r) ≫= λ '(_, f), omap (slot_line (r_heap r)) (fl_lines f)).

Definition is_line (ev : Event) : Prop := match ev with EvLine _ _ _ => True | _ => False end.

Lemma run_lines_replayed P lines r :
  (∀ id, Forall (λ v, 0 ≤ pf_index v) (P id)) → lines_bounded W →
  Forall ev_ok lines → Forall is_line lines → wf r → replayed P r →
  ∃ r1, res_foldl handle r lines = Ok r1 ∧ replayed P r1.
Proof.
  intros HP HW Hok Hl Hr H.
  destruct (res_foldl_total (λ r, wf r ∧ replayed P r) handle r lines) as (r1 & E & _ & H1); [|done|by exists r1].
  intros r1 ev [Hr1 H1] Hev. rewrite Forall_forall in Hok, Hl. specialize (Hok ev Hev). specialize (Hl ev Hev).
  destruct (handle_ok ev r1 HW Hok Hr1) as (r2 & E & Hr2 & _). exists r2. split; [done|]. split; [done|].
  destruct ev as [file nr addr| |]; [|done..].
  by apply (onLine_replayed W hashFilename maxPossibleHits P file nr addr r1).
Qed.
End promises.

(** *** What was stored for a line *)

Lemma s32_u64 z : s32 (u64 z) = s32 z.
Proof.
  unfold s32, uw. f_equal. rewrite (Zplus_mod (z mod _)), (Zplus_mod z).
  by rewrite Z.mod_mod_divide by (by exists (2 ^ 32)).
Qed.

Lemma line_id_range fileHash nr : 0 ≤ nr < 2 ^ 32 → 0 ≤ line_id fileHash nr < 2 ^ 64.
Proof.
  intros Hnr. assert (line_id fileHash nr = nr + (fileHash mod 2 ^ 32) * 2 ^ 32) as ->.
  { unfold line_id, uw. rewrite Z.shiftl_mul_pow2 by lia.
    change (2 ^ 64) with (2 ^ 32 * 2 ^ 32). rewrite Z.mul_mod_distr_r by lia.
    by rewrite Z.lor_comm, or_high by lia. }
  pose proof (Z.mod_pos_bound fileHash (2 ^ 32) ltac:(lia)). lia.
Qed.

Abbreviation read_back id es := (pending_of (norm_entry <$> es) id).

Lemma pending_of_app es fs id : pending_of (es ++ fs) id = pending_of es id ++ pending_of fs id.
Proof. unfold pending_of. by rewrite filter_app, fmap_app. Qed.

Lemma read_back_bind {A} (f : A → list Entry) l id :
  read_back id (l ≫= f) = l ≫= λ x, read_back id (f x).
Proof.
  induction l as [|x l IH]; [done|].
  by rewrite !bind_cons, fmap_app, pending_of_app, IH.
Qed.

Lemma read_back_one id ad idx h :
  0 ≤ id < 2 ^ 64 → 0 ≤ idx < 2 ^ 64 → - 2 ^ 31 ≤ h < 2 ^ 31 → h ≠ 0 →
  read_back id [mkEntry ad id idx (u64 h)] = [mkPending idx (u64 h)].
Proof.
  intros Hid Hidx Hh Hne. cbn [fmap list_fmap]. unfold norm_entry. cbn [en_addr en_fileHash en_addrIndex en_hits].
  rewrite pending_of_cons. cbn [en_addr en_fileHash en_addrIndex en_hits].
  rewrite uw_idem, (uw_small 64 id), (uw_small 64 idx) by done. rewrite decide_True; [done|]. split; [done|].
  unfold uw. intros Hz. pose proof (Z.div_mod h (2 ^ 64)). nia.
Qed.

Lemma read_back_addrs id addrs : ∀ idx,
  0 ≤ id < 2 ^ 64 → 0 ≤ idx → idx + Z.of_nat (length addrs) ≤ 2 ^ 32 →
  Forall (λ p, - 2 ^ 31 ≤ p.2 < 2 ^ 31) addrs →
  let vals := read_back id (addr_entries id idx addrs) in
  pf_hits <$> vals = u64 <$> filter (λ h, h ≠ 0) addrs.*2 ∧
  Forall (λ v, idx ≤ pf_index v) vals.
Proof.
  induction addrs as [|[ad h] addrs IH]; intros idx Hid Hidx Hlen Hint; [done|].
  apply Forall_cons in Hint as [Hh Hint]. cbn [snd length] in *. cbn beta zeta.
  assert (pf_hits <$> read_back id (addr_entries id (u32 (idx + 1)) addrs) = u64 <$> filter (λ h, h ≠ 0) addrs.*2 ∧
    Forall (λ v, idx ≤ pf_index v) (read_back id (addr_entries id (u32 (idx + 1)) addrs))) as [H1 H2].
  { destruct addrs as [|x addrs]; [done|]. rewrite uw_small by (cbn [length] in Hlen; lia).
    destruct (IH (idx + 1)) as [H1 H2]; [done|lia|lia|done|]. split; [done|].
    eapply Forall_impl; [exact H2|]. cbn. lia. }
  cbn [addr_entries]. rewrite fmap_app, pending_of_app, fmap_app, fmap_cons, filter_cons. cbn [snd].
  case_bool_decide as E; [by rewrite decide_False by lia|].
  rewrite decide_True, read_back_one by (done || lia). split; [by cbn; f_equal|]. constructor; [|done]. cbn. lia.
Qed.

Lemma first_count_later vals h :
  Forall (λ v, 1 ≤ pf_index v) vals →
  foldl (λ h v, if pf_index v =? 0 then s32 (h + pf_hits v) else h) h vals = h.
Proof.
  induction 1 as [|v vals Hv _ IH]; [done|]. cbn. by rewrite (proj2 (Z.eqb_neq (pf_index v) 0)) by lia.
Qed.

(** A line as the type of its counters has it. *)
Definition line_fits (a : Line) : Prop :=
  Z.of_nat (length (ln_addrs a)) ≤ 2 ^ 32 ∧ Forall (λ p, - 2 ^ 31 ≤ p.2 < 2 ^ 31) (ln_addrs a).

Lemma read_back_line a :
  0 ≤ ln_lineId a < 2 ^ 64 → line_fits a →
  let vals := read_back (ln_lineId a) (line_entries a) in
  first_count vals = default 0 (head (ln_addrs a).*2) ∧
  pf_hits <$> vals = u64 <$> filter (λ h, h ≠ 0) (ln_addrs a).*2.
Proof.
  intros Hid [Hlen Hint]. unfold line_entries.
  destruct (read_back_addrs (ln_lineId a) (ln_addrs a) 0 Hid) as [H1 _]; [lia|lia|done|].
  split; [|exact H1]. clear H1. destruct (ln_addrs a) as [|[ad h] addrs] eqn:E; [done|].
  apply Forall_cons in Hint as [Hh Hint]. cbn [length snd] in *. cbn [fmap list_fmap head default from_option].
  assert (Forall (λ v, 1 ≤ pf_index v) (read_back (ln_lineId a) (addr_entries (ln_lineId a) 1 addrs))) as H2.
  { destruct (read_back_addrs (ln_lineId a) addrs 1 Hid) as [_ H2]; [lia|lia|done|done]. }
  cbn [addr_entries]. change (u32 (0 + 1)) with 1. rewrite fmap_app, pending_of_app. unfold first_count.
  rewrite foldl_app, first_count_later by done. case_bool_decide as E0; [done|].
  rewrite read_back_one by (done || lia). cbn [app foldl pf_index pf_hits]. by rewrite Z.eqb_refl, Z.add_0_l, s32_u64, s32_small.
Qed.

Lemma stored_filed {F : Type} (iter_files : gmap bytes File → list (bytes * File)) (r : Reporter F) id :
  iter_sound iter_files → wf r →
  stored iter_files r id = filed iter_files r id ≫= λ a, read_back (ln_lineId a) (line_entries a).
Proof.
  intros HI Hr. unfold stored, all_entries. rewrite fmap_app, pending_of_app.
  assert (pending_of (norm_entry <$> replicate (31 * length (db_entries iter_files r)) zero_entry) id = []) as ->.
  { generalize (31 * length (db_entries iter_files r))%nat. induction n as [|n IH]; [done|].
    cbn [replicate fmap list_fmap]. by rewrite pending_of_cons, decide_False by (cbn; naive_solver). }
  rewrite app_nil_r. unfold db_entries, filed.
  rewrite read_back_bind.
  assert (∀ x, x ∈ iter_files (m_files r) → file_ok (r_heap r) x.2) as Hok
    by (intros [name f] Hx; by eapply iter_files_ok).
  induction (iter_files (m_files r)) as [|[name f] fs IH]; [done|].
  rewrite !bind_cons, filter_app, bind_app, IH by (intros; apply Hok; by right). f_equal. clear IH.
  specialize (Hok (name, f) ltac:(left)). cbn in Hok. unfold file_entries.
  rewrite read_back_bind.
  assert (∀ c a, c ∈ fl_lines f → slot_line (r_heap r) c = Some a → 0 ≤ ln_lineId a < 2 ^ 64) as Hids.
  { intros [l|] a Hc Ha; [|done]. apply list_elem_of_lookup in Hc as [nr Hnr].
    destruct (fo_ids _ _ Hok _ _ Hnr) as (b & Hb & Hbid). cbn in Ha. rewrite Hb in Ha. injection Ha as <-. rewrite Hbid.
    apply line_id_range. pose proof (fo_len _ _ Hok). apply lookup_lt_Some in Hnr. lia. }
  induction (fl_lines f) as [|c cs IH]; [done|].
  rewrite bind_cons, IH by (intros; eapply Hids; [by right|done]). cbn [omap list_omap].
  specialize (Hids c). unfold slot_entries. change (c ≫= (r_heap r !!.)) with (slot_line (r_heap r) c).
  destruct (slot_line (r_heap r) c) as [a|]; [|done]. specialize (Hids a ltac:(left) eq_refl).
  rewrite filter_cons. case_decide as E; [by rewrite bind_cons, E|].
  replace (pending_of (norm_entry <$> line_entries a) id) with (@nil PendingFileAddress); [done|].
  symmetry. unfold line_entries. generalize 0. induction (ln_addrs a) as [|[ad h] addrs IHa]; intros idx; [done|].
  cbn [addr_entries]. rewrite fmap_app, pending_of_app, IHa, app_nil_r. case_bool_decide; [done|].
  cbn [fmap list_fmap norm_entry en_hits en_fileHash en_addrIndex]. rewrite pending_of_cons, decide_False; [done|].
  cbn. rewrite uw_small by done. naive_solver.
Qed.

Section properties.
Context {F : Type} `{!IFilter F}.
Context (W : World) (e : endian) (hashFilename : bool) (maxPossibleHits : PossibleHits).
Context (checksum : Z) (iter_files : gmap bytes File → list (bytes * File)).
Implicit Types r : Reporter F.

(** ** Properties *)

(** C1: whatever notifications arrive, in whatever order - lines numbered below
    2^32 - 1, hits, databases - the reporter handles them without a fault, and its
    maps only hold pointers to live lines that know the address they are filed
    under.  A database may be of any content, shorter than its header, too, except a
    header that breaks off where only zero bytes are missing ([cut_header]): see
    [truncated_database_faults]. *)
Theorem reporter_safe flt evs :
  lines_bounded W → Forall (ev_ok checksum) evs →
  ∃ r, run W e hashFilename maxPossibleHits checksum flt evs = Ok r ∧
    (∀ addr l, l ∈ lines_at r addr → ∃ line, r_heap r !! l = Some line ∧
       addr ∈ (ln_addrs line).*1) ∧
    (∀ id l, m_lineIdToFileMap r !! id = Some l → ∃ line, r_heap r !! l = Some line ∧
       ln_lineId line = id).
Proof.
  intros HW Hevs.
  destruct (run_ok W e hashFilename maxPossibleHits checksum flt evs HW Hevs) as (r & Hr & Hw).
  exists r. split; [done|]. split.
  - intros addr l. unfold lines_at. destruct (m_addrToLine r !! addr) as [ls|] eqn:E.
    + cbn. intros Hl. pose proof (wf_addrs r Hw _ _ E) as Hls.
      by eapply Forall_forall in Hls.
    + by intros ?%not_elem_of_nil.
  - intros id l Hl. by apply (wf_ids r Hw).
Qed.

(** C18: the state after a hit of an address is the state before but for these: in
    every line filed under the address the counter of that address (one in
    single-shot mode, added to otherwise) and, where the line had no place in the
    order of hits, the next one; the number of places given; and one call per line,
    under its id, in the order the lines are filed. *)
Theorem onAddressHit_effect addr hits r :
  wf r →
  ∃ h, onAddressHit maxPossibleHits addr hits r =
    Ok (mkReporter h (r_brk r) (m_files r) (m_addrToLine r) (m_pendingFiles r)
          (m_lineIdToFileMap r) (m_filter r) (m_unmarshallingDone r)
          (order_after (m_order r) (count_if (unordered (r_heap r)) (lines_at r addr)))
          (r_out r ++ ((λ l, OnAddress (line_id_at (r_heap r) l) hits) <$> lines_at r addr))) ∧
    (∀ l, l ∉ lines_at r addr → h !! l = r_heap r !! l) ∧
    (∀ i l a, lines_at r addr !! i = Some l → r_heap r !! l = Some a →
       h !! l = Some (mkLine
         ((λ '(ad, n), (ad, if bool_decide (ad = addr)
                            then if singleShot maxPossibleHits then 1 else s32 (n + hits)
                            else n)) <$> ln_addrs a)
         (ln_lineId a)
         (if ln_order a =? 0
          then order_after (m_order r) (count_if (unordered (r_heap r)) (take i (lines_at r addr)))
          else ln_order a)
         (ln_unreachable a))).
Proof.
  intros Hr. unfold onAddressHit, lines_at.
  destruct (m_addrToLine r !! addr) as [ls|] eqn:E; cbn [default from_option].
  - destruct (hit_lines_eq maxPossibleHits addr hits ls r Hr) as (h & Eq & Hsame & Hhit);
      [by apply (wf_lists r Hr _ _ E)|by apply (wf_addrs r Hr _ _ E)|].
    exists h. split; [exact Eq|]. split; [exact Hsame|exact Hhit].
  - exists (r_heap r). cbn. rewrite app_nil_r. by destruct r.
Qed.

(** C20: the summary counts, over the files that exist and pass the filter, the
    lines that hold code and the ones of them with a hit: never more executed
    lines than lines, the sums being [unsigned int]s. *)
Theorem summary_counts r :
  iter_sound iter_files → wf r →
  ∃ lines executed : nat,
    getExecutionSummary W iter_files r =
      Ok (mkSummary (u32 (Z.of_nat lines)) (u32 (Z.of_nat executed)) 1) ∧
    (executed ≤ lines)%nat ∧
    lines = sum_list_with (λ '(name, f),
      if counted W r name then count_if (is_reachable (r_heap r)) (fl_lines f) else O)
      (map_to_list (m_files r)) ∧
    executed = sum_list_with (λ '(name, f),
      if counted W r name then count_if (is_executed (r_heap r)) (fl_lines f) else O)
      (map_to_list (m_files r)).
Proof.
  intros HI Hr. rewrite getExecutionSummary_ok by done. eexists _, _. split; [done|].
  split; [apply total_executed_le|].
  unfold total. by split; apply sum_list_with_perm.
Qed.

(** C2: the database of one run, read by the next - on a host of either byte order,
    when its first file is added and before any line of it is known, as the program
    does it: whatever lines are announced then, the first address of a line gets the
    counter the first address of that line had, and the listeners are told of every
    counter of the line that was not zero, in order.  The counters of further
    addresses are not restored: see [pending_index_lost].  The line is meant by its
    id, which at most one line of either run has, and has no more than 2^32
    addresses. *)
Theorem database_restores e' flt r lines :
  iter_sound iter_files → wf r → (∀ l a, r_heap r !! l = Some a → line_fits a) →
  0 ≤ checksum < 2 ^ 64 → Z.of_nat (length (db_bytes checksum iter_files r)) < 2 ^ 64 →
  lines_bounded W → Forall (ev_ok checksum) lines → Forall is_line lines →
  ∃ db r1, Reporter_marshal e checksum iter_files r = Ok db ∧
    run W e' hashFilename maxPossibleHits checksum flt (EvFile false (Some db) :: lines) = Ok r1 ∧
    ∀ l b stored_line, r_heap r1 !! l = Some b → ln_addrs b ≠ [] →
      (∀ l' b', r_heap r1 !! l' = Some b' → ln_lineId b' = ln_lineId b → l' = l) →
      filed iter_files r (ln_lineId b) = option_list stored_line →
      let old := from_option ln_addrs [] stored_line in
      (ln_addrs b).*2 = counts (default 0 (head old.*2)) (length (ln_addrs b)) ∧
      told_hits (ln_lineId b) (r_out r1) = u64 <$> filter (λ h, h ≠ 0) old.*2.
Proof.
  intros HI Hr Hfit Hc Hsz HW Hok Hl.
  destruct (onFile_fresh e' maxPossibleHits checksum iter_files flt r Hc Hsz) as (m & Eon & Hm).
  set (P := stored iter_files r). set (r0 := set_unmarshallingDone true (set_pendingFiles m (new_Reporter flt))) in *.
  assert (∀ id, Forall (λ v, 0 ≤ pf_index v) (P id)) as HP.
  { intros id. apply Forall_fmap, Forall_forall. intros en Hen. cbn.
    apply list_elem_of_filter in Hen as [_ Hen]. apply list_elem_of_fmap in Hen as (en' & -> & _). apply u64_range. }
  assert (replayed P r0) as H0 by (intros id; left; by split_and!).
  destruct (run_lines_replayed W e' hashFilename maxPossibleHits checksum P lines r0)
    as (r1 & E1 & H1); [done..|by apply wf_set_done, wf_set_pending, wf_new_Reporter|done|].
  exists (db_bytes checksum iter_files r), r1. split; [by apply Reporter_marshal_ok|].
  split; [unfold run; cbn [res_foldl handle]; by rewrite Eon|].
  intros l b sl Hb Hne Huniq Hsl old.
  assert (first_count (P (ln_lineId b)) = default 0 (head old.*2) ∧
          pf_hits <$> P (ln_lineId b) = u64 <$> filter (λ h, h ≠ 0) old.*2) as [Hfirst Hhits].
  { unfold P. rewrite stored_filed, Hsl by done. unfold old. destruct sl as [a|]; [|done].
    change (option_list (Some a)) with [a] in *. cbn [from_option]. rewrite bind_cons, app_nil_r.
    assert (a ∈ filed iter_files r (ln_lineId b)) as Hin by (rewrite Hsl; by left).
    apply list_elem_of_filter in Hin as [Hid Hin]. apply list_elem_of_bind in Hin as ([name f] & Hin & Hf).
    apply list_elem_of_omap in Hin as ([k|] & Hk & Ha); [|done]. cbn in Ha.
    apply read_back_line; [|by eapply Hfit].
    pose proof (iter_files_ok iter_files r name f HI Hr Hf) as Hfo. apply list_elem_of_lookup in Hk as [nr Hnr].
    destruct (fo_ids _ _ Hfo _ _ Hnr) as (a' & Ha' & Hid'). rewrite Ha in Ha'. injection Ha' as <-. rewrite Hid'.
    apply line_id_range. pose proof (fo_len _ _ Hfo). apply lookup_lt_Some in Hnr. lia. }
  destruct (H1 (ln_lineId b)) as [(_ & _ & Hblank) | (_ & Htold & l0 & b0 & Hb0 & Hid0 & _ & Hcounts)].
  { by destruct Hne; eapply Hblank. }
  assert (l0 = l) as -> by (by eapply Huniq). split; [|by rewrite Htold].
  specialize (Hcounts l b Hb eq_refl). rewrite decide_True in Hcounts by done. by rewrite <-Hfirst.
Qed.

(** A database is read without a fault, and when its magic, version or checksum
    differs from the program's the reporter is left as it was. *)
Theorem database_any_content content k r :
  wf r → Z.of_nat (length content) < 2 ^ 64 → (16 ≤ length content + k)%nat → ¬ cut_header checksum content →
  ∃ r' b, unMarshal e maxPossibleHits checksum (content ++ zeros k)
            (Z.of_nat (length content)) r = Ok (r', b) ∧ wf r' ∧ (b = false → r' = r).
Proof.
  intros Hr Hsz Hk Hcut.
  destruct (unMarshal_ok e checksum maxPossibleHits content k r Hr Hsz Hk Hcut)
    as (r' & b & Heq & (Hw & _) & Hb).
  by exists r', b.
Qed.
End properties.

(** ** Concrete runs *)

#[local] Existing Instance keep_all.
#[local] Definition plain_world : World := one_file_world (str "a.c") [].

#[local] Definition demo_lines : list Event :=
  [EvLine (str "a.c") 3 0x1000; EvLine (str "a.c") 4 0x1010].
#[local] Definition demo_run (evs : list Event) : res (Reporter unit) :=
  run plain_world LittleEndian true HITS_LIMITED 5 tt evs.

Lemma plain_bounded : lines_bounded plain_world.
Proof. intros file. cbn. lia. Qed.
Lemma demo_ok : Forall (ev_ok 5) (demo_lines ++ [EvHit 0x1010 1]).
Proof. repeat constructor; cbn; lia. Qed.
Lemma demo_lines_ok : Forall (ev_ok 5) demo_lines.
Proof. repeat constructor; cbn; lia. Qed.
Lemma list_iter_sound : iter_sound map_to_list.
Proof. by intros m. Qed.

Lemma reporter_safe_witness :
  ∃ r, demo_run (demo_lines ++ [EvHit 0x1010 1]) = Ok r ∧
    Line_hits <$> r_heap r !! 1%nat = Some 1.
Proof.
  destruct (reporter_safe plain_world LittleEndian true HITS_LIMITED 5 tt
              (demo_lines ++ [EvHit 0x1010 1]) plain_bounded demo_ok) as (r & Hr & _).
  exists r. split; [exact Hr|]. vm_compute in Hr. injection Hr as <-. reflexivity.
Defined.

Lemma onAddressHit_effect_witness :
  ∃ r r', demo_run demo_lines = Ok r ∧ onAddressHit HITS_UNLIMITED 0x1010 2 r = Ok r' ∧
    r_heap r' !! 1%nat = Some (mkLine [(0x1010, 2)] (line_id 7 4) 1 false).
Proof.
  destruct (run_ok plain_world LittleEndian true HITS_LIMITED 5 tt demo_lines plain_bounded demo_lines_ok)
    as (r & Hr & Hw).
  destruct (onAddressHit_effect HITS_UNLIMITED 0x1010 2 r Hw) as (h & Hh & _ & Hhit).
  eexists r, _. split; [exact Hr|]. split; [exact Hh|]. cbn [r_heap].
  vm_compute in Hr. injection Hr as <-. exact (Hhit 0%nat 1%nat _ eq_refl eq_refl).
Defined.

Lemma summary_counts_witness :
  ∃ r lines executed, demo_run (demo_lines ++ [EvHit 0x1010 1]) = Ok r ∧
    getExecutionSummary plain_world map_to_list r
    = Ok (mkSummary (u32 (Z.of_nat lines)) (u32 (Z.of_nat executed)) 1) ∧
    lines = 2%nat ∧ executed = 1%nat.
Proof.
  destruct (run_ok plain_world LittleEndian true HITS_LIMITED 5 tt _ plain_bounded demo_ok)
    as (r & Hr & Hw).
  destruct (summary_counts plain_world map_to_list r list_iter_sound Hw)
    as (lines & executed & Hs & _ & Hl & He).
  exists r, lines, executed. split; [exact Hr|]. split; [exact Hs|].
  vm_compute in Hr. injection Hr as <-. vm_compute in Hl, He. split; [exact Hl|exact He].
Defined.

Lemma database_restores_witness :
  ∃ r db r1 b, demo_run (demo_lines ++ [EvHit 0x1010 1]) = Ok r ∧
    Reporter_marshal BigEndian 5 map_to_list r = Ok db ∧
    demo_run (EvFile false (Some db) :: demo_lines) = Ok r1 ∧
    r_heap r1 !! 1%nat = Some b ∧ (ln_addrs b).*2 = [1] ∧ told_hits (ln_lineId b) (r_out r1) = [1].
Proof.
  destruct (run_ok plain_world LittleEndian true HITS_LIMITED 5 tt _ plain_bounded demo_ok)
    as (r & Hr & Hw).
  destruct (database_restores plain_world BigEndian true HITS_LIMITED 5 map_to_list LittleEndian tt r demo_lines
    list_iter_sound Hw) as (db & r1 & Hdb & Hrun & Hrest);
    [|done| |exact plain_bounded|exact demo_lines_ok|by repeat constructor|].
  - vm_compute in Hr. injection Hr as <-. apply (bool_decide_unpack (map_Forall (λ _, line_fits) _)).
    vm_compute. exact I.
  - vm_compute in Hr. injection Hr as <-. by vm_compute.
  - exists r, db, r1. vm_compute in Hr. injection Hr as <-. vm_compute in Hdb. injection Hdb as <-.
    vm_compute in Hrun. injection Hrun as <-. eexists. do 3 (split; [reflexivity|]). split; [reflexivity|].
    destruct (Hrest 1%nat (mkLine [(0x1010, 1)] (line_id 7 4) 0 false)
      (Some (mkLine [(0x1010, 1)] (line_id 7 4) 1 false))) as [H1 H2]; [reflexivity|done| |reflexivity|].
    + intros l' b' Hl' Hid. revert l' b' Hl' Hid.
      apply (bool_decide_unpack (map_Forall (λ l' b', ln_lineId b' = line_id 7 4 → l' = 1%nat) _)).
      vm_compute. exact I.
    + split; [exact H1|exact H2].
Defined.

Lemma database_any_content_witness :
  ∃ r r' b, demo_run demo_lines = Ok r ∧
    unMarshal LittleEndian HITS_LIMITED 5 (zeros 20 ++ zeros 1000) 20 r = Ok (r', b) ∧ b = false.
Proof.
  destruct (run_ok plain_world LittleEndian true HITS_LIMITED 5 tt demo_lines plain_bounded demo_lines_ok)
    as (r & Hr & Hw).
  destruct (database_any_content LittleEndian HITS_LIMITED 5 (zeros 20) 1000 r Hw)
    as (r' & b & Hu & _); [done|cbn; lia|by intros [? _]; cbn in *; lia|].
  exists r, r', b. split; [exact Hr|]. split; [exact Hu|].
  vm_compute in Hr. injection Hr as <-. vm_compute in Hu. by injection Hu as _ <-.
Defined.

(** A database cut off inside its header (12 bytes are left) of a program
    whose checksum is zero, as a script's always is, passes for a header: the
    number of records is computed from a negative size and the reader runs off
    the end of its block. *)
Theorem truncated_database_faults :
  onFile LittleEndian HITS_UNLIMITED 0 false (Some (take 12 (header_bytes 0)))
    (@new_Reporter unit tt) = Fault.
Proof. vm_compute. reflexivity. Qed.

(** Hits kept for a line that has not been seen yet are applied when its
    first address arrives and then forgotten: those of its second address are
    lost, although they have been reported to the listeners. *)
Theorem pending_index_lost :
  let id := line_id 7 3 in
  let r0 := set_pendingFiles {[id := [mkPending 0 1; mkPending 1 1]]} (@new_Reporter unit tt) in
  ∃ r1 r2,
    onLine plain_world true HITS_LIMITED (str "a.c") 3 0x1000 r0 = Ok r1 ∧
    onLine plain_world true HITS_LIMITED (str "a.c") 3 0x1008 r1 = Ok r2 ∧
    r_out r1 = [OnAddress id 1; OnAddress id 1; OnLineReporter (str "a.c") 3 id] ∧
    ln_addrs <$> r_heap r2 !! 0%nat = Some [(0x1000, 1); (0x1008, 0)].
Proof. eexists _, _. split; [vm_compute; reflexivity|]. by vm_compute. Qed.
