(* ===== verification/MergeParser.v ===== *)
(** * The merge parser (src/src/merge-file-parser.cc)

    The merge parser listens to a reporter, keeps per source file the lines and
    hit addresses it hears of, stores them as one metadata file per source file
    when kcov stops, and merges the metadata files of other runs, for which it
    plays both the parser (it calls [onLine] on its line listeners) and the
    collector (it calls [onAddressHit] on its collector listeners).

    [mp_out] is the trace of both kinds of calls, in order.  [File] objects are
    created once per name and never replaced, so that a [File] pointer is
    represented by the name. *)
From S2P Require Export Interfaces.
From stdpp Require Import options.

Definition MERGE_MAGIC : Z := 0x4d6f6172.
Definition MERGE_VERSION : Z := 4.

(** ** File *)

Record MFile := mkMFile {
  mf_filename : bytes;
  mf_fileTimestamp : Z;
  mf_lines : gmap Z (gmap Z Z);    (* m_lines: line, address, times added *)
  mf_addrHits : gmap Z Z;          (* m_addrHits; an absent address has 0 *)
  mf_checksum : Z;
  mf_local : bool;
}.

Definition MFile_addLine (lineNr addr : Z) (f : MFile) : MFile :=
  let m := default ∅ (mf_lines f !! lineNr) in
  mkMFile (mf_filename f) (mf_fileTimestamp f)
    (<[lineNr:=<[addr:=u32 (default 0 (m !! addr) + 1)]> m]> (mf_lines f))
    (mf_addrHits f) (mf_checksum f) (mf_local f).

Definition MFile_hits (f : MFile) (addr : Z) : Z := default 0 (mf_addrHits f !! addr).

(** [hits] is an [unsigned int] here. *)
Definition MFile_registerHits (addr hits : Z) (f : MFile) : MFile :=
  mkMFile (mf_filename f) (mf_fileTimestamp f) (mf_lines f)
    (<[addr:=u32 (MFile_hits f addr + u32 hits)]> (mf_addrHits f))
    (mf_checksum f) (mf_local f).

Definition MFile_setLocal (f : MFile) : MFile :=
  mkMFile (mf_filename f) (mf_fileTimestamp f) (mf_lines f) (mf_addrHits f) (mf_checksum f) true.

(** ** The parser *)

Inductive MergeCall := MLine (c : LineCall) | MHit (c : HitCall).

Record MergeParser := mkMergeParser {
  mp_files : gmap bytes MFile;
  mp_filesByAddress : gmap Z bytes;
  mp_fileLineByAddress : gmap Z Z;
  mp_pendingHits : gmap Z Z;
  mp_out : list MergeCall;
}.

Definition new_MergeParser : MergeParser := mkMergeParser ∅ ∅ ∅ ∅ [].

Definition mp_set_file (name : bytes) (f : MFile) (p : MergeParser) : MergeParser :=
  mkMergeParser (<[name:=f]> (mp_files p)) (mp_filesByAddress p) (mp_fileLineByAddress p)
    (mp_pendingHits p) (mp_out p).
Definition mp_set_pending (m : gmap Z Z) (p : MergeParser) : MergeParser :=
  mkMergeParser (mp_files p) (mp_filesByAddress p) (mp_fileLineByAddress p) m (mp_out p).
Definition mp_map_addr (addr addrHash : Z) (p : MergeParser) : MergeParser :=
  mkMergeParser (mp_files p) (mp_filesByAddress p) (<[addr:=addrHash]> (mp_fileLineByAddress p))
    (mp_pendingHits p) (mp_out p).
Definition mp_map_file (addrHash : Z) (name : bytes) (p : MergeParser) : MergeParser :=
  mkMergeParser (mp_files p) (<[addrHash:=name]> (mp_filesByAddress p)) (mp_fileLineByAddress p)
    (mp_pendingHits p) (mp_out p).
Definition mp_emit (c : MergeCall) (p : MergeParser) : MergeParser :=
  mkMergeParser (mp_files p) (mp_filesByAddress p) (mp_fileLineByAddress p) (mp_pendingHits p)
    (mp_out p ++ [c]).

(** The hit bit of an address. *)
Definition hit_bit : Z := Z.shiftl 1 63.
Definition clear_hit (addr : Z) : Z := Z.land addr (Z.lnot hit_bit).
Definition has_hit (addr : Z) : bool := negb (Z.land addr hit_bit =? 0).

Section merge.
Context {F : Type} `{!IFilter F} (flt : F) (W : World) (e : endian).
(** The iteration orders of the unordered maps. *)
Context (iter_lines : gmap Z (gmap Z Z) → list (Z * gmap Z Z)).
Context (iter_addrs : gmap Z Z → list (Z * Z)).
Context (iter_mfiles : gmap bytes MFile → list (bytes * MFile)).

Implicit Types p : MergeParser.

Definition new_MFile (filename : bytes) : res MFile :=
  match w_read_file W filename with
  | None => Panic
  | Some data =>
      Ok (mkMFile filename (w_timestamp W filename) ∅ ∅ (u32 (w_hash_block W data)) false)
  end.

Definition hashAddress (filename : bytes) (lineNr addr : Z) : Z :=
  Z.lor (u32 (w_hash_block W filename)) (u64 (Z.shiftl lineNr 32)).

(** From [IReporter::IListener]. *)
Definition mp_onAddress (addr hits : Z) p : MergeParser :=
  match mp_fileLineByAddress p !! addr with
  | None => mp_set_pending (<[addr:=hits]> (mp_pendingHits p)) p
  | Some addr =>
      match (name ← mp_filesByAddress p !! addr; f ← mp_files p !! name; Some (name, f)) with
      | None => p
      | Some (name, file) =>
          mp_emit (MHit (OnAddressHit addr hits))
            (mp_set_file name (MFile_registerHits addr hits file) p)
      end
  end.

(** [m_files[filename]], created on first use; whether it existed. *)
Definition mp_get_file (filename : bytes) p : res (MFile * bool * MergeParser) :=
  match mp_files p !! filename with
  | Some f => Ok (f, true, p)
  | None => f ← new_MFile filename; Ok (f, false, mp_set_file filename f p)
  end.

Definition onLineReporter (filename : bytes) (lineNr addr : Z) p : res MergeParser :=
  if negb (runFilters flt filename) then Ok p
  else if negb (w_file_exists W filename) then Ok p
  else
    '(file, _, p) ← mp_get_file filename p;
    let addrHash := clear_hit (hashAddress filename lineNr addr) in
    let p := mp_map_addr addr addrHash p in
    (* Mark as a local file *)
    let file := MFile_addLine lineNr addrHash (MFile_setLocal file) in
    let p := mp_set_file filename file p in
    (* Record this for the collector hits *)
    let p := mp_map_file addrHash filename p in
    let p := mp_emit (MLine (OnLine filename lineNr addrHash)) p in
    (* Visit pending addresses for this file/line *)
    Ok (match mp_pendingHits p !! addr with
        | None => p
        | Some hits =>
            let p := mp_onAddress addr hits p in
            mp_set_pending (delete addr (mp_pendingHits p)) p
        end).

(** *** Marshalling *)

(** [struct file_data] is 8-aligned: its flexible array starts at 36. *)
Definition sizeof_file_data : Z := 40.
Definition entries_offset : Z := 36.
Definition sizeof_line_entry : Z := 12.

Definition put32 (off v : Z) (b : bytes) : res bytes := zwrite off (native_bytes e 4 (to_be e 4 v)) b.
Definition put64 (off v : Z) (b : bytes) : res bytes := zwrite off (native_bytes e 8 (to_be e 8 v)) b.

(** The address table starts at the next 8-aligned offset: [malloc] returns
    aligned blocks. *)
Definition align8 (off : Z) : Z := if Z.land off 7 =? 0 then off else off + (8 - Z.land off 7).

(** The inner loop: the table of one line. *)
Fixpoint marshal_addrs (file : MFile) (table tableOffset : Z) (addrs : list (Z * Z)) (b : bytes)
    : res (Z * bytes) :=
  match addrs with
  | [] => Ok (tableOffset, b)
  | (addr, _) :: addrs =>
      let addr := if MFile_hits file addr =? 0 then addr else Z.lor addr hit_bit in
      b ← put64 (table + 8 * tableOffset) addr b;
      marshal_addrs file table (u32 (tableOffset + 1)) addrs b
  end.

Fixpoint marshal_lines (file : MFile) (table tableOffset p : Z) (lines : list (Z * gmap Z Z))
    (b : bytes) : res (Z * bytes) :=
  match lines with
  | [] => Ok (tableOffset, b)
  | (line, m) :: lines =>
      b ← put32 p line b;
      b ← put32 (p + 4) tableOffset b;
      b ← put32 (p + 8) (Z.of_nat (length (iter_addrs m))) b;
      '(tableOffset, b) ← marshal_addrs file table tableOffset (iter_addrs m) b;
      marshal_lines file table tableOffset (p + sizeof_line_entry) lines b
  end.

Definition marshalFile (file : MFile) : res bytes :=
  let lines := iter_lines (mf_lines file) in
  let n_lines := Z.of_nat (length lines) in
  let n_addrs := foldl (λ n l, u32 (n + Z.of_nat (length (iter_addrs l.2)))) 0 lines in
  let size := sizeof_file_data + n_lines * sizeof_line_entry + n_addrs * 8 +
              Z.of_nat (length (mf_filename file)) + 1 + 8 in
  let out := zeros (Z.to_nat size) in
  out ← put32 0 MERGE_MAGIC out;
  out ← put32 4 MERGE_VERSION out;
  out ← put32 12 (mf_checksum file) out;
  out ← put64 16 (mf_fileTimestamp file) out;
  out ← put32 8 size out;
  out ← put32 24 n_lines out;
  let table := align8 (entries_offset + sizeof_line_entry * n_lines) in
  '(tableOffset, out) ← marshal_lines file table 0 entries_offset lines out;
  out ← put32 28 (u32 table) out;
  let p_name := u32 table + tableOffset * 8 in
  out ← zwrite p_name (mf_filename file ++ [NUL]) out;
  put32 32 p_name out.

(** *** Unmarshalling *)

(** Fields of [fd] as the host reads them, and the conversions in place. *)
Definition host32 (b : bytes) (off : Z) : res Z := d ← zread b off 4; Ok (native_val e d).
Definition host64 (b : bytes) (off : Z) : res Z := d ← zread b off 8; Ok (native_val e d).
Definition conv32 (off : Z) (b : bytes) : res bytes :=
  v ← host32 b off; zwrite off (native_bytes e 4 (be_to_host e 4 v)) b.
Definition conv64 (off : Z) (b : bytes) : res bytes :=
  v ← host64 b off; zwrite off (native_bytes e 8 (be_to_host e 8 v)) b.

(** [n] entries from [p] on.  Each takes 12 bytes of the block, so that the
    length of the block is fuel enough. *)
Fixpoint conv_entries (fuel : nat) (p n : Z) (b : bytes) : res bytes :=
  if n <=? 0 then Ok b
  else match fuel with
       | O => Fault
       | S fuel =>
           b ← conv32 p b;
           b ← conv32 (p + 8) b;
           b ← conv32 (p + 4) b;
           conv_entries fuel (p + sizeof_line_entry) (n - 1) b
       end.

Fixpoint conv_table (fuel : nat) (p n : Z) (b : bytes) : res bytes :=
  if n <=? 0 then Ok b
  else match fuel with
       | O => Fault
       | S fuel => b ← conv64 p b; conv_table fuel (p + 8) (n - 1) b
       end.

Definition unMarshalFile (fd : bytes) : res (bytes * bool) :=
  fd ← conv32 0 fd;
  fd ← conv32 4 fd;
  fd ← conv32 12 fd;
  fd ← conv64 16 fd;
  fd ← conv32 8 fd;
  fd ← conv32 24 fd;
  fd ← conv32 32 fd;
  fd ← conv32 28 fd;
  magic ← host32 fd 0;
  version ← host32 fd 4;
  if negb (magic =? MERGE_MAGIC) then Ok (fd, false)
  else if negb (version =? MERGE_VERSION) then Ok (fd, false)
  else
    n_entries ← host32 fd 24;
    fd ← conv_entries (length fd) entries_offset n_entries fd;
    file_name_offset ← host32 fd 32;
    address_table_offset ← host32 fd 28;
    fd ← conv_table (length fd) address_table_offset
           (u32 (file_name_offset - address_table_offset) / 8) fd;
    Ok (fd, true).

(** One address of a stored line. *)
Definition merge_addr (filename : bytes) (lineNr addr : Z) (p : MergeParser) : res MergeParser :=
  let hit := has_hit addr in
  let addr := clear_hit addr in
  file ← or_fault (mp_files p !! filename);
  let file := MFile_addLine lineNr addr file in
  let p := mp_emit (MLine (OnLine filename lineNr (clear_hit addr))) (mp_set_file filename file p) in
  Ok (if hit
      then mp_emit (MHit (OnAddressHit addr 1))
             (mp_set_file filename (MFile_registerHits addr 1 file) p)
      else p).

(** The loops of [parseFileData]: the block bounds the iterations (each reads
    8, respectively 12, bytes of it further on). *)
Fixpoint merge_addrs (fuel : nat) (fd : bytes) (filename : bytes) (lineNr table start ia n : Z)
    (p : MergeParser) : res MergeParser :=
  if n <=? ia then Ok p
  else match fuel with
       | O => Fault
       | S fuel =>
           addr ← host64 fd (table + 8 * u32 (start + ia));
           p ← merge_addr filename lineNr addr p;
           merge_addrs fuel fd filename lineNr table start (ia + 1) n p
       end.

Fixpoint merge_lines (fuel : nat) (fd : bytes) (filename : bytes) (table i n : Z)
    (p : MergeParser) : res MergeParser :=
  if n <=? i then Ok p
  else match fuel with
       | O => Fault
       | S fuel =>
           let ent := entries_offset + sizeof_line_entry * i in
           lineNr ← host32 fd ent;
           start ← host32 fd (ent + 4);
           n_addresses ← host32 fd (ent + 8);
           p ← merge_addrs (length fd) fd filename lineNr table start 0 n_addresses p;
           merge_lines fuel fd filename table (i + 1) n p
       end.

Definition parseFileData (fd : bytes) p : res MergeParser :=
  file_name_offset ← host32 fd 32;
  filename ← zc_str fd file_name_offset;
  let filename := mangleSourcePath flt filename in
  (* File has been removed since last test *)
  if negb (w_file_exists W filename) then Ok p
  else
    checksum ← host32 fd 12;
    '(file, existed, p) ← mp_get_file filename p;
    (* Checksum doesn't match, ignore this file *)
    if existed && negb (mf_checksum file =? checksum) then Ok p
    else
      table ← host32 fd 28;
      n_entries ← host32 fd 24;
      merge_lines (length fd) fd filename table 0 n_entries p.

(** [content] is what the file holds, if it can be read. *)
Definition parseOne (curFile : bytes) (content : option bytes) p : res MergeParser :=
  if negb (string_is_integer curFile 16) then Ok p
  else match content with
       | None => Ok p
       | Some content =>
           '(fd, size) ← or_fault (read_file content);
           if Z.of_nat size <? sizeof_file_data then Ok p
           else '(fd, ok) ← unMarshalFile fd;
                if ok : bool then parseFileData fd p else Ok p
       end.

(** A directory's [metadata] entries, in the order [readdir] gives them; it
    may be missing. *)
Definition parseDirectory (metadata : option (list (bytes * option bytes))) p : res MergeParser :=
  match metadata with
  | None => Ok p
  | Some des => res_foldl (λ p '(name, content), parseOne name content p) p des
  end.

(** The sub-directories of the output directory, but the current coveree's;
    [None]: the directory can't be opened. *)
Definition parseStoredData (baseDirectory outputDirectory : bytes)
    (dirs : option (list (bytes * option (list (bytes * option bytes))))) p : res MergeParser :=
  match dirs with
  | None => Panic
  | Some dirs =>
      res_foldl (λ p '(d_name, metadata),
        if bool_decide (baseDirectory ++ d_name = outputDirectory) then Ok p
        else parseDirectory metadata p) p dirs
  end.

(** In merge mode, those of the directories named on the command line; one
    that can't be opened is skipped. *)
Definition parseStoredDataMerged
    (args : list (option (list (bytes * option (list (bytes * option bytes)))))) p : res MergeParser :=
  res_foldl (λ p dirs,
    match dirs with
    | None => Ok p
    | Some dirs => res_foldl (λ p '(_, metadata), parseDirectory metadata p) p dirs
    end) p args.

(** The name of a file's metadata. *)
Definition metadata_name (filename : bytes) : bytes := fmt_08x (u32 (w_hash_block W filename)).

(** The files [onStop] writes: name and content.  [write_file] is given the
    size stored in the block. *)
Definition write_metadata (inMergeMode : bool) p : res (list (bytes * bytes)) :=
  res_foldl (λ out '(_, file),
    if negb inMergeMode && negb (mf_local file) then Ok out
    else
      fd ← marshalFile file;
      size ← host32 fd 8;
      data ← zread fd 0 (Z.to_nat (be_to_host e 4 size));
      Ok (out ++ [(metadata_name (mf_filename file), data)])) [] (iter_mfiles (mp_files p)).
End merge.
