(* ===== verification/MergeProofs.v ===== *)
(** * The metadata of the merge parser

    The byte layout [marshalFile] produces, the effect of reading it back in
    another run, and what merging does to the lines and hits of a file. *)
From S2P Require Export MergeParser.
From stdpp Require Import options.

(** ** The layout *)

(** An address as it is stored: with its hit bit. *)
Definition tagged (f : MFile) (addr : Z) : Z :=
  if MFile_hits f addr =? 0 then addr else Z.lor addr hit_bit.

Definition stored_lines (iter_addrs : gmap Z Z → list (Z * Z)) (f : MFile)
    (lines : list (Z * gmap Z Z)) : list (Z * list Z) :=
  (λ '(line, m), (line, tagged f <$> (iter_addrs m).*1)) <$> lines.

Lemma stored_lines_cons iter_addrs f line m lines :
  stored_lines iter_addrs f ((line, m) :: lines) =
  (line, tagged f <$> (iter_addrs m).*1) :: stored_lines iter_addrs f lines.
Proof. done. Qed.

(** [enc n v] writes an [n]-byte integer: big-endian in the file, the host's
    order once [unMarshalFile] has been over it. *)
Section layout.
Context (enc : nat → Z → bytes).
Context (length_enc : ∀ n v, length (enc n v) = n).

Definition table_bytes (addrs : list Z) : bytes := addrs ≫= enc 8.

Fixpoint entries_block (start : Z) (ls : list (Z * list Z)) : bytes :=
  match ls with
  | [] => []
  | (line, addrs) :: ls =>
      enc 4 line ++ enc 4 start ++ enc 4 (Z.of_nat (length addrs)) ++
      entries_block (start + Z.of_nat (length addrs)) ls
  end.

Definition head_block (size checksum timestamp n_entries table name : Z) : bytes :=
  enc 4 MERGE_MAGIC ++ enc 4 MERGE_VERSION ++ enc 4 size ++ enc 4 checksum ++
  enc 8 timestamp ++ enc 4 n_entries ++ enc 4 table ++ enc 4 name.

Lemma length_table_bytes addrs : length (table_bytes addrs) = (8 * length addrs)%nat.
Proof using length_enc.
  induction addrs as [|a addrs IH]; [done|].
  change (table_bytes (a :: addrs)) with (enc 8 a ++ table_bytes addrs).
  rewrite length_app, length_enc, IH. cbn [length]. lia.
Qed.
Lemma length_entries_block ls : ∀ start, length (entries_block start ls) = (12 * length ls)%nat.
Proof using length_enc.
  induction ls as [|[line addrs] ls IH]; intros start; [done|].
  cbn [entries_block]. rewrite !length_app, !length_enc, IH. cbn [length]. lia.
Qed.
Lemma length_head_block s c t n a f : length (head_block s c t n a f) = 36%nat.
Proof using length_enc. unfold head_block. by rewrite !length_app, !length_enc. Qed.

Lemma table_bytes_app l k : table_bytes (l ++ k) = table_bytes l ++ table_bytes k.
Proof. apply bind_app. Qed.
Lemma table_bytes_cons a l : table_bytes (a :: l) = enc 8 a ++ table_bytes l.
Proof. done. Qed.
End layout.

Definition flat_addrs (ls : list (Z * list Z)) : list Z := ls ≫= snd.
Definition n_stored (ls : list (Z * list Z)) : Z := Z.of_nat (length (flat_addrs ls)).

Lemma flat_addrs_cons line addrs ls : flat_addrs ((line, addrs) :: ls) = addrs ++ flat_addrs ls.
Proof. done. Qed.

Lemma align8_spec off : 0 ≤ off → off ≤ align8 off < off + 8 ∧ align8 off mod 8 = 0.
Proof.
  intros H. unfold align8. change 7 with (Z.ones 3). rewrite Z.land_ones by lia.
  change (2 ^ 3) with 8. pose proof (Z.mod_pos_bound off 8).
  destruct (Z.eqb_spec (off mod 8) 0) as [E|E]; [lia|].
  split; [lia|]. replace (off + (8 - off mod 8)) with ((off / 8 + 1) * 8).
  - by rewrite Z.mod_mul.
  - pose proof (Z.div_mod off 8). lia.
Qed.

Section write.
Context (e : endian).
Context (iter_lines : gmap Z (gmap Z Z) → list (Z * gmap Z Z)).
Context (iter_addrs : gmap Z Z → list (Z * Z)).

Abbreviation enc := be_bytes.

Lemma marshal_addrs_ok f table addrs : ∀ tableOffset pre tab k,
  table = Z.of_nat (length pre) → tableOffset = Z.of_nat (length tab) →
  tableOffset + Z.of_nat (length addrs) < 2 ^ 32 → (8 * length addrs ≤ k)%nat →
  marshal_addrs e f table tableOffset addrs (pre ++ table_bytes enc tab ++ zeros k) =
  Ok (tableOffset + Z.of_nat (length addrs),
      pre ++ table_bytes enc (tab ++ (tagged f <$> addrs.*1)) ++ zeros (k - 8 * length addrs)).
Proof.
  induction addrs as [|[a c] addrs IH]; intros tableOffset pre tab k -> -> Hmax Hk.
  { cbn [marshal_addrs fmap list_fmap length]. rewrite app_nil_r, Z.add_0_r.
    by rewrite Nat.mul_0_r, Nat.sub_0_r. }
  cbn [marshal_addrs length] in *. unfold put64. rewrite native_to_be.
  change (if MFile_hits f a =? 0 then a else Z.lor a hit_bit) with (tagged f a).
  rewrite zwrite_skip by lia.
  rewrite zwrite_skip by (rewrite (length_table_bytes _ length_be_bytes); lia).
  rewrite (length_table_bytes _ length_be_bytes).
  replace (_ - _ - _) with 0 by lia.
  replace k with (8 + (k - 8))%nat at 1 by lia. rewrite zeros_add, zwrite_here by (len; lia).
  cbn [mbind res_mbind res_bind].
  rewrite uw_small by lia.
  replace (table_bytes enc tab ++ enc 8 (tagged f a) ++ zeros (k - 8))
    with (table_bytes enc (tab ++ [tagged f a]) ++ zeros (k - 8)).
  - rewrite IH; [|done|len; lia|lia|lia].
    cbn [fmap list_fmap fst]. rewrite <-app_assoc. cbn [app].
    replace (k - 8 - 8 * length addrs)%nat with (k - 8 * S (length addrs))%nat by lia.
    by replace (Z.of_nat (length tab) + 1 + Z.of_nat (length addrs))
      with (Z.of_nat (length tab) + Z.of_nat (S (length addrs))) by lia.
  - rewrite table_bytes_app, table_bytes_cons, <-!app_assoc. done.
Qed.

Lemma marshal_lines_ok f pad lines : ∀ table tableOffset p pre ents tab k,
  p = Z.of_nat (length (pre ++ ents)) →
  table = Z.of_nat (length (pre ++ ents) + 12 * length lines + pad) →
  tableOffset = Z.of_nat (length tab) →
  tableOffset + n_stored (stored_lines iter_addrs f lines) < 2 ^ 32 →
  8 * n_stored (stored_lines iter_addrs f lines) ≤ Z.of_nat k →
  marshal_lines e iter_addrs f table tableOffset p lines
    ((pre ++ ents) ++ zeros (12 * length lines) ++ zeros pad ++ table_bytes enc tab ++ zeros k) =
  Ok (tableOffset + n_stored (stored_lines iter_addrs f lines),
      (pre ++ ents ++ entries_block enc tableOffset (stored_lines iter_addrs f lines)) ++
      zeros pad ++ table_bytes enc (tab ++ flat_addrs (stored_lines iter_addrs f lines)) ++
      zeros (k - 8 * Z.to_nat (n_stored (stored_lines iter_addrs f lines)))).
Proof.
  induction lines as [|[line m] lines IH];
    intros table tableOffset p pre ents tab k -> -> -> Hmax Hk.
  { cbn [marshal_lines length]. unfold n_stored. cbn. rewrite !app_nil_r, Z.add_0_r, Nat.sub_0_r.
    done. }
  unfold n_stored in *. cbn [marshal_lines length] in *.
  rewrite stored_lines_cons, flat_addrs_cons, length_app, !length_fmap in Hmax, Hk.
  unfold put32. rewrite !native_to_be.
  replace (12 * S (length lines))%nat with (4 + (4 + (4 + 12 * length lines)))%nat by lia.
  rewrite !zeros_add, <-!app_assoc.
  do 3 (skip_parts; rewrite zwrite_here by (len; lia); cbn [mbind res_mbind res_bind]).
  set (ent := enc 4 line ++ enc 4 (Z.of_nat (length tab)) ++
              enc 4 (Z.of_nat (length (iter_addrs m)))).
  set (A := pre ++ ents ++ ent ++ zeros (12 * length lines) ++ zeros pad).
  replace (pre ++ ents ++ _) with (A ++ table_bytes enc tab ++ zeros k)
    by (unfold A, ent; by rewrite <-!app_assoc).
  rewrite marshal_addrs_ok; [|unfold A, ent; len; lia|done|lia|lia].
  cbn [mbind res_mbind res_bind]. unfold A.
  replace ((pre ++ ents ++ ent ++ zeros (12 * length lines) ++ zeros pad) ++ _)
    with ((pre ++ (ents ++ ent)) ++ zeros (12 * length lines) ++ zeros pad ++
          table_bytes enc (tab ++ (tagged f <$> (iter_addrs m).*1)) ++
          zeros (k - 8 * length (iter_addrs m))) by (by rewrite <-!app_assoc).
  rewrite IH; [|unfold ent, sizeof_line_entry; len; lia|unfold ent; len; lia
               |len; rewrite !length_fmap; lia|lia|lia].
  rewrite stored_lines_cons, flat_addrs_cons, !length_app, !length_fmap.
  cbn [entries_block]. rewrite !length_fmap. unfold ent. rewrite <-!app_assoc.
  do 2 f_equal; [lia|].
  repeat match goal with |- ?a ++ _ = ?a ++ _ => f_equal end.
  f_equal. lia.
Qed.

Definition mf_stored (f : MFile) : list (Z * list Z) :=
  stored_lines iter_addrs f (iter_lines (mf_lines f)).

Definition mf_table (f : MFile) : Z := align8 (36 + 12 * Z.of_nat (length (mf_stored f))).
Definition mf_name_offset (f : MFile) : Z := mf_table f + 8 * n_stored (mf_stored f).
Definition mf_size (f : MFile) : Z :=
  40 + Z.of_nat (length (mf_stored f)) * 12 + n_stored (mf_stored f) * 8 +
  Z.of_nat (length (mf_filename f)) + 1 + 8.

(** What is left of the space reserved for the padding of the table. *)
Definition mf_slack (f : MFile) : nat :=
  Z.to_nat (mf_size f - (mf_name_offset f + Z.of_nat (length (mf_filename f)) + 1)).

Definition file_block (enc : nat → Z → bytes) (f : MFile) : bytes :=
  head_block enc (mf_size f) (mf_checksum f) (mf_fileTimestamp f)
    (Z.of_nat (length (mf_stored f))) (mf_table f) (mf_name_offset f) ++
  entries_block enc 0 (mf_stored f) ++
  zeros (Z.to_nat (mf_table f - (36 + 12 * Z.of_nat (length (mf_stored f))))) ++
  table_bytes enc (flat_addrs (mf_stored f)) ++
  mf_filename f ++ NUL :: zeros (mf_slack f).

Lemma count_addrs f lines : ∀ n,
  0 ≤ n → n + n_stored (stored_lines iter_addrs f lines) < 2 ^ 32 →
  foldl (λ n l, u32 (n + Z.of_nat (length (iter_addrs l.2)))) n lines =
  n + n_stored (stored_lines iter_addrs f lines).
Proof.
  unfold n_stored. induction lines as [|[line m] lines IH]; intros n Hn Hmax.
  { cbn. lia. }
  rewrite stored_lines_cons, flat_addrs_cons, length_app, !length_fmap in *.
  cbn [foldl snd]. rewrite uw_small by lia. rewrite IH by lia. lia.
Qed.

Lemma marshalFile_ok f :
  mf_size f < 2 ^ 32 → marshalFile e iter_lines iter_addrs f = Ok (file_block be_bytes f).
Proof.
  intros Hsz. unfold marshalFile.
  assert (Hl : length (iter_lines (mf_lines f)) = length (mf_stored f)).
  { unfold mf_stored, stored_lines. by rewrite length_fmap. }
  assert (Hn0 : 0 ≤ n_stored (mf_stored f)) by (unfold n_stored; lia).
  unfold mf_size in Hsz.
  rewrite (count_addrs f) by (fold (mf_stored f); lia). fold (mf_stored f).
  rewrite Z.add_0_l, Hl. unfold sizeof_file_data, sizeof_line_entry, entries_offset.
  fold (mf_size f) (mf_table f).
  destruct (align8_spec (36 + 12 * Z.of_nat (length (mf_stored f)))) as [Ht _]; [lia|].
  fold (mf_table f) in Ht.
  set (pad := Z.to_nat (mf_table f - (36 + 12 * Z.of_nat (length (mf_stored f))))).
  set (tail := (8 * Z.to_nat (n_stored (mf_stored f)) + (length (mf_filename f ++ [NUL]) +
                mf_slack f))%nat).
  replace (zeros (Z.to_nat (mf_size f))) with
    (zeros 4 ++ zeros 4 ++ zeros 4 ++ zeros 4 ++ zeros 8 ++ zeros 4 ++ zeros 4 ++ zeros 4 ++
     zeros (12 * length (mf_stored f)) ++ zeros pad ++ zeros tail).
  2: { rewrite <-!zeros_add. f_equal. unfold tail, pad, mf_slack, mf_name_offset. len.
       unfold mf_size. lia. }
  unfold put32, put64. rewrite !native_to_be.
  do 6 (skip_parts; rewrite zwrite_here by (len; lia); cbn [mbind res_mbind res_bind]).
  set (H := enc 4 MERGE_MAGIC ++ enc 4 MERGE_VERSION ++ enc 4 (mf_size f) ++
            enc 4 (mf_checksum f) ++ enc 8 (mf_fileTimestamp f) ++
            enc 4 (Z.of_nat (length (mf_stored f))) ++ zeros 4 ++ zeros 4).
  replace (enc 4 MERGE_MAGIC ++ _) with
    ((H ++ []) ++ zeros (12 * length (iter_lines (mf_lines f))) ++ zeros pad ++
     table_bytes enc [] ++ zeros tail)
    by (unfold H; rewrite Hl, app_nil_r; by rewrite <-!app_assoc).
  assert (Hns : Z.of_nat (8 * Z.to_nat (n_stored (mf_stored f))) = 8 * n_stored (mf_stored f)) by lia.
  rewrite marshal_lines_ok; fold (mf_stored f);
    [|unfold H; len; lia|unfold H, pad; len; lia|done|lia|unfold tail; lia].
  cbn [mbind res_mbind res_bind app]. rewrite Z.add_0_l, (uw_small 32 (mf_table f)) by lia.
  replace (mf_table f + n_stored (mf_stored f) * 8) with (mf_name_offset f)
    by (unfold mf_name_offset; lia).
  unfold H. rewrite <-!app_assoc. rewrite native_to_be.
  assert (Hno : mf_name_offset f = mf_table f + 8 * n_stored (mf_stored f)) by done.
  assert (Hflat : Z.of_nat (length (flat_addrs (mf_stored f))) = n_stored (mf_stored f)) by done.
  skip_parts; rewrite zwrite_here by (len; lia); cbn [mbind res_mbind res_bind].
  set (T := table_bytes enc (flat_addrs (mf_stored f))).
  assert (HT : length T = (8 * length (flat_addrs (mf_stored f)))%nat)
    by apply (length_table_bytes _ length_be_bytes).
  set (E := entries_block enc 0 (mf_stored f)).
  assert (HE : length E = (12 * length (mf_stored f))%nat)
    by apply (length_entries_block _ length_be_bytes).
  replace (tail - 8 * Z.to_nat (n_stored (mf_stored f)))%nat
    with (length (mf_filename f ++ [NUL]) + mf_slack f)%nat by (unfold tail; lia).
  rewrite zeros_add.
  skip_parts; rewrite zwrite_here by (unfold pad; len; lia); cbn [mbind res_mbind res_bind].
  skip_parts; rewrite zwrite_here by (unfold pad; len; lia); cbn [mbind res_mbind res_bind].
  unfold file_block, head_block. fold E T. rewrite <-!app_assoc. done.
Qed.
End write.

(** ** Reading back *)

Section read.
Context (e : endian).
Abbreviation henc := (native_bytes e).

Lemma host32_skip a b off :
  Z.of_nat (length a) ≤ off → host32 e (a ++ b) off = host32 e b (off - Z.of_nat (length a)).
Proof. intros H. unfold host32. by rewrite zread_skip. Qed.
Lemma host64_skip a b off :
  Z.of_nat (length a) ≤ off → host64 e (a ++ b) off = host64 e b (off - Z.of_nat (length a)).
Proof. intros H. unfold host64. by rewrite zread_skip. Qed.
Lemma host32_here v c off : off = 0 → host32 e (henc 4 v ++ c) off = Ok (u32 v).
Proof.
  intros ->. unfold host32. rewrite zread_here by (len; lia). cbn [mbind res_mbind res_bind].
  by rewrite native_val_bytes.
Qed.
Lemma host64_here v c off : off = 0 → host64 e (henc 8 v ++ c) off = Ok (u64 v).
Proof.
  intros ->. unfold host64. rewrite zread_here by (len; lia). cbn [mbind res_mbind res_bind].
  by rewrite native_val_bytes.
Qed.

Lemma conv32_skip a b off :
  Z.of_nat (length a) ≤ off →
  conv32 e off (a ++ b) = (b' ← conv32 e (off - Z.of_nat (length a)) b; Ok (a ++ b')).
Proof.
  intros H. unfold conv32. rewrite host32_skip by done.
  destruct (host32 e b _); try done. cbn [mbind res_mbind res_bind]. by rewrite zwrite_skip.
Qed.
Lemma conv64_skip a b off :
  Z.of_nat (length a) ≤ off →
  conv64 e off (a ++ b) = (b' ← conv64 e (off - Z.of_nat (length a)) b; Ok (a ++ b')).
Proof.
  intros H. unfold conv64. rewrite host64_skip by done.
  destruct (host64 e b _); try done. cbn [mbind res_mbind res_bind]. by rewrite zwrite_skip.
Qed.
Lemma conv32_here v c off : off = 0 → conv32 e off (be_bytes 4 v ++ c) = Ok (henc 4 v ++ c).
Proof.
  intros ->. unfold conv32, host32. rewrite zread_here by (len; lia).
  cbn [mbind res_mbind res_bind]. rewrite native_of_be. by rewrite zwrite_here by (len; lia).
Qed.
Lemma conv64_here v c off : off = 0 → conv64 e off (be_bytes 8 v ++ c) = Ok (henc 8 v ++ c).
Proof.
  intros ->. unfold conv64, host64. rewrite zread_here by (len; lia).
  cbn [mbind res_mbind res_bind]. rewrite native_of_be. by rewrite zwrite_here by (len; lia).
Qed.

Lemma conv_entries_ok ls : ∀ start p n fuel pre C,
  p = Z.of_nat (length pre) → n = Z.of_nat (length ls) → (length ls ≤ fuel)%nat →
  conv_entries e fuel p n (pre ++ entries_block be_bytes start ls ++ C) =
  Ok (pre ++ entries_block henc start ls ++ C).
Proof.
  induction ls as [|[line addrs] ls IH]; intros start p n fuel pre C -> -> Hf.
  { by destruct fuel. }
  cbn [length] in Hf. destruct fuel as [|fuel]; [lia|]. cbn [conv_entries length entries_block].
  destruct (Z.leb_spec (Z.of_nat (S (length ls))) 0); [lia|].
  rewrite <-!app_assoc.
  do 3 (repeat (rewrite conv32_skip by (len; lia); len; cbn [mbind res_mbind res_bind]);
        rewrite conv32_here by (len; lia); cbn [mbind res_mbind res_bind]).
  replace (pre ++ henc 4 line ++ henc 4 start ++ henc 4 (Z.of_nat (length addrs)) ++ _)
    with ((pre ++ henc 4 line ++ henc 4 start ++ henc 4 (Z.of_nat (length addrs))) ++
          entries_block be_bytes (start + Z.of_nat (length addrs)) ls ++ C)
    by (by rewrite <-!app_assoc).
  rewrite IH; [by rewrite <-!app_assoc|unfold sizeof_line_entry; len; lia|lia|lia].
Qed.

Lemma conv_table_ok addrs : ∀ p n fuel pre C,
  p = Z.of_nat (length pre) → n = Z.of_nat (length addrs) → (length addrs ≤ fuel)%nat →
  conv_table e fuel p n (pre ++ table_bytes be_bytes addrs ++ C) =
  Ok (pre ++ table_bytes henc addrs ++ C).
Proof.
  induction addrs as [|a addrs IH]; intros p n fuel pre C -> -> Hf.
  { by destruct fuel. }
  cbn [length] in Hf. destruct fuel as [|fuel]; [lia|]. cbn [conv_table length].
  destruct (Z.leb_spec (Z.of_nat (S (length addrs))) 0); [lia|].
  rewrite !table_bytes_cons, <-!app_assoc.
  rewrite conv64_skip by (len; lia). rewrite conv64_here by lia. cbn [mbind res_mbind res_bind].
  rewrite (app_assoc pre), IH; [by rewrite <-!app_assoc|len; lia|lia|lia].
Qed.

Context (iter_lines : gmap Z (gmap Z Z) → list (Z * gmap Z Z)).
Context (iter_addrs : gmap Z Z → list (Z * Z)).
Abbreviation block := (file_block iter_lines iter_addrs).

(** Read the next 32-bit field of a block in the host's order. *)
Ltac rd32 :=
  repeat (rewrite host32_skip by (len; lia); len);
  rewrite host32_here by (len; lia); cbn [mbind res_mbind res_bind].

Lemma unMarshalFile_ok f k :
  mf_size iter_lines iter_addrs f < 2 ^ 32 →
  unMarshalFile e (block be_bytes f ++ zeros k) = Ok (block henc f ++ zeros k, true).
Proof.
  intros Hsz. unfold unMarshalFile, file_block, head_block.
  set (ls := mf_stored iter_lines iter_addrs f) in *.
  set (tab := mf_table iter_lines iter_addrs f).
  set (no := mf_name_offset iter_lines iter_addrs f).
  assert (Hno : no = tab + 8 * n_stored ls) by done.
  destruct (align8_spec (36 + 12 * Z.of_nat (length ls))) as [Ht _]; [lia|].
  change (align8 (36 + 12 * Z.of_nat (length ls))) with tab in Ht.
  unfold mf_size in Hsz. fold ls in Hsz.
  assert (Hflat : n_stored ls = Z.of_nat (length (flat_addrs ls))) by done.
  rewrite <-!app_assoc.
  do 8 (repeat first
          [ rewrite conv32_skip by (len; lia); len; cbn [mbind res_mbind res_bind]
          | rewrite conv64_skip by (len; lia); len; cbn [mbind res_mbind res_bind] ];
        first [rewrite conv32_here by (len; lia)|rewrite conv64_here by (len; lia)];
        cbn [mbind res_mbind res_bind]).
  do 3 rd32. rewrite (uw_small 32 MERGE_MAGIC), (uw_small 32 MERGE_VERSION), !Z.eqb_refl by done.
  cbn [negb]. rewrite (uw_small 32 (Z.of_nat (length ls))) by lia.
  set (H := henc 4 MERGE_MAGIC ++ henc 4 MERGE_VERSION ++
            henc 4 (mf_size iter_lines iter_addrs f) ++ henc 4 (mf_checksum f) ++
            henc 8 (mf_fileTimestamp f) ++ henc 4 (Z.of_nat (length ls)) ++ henc 4 tab ++
            henc 4 no).
  set (P := zeros (Z.to_nat (tab - (36 + 12 * Z.of_nat (length ls))))).
  replace (henc 4 MERGE_MAGIC ++ _) with
    (H ++ entries_block be_bytes 0 ls ++ P ++ table_bytes be_bytes (flat_addrs ls) ++
     mf_filename f ++ (NUL :: zeros (mf_slack iter_lines iter_addrs f)) ++ zeros k)
    by (unfold H; by rewrite <-!app_assoc).
  rewrite conv_entries_ok;
    [|unfold H, entries_offset; len; lia|done
     |rewrite (length_entries_block _ length_be_bytes); lia].
  cbn [mbind res_mbind res_bind]. unfold H. rewrite <-!app_assoc.
  do 2 rd32. rewrite (uw_small 32 no), (uw_small 32 tab) by lia.
  replace (no - tab) with (Z.of_nat (length (flat_addrs ls)) * 8) by lia.
  rewrite uw_small, Z.div_mul by lia.
  set (A := H ++ entries_block henc 0 ls ++ P).
  replace (henc 4 MERGE_MAGIC ++ _) with
    (A ++ table_bytes be_bytes (flat_addrs ls) ++
     mf_filename f ++ (NUL :: zeros (mf_slack iter_lines iter_addrs f)) ++ zeros k)
    by (unfold A, H; by rewrite <-!app_assoc).
  rewrite conv_table_ok;
    [|unfold A, H, P; len; rewrite (length_entries_block _ (length_native_bytes e)); lia|done
     |rewrite ?length_app, (length_table_bytes _ length_be_bytes); lia].
  cbn [mbind res_mbind res_bind]. unfold A, H. by rewrite <-!app_assoc.
Qed.

Lemma n_stored_cons line addrs ls :
  n_stored ((line, addrs) :: ls) = Z.of_nat (length addrs) + n_stored ls.
Proof. unfold n_stored. rewrite flat_addrs_cons, length_app. lia. Qed.

Lemma entries_block_app enc ls ls' : ∀ start,
  entries_block enc start (ls ++ ls') =
  entries_block enc start ls ++ entries_block enc (start + n_stored ls) ls'.
Proof.
  induction ls as [|[line addrs] ls IH]; intros start.
  { cbn [app entries_block]. f_equal. unfold n_stored. cbn. lia. }
  cbn [app entries_block]. rewrite IH, <-!app_assoc. rewrite n_stored_cons.
  by rewrite Z.add_assoc.
Qed.

Lemma flat_addrs_app ls ls' : flat_addrs (ls ++ ls') = flat_addrs ls ++ flat_addrs ls'.
Proof. apply bind_app. Qed.

Definition merge_line (filename : bytes) (p : MergeParser) (l : Z * list Z) : res MergeParser :=
  res_foldl (λ p addr, merge_addr filename l.1 addr p) p l.2.

Lemma merge_addrs_ok filename lineNr addrs : ∀ fd A dn C start table ia n fuel p,
  fd = A ++ table_bytes henc (dn ++ addrs) ++ C → table = Z.of_nat (length A) →
  start + ia = Z.of_nat (length dn) → n = ia + Z.of_nat (length addrs) →
  Z.of_nat (length (dn ++ addrs)) < 2 ^ 32 → Forall (λ a, 0 ≤ a < 2 ^ 64) addrs →
  (length addrs ≤ fuel)%nat →
  merge_addrs e fuel fd filename lineNr table start ia n p =
  merge_line filename p (lineNr, addrs).
Proof.
  induction addrs as [|a addrs IH];
    intros fd A dn C start table ia n fuel p Hfd -> Hs -> Hmax Hr Hf.
  { replace (ia + Z.of_nat (length (@nil Z))) with ia by (cbn; lia).
    destruct fuel; cbn [merge_addrs]; by rewrite Z.leb_refl. }
  cbn [length] in *. destruct fuel as [|fuel]; [lia|]. cbn [merge_addrs].
  destruct (Z.leb_spec (ia + Z.of_nat (S (length addrs))) ia); [lia|].
  rewrite length_app in Hmax. cbn [length] in Hmax.
  apply Forall_cons in Hr as [Ha Hr].
  rewrite Hs, uw_small by lia.
  assert (Hfd' : fd = A ++ table_bytes henc dn ++ henc 8 a ++ table_bytes henc addrs ++ C).
  { rewrite Hfd, table_bytes_app, table_bytes_cons. by rewrite <-!app_assoc. }
  rewrite Hfd' at 1. rewrite host64_skip by lia.
  rewrite host64_skip by (rewrite (length_table_bytes _ (length_native_bytes e)); lia).
  rewrite (length_table_bytes _ (length_native_bytes e)), host64_here by lia.
  cbn [mbind res_mbind res_bind]. rewrite uw_small by done.
  unfold merge_line. cbn [res_foldl fst snd].
  destruct (merge_addr filename lineNr a p) as [p'| | |]; try done.
  cbn [mbind res_mbind res_bind].
  rewrite (IH fd A (dn ++ [a]) C start _ (ia + 1)); try done.
  - by rewrite Hfd, <-app_assoc.
  - len. lia.
  - lia.
  - len. lia.
  - lia.
Qed.

Definition in_range (l : Z * list Z) : Prop :=
  0 ≤ l.1 < 2 ^ 32 ∧ Forall (λ a, 0 ≤ a < 2 ^ 64) l.2.

Lemma merge_lines_ok filename table ls : ∀ fd H dn P C i n fuel p,
  fd = H ++ entries_block henc 0 (dn ++ ls) ++ P ++ table_bytes henc (flat_addrs (dn ++ ls)) ++ C →
  length H = 36%nat → i = Z.of_nat (length dn) → n = Z.of_nat (length (dn ++ ls)) →
  table = Z.of_nat (length (H ++ entries_block henc 0 (dn ++ ls) ++ P)) →
  n_stored (dn ++ ls) < 2 ^ 32 → Forall in_range ls → (length ls ≤ fuel)%nat →
  merge_lines e fuel fd filename table i n p = res_foldl (merge_line filename) p ls.
Proof.
  induction ls as [|[line addrs] ls IH];
    intros fd H dn P C i n fuel p Hfd HH -> -> Ht Hmax Hr Hf.
  { rewrite app_nil_r. destruct fuel; cbn [merge_lines]; by rewrite Z.leb_refl. }
  cbn [length] in *. destruct fuel as [|fuel]; [lia|]. cbn [merge_lines].
  rewrite length_app. cbn [length].
  destruct (Z.leb_spec (Z.of_nat (length dn + S (length ls))) (Z.of_nat (length dn))); [lia|].
  apply Forall_cons in Hr as [[Hl Ha] Hr]. cbn [fst snd] in Hl, Ha.
  pose proof Hmax as Hmax'. unfold n_stored in Hmax'.
  rewrite flat_addrs_app, flat_addrs_cons, !length_app in Hmax'.
  assert (HE : length (entries_block henc 0 dn) = (12 * length dn)%nat)
    by apply (length_entries_block _ (length_native_bytes e)).
  assert (Hfd' : ∃ R, fd = H ++ entries_block henc 0 dn ++ henc 4 line ++ henc 4 (n_stored dn) ++
              henc 4 (Z.of_nat (length addrs)) ++ R).
  { eexists. rewrite Hfd, entries_block_app, Z.add_0_l. cbn [entries_block].
    by rewrite <-!app_assoc. }
  destruct Hfd' as [R Hfd'].
  assert (Hread : ∀ off v c d, fd = d ++ henc 4 v ++ c → off = Z.of_nat (length d) →
    host32 e fd off = Ok (u32 v)).
  { intros off v c d -> ->. rewrite host32_skip by lia. by rewrite host32_here by lia. }
  rewrite (Hread (entries_offset + sizeof_line_entry * Z.of_nat (length dn)) line _ (H ++ entries_block henc 0 dn)
    ltac:(rewrite Hfd', <-!app_assoc; reflexivity))
    by (unfold entries_offset, sizeof_line_entry; len; lia).
  cbn [mbind res_mbind res_bind].
  rewrite (Hread (entries_offset + sizeof_line_entry * Z.of_nat (length dn) + 4) (n_stored dn) _ (H ++ entries_block henc 0 dn ++ henc 4 line)
    ltac:(rewrite Hfd', <-!app_assoc; reflexivity))
    by (unfold entries_offset, sizeof_line_entry; len; lia).
  cbn [mbind res_mbind res_bind].
  rewrite (Hread (entries_offset + sizeof_line_entry * Z.of_nat (length dn) + 8) (Z.of_nat (length addrs)) _
    (H ++ entries_block henc 0 dn ++ henc 4 line ++ henc 4 (n_stored dn))
    ltac:(rewrite Hfd', <-!app_assoc; reflexivity))
    by (unfold entries_offset, sizeof_line_entry; len; lia).
  cbn [mbind res_mbind res_bind].
  rewrite !uw_small by (unfold n_stored; lia).
  rewrite (merge_addrs_ok filename line addrs fd (H ++ entries_block henc 0 (dn ++ (line, addrs) :: ls) ++ P)
    (flat_addrs dn) (table_bytes henc (flat_addrs ls) ++ C)).
  2: { rewrite Hfd at 1. rewrite flat_addrs_app, flat_addrs_cons, !table_bytes_app.
       by rewrite <-!app_assoc. }
  2: done.
  2: unfold n_stored; lia.
  2: lia.
  2: len; lia.
  2: done.
  2: { rewrite Hfd, flat_addrs_app, flat_addrs_cons, !table_bytes_app, !length_app,
         !(length_table_bytes _ (length_native_bytes e)). lia. }
  cbn [res_foldl]. destruct (merge_line filename p (line, addrs)) as [p'| | |]; try done.
  cbn [mbind res_mbind res_bind].
  replace (dn ++ (line, addrs) :: ls) with ((dn ++ [(line, addrs)]) ++ ls) in *
    by (by rewrite <-app_assoc).
  apply (IH fd H (dn ++ [(line, addrs)]) P C); try done; len; lia.
Qed.
End read.

(** ** What merging does to a file *)

(** The effect of one stored address. *)
Definition apply_addr (f : MFile) (la : Z * Z) : MFile :=
  let f := MFile_addLine la.1 (clear_hit la.2) f in
  if has_hit la.2 then MFile_registerHits (clear_hit la.2) 1 f else f.

Definition addr_calls (name : bytes) (la : Z * Z) : list MergeCall :=
  MLine (OnLine name la.1 (clear_hit (clear_hit la.2))) ::
  if has_hit la.2 then [MHit (OnAddressHit (clear_hit la.2) 1)] else [].

Definition pairs (ls : list (Z * list Z)) : list (Z * Z) :=
  ls ≫= λ '(line, addrs), (line,.) <$> addrs.

Definition merged (name : bytes) (f : MFile) (las : list (Z * Z)) (p : MergeParser) : MergeParser :=
  mkMergeParser (<[name:=foldl apply_addr f las]> (mp_files p)) (mp_filesByAddress p)
    (mp_fileLineByAddress p) (mp_pendingHits p) (mp_out p ++ (las ≫= addr_calls name)).

Lemma merge_addr_eq name f la p :
  mp_files p !! name = Some f →
  merge_addr name la.1 la.2 p = Ok (merged name f [la] p).
Proof.
  intros Hf. unfold merge_addr, merged.
  change ([la] ≫= addr_calls name) with (addr_calls name la ++ []).
  rewrite Hf. cbn [or_fault mbind res_mbind res_bind]. f_equal.
  cbn [foldl]. unfold apply_addr, addr_calls, mp_emit, mp_set_file. rewrite app_nil_r.
  destruct (has_hit la.2); cbn [mp_files mp_filesByAddress mp_fileLineByAddress mp_pendingHits mp_out].
  - rewrite insert_insert_eq. f_equal. by rewrite <-app_assoc.
  - done.
Qed.

Lemma merged_nil name f p : mp_files p !! name = Some f → merged name f [] p = p.
Proof.
  intros Hf. destruct p. unfold merged. cbn in *. rewrite app_nil_r. by rewrite insert_id.
Qed.

Lemma merged_app name f las las' p :
  merged name (foldl apply_addr f las) las' (merged name f las p) = merged name f (las ++ las') p.
Proof.
  unfold merged. cbn. rewrite insert_insert_eq, foldl_app, bind_app, <-app_assoc. done.
Qed.

Lemma merge_pairs_eq name las : ∀ f p,
  mp_files p !! name = Some f →
  res_foldl (λ p la, merge_addr name la.1 la.2 p) p las = Ok (merged name f las p).
Proof.
  induction las as [|la las IH]; intros f p Hf.
  { by rewrite merged_nil. }
  cbn [res_foldl]. rewrite (merge_addr_eq name f la p Hf). cbn [mbind res_mbind res_bind].
  rewrite (IH (foldl apply_addr f [la])); [by rewrite merged_app|].
  unfold merged. cbn. by rewrite lookup_insert_eq.
Qed.

Lemma merge_lines_pairs name ls : ∀ p,
  res_foldl (merge_line name) p ls = res_foldl (λ p la, merge_addr name la.1 la.2 p) p (pairs ls).
Proof.
  induction ls as [|[line addrs] ls IH]; intros p; [done|].
  change (pairs ((line, addrs) :: ls)) with (((line,.) <$> addrs) ++ pairs ls).
  rewrite res_foldl_app. cbn [res_foldl].
  change (merge_line name p (line, addrs))
    with (res_foldl (λ p addr, merge_addr name line addr p) p addrs).
  assert (E : ∀ addrs p, res_foldl (λ p addr, merge_addr name line addr p) p addrs =
    res_foldl (λ p la, merge_addr name la.1 la.2 p) p ((line,.) <$> addrs)).
  { clear. induction addrs as [|a addrs IH]; intros p; [done|]. cbn.
    destruct (merge_addr name line a p); try done. apply IH. }
  rewrite E. destruct (res_foldl _ p ((line,.) <$> addrs)) as [p'| | |]; try done.
  cbn [mbind res_mbind res_bind]. apply IH.
Qed.

(** Two additions to a file commute: the counters are sums modulo 2^32, and so
    does everything that merging adds. *)
Lemma addLine_comm l a l' a' f :
  MFile_addLine l a (MFile_addLine l' a' f) = MFile_addLine l' a' (MFile_addLine l a f).
Proof.
  unfold MFile_addLine. cbn. f_equal.
  destruct (decide (l = l')) as [->|Hl].
  - rewrite !lookup_insert_eq. cbn. rewrite !insert_insert_eq. f_equal.
    destruct (decide (a = a')) as [->|Ha]; [done|].
    rewrite !lookup_insert_ne by done. by apply insert_insert_ne.
  - rewrite !lookup_insert_ne by done. by apply insert_insert_ne.
Qed.

Lemma registerHits_comm a h a' h' f :
  MFile_registerHits a h (MFile_registerHits a' h' f) =
  MFile_registerHits a' h' (MFile_registerHits a h f).
Proof.
  unfold MFile_registerHits, MFile_hits. cbn. f_equal.
  destruct (decide (a = a')) as [->|Ha].
  - rewrite !lookup_insert_eq. cbn. rewrite !insert_insert_eq. f_equal.
    rewrite !uw_add_l. f_equal. lia.
  - rewrite !lookup_insert_ne by done. by apply insert_insert_ne.
Qed.

Lemma addLine_registerHits l a a' h f :
  MFile_addLine l a (MFile_registerHits a' h f) = MFile_registerHits a' h (MFile_addLine l a f).
Proof. done. Qed.

Lemma apply_addr_comm f la la' :
  apply_addr (apply_addr f la) la' = apply_addr (apply_addr f la') la.
Proof.
  unfold apply_addr. destruct (has_hit la.2), (has_hit la'.2);
    rewrite ?addLine_registerHits, 1?registerHits_comm, 1?addLine_comm; done.
Qed.

Lemma apply_addrs_perm f las las' :
  las ≡ₚ las' → foldl apply_addr f las = foldl apply_addr f las'.
Proof.
  intros H. revert f. induction H; intros f; cbn; [done|by auto|by rewrite apply_addr_comm|].
  congruence.
Qed.

(** *** The hit bit *)

Lemma hit_bit_pow : hit_bit = 2 ^ 63.
Proof. done. Qed.

Lemma addr_bit a : 0 ≤ a < 2 ^ 63 → Z.testbit a 63 = false.
Proof. intros H. by apply Z.testbit_false; [lia|]; rewrite Z.div_small by lia. Qed.

Lemma land_high a : 0 ≤ a < 2 ^ 63 → Z.land a (2 ^ 63) = 0.
Proof.
  intros Ha. apply Z.bits_inj'. intros n Hn. rewrite Z.land_spec, Z.bits_0, Z.pow2_bits_eqb by lia.
  destruct (Z.eqb_spec 63 n) as [<-|]; [by rewrite addr_bit|by rewrite andb_false_r].
Qed.

Lemma has_hit_bit a : has_hit a = Z.testbit a 63.
Proof.
  unfold has_hit. rewrite hit_bit_pow. destruct (Z.testbit a 63) eqn:E.
  - destruct (Z.eqb_spec (Z.land a (2 ^ 63)) 0) as [H|H]; [|done]. exfalso.
    apply (f_equal (λ z, Z.testbit z 63)) in H.
    rewrite Z.land_spec, Z.pow2_bits_true, Z.bits_0, andb_true_r in H by lia. congruence.
  - replace (Z.land a (2 ^ 63)) with 0; [done|]. symmetry. apply Z.bits_inj'. intros n Hn.
    rewrite Z.land_spec, Z.bits_0, Z.pow2_bits_eqb by lia.
    destruct (Z.eqb_spec 63 n) as [<-|]; [by rewrite E|by rewrite andb_false_r].
Qed.

Lemma clear_hit_tag a : 0 ≤ a < 2 ^ 63 → clear_hit (Z.lor a hit_bit) = a.
Proof.
  intros Ha. unfold clear_hit. rewrite hit_bit_pow. apply Z.bits_inj'. intros n Hn.
  rewrite Z.land_spec, Z.lor_spec, Z.lnot_spec, Z.pow2_bits_eqb by lia.
  destruct (Z.eqb_spec 63 n) as [<-|]; cbn [negb].
  - by rewrite addr_bit, andb_false_r.
  - by rewrite orb_false_r, andb_true_r.
Qed.

Lemma clear_hit_id a : 0 ≤ a < 2 ^ 63 → clear_hit a = a.
Proof.
  intros Ha. unfold clear_hit. rewrite hit_bit_pow. apply Z.bits_inj'. intros n Hn.
  rewrite Z.land_spec, Z.lnot_spec, Z.pow2_bits_eqb by lia.
  destruct (Z.eqb_spec 63 n) as [<-|]; cbn [negb].
  - by rewrite addr_bit.
  - by rewrite andb_true_r.
Qed.

Lemma tagged_spec f a :
  0 ≤ a < 2 ^ 63 →
  0 ≤ tagged f a < 2 ^ 64 ∧ clear_hit (tagged f a) = a ∧ has_hit (tagged f a) = negb (MFile_hits f a =? 0).
Proof.
  intros Ha. unfold tagged. destruct (MFile_hits f a =? 0) eqn:E; cbn [negb].
  - split; [lia|]. split; [by apply clear_hit_id|]. rewrite has_hit_bit. by apply addr_bit.
  - assert (Hlor : Z.lor a hit_bit = a + 2 ^ 63).
    { rewrite hit_bit_pow. pose proof (Z.add_lor_land a (2 ^ 63)) as H.
      rewrite land_high in H by done. lia. }
    split; [lia|]. split; [by apply clear_hit_tag|].
    rewrite has_hit_bit, Hlor. apply Z.testbit_true; [lia|].
    replace (a + 2 ^ 63) with (1 * 2 ^ 63 + a) by lia. rewrite Z.div_add_l by lia.
    by rewrite Z.div_small by lia.
Qed.

(** ** Storing and merging *)

(** What merging a file's data announces: every line, and a hit of each address
    that has any. *)
Definition reported (iter_lines : gmap Z (gmap Z Z) → list (Z * gmap Z Z))
    (iter_addrs : gmap Z Z → list (Z * Z)) (name : bytes) (f : MFile) : list MergeCall :=
  iter_lines (mf_lines f) ≫= λ '(line, m),
  iter_addrs m ≫= λ '(a, _),
    MLine (OnLine name line a) ::
    if MFile_hits f a =? 0 then [] else [MHit (OnAddressHit a 1)].

(** The addresses a file has of a line. *)
Definition has_addr (f : MFile) (line a : Z) : Prop :=
  is_Some (mf_lines f !! line ≫= (.!! a)).

Lemma head_fields e size checksum timestamp n_entries table name R :
  let fd := head_block (native_bytes e) size checksum timestamp n_entries table name ++ R in
  host32 e fd 12 = Ok (u32 checksum) ∧ host32 e fd 24 = Ok (u32 n_entries) ∧
  host32 e fd 28 = Ok (u32 table) ∧ host32 e fd 32 = Ok (u32 name).
Proof.
  unfold head_block. cbn zeta. rewrite <-!app_assoc.
  split_and!; repeat (rewrite host32_skip by (len; lia); len); by rewrite host32_here by (len; lia).
Qed.

(** *** What the merged file has *)

Lemma has_addr_addLine f line' a' line a :
  has_addr (MFile_addLine line' a' f) line a ↔ (line = line' ∧ a = a') ∨ has_addr f line a.
Proof.
  unfold has_addr, MFile_addLine. cbn. destruct (decide (line = line')) as [->|Hl].
  - rewrite lookup_insert_eq. cbn. destruct (decide (a = a')) as [->|Ha].
    + rewrite lookup_insert_eq. naive_solver.
    + rewrite lookup_insert_ne by done. destruct (mf_lines f !! line') as [m|] eqn:E; cbn.
      * naive_solver.
      * rewrite lookup_empty. naive_solver.
  - rewrite lookup_insert_ne by done. naive_solver.
Qed.

Lemma has_addr_apply f la line a :
  has_addr (apply_addr f la) line a ↔ (line, a) = (la.1, clear_hit la.2) ∨ has_addr f line a.
Proof.
  unfold apply_addr. destruct (has_hit la.2).
  - change (has_addr (MFile_addLine la.1 (clear_hit la.2) f) line a ↔
      (line, a) = (la.1, clear_hit la.2) ∨ has_addr f line a).
    rewrite has_addr_addLine. naive_solver.
  - rewrite has_addr_addLine. naive_solver.
Qed.

Lemma has_addr_merged las : ∀ f line a,
  has_addr (foldl apply_addr f las) line a ↔
  has_addr f line a ∨ (line, a) ∈ (λ la, (la.1, clear_hit la.2)) <$> las.
Proof.
  induction las as [|la las IH]; intros f line a; cbn [foldl fmap list_fmap].
  - rewrite elem_of_nil. naive_solver.
  - rewrite IH, has_addr_apply, elem_of_cons. naive_solver.
Qed.

Lemma foldl_apply_checksum las : ∀ f, mf_checksum (foldl apply_addr f las) = mf_checksum f.
Proof.
  induction las as [|la las IH]; intros f; [done|]. cbn. rewrite IH. unfold apply_addr.
  by destruct (has_hit la.2).
Qed.

Section promises.
Context {F : Type} `{!IFilter F} (flt : F) (W : World) (writer e : endian).
Context (iter_lines : gmap Z (gmap Z Z) → list (Z * gmap Z Z)).
Context (iter_addrs : gmap Z Z → list (Z * Z)).
Implicit Types p : MergeParser.

(** Iterating over an unordered map visits each of its entries once. *)
Definition iters_sound : Prop :=
  (∀ m, iter_lines m ≡ₚ map_to_list m) ∧ (∀ m, iter_addrs m ≡ₚ map_to_list m).

Definition mf_ok (f : MFile) : Prop :=
  mf_size iter_lines iter_addrs f < 2 ^ 32 ∧ no_nul (mf_filename f) ∧
  map_Forall (λ line m, 0 ≤ line < 2 ^ 32 ∧ map_Forall (λ a _, 0 ≤ a < 2 ^ 63) m) (mf_lines f).

(** Reading a source file's data into a parser that has, or makes, a file of
    that name with the checksum stored. *)
Definition mergeable p (f : MFile) (name : bytes) (f0 : MFile) (ex : bool) (p0 : MergeParser) : Prop :=
  name = mangleSourcePath flt (mf_filename f) ∧ w_file_exists W name = true ∧
  mp_get_file W name p = Ok (f0, ex, p0) ∧
  (ex = true → mf_checksum f0 = u32 (mf_checksum f)).

Abbreviation stored := (mf_stored iter_lines iter_addrs).

Lemma iter_lines_ok f line m :
  iters_sound → mf_ok f → (line, m) ∈ iter_lines (mf_lines f) →
  0 ≤ line < 2 ^ 32 ∧ (∀ a c, (a, c) ∈ iter_addrs m → 0 ≤ a < 2 ^ 63) ∧
  mf_lines f !! line = Some m.
Proof.
  intros [HL HA] (_ & _ & Hr) Hin. pose proof (HL (mf_lines f)) as HL'.
  rewrite HL' in Hin. apply elem_of_map_to_list in Hin.
  destruct (Hr _ _ Hin) as [? Hm]. split; [done|]. split; [|done].
  intros a c Ha. pose proof (HA m) as HA'. rewrite HA' in Ha.
  apply elem_of_map_to_list in Ha. by apply (Hm a c).
Qed.

Lemma stored_range f : iters_sound → mf_ok f → Forall in_range (stored f).
Proof.
  intros HI Hf. unfold mf_stored, stored_lines.
  apply Forall_fmap, Forall_forall. intros [line m] Hin.
  destruct (iter_lines_ok f line m HI Hf Hin) as (Hl & Ha & _).
  split; [done|]. cbn. apply Forall_fmap, Forall_fmap, Forall_forall. intros [a c] Hac.
  cbn. by apply (tagged_spec f a (Ha a c Hac)).
Qed.

Lemma reported_calls f name :
  iters_sound → mf_ok f →
  pairs (stored f) ≫= addr_calls name = reported iter_lines iter_addrs name f.
Proof.
  intros HI Hf. unfold mf_stored, reported. pose proof (iter_lines_ok f) as Hok.
  induction (iter_lines (mf_lines f)) as [|[line m] ls IH]; [done|].
  rewrite stored_lines_cons, bind_cons.
  change (pairs ((line, tagged f <$> (iter_addrs m).*1) :: stored_lines iter_addrs f ls))
    with (((line,.) <$> (tagged f <$> (iter_addrs m).*1)) ++ pairs (stored_lines iter_addrs f ls)).
  rewrite bind_app, IH by (intros; apply Hok; [done..|by right]). f_equal. clear IH.
  destruct (Hok line m HI Hf ltac:(left)) as (_ & Ha & _).
  induction (iter_addrs m) as [|[a c] as_ IH]; [done|].
  cbn [fmap list_fmap fst]. rewrite !bind_cons, IH by (intros ???; eapply Ha; by right).
  f_equal. destruct (tagged_spec f a) as (_ & Hc & Hh); [eapply Ha; left|].
  unfold addr_calls. cbn [fst snd]. rewrite Hc, Hh, clear_hit_id by (eapply Ha; left).
  by destruct (MFile_hits f a =? 0).
Qed.

Lemma parseFileData_ok p f name f0 ex p0 k :
  iters_sound → mf_ok f → mergeable p f name f0 ex p0 →
  parseFileData flt W e (file_block iter_lines iter_addrs (native_bytes e) f ++ zeros k) p
  = Ok (merged name f0 (pairs (stored f)) p0).
Proof.
  intros HI Hf (Hname & Hex & Hget & Hsum). pose proof (stored_range f HI Hf) as Hrange.
  destruct Hf as (Hsz & Hnul & _).
  destruct (align8_spec (36 + 12 * Z.of_nat (length (stored f)))) as [Ht _]; [lia|].
  fold (mf_table iter_lines iter_addrs f) in Ht.
  set (fd := _ ++ zeros k).
  set (H := head_block (native_bytes e) (mf_size iter_lines iter_addrs f) (mf_checksum f)
    (mf_fileTimestamp f) (Z.of_nat (length (stored f))) (mf_table iter_lines iter_addrs f)
    (mf_name_offset iter_lines iter_addrs f)).
  set (P := zeros (Z.to_nat (mf_table iter_lines iter_addrs f - (36 + 12 * Z.of_nat (length (stored f)))))).
  set (T := NUL :: zeros (mf_slack iter_lines iter_addrs f) ++ zeros k).
  assert (Hfd : fd = H ++ entries_block (native_bytes e) 0 (stored f) ++ P ++
    table_bytes (native_bytes e) (flat_addrs (stored f)) ++ mf_filename f ++ T).
  { unfold fd, file_block, T. by rewrite <-!app_assoc. }
  assert (HH : length H = 36%nat) by apply length_head_block, length_native_bytes.
  assert (HE : length (entries_block (native_bytes e) 0 (stored f)) = (12 * length (stored f))%nat)
    by apply length_entries_block, length_native_bytes.
  assert (HT : length (table_bytes (native_bytes e) (flat_addrs (stored f))) =
    (8 * length (flat_addrs (stored f)))%nat) by apply length_table_bytes, length_native_bytes.
  assert (Hflat : n_stored (stored f) = Z.of_nat (length (flat_addrs (stored f)))) by done.
  unfold mf_size in Hsz.
  assert (Hno : mf_name_offset iter_lines iter_addrs f =
                mf_table iter_lines iter_addrs f + 8 * n_stored (stored f)) by done.
  destruct (head_fields e (mf_size iter_lines iter_addrs f) (mf_checksum f)
    (mf_fileTimestamp f) (Z.of_nat (length (stored f))) (mf_table iter_lines iter_addrs f)
    (mf_name_offset iter_lines iter_addrs f)
    (entries_block (native_bytes e) 0 (stored f) ++ P ++
     table_bytes (native_bytes e) (flat_addrs (stored f)) ++ mf_filename f ++ T))
    as (R12 & R24 & R28 & R32).
  fold H in R12, R24, R28, R32. rewrite <-Hfd in R12, R24, R28, R32.
  unfold parseFileData. rewrite R32, uw_small by lia. cbn [mbind res_mbind res_bind].
  assert (Hstr : zc_str fd (mf_name_offset iter_lines iter_addrs f) = Ok (mf_filename f)).
  { rewrite Hfd. unfold T. rewrite !app_assoc, <-(app_assoc _ (mf_filename f)).
    apply zc_str_at; [|done]. unfold P. len. lia. }
  rewrite Hstr. cbn [mbind res_mbind res_bind]. rewrite <-Hname, Hex. cbn [negb].
  rewrite R12, Hget. cbn [mbind res_mbind res_bind].
  assert (ex && negb (mf_checksum f0 =? u32 (mf_checksum f)) = false) as ->.
  { destruct ex; [|done]. by rewrite Hsum, Z.eqb_refl. }
  rewrite R28, R24. cbn [mbind res_mbind res_bind]. rewrite !uw_small by lia.
  rewrite (merge_lines_ok e name (mf_table iter_lines iter_addrs f) (stored f) fd H [] P
             (mf_filename f ++ T)); try done.
  - rewrite merge_lines_pairs. apply merge_pairs_eq. unfold mp_get_file in Hget.
    destruct (mp_files p !! name) eqn:E; [by simplify_eq|].
    destruct (new_MFile W name); try done. cbn in Hget. injection Hget as <- <- <-.
    cbn. by rewrite lookup_insert_eq.
  - cbn [app]. unfold P. len. lia.
  - cbn [app]. lia.
  - rewrite Hfd. len. lia.
Qed.

Lemma parseOne_ok p f name f0 ex p0 :
  iters_sound → mf_ok f → mergeable p f name f0 ex p0 →
  parseOne flt W e (metadata_name W (mf_filename f))
    (Some (file_block iter_lines iter_addrs be_bytes f)) p =
  Ok (merged name f0 (pairs (stored f)) p0).
Proof.
  intros HI Hf Hm. pose proof Hf as (Hsz & _).
  unfold parseOne, metadata_name. rewrite hex_name_is_integer by apply u32_range. cbn [negb].
  set (db := file_block _ _ _ f).
  destruct (read_loop_ok (S (length db)) db [] 0) as (k & Hrd & _); [lia|lia|done|done|].
  unfold read_file. rewrite Hrd. cbn [or_fault mbind res_mbind res_bind].
  destruct (Z.ltb_spec (Z.of_nat (length db)) sizeof_file_data) as [Hlt|_].
  { exfalso. unfold db, file_block, sizeof_file_data in Hlt. revert Hlt. len.
    rewrite (length_head_block _ length_be_bytes).
    rewrite (length_entries_block _ length_be_bytes).
    destruct (align8_spec (36 + 12 * Z.of_nat (length (stored f)))) as [Ht _]; [lia|].
    fold (mf_table iter_lines iter_addrs f) in Ht.
    unfold mf_slack, mf_name_offset, mf_size, n_stored.
    rewrite (length_table_bytes _ length_be_bytes), length_zeros. lia. }
  unfold db. rewrite unMarshalFile_ok by done. cbn [mbind res_mbind res_bind].
  by apply (parseFileData_ok p f name f0 ex p0).
Qed.

Lemma stored_pairs f line a :
  iters_sound → mf_ok f →
  (line, a) ∈ (λ la, (la.1, clear_hit la.2)) <$> pairs (stored f) ↔ has_addr f line a.
Proof.
  intros HI Hf. rewrite list_elem_of_fmap. split.
  - intros ([l t] & Heq & Hin). cbn in Heq. injection Heq as -> ->. unfold pairs in Hin.
    apply list_elem_of_bind in Hin as ([line addrs] & Hin & Hst).
    apply list_elem_of_fmap in Hin as (t' & [= <- ->] & Hin).
    unfold mf_stored, stored_lines in Hst. apply list_elem_of_fmap in Hst as ([l2 m] & [= -> ->] & Hst).
    destruct (iter_lines_ok f l2 m HI Hf Hst) as (_ & Ha & Hlk).
    apply list_elem_of_fmap in Hin as (a' & -> & Hin).
    apply list_elem_of_fmap in Hin as ([a'' c] & -> & Hin). cbn.
    destruct (tagged_spec f a'') as (_ & -> & _); [by eapply Ha|].
    unfold has_addr. rewrite Hlk. cbn. destruct HI as [_ HA]. pose proof (HA m) as HA'.
    rewrite HA' in Hin. apply elem_of_map_to_list in Hin. by eexists.
  - intros [c Hc]. destruct (mf_lines f !! line) as [m|] eqn:E; [|done]. cbn in Hc.
    pose proof (proj1 HI (mf_lines f)) as HL'. pose proof (proj2 HI m) as HA'.
    assert (Hst : (line, m) ∈ iter_lines (mf_lines f)) by (rewrite HL'; by apply elem_of_map_to_list).
    assert (Hin : (a, c) ∈ iter_addrs m) by (rewrite HA'; by apply elem_of_map_to_list).
    destruct (iter_lines_ok f line m HI Hf Hst) as (_ & Ha & _).
    exists (line, tagged f a). cbn. destruct (tagged_spec f a) as (_ & -> & _); [by eapply Ha|].
    split; [done|]. unfold pairs. apply list_elem_of_bind.
    exists (line, tagged f <$> (iter_addrs m).*1). split.
    + apply list_elem_of_fmap. eexists. split; [done|]. apply list_elem_of_fmap.
      eexists. split; [done|]. apply list_elem_of_fmap. by exists (a, c).
    + unfold mf_stored, stored_lines. apply list_elem_of_fmap. by exists (line, m).
Qed.

Lemma mp_get_file_facts p name f0 ex p0 :
  mp_get_file W name p = Ok (f0, ex, p0) →
  mp_out p0 = mp_out p ∧ mp_files p0 !! name = Some f0 ∧
  (∀ other, other ≠ name → mp_files p0 !! other = mp_files p !! other) ∧
  (ex = false → ∃ data, w_read_file W name = Some data ∧ mf_checksum f0 = u32 (w_hash_block W data)).
Proof.
  unfold mp_get_file, new_MFile. destruct (mp_files p !! name) as [f|] eqn:E.
  { intros [= -> <- <-]. by split_and!. }
  destruct (w_read_file W name) as [data|] eqn:Hrd; [|done]. cbn. intros [= <- <- <-].
  cbn. rewrite lookup_insert_eq. split_and!; [done|done| |by eexists].
  intros other Hne. by rewrite lookup_insert_ne.
Qed.

(** *** Order *)

Lemma mergeable_after p f name f0 ex p0 f' las :
  mergeable p f name f0 ex p0 → mf_checksum f0 = u32 (mf_checksum f') →
  mf_filename f' = mf_filename f →
  mergeable (merged name f0 las p0) f' name (foldl apply_addr f0 las) true (merged name f0 las p0).
Proof.
  intros (Hname & Hex & Hget & Hsum) Hc Hn. split; [by rewrite Hn|]. split; [done|]. split.
  - unfold mp_get_file, merged. cbn. by rewrite lookup_insert_eq.
  - intros _. by rewrite foldl_apply_checksum.
Qed.

Lemma merge_two p f g name f0 ex p0 :
  iters_sound → mf_ok f → mf_ok g → mf_filename g = mf_filename f →
  mergeable p f name f0 ex p0 →
  mf_checksum f0 = u32 (mf_checksum f) → mf_checksum f0 = u32 (mf_checksum g) →
  (p1 ← parseOne flt W e (metadata_name W (mf_filename f))
          (Some (file_block iter_lines iter_addrs be_bytes f)) p;
   parseOne flt W e (metadata_name W (mf_filename g))
     (Some (file_block iter_lines iter_addrs be_bytes g)) p1)
  = Ok (merged name f0 (pairs (stored f) ++ pairs (stored g)) p0).
Proof.
  intros HI Hf Hg Hn Hm Hcf Hcg.
  rewrite (parseOne_ok p f name f0 ex p0 HI Hf Hm). cbn [mbind res_mbind res_bind].
  rewrite (parseOne_ok (merged name f0 (pairs (stored f)) p0) g name
    (foldl apply_addr f0 (pairs (stored f))) true (merged name f0 (pairs (stored f)) p0));
    [|done|done|by eapply mergeable_after].
  by rewrite merged_app.
Qed.

(** ** Properties *)

(** C3: what one run stored another one merges: the metadata file of a source
    file, read back on a host of either byte order under the name it was
    written to, announces each of its lines, and one hit of each address that
    had any, in the order stored; the parser's file then has the lines it had
    and the stored ones, and no other file changes. *)
Theorem merge_roundtrip p f name f0 ex p0 :
  iters_sound → mf_ok f → mergeable p f name f0 ex p0 →
  ∃ data p' f', marshalFile writer iter_lines iter_addrs f = Ok data ∧
    parseOne flt W e (metadata_name W (mf_filename f)) (Some data) p = Ok p' ∧
    mp_out p' = mp_out p ++ reported iter_lines iter_addrs name f ∧
    mp_files p' !! name = Some f' ∧
    (∀ line a, has_addr f' line a ↔ has_addr f0 line a ∨ has_addr f line a) ∧
    (∀ other, other ≠ name → mp_files p' !! other = mp_files p !! other).
Proof.
  intros HI Hf Hm. pose proof (parseOne_ok p f name f0 ex p0 HI Hf Hm) as Hr.
  pose proof (marshalFile_ok writer iter_lines iter_addrs f (proj1 Hf)) as Hw.
  destruct Hm as (_ & _ & Hget & _). apply mp_get_file_facts in Hget as (Hout & Hfile & Hother & _).
  eexists _, _, (foldl apply_addr f0 (pairs (stored f))). split; [exact Hw|]. split; [exact Hr|].
  cbn. rewrite lookup_insert_eq, Hout. split; [by rewrite reported_calls|]. split; [done|]. split.
  - intros line a. rewrite has_addr_merged, stored_pairs by done. done.
  - intros other Hne. rewrite lookup_insert_ne by done. by apply Hother.
Qed.

(** C26: two runs' data of one source file can be merged in either order, which
    is [readdir]'s: if both were made from the source as it is now, the files
    the parser ends up with, lines and hit counts, are the same. *)
Theorem merge_order_irrelevant p f g name f0 ex p0 :
  iters_sound → mf_ok f → mf_ok g → mf_filename g = mf_filename f →
  mergeable p f name f0 ex p0 →
  mf_checksum f0 = u32 (mf_checksum f) → mf_checksum f0 = u32 (mf_checksum g) →
  ∃ df dg p1 p2,
    marshalFile writer iter_lines iter_addrs f = Ok df ∧
    marshalFile writer iter_lines iter_addrs g = Ok dg ∧
    (q ← parseOne flt W e (metadata_name W (mf_filename f)) (Some df) p;
     parseOne flt W e (metadata_name W (mf_filename g)) (Some dg) q) = Ok p1 ∧
    (q ← parseOne flt W e (metadata_name W (mf_filename g)) (Some dg) p;
     parseOne flt W e (metadata_name W (mf_filename f)) (Some df) q) = Ok p2 ∧
    mp_files p1 = mp_files p2.
Proof.
  intros HI Hf Hg Hn Hm Hcf Hcg.
  assert (Hm' : mergeable p g name f0 ex p0).
  { destruct Hm as (Hname & Hex & Hget & _). by split_and!; [rewrite Hn|..]. }
  eexists _, _, _, _. split; [apply marshalFile_ok, Hf|]. split; [apply marshalFile_ok, Hg|].
  split; [by apply (merge_two p f g name f0 ex p0)|].
  split; [by apply (merge_two p g f name f0 ex p0)|].
  cbn. f_equal. apply apply_addrs_perm, Permutation_app_comm.
Qed.

(** A hit that arrives before its line - the program runs while files are
    still being parsed - has the same effect as one that arrives right after
    it: the hit is kept, applied and announced once the line is known. *)
Theorem late_line p filename lineNr addr hits :
  mp_fileLineByAddress p !! addr = None → mp_pendingHits p !! addr = None →
  onLineReporter flt W filename lineNr addr (mp_onAddress addr hits p) =
  (p1 ← onLineReporter flt W filename lineNr addr p; Ok (mp_onAddress addr hits p1)).
Proof.
  intros Hline Hpend. unfold mp_onAddress at 1. rewrite Hline. unfold onLineReporter.
  destruct (runFilters flt filename); cbn [negb mbind res_mbind res_bind].
  2: { unfold mp_onAddress. by rewrite Hline. }
  destruct (w_file_exists W filename); cbn [negb mbind res_mbind res_bind].
  2: { unfold mp_onAddress. by rewrite Hline. }
  unfold mp_get_file. cbn [mp_files mp_set_pending].
  destruct (mp_files p !! filename) as [f|]; [|destruct (new_MFile W filename) as [f| | |]; try done];
    cbn; rewrite Hpend, lookup_insert_eq; cbn; unfold mp_onAddress; cbn;
    repeat (rewrite lookup_insert_eq; cbn); unfold mp_set_pending, mp_set_file, mp_emit; cbn;
    by rewrite delete_insert_eq, delete_id.
Qed.

(** C40: the addresses the merge parser makes up for a line never have the bit
    that marks hits, and tell apart any two lines whose file names have
    different checksums or whose numbers differ, below 2^31. *)
Theorem hashAddress_inj file line addr file' line' addr' :
  0 ≤ line < 2 ^ 31 → 0 ≤ line' < 2 ^ 31 →
  (0 ≤ clear_hit (hashAddress W file line addr) < 2 ^ 63) ∧
  (clear_hit (hashAddress W file line addr) = clear_hit (hashAddress W file' line' addr') ↔
   u32 (w_hash_block W file) = u32 (w_hash_block W file') ∧ line = line').
Proof.
  assert (Heq : ∀ file line addr, 0 ≤ line < 2 ^ 31 →
    clear_hit (hashAddress W file line addr) = line * 2 ^ 32 + u32 (w_hash_block W file)).
  { intros fi l a Hl. unfold hashAddress. pose proof (u32_range (w_hash_block W fi)) as Hr.
    rewrite Z.shiftl_mul_pow2, (uw_small 64) by lia.
    rewrite or_high by lia. rewrite clear_hit_id by lia. lia. }
  intros Hl Hl'. rewrite !Heq by done.
  pose proof (u32_range (w_hash_block W file)). pose proof (u32_range (w_hash_block W file')).
  split; [lia|]. split; [lia|]. by intros [-> ->].
Qed.
End promises.

(** ** Concrete runs *)

#[local] Existing Instance keep_all.
#[local] Definition src_world : World := one_file_world (str "a.c") (str "int x;").
#[local] Definition file_of (lines : gmap Z (gmap Z Z)) (hits : gmap Z Z) (checksum : Z) : MFile :=
  mkMFile (str "a.c") 0 lines hits checksum true.
#[local] Definition run_a : MFile := file_of {[3 := {[0x30 := 1]}; 4 := {[0x40 := 1]}]} {[0x30 := 1]} 6.
#[local] Definition run_b : MFile := file_of {[3 := {[0x30 := 1]}; 9 := {[0x90 := 1]}]} {[0x30 := 2]} 6.

Lemma list_iters_sound : iters_sound map_to_list map_to_list.
Proof. by split. Qed.

Lemma run_a_ok : mf_ok map_to_list map_to_list run_a.
Proof.
  split; [by vm_compute|]. split; [by apply (bool_decide_unpack _); vm_compute|].
  apply (bool_decide_unpack _). by vm_compute.
Qed.
Lemma run_b_ok : mf_ok map_to_list map_to_list run_b.
Proof.
  split; [by vm_compute|]. split; [by apply (bool_decide_unpack _); vm_compute|].
  apply (bool_decide_unpack _). by vm_compute.
Qed.

Lemma run_a_mergeable :
  mergeable tt src_world new_MergeParser run_a (str "a.c")
    (mkMFile (str "a.c") 0 ∅ ∅ 6 false) false
    (mp_set_file (str "a.c") (mkMFile (str "a.c") 0 ∅ ∅ 6 false) new_MergeParser).
Proof. by split_and!; vm_compute. Qed.

Lemma merge_roundtrip_witness :
  ∃ data p', marshalFile LittleEndian map_to_list map_to_list run_a = Ok data ∧
    parseOne tt src_world BigEndian (str "00000003") (Some data) new_MergeParser = Ok p' ∧
    mp_out p' = reported map_to_list map_to_list (str "a.c") run_a.
Proof.
  destruct (merge_roundtrip tt src_world LittleEndian BigEndian map_to_list map_to_list
    new_MergeParser run_a (str "a.c") _ _ _ list_iters_sound run_a_ok run_a_mergeable)
    as (data & p' & f' & Hw & Hr & Hout & _).
  exists data, p'. split; [exact Hw|]. split; [exact Hr|exact Hout].
Defined.

Lemma merge_order_irrelevant_witness :
  ∃ df dg p1 p2, marshalFile LittleEndian map_to_list map_to_list run_a = Ok df ∧
    marshalFile LittleEndian map_to_list map_to_list run_b = Ok dg ∧
    (q ← parseOne tt src_world BigEndian (str "00000003") (Some df) new_MergeParser;
     parseOne tt src_world BigEndian (str "00000003") (Some dg) q) = Ok p1 ∧
    (q ← parseOne tt src_world BigEndian (str "00000003") (Some dg) new_MergeParser;
     parseOne tt src_world BigEndian (str "00000003") (Some df) q) = Ok p2 ∧
    mp_files p1 = mp_files p2.
Proof.
  exact (merge_order_irrelevant tt src_world LittleEndian BigEndian map_to_list map_to_list
    new_MergeParser run_a run_b (str "a.c") _ _ _ list_iters_sound run_a_ok run_b_ok eq_refl
    run_a_mergeable eq_refl eq_refl).
Defined.

Lemma late_line_witness :
  onLineReporter tt src_world (str "a.c") 3 0x1000 (mp_onAddress 0x1000 1 new_MergeParser) =
  (p1 ← onLineReporter tt src_world (str "a.c") 3 0x1000 new_MergeParser;
   Ok (mp_onAddress 0x1000 1 p1)).
Proof. apply (late_line tt src_world new_MergeParser (str "a.c") 3 0x1000 1); reflexivity. Defined.

Lemma hashAddress_inj_witness :
  clear_hit (hashAddress src_world (str "a.c") 3 0) = clear_hit (hashAddress src_world (str "b.h") 3 1).
Proof.
  destruct (hashAddress_inj src_world (str "a.c") 3 0 (str "b.h") 3 1) as [_ H]; [lia|lia|].
  apply H. split; [by vm_compute|reflexivity].
Defined.

(** Data made from an older version of a source file is rejected if the
    parser knows the file already and accepted if it does not: whether a line
    of the old version turns up in the merged result depends on the order the
    directories are read in. *)
Theorem stale_data_order_matters :
  let stale := file_of {[77 := {[0x77 := 1]}]} {[0x77 := 1]} 5 in
  let lines_after fs :=
    p ← res_foldl (λ p f, data ← marshalFile LittleEndian map_to_list map_to_list f;
                   parseOne tt src_world LittleEndian (str "00000003") (Some data) p)
          new_MergeParser fs;
    Ok (from_option (λ f, (map_to_list (mf_lines f)).*1) [] (mp_files p !! str "a.c")) in
  lines_after [stale; run_a] = Ok [77; 3; 4] ∧ lines_after [run_a; stale] = Ok [3; 4].
Proof. by vm_compute. Qed.

(** Of several hits of an address that arrive before its line only the last
    is kept, while hits that arrive after it add up. *)
Theorem pending_hits_overwritten :
  let hits p := from_option (λ f, (map_to_list (mf_addrHits f)).*2) [] (mp_files p !! str "a.c") in
  hits <$> (p ← onLineReporter tt src_world (str "a.c") 3 0x1000 new_MergeParser;
            Ok (mp_onAddress 0x1000 5 (mp_onAddress 0x1000 2 p))) = Ok [7] ∧
  hits <$> (onLineReporter tt src_world (str "a.c") 3 0x1000
              (mp_onAddress 0x1000 5 (mp_onAddress 0x1000 2 new_MergeParser))) = Ok [5].
Proof. by vm_compute. Qed.
