(* ===== verification/Scripts.v ===== *)
(** * Script engines: what they share
    (src/src/source-file-cache.cc, src/src/engines/script-engine-base.hh,
    src/src/include/lineid.hh)

    The cache of source files, and the state of [ScriptEngineBase]: the
    addresses it made up for the lines it found, and the files it has seen.
    [se_out] is the trace of the calls on its listeners. *)
From S2P Require Export Interfaces.
From stdpp Require Import options.

(** ** The source file cache *)

Record SourceFile := mkSourceFile { sf_lines : list bytes; sf_crc : Z }.

Definition empty_SourceFile : SourceFile := mkSourceFile [] 0.

Definition new_SourceFile (W : World) (data : bytes) : SourceFile :=
  mkSourceFile (split_string data "010"%char) (u32 (w_hash_block W data)).

Abbreviation SourceFileCache := (gmap bytes SourceFile).

(** Missing and unreadable files are cached as empty. *)
Definition lookupFile (W : World) (filePath : bytes) (c : SourceFileCache)
    : SourceFile * SourceFileCache :=
  match c !! filePath with
  | Some f => (f, c)
  | None =>
      let f := if negb (w_file_exists W filePath) then empty_SourceFile
               else match w_read_file W filePath with
                    | Some data => new_SourceFile W data
                    | None => empty_SourceFile
                    end in
      (f, <[filePath:=f]> c)
  end.

Definition getLines (W : World) (filePath : bytes) (c : SourceFileCache)
    : list bytes * SourceFileCache :=
  let '(f, c) := lookupFile W filePath c in (sf_lines f, c).
Definition fileExists (W : World) (filePath : bytes) (c : SourceFileCache)
    : bool * SourceFileCache :=
  let '(f, c) := lookupFile W filePath c in (negb (bool_decide (sf_lines f = [])), c).
Definition getCrc (W : World) (filePath : bytes) (c : SourceFileCache) : Z * SourceFileCache :=
  let '(f, c) := lookupFile W filePath c in (sf_crc f, c).

(** ** Events *)

Inductive event_type :=
  | ev_error | ev_breakpoint | ev_signal | ev_exit | ev_exit_first_process | ev_signal_exit.
#[global] Instance event_type_eq_dec : EqDecision event_type.
Proof. solve_decision. Defined.

Record EngineEvent := mkEvent { ev_type : event_type; ev_data : Z; ev_addr : Z }.

(** ** The base class *)

(** Calls on line listeners, file listeners and the event listener. *)
Inductive ScriptCall :=
  | SLine (c : LineCall)
  | SFile (filename : bytes)
  | SEvent (ev : EngineEvent).

Record ScriptEngine := mkScriptEngine {
  se_lineIdToAddress : gmap Z Z;
  se_reportedFiles : gset bytes;
  se_cache : SourceFileCache;
  se_out : list ScriptCall;
}.

Definition new_ScriptEngine : ScriptEngine := mkScriptEngine ∅ ∅ ∅ [].

Definition se_emit (c : ScriptCall) (s : ScriptEngine) : ScriptEngine :=
  mkScriptEngine (se_lineIdToAddress s) (se_reportedFiles s) (se_cache s) (se_out s ++ [c]).
Definition se_set_cache (c : SourceFileCache) (s : ScriptEngine) : ScriptEngine :=
  mkScriptEngine (se_lineIdToAddress s) (se_reportedFiles s) c (se_out s).
Definition se_map_line (id address : Z) (s : ScriptEngine) : ScriptEngine :=
  mkScriptEngine (<[id:=address]> (se_lineIdToAddress s)) (se_reportedFiles s) (se_cache s) (se_out s).
Definition se_set_reported (filename : bytes) (s : ScriptEngine) : ScriptEngine :=
  mkScriptEngine (se_lineIdToAddress s) ({[filename]} ∪ se_reportedFiles s) (se_cache s) (se_out s).

Section base.
Context (W : World).

Definition getLineId (fileName : bytes) (nr : Z) : Z :=
  Z.lor (Z.land (w_std_hash W fileName) 0xffffffff) (u64 (Z.shiftl (u32 nr) 32)).

Definition line_address (crc lineNo : Z) : Z := Z.lor crc (u64 (Z.shiftl lineNo 32)).

Definition fileLineFound (crc : Z) (filename : bytes) (lineNo : Z) (s : ScriptEngine) : ScriptEngine :=
  let id := getLineId filename lineNo in
  let address := line_address crc lineNo in
  match se_lineIdToAddress s !! id with
  | Some _ => s                                                  (* Already reported *)
  | None =>
      se_emit (SLine (OnLine (w_real_path W filename) lineNo address)) (se_map_line id address s)
  end.

Definition reportEvent (has_listener : bool) (type : event_type) (data address : Z)
    (s : ScriptEngine) : ScriptEngine :=
  if has_listener then se_emit (SEvent (mkEvent type data address)) s else s.

(** [parseFile] of an engine whose parser finds the code lines of a file. *)
Definition announce (crc : Z) (filename : bytes) (code : list Z) (s : ScriptEngine) : ScriptEngine :=
  foldl (λ s nr, fileLineFound crc filename nr s) s code.

(** The lookup at the end of the engines' [checkEvents]: a line that is not
    known is reported as address 0. *)
Definition hit_event (filename : bytes) (line : Z) (s : ScriptEngine) : ScriptEngine :=
  se_emit (SEvent (mkEvent ev_breakpoint 1
    (default 0 (se_lineIdToAddress s !! getLineId filename line)))) s.
End base.

(** ** Scanning a file for lines of code *)

(** What an engine's [parseFile] promises the base class: the state of its loop
    over the lines, and for each line the next state and whether the line is
    code. *)
Class LineScanner (P : Type) := {
  ls_init : P;
  ls_step : P → bytes → res (P * bool);
}.

(** No text makes it leave the line. *)
Class TotalScanner (P : Type) `{!LineScanner P} : Prop :=
  ls_total : ∀ (p : P) (text : bytes), ∃ r, ls_step p text = Ok r.

(** The loop: [lineNo] counts the lines, and those that are code are found. *)
Definition scan_file (P : Type) `{!LineScanner P} (W : World) (filename : bytes) (lines : list bytes)
    (crc : Z) (s : ScriptEngine) : res ScriptEngine :=
  '(_, _, s) ← res_foldl (λ '(p, lineNo, s) text,
      '(p, code) ← ls_step (P := P) p text;
      Ok (p, u32 (lineNo + 1),
          if code : bool then fileLineFound W crc filename (u32 (lineNo + 1)) s else s))
    (ls_init, 0, s) lines;
  Ok s.

(** The numbers of the code lines, the first line being [nr]. *)
Fixpoint scan_code {P : Type} `{!LineScanner P} (p : P) (nr : Z) (lines : list bytes) : res (list Z) :=
  match lines with
  | [] => Ok []
  | text :: lines =>
      '(p, code) ← ls_step p text;
      rest ← scan_code p (nr + 1) lines;
      Ok (if code : bool then nr :: rest else rest)
  end.

(** ** Lemmas *)

(** The cache answers as the file system did, whatever was asked before. *)
Definition source_file (W : World) (filePath : bytes) : SourceFile :=
  if negb (w_file_exists W filePath) then empty_SourceFile
  else match w_read_file W filePath with
       | Some data => new_SourceFile W data
       | None => empty_SourceFile
       end.

Definition cache_ok (W : World) (c : SourceFileCache) : Prop :=
  map_Forall (λ path f, f = source_file W path) c.

Lemma lookupFile_ok W path c :
  cache_ok W c → (lookupFile W path c).1 = source_file W path ∧ cache_ok W (lookupFile W path c).2.
Proof.
  intros Hc. unfold lookupFile. destruct (c !! path) as [f|] eqn:E.
  - split; [by apply Hc|done].
  - split; [done|]. by apply map_Forall_insert_2.
Qed.

Lemma getLineId_range W f nr :
  0 ≤ nr < 2 ^ 32 → getLineId W f nr = Z.land (w_std_hash W f) 0xffffffff + nr * 2 ^ 32.
Proof.
  intros Hn. unfold getLineId. rewrite (uw_small 32 nr) by done.
  rewrite Z.shiftl_mul_pow2, (uw_small 64) by lia.
  change 0xffffffff with (Z.ones 32). rewrite Z.land_ones by lia.
  pose proof (Z.mod_pos_bound (w_std_hash W f) (2 ^ 32)). apply or_high; lia.
Qed.

Lemma getLineId_line W f f' nr nr' :
  0 ≤ nr < 2 ^ 32 → 0 ≤ nr' < 2 ^ 32 → getLineId W f nr = getLineId W f' nr' → nr = nr'.
Proof.
  intros Hn Hn'. rewrite !getLineId_range by done. change 0xffffffff with (Z.ones 32).
  rewrite !Z.land_ones by lia.
  pose proof (Z.mod_pos_bound (w_std_hash W f) (2 ^ 32)).
  pose proof (Z.mod_pos_bound (w_std_hash W f') (2 ^ 32)). lia.
Qed.

Lemma fileLineFound_known W crc filename nr s :
  is_Some (se_lineIdToAddress (fileLineFound W crc filename nr s) !! getLineId W filename nr).
Proof.
  unfold fileLineFound. destruct (se_lineIdToAddress s !! _) eqn:E; [by rewrite E|].
  cbn. by rewrite lookup_insert_eq.
Qed.

Lemma fileLineFound_mono W crc filename nr s id :
  is_Some (se_lineIdToAddress s !! id) →
  se_lineIdToAddress (fileLineFound W crc filename nr s) !! id = se_lineIdToAddress s !! id.
Proof.
  intros Hid. unfold fileLineFound. destruct (se_lineIdToAddress s !! getLineId _ _ _) eqn:E; [done|].
  cbn. rewrite lookup_insert_ne; [done|]. intros <-. by destruct Hid; simplify_eq.
Qed.

Lemma announce_app W crc filename l k s :
  announce W crc filename (l ++ k) s = announce W crc filename k (announce W crc filename l s).
Proof. apply foldl_app. Qed.

Lemma announce_mono W crc filename code : ∀ s id,
  is_Some (se_lineIdToAddress s !! id) →
  se_lineIdToAddress (announce W crc filename code s) !! id = se_lineIdToAddress s !! id.
Proof.
  induction code as [|nr code IH]; intros s id Hid; [done|]. cbn.
  fold (announce W crc filename code (fileLineFound W crc filename nr s)).
  rewrite IH; rewrite fileLineFound_mono; done.
Qed.

Lemma announce_known W crc filename code nr s :
  nr ∈ code → is_Some (se_lineIdToAddress (announce W crc filename code s) !! getLineId W filename nr).
Proof.
  intros (l & k & ->)%list_elem_of_split. rewrite announce_app. cbn.
  fold (announce W crc filename k (fileLineFound W crc filename nr (announce W crc filename l s))).
  pose proof (fileLineFound_known W crc filename nr (announce W crc filename l s)) as H.
  by rewrite announce_mono.
Qed.

(** Finding lines again changes nothing. *)
Lemma announce_again W crc filename code s :
  Forall (λ nr, is_Some (se_lineIdToAddress s !! getLineId W filename nr)) code →
  announce W crc filename code s = s.
Proof.
  induction 1 as [|nr code [a Ha] Hcode IH]; [done|]. cbn.
  unfold fileLineFound at 2. by rewrite Ha.
Qed.

(** On a file none of whose lines is known, every line is announced once, in
    order, at its own address. *)
Lemma announce_fresh W crc filename code : ∀ s,
  NoDup code → Forall (λ nr, 0 ≤ nr < 2 ^ 32) code →
  Forall (λ nr, se_lineIdToAddress s !! getLineId W filename nr = None) code →
  let s' := announce W crc filename code s in
  se_out s' = se_out s ++
    ((λ nr, SLine (OnLine (w_real_path W filename) nr (line_address crc nr))) <$> code) ∧
  Forall (λ nr, se_lineIdToAddress s' !! getLineId W filename nr = Some (line_address crc nr)) code.
Proof.
  induction code as [|nr code IH]; intros s Hnd Hr Hf; cbn zeta.
  { split; [by rewrite app_nil_r|constructor]. }
  apply NoDup_cons in Hnd as [Hnr Hnd]. apply Forall_cons in Hr as [Hr0 Hr].
  apply Forall_cons in Hf as [Hf0 Hf]. cbn [announce foldl].
  fold (announce W crc filename code (fileLineFound W crc filename nr s)).
  assert (E : fileLineFound W crc filename nr s =
    se_emit (SLine (OnLine (w_real_path W filename) nr (line_address crc nr)))
      (se_map_line (getLineId W filename nr) (line_address crc nr) s)).
  { unfold fileLineFound. by rewrite Hf0. }
  destruct (IH (fileLineFound W crc filename nr s)) as [Ho Hm]; [done|done| |].
  { rewrite E. cbn. apply Forall_forall. intros k Hk.
    rewrite lookup_insert_ne; [by eapply Forall_forall in Hf|]. intros Hid.
    eapply Forall_forall in Hr; [|exact Hk].
    apply getLineId_line in Hid; [|done|done]. by subst. }
  split.
  - rewrite Ho, E. cbn. by rewrite <-app_assoc.
  - constructor; [|done]. rewrite announce_mono; rewrite E; cbn; by rewrite lookup_insert_eq.
Qed.

(** ** Scanners *)

Section scan.
Context {P : Type} `{!LineScanner P} `{!TotalScanner P}.

Lemma scan_code_ok lines : ∀ (p : P) nr,
  ∃ code, scan_code p nr lines = Ok code ∧ NoDup code ∧
    Forall (λ k, nr ≤ k < nr + Z.of_nat (length lines)) code.
Proof using Type*.
  induction lines as [|text lines IH]; intros p nr.
  { exists []. split_and!; [done|constructor|constructor]. }
  cbn [scan_code length]. destruct (ls_total p text) as [[p' c] ->].
  cbn [mbind res_mbind res_bind].
  destruct (IH p' (nr + 1)) as (code & -> & Hnd & Hr). cbn [mbind res_mbind res_bind].
  assert (Hr' : Forall (λ k, nr ≤ k < nr + Z.of_nat (S (length lines))) code)
    by (eapply Forall_impl; [exact Hr|cbn; lia]).
  eexists. split; [done|]. destruct c; [|by split].
  split; [|constructor; [lia|done]]. constructor; [|done].
  intros Hin. eapply Forall_forall in Hr; [|exact Hin]. cbn in Hr. lia.
Qed.

Lemma scan_loop W filename crc lines : ∀ (p : P) nr s,
  0 ≤ nr → nr + Z.of_nat (length lines) < 2 ^ 32 →
  ∃ code p', scan_code p (nr + 1) lines = Ok code ∧
    res_foldl (λ '(p, lineNo, s) text,
        '(p, code) ← ls_step (P := P) p text;
        Ok (p, u32 (lineNo + 1),
            if code : bool then fileLineFound W crc filename (u32 (lineNo + 1)) s else s))
      (p, nr, s) lines
    = Ok (p', nr + Z.of_nat (length lines), announce W crc filename code s).
Proof using Type*.
  induction lines as [|text lines IH]; intros p nr s Hnr Hmax.
  { exists [], p. split; [done|]. cbn. by rewrite Z.add_0_r. }
  cbn [length] in *. cbn [res_foldl scan_code].
  destruct (ls_total p text) as [[p1 c] ->]. cbn [mbind res_mbind res_bind].
  rewrite uw_small by lia.
  destruct (IH p1 (nr + 1) (if c then fileLineFound W crc filename (nr + 1) s else s))
    as (code & p' & Hc & Hf); [lia|lia|].
  rewrite Hc, Hf. cbn [mbind res_mbind res_bind]. eexists _, p'. split; [done|].
  replace (nr + 1 + Z.of_nat (length lines)) with (nr + Z.of_nat (S (length lines))) by lia.
  by destruct c.
Qed.

(** Scanning a file is announcing its code lines. *)
Lemma scan_file_eq W filename crc lines s :
  Z.of_nat (length lines) < 2 ^ 32 →
  ∃ code, scan_code (P := P) ls_init 1 lines = Ok code ∧
    scan_file P W filename lines crc s = Ok (announce W crc filename code s).
Proof using Type*.
  intros Hl. unfold scan_file.
  destruct (scan_loop W filename crc lines ls_init 0 s) as (code & p' & Hc & Hf); [lia|lia|].
  exists code. split; [exact Hc|]. rewrite Hf. done.
Qed.

(** What the line listeners are told of a file that is new, and that a second
    scan tells them nothing. *)
Lemma scan_announces W filename crc lines s :
  Z.of_nat (length lines) < 2 ^ 32 - 1 →
  (∀ nr, 1 ≤ nr ≤ Z.of_nat (length lines) → se_lineIdToAddress s !! getLineId W filename nr = None) →
  ∃ code s', scan_code (P := P) ls_init 1 lines = Ok code ∧
    scan_file P W filename lines crc s = Ok s' ∧
    NoDup code ∧ Forall (λ nr, 1 ≤ nr ≤ Z.of_nat (length lines)) code ∧
    se_out s' = se_out s ++
      ((λ nr, SLine (OnLine (w_real_path W filename) nr (line_address crc nr))) <$> code) ∧
    scan_file P W filename lines crc s' = Ok s'.
Proof using Type*.
  intros Hl Hnew. destruct (scan_file_eq W filename crc lines s) as (code & Hc & Hp); [lia|].
  destruct (scan_code_ok lines (ls_init : P) 1) as (code' & Hc' & Hnd & Hr).
  rewrite Hc in Hc'. injection Hc' as <-.
  exists code, (announce W crc filename code s). split; [done|]. split; [done|]. split; [done|].
  split; [eapply Forall_impl; [exact Hr|cbn; lia]|].
  destruct (announce_fresh W crc filename code s) as [Ho _]; [done| | |].
  { eapply Forall_impl; [exact Hr|cbn; lia]. }
  { eapply Forall_impl; [exact Hr|]. cbn. intros nr ?. apply Hnew. lia. }
  split; [exact Ho|].
  destruct (scan_file_eq W filename crc lines (announce W crc filename code s))
    as (code2 & Hc2 & ->); [lia|].
  rewrite Hc in Hc2. injection Hc2 as <-. f_equal. apply announce_again.
  apply Forall_forall. intros nr Hnr. by apply announce_known.
Qed.
End scan.
