(* ===== verification/BashEngine.v ===== *)
(** * The bash engine (src/src/engines/bash-engine.cc)

    Which lines of a script are code ([parseFileFull], [parseFileBasic]), and
    how the trace lines the shell prints become events ([checkEvents]).  Forking
    and the pipes are not modelled: [checkEvents] gets the line [getline] read. *)
From S2P Require Export Scripts.
From stdpp Require Import options.

Abbreviation DQ := "034"%char.
Abbreviation SQ := "'"%char.
Abbreviation BS := "\"%char.

(** ** Lines of code *)

(** [find] results against a position: [npos] is greater than all. *)
Definition before (o : option nat) (n : nat) : bool :=
  match o with Some i => (i <? n)%nat | None => false end.

(** "# ..." is removed, but not in $#, in an expansion, or after a quote. *)
Definition strip_comment (s : bytes) : res bytes :=
  match str_find (str "#") s with
  | None => Ok s
  | Some comment =>
      dollar ← (if (1 <=? comment)%nat
                then c ← at_ s (comment - 1); Ok (bool_decide (c = "$"%char)) else Ok false);
      let expansion := (2 <=? comment)%nat
                       && bool_decide (is_Some (rfind_from (str "${") s comment))
                       && bool_decide (is_Some (find_from (str "}") s comment)) in
      if (dollar : bool) || expansion then Ok s
      else if (1 <=? comment)%nat
              && (before (str_find [DQ] s) comment || before (str_find [SQ] s) comment)
      then Ok s
      else substr (trim_string s trim_default) 0 comment
  end.

Definition bash_endings : list bytes :=
  [str "esac"; str "fi"; str "do"; str "done"; str "else"; str "then"].

(** *** The basic parser *)

Definition basic_is_code (text : bytes) : res bool :=
  s ← strip_comment (trim_string text trim_default);
  Ok (negb (bool_decide (s = [])
            || bool_decide (s ∈ bash_endings ++ [str "}"; str "{"; str ")"; str "("])
            || bool_decide (str_find (str "function") s = Some O))).

(** *** The full parser *)

Inductive bash_state := none | backslash | quote | heredoc.
#[global] Instance bash_state_eq_dec : EqDecision bash_state.
Proof. solve_decision. Defined.

Record BashParser := mkBash {
  bp_state : bash_state;
  bp_caseActive : bool;
  bp_arithmeticActive : bool;
  bp_heredocMarker : bytes;
}.

Definition new_BashParser : BashParser := mkBash none false false [].

Definition bp_set_state (st : bash_state) (p : BashParser) : BashParser :=
  mkBash st (bp_caseActive p) (bp_arithmeticActive p) (bp_heredocMarker p).
Definition bp_set_case (b : bool) (p : BashParser) : BashParser :=
  mkBash (bp_state p) b (bp_arithmeticActive p) (bp_heredocMarker p).
Definition bp_set_arith (b : bool) (p : BashParser) : BashParser :=
  mkBash (bp_state p) (bp_caseActive p) b (bp_heredocMarker p).
Definition bp_set_marker (m : bytes) (p : BashParser) : BashParser :=
  mkBash (bp_state p) (bp_caseActive p) (bp_arithmeticActive p) m.

(** [while (fnPos > 1 && ' ' == s[fnPos - 1]) --fnPos] *)
Fixpoint trim_fnPos (s : bytes) (fnPos : nat) : res nat :=
  match fnPos with
  | S (S k as fnPos') =>
      c ← at_ s fnPos';
      if bool_decide (c = " "%char) then trim_fnPos s fnPos' else Ok fnPos
  | _ => Ok fnPos
  end.

(** "fn() { ...": a single word before the parentheses. *)
Definition is_function (s : bytes) : res bool :=
  match str_find (str "()") s with
  | None => Ok false
  | Some fnPos =>
      fnPos ← trim_fnPos s fnPos;
      name ← substr s 0 fnPos;
      Ok (bool_decide (str_find (str " ") name = None))
  end.

(** The lines that are never code, whatever the state; [s] is not empty. *)
Definition never_code (s : bytes) : res bool :=
  c0 ← at_ s 0;
  semi ← (if (2 <=? length s)%nat then
            c1 ← at_ s 1; Ok (bool_decide (c0 = ";"%char) && bool_decide (c1 = ";"%char))
          else Ok false);
  if semi : bool then Ok true
  else if bool_decide (c0 ∈ ["{"; "}"; "("; ")"]%char) && (length s =? 1)%nat then Ok true
  else if bool_decide (s ∈ bash_endings) then Ok true
  else if bool_decide (str_find (str "function") s = Some O) then Ok true
  else is_function s.

Fixpoint first_word (m : bytes) : bytes :=
  match m with
  | [] => []
  | c :: m' => if bool_decide (c ∈ [" "; "009"]%char) then [] else c :: first_word m'
  end.

(** The marker of a here document that starts at [heredocStart]. *)
Definition heredoc_marker (s : bytes) (heredocStart : nat) : res bytes :=
  m ← substr s (heredocStart + 2) (length s);
  c ← at_ m 0;
  m ← (if bool_decide (c = "-"%char) then substr_from m 1 else Ok m);
  let m := first_word (trim_string m trim_default) in
  if (2 <? length m)%nat then
    a ← at_ m 0; z ← at_ m (length m - 1);
    if (bool_decide (a = DQ) || bool_decide (a = SQ)) && bool_decide (a = z)
    then substr m 1 (length m - 2) else Ok m
  else Ok m.

Definition has (pat s : bytes) : bool := contains pat s.

(** The start of continuation lines, quotes and here documents; [true]: the
    line is not code. *)
Definition open_multiline (s : bytes) (p : BashParser) : res (BashParser * bool) :=
  z ← at_back s;
  if bool_decide (z = BS) then Ok (bp_set_state backslash p, false)
  else if (has (str "=" ++ [DQ]) s || has (str "= " ++ [DQ]) s) && (count DQ s =? 1)%nat
  then Ok (bp_set_state quote p, true)
  else
    match str_find (str "<<") s with
    | Some heredocStart =>
        if negb (bp_arithmeticActive p) && negb (bool_decide (str_find (str "let ") s = Some O))
           && negb (has (str "$((") s) && negb (has (str "))") s)
        then
          m ← heredoc_marker s heredocStart;
          c ← at_ m 0;
          let p := bp_set_marker m p in
          let p := if (0 <? length m)%nat && negb (bool_decide (c = "<"%char))
                   then bp_set_state heredoc p else p in
          b ← substr s 0 heredocStart;
          Ok (p, bool_decide (trim_string b trim_default = str "done"))
        else Ok (p, false)
    | None => Ok (p, false)
    end.

(** The end of the loop's body: case statements and arithmetic. *)
Definition close_line (s : bytes) (p : BashParser) : res (BashParser * bool) :=
  let p := if bool_decide (str_find (str "case") s = Some O) then bp_set_case true p
           else if bool_decide (str_find (str "esac") s = Some O) then bp_set_case false p
           else p in
  let p := if has (str "))") s || has (str "]") s then bp_set_arith false p else p in
  (* Only the last line of arithmetic is code *)
  if bp_arithmeticActive p then Ok (p, false)
  else
    z ← at_back s;
    (* Case switches are nocode *)
    if bp_caseActive p && bool_decide (z = ")"%char) then
      match str_find (str "(") s with
      | None | Some O => Ok (p, false)
      | Some _ => Ok (p, true)
      end
    else Ok (p, true).

(** The part for lines in a multi-line construct: [None] when the line has been
    dealt with, else the state to go on in. *)
Definition inside_multiline (s : bytes) (p : BashParser) : res (BashParser * bool) :=
  match bp_state p with
  | backslash =>
      (* Handle backslashes - only the first line is code *)
      z ← at_back s;
      Ok (if bool_decide (z = BS) then p else bp_set_state none p, false)
  | quote =>
      (* Multi-line quote - only the last line is code *)
      if bool_decide (str_find [DQ] s = Some (length s - 1)%nat)
      then Ok (bp_set_state none p, true) else Ok (p, false)
  | heredoc =>
      let trimmed := trim_string s (trim_default ++ ["`"%char]) in
      Ok (if bool_decide (trimmed = bp_heredocMarker p) then bp_set_state none p else p, false)
  | none => Ok (p, true)
  end.

(** The body of [parseFileFull]'s loop: the new state, and whether the line is
    code. *)
Definition bash_line (p : BashParser) (text : bytes) : res (BashParser * bool) :=
  s ← strip_comment (trim_string text trim_default);
  if bool_decide (s = []) then Ok (p, false)
  else
    nc ← never_code s;
    if nc : bool then Ok (p, false)
    else
      '(p, go) ← inside_multiline s p;
      if negb go then Ok (p, false)
      else
        let p := if has (str "$((") s || has (str "$[") s then bp_set_arith true p else p in
        '(p, skip) ← open_multiline s p;
        if skip : bool then Ok (p, false) else close_line s p.

(** The two parsers as scanners; the basic one has no state. *)
#[global] Instance bash_full_scanner : LineScanner BashParser := {|
  ls_init := new_BashParser; ls_step := bash_line |}.
#[global] Instance bash_basic_scanner : LineScanner unit := {|
  ls_init := tt; ls_step := λ _ text, code ← basic_is_code text; Ok (tt, code) |}.

(** ** Announcing the lines *)

Section engine.
Context (W : World).
(** [bash-use-basic-parser]. *)
Context (use_basic : bool).

Definition parseFileBasic (filename : bytes) (lines : list bytes) (crc : Z) (s : ScriptEngine)
    : res ScriptEngine := scan_file unit W filename lines crc s.

Definition parseFileFull (filename : bytes) (lines : list bytes) (crc : Z) (s : ScriptEngine)
    : res ScriptEngine := scan_file BashParser W filename lines crc s.

(** [parseFile]; an engine that has been started has a listener. *)
Definition bash_parseFile (filename : bytes) (s : ScriptEngine) : res ScriptEngine :=
  let '(lines, c) := getLines W filename (se_cache s) in
  let '(crc, c) := getCrc W filename c in
  let s := se_set_cache c s in
  if use_basic then parseFileBasic filename lines crc s
  else parseFileFull filename lines crc s.

(** *** Which files are bash scripts *)

Definition has_suffix (suffix filename : bytes) : res bool :=
  if (length suffix <=? length filename)%nat then
    t ← substr filename (length filename - length suffix) (length filename);
    Ok (bool_decide (t = suffix))
  else Ok false.

(** The first 80 bytes of the data are looked at, however many there are. *)
Definition bash_matchParser (filename data : bytes) : res Z :=
  s ← buf_read data 0 80;
  sh ← has_suffix (str ".sh") filename;
  Ok (if sh : bool then 200
      else if has (str "#!/bin/bash") s then 400
      else if has (str "#!/bin/sh") s then 300
      else if has (str "bash") s then 100
      else if has (str "sh") s then 50
      else match_none).

(** A directory tree as [readdir], [lstat] and [read_file] show it. *)
Inductive dirent :=
  | Directory (d_name : bytes) (entries : option (list dirent))
  | Regular (d_name : bytes) (content : option bytes).

Fixpoint parse_dirent (base : bytes) (de : dirent) (s : ScriptEngine) : res ScriptEngine :=
  match de with
  | Directory d_name entries =>
      if bool_decide (d_name ∈ [str "."; str ".."]) then Ok s
      else
        match entries with
        | None => Ok s                                  (* Can't open directory *)
        | Some des =>
            (fix go des s :=
               match des with
               | [] => Ok s
               | de :: des => s ← parse_dirent (base ++ str "/" ++ d_name) de s; go des s
               end) des s
        end
  | Regular d_name content =>
      if bool_decide (d_name ∈ [str "."; str ".."]) then Ok s
      else
        let cur := base ++ str "/" ++ d_name in
        match content with
        | None => Ok s
        | Some content =>
            '(p, _) ← or_fault (read_file content);
            m ← bash_matchParser cur p;
            if bool_decide (m = match_none) then Ok s else bash_parseFile cur s
        end
  end.

Definition parseDirectoryForFiles (base : bytes) (entries : option (list dirent))
    (s : ScriptEngine) : res ScriptEngine :=
  match entries with
  | None => Ok s
  | Some des => res_foldl (λ s de, parse_dirent base de s) s des
  end.

(** *** The trace *)

Inductive InputType := INPUT_NORMAL | INPUT_QUOTE | INPUT_SINGLE_QUOTE | INPUT_MULTILINE.
#[global] Instance InputType_eq_dec : EqDecision InputType.
Proof using Type. solve_decision. Defined.

Record BashEngine := mkBashEngine {
  be_base : ScriptEngine;
  be_inputType : InputType;
  be_stderr : list bytes;                    (* passed on to stderr *)
}.

Fixpoint getInputType (out : InputType) (s : bytes) : InputType :=
  match s with
  | [] => out
  | c :: r =>
      if bool_decide (c = BS) && bool_decide (out = INPUT_NORMAL) then
        match r with [] => out | _ :: r => getInputType out r end
      else if bool_decide (c = SQ) then
        getInputType (if bool_decide (out = INPUT_NORMAL) then INPUT_SINGLE_QUOTE
                      else INPUT_NORMAL) r
      else getInputType out r
  end.

(** The file of a trace line, parsed when it is first seen. *)
Definition report_file (filename : bytes) (s : ScriptEngine) : res ScriptEngine :=
  if bool_decide (filename ∈ se_reportedFiles s) then Ok s
  else bash_parseFile filename (se_emit (SFile filename) (se_set_reported filename s)).

(** [cur] is the line read, [None] at the end; the result says whether there
    may be more. *)
Definition bash_checkEvents (line : option bytes) (b : BashEngine) : res (bool * BashEngine) :=
  match line with
  | None => Ok (false, b)
  | Some cur =>
      if bool_decide (be_inputType b = INPUT_SINGLE_QUOTE) then
        Ok (true, mkBashEngine (be_base b) (getInputType (be_inputType b) cur) (be_stderr b))
      else
        match str_find (str "kcov@") cur with
        | None => Ok (true, mkBashEngine (be_base b) (be_inputType b) (be_stderr b ++ [cur]))
        | Some kcovStr =>
            let b := mkBashEngine (be_base b) (getInputType (be_inputType b) cur) (be_stderr b) in
            marker ← substr_from cur kcovStr;
            match split_string marker "@"%char with
            | _ :: file :: lineNo :: _ =>
                (* Resolve filename (might be relative) *)
                let filename := w_real_path W file in
                (* Skip the helper libraries *)
                if has (str "bash-helper.sh") filename then Ok (true, b)
                else if has (str "bash-helper-debug-trap.sh") filename then Ok (true, b)
                else if negb (string_is_integer lineNo 0) then Ok (false, b)
                else
                  s ← report_file filename (be_base b);
                  nr ← string_to_integer lineNo 0;
                  Ok (true, mkBashEngine (hit_event W filename nr s) (be_inputType b) (be_stderr b))
            | _ => Ok (true, b)
            end
        end
  end.

(** Stdout without xtrace-fd support: lines with a marker are dropped. *)
Definition keep_stdout (curLine : bytes) : bool :=
  negb (bool_decide (str_find (str "kcov@") curLine ∈ [Some 0; Some 1]%nat)).

(** [continueExecution]: the line read, whether [waitpid] found the child gone
    and its exit status if it exited, and the line left after that. *)
Definition bash_continueExecution (line : option bytes) (wait : option (option Z))
    (last : option bytes) (b : BashEngine) : res (bool * BashEngine) :=
  '(more, b) ← bash_checkEvents line b;
  if more : bool then Ok (true, b)
  else
    match wait with
    | None => Ok (true, b)
    | Some status =>
        (* Child exited, let's make sure that we have all the events/stdout. *)
        '(_, b) ← bash_checkEvents last b;
        let s := match status with
                 | Some code => reportEvent true ev_exit_first_process code 0 (be_base b)
                 | None => reportEvent true ev_error (-1) 0 (be_base b)
                 end in
        Ok (false, mkBashEngine s (be_inputType b) (be_stderr b))
    end.

(** Bash 4.2 and above supports BASH_XTRACEFD. *)
Definition bashCanHandleXtraceFd (force_stderr : bool) (version : option (Z * Z)) : bool :=
  if force_stderr then false
  else match version with
       | Some (major, minor) => (4 <? major) || ((major =? 4) && (2 <=? minor))
       | None => false
       end.
End engine.
