(* ===== verification/BashProofs.v ===== *)
(** * The bash engine: theorems

    The parser never leaves the text it looks at, it announces each code line of
    a file once, in order, and never a line inside a multi-line construct; a
    trace line of the shell becomes a hit of the line it names. *)
From S2P Require Export BashEngine.
From stdpp Require Import options.

(** ** The parser is total *)

Ltac total_step :=
  match goal with
  | |- context [at_ ?s ?i] =>
      let c := fresh "c" in let E := fresh "E" in
      destruct (at_ok s i) as [c E]; [lia|]; rewrite E; clear E
  | |- context [substr ?s ?p ?n] => rewrite (substr_ok s p n) by lia
  | |- context [substr_from ?s ?p] => rewrite (substr_from_ok s p) by lia
  end; cbn [mbind res_mbind res_bind].

Lemma strip_comment_ok s : ∃ t, strip_comment s = Ok t.
Proof.
  unfold strip_comment. destruct (str_find (str "#") s) as [n|] eqn:E; [|by eexists].
  apply find_bound in E. cbn in E.
  destruct (1 <=? n)%nat; [total_step|cbn [mbind res_mbind res_bind]];
    repeat case_match; first [by eexists|total_step; by eexists].
Qed.

Lemma trim_fnPos_ok s : ∀ n, (n ≤ length s)%nat → ∃ k, trim_fnPos s n = Ok k ∧ (k ≤ n)%nat.
Proof.
  induction n as [|n IH]; intros Hn; [by exists O|]. cbn [trim_fnPos].
  destruct n as [|n]; [by exists 1%nat|]. total_step. case_bool_decide; [|by eexists].
  destruct IH as (k & Hk & ?); [lia|]. exists k. split; [exact Hk|lia].
Qed.

Lemma is_function_ok s : ∃ b, is_function s = Ok b.
Proof.
  unfold is_function. destruct (str_find (str "()") s) as [n|] eqn:E; [|by eexists].
  apply find_bound in E. destruct (trim_fnPos_ok s n) as (k & -> & ?); [lia|].
  cbn [mbind res_mbind res_bind]. total_step. by eexists.
Qed.

Lemma never_code_ok s : s ≠ [] → ∃ b, never_code s = Ok b.
Proof.
  intros Hs. unfold never_code. total_step.
  destruct (Nat.leb_spec 2 (length s)); [total_step|cbn [mbind res_mbind res_bind]];
    repeat case_match; first [by eexists|apply is_function_ok].
Qed.

Lemma heredoc_marker_ok s n : (n + 2 ≤ length s)%nat → ∃ m, heredoc_marker s n = Ok m.
Proof.
  intros Hn. unfold heredoc_marker. total_step.
  set (m := take (length s) (drop (n + 2) s)).
  destruct (at_ok m 0) as [c Ec]; [lia|]. rewrite Ec. cbn [mbind res_mbind res_bind].
  assert (∃ m', (if bool_decide (c = "-"%char) then substr_from m 1 else Ok m) = Ok m') as [m' ->].
  { case_bool_decide as Hc; [|by eexists]. destruct m as [|x m]; [by subst|].
    rewrite substr_from_ok by (cbn; lia). by eexists. }
  cbn [mbind res_mbind res_bind]. set (w := first_word _).
  destruct (Nat.ltb_spec 2 (length w)); [|by eexists]. total_step. total_step.
  case_match; [|by eexists]. total_step. by eexists.
Qed.

Lemma inside_multiline_ok s p : s ≠ [] → ∃ r, inside_multiline s p = Ok r.
Proof.
  intros Hs. unfold inside_multiline. destruct (bp_state p); try by eexists.
  - destruct (at_back_ok s Hs) as [z ->]. by eexists.
  - case_bool_decide; by eexists.
Qed.

Lemma open_multiline_ok s p : s ≠ [] → ∃ r, open_multiline s p = Ok r.
Proof.
  intros Hs. unfold open_multiline. destruct (at_back_ok s Hs) as [z ->].
  cbn [mbind res_mbind res_bind]. case_bool_decide; [by eexists|].
  case_match; [by eexists|].
  destruct (str_find (str "<<") s) as [n|] eqn:E; [|by eexists]. apply find_bound in E. cbn in E.
  case_match; [|by eexists].
  destruct (heredoc_marker_ok s n) as [m ->]; [lia|]. cbn [mbind res_mbind res_bind].
  total_step. total_step. by eexists.
Qed.

Lemma close_line_ok s p : s ≠ [] → ∃ r, close_line s p = Ok r.
Proof.
  intros Hs. unfold close_line. cbn zeta. destruct (at_back_ok s Hs) as [z ->].
  cbn [mbind res_mbind res_bind]. repeat case_match; by eexists.
Qed.

Lemma bash_line_ok p text : ∃ r, bash_line p text = Ok r.
Proof.
  unfold bash_line. destruct (strip_comment_ok (trim_string text trim_default)) as [s ->].
  cbn [mbind res_mbind res_bind]. case_bool_decide as Hs; [by eexists|].
  destruct (never_code_ok s Hs) as [[] ->]; cbn [mbind res_mbind res_bind]; [by eexists|].
  destruct (inside_multiline_ok s p Hs) as [[p1 go] ->]. cbn [mbind res_mbind res_bind].
  destruct go; cbn [negb]; [|by eexists].
  destruct (open_multiline_ok s (if has (str "$((") s || has (str "$[") s then bp_set_arith true p1 else p1) Hs)
    as [[p2 skip] ->]. cbn [mbind res_mbind res_bind].
  destruct skip; [by eexists|]. by apply close_line_ok.
Qed.

Lemma basic_is_code_ok text : ∃ b, basic_is_code text = Ok b.
Proof.
  unfold basic_is_code. destruct (strip_comment_ok (trim_string text trim_default)) as [s ->].
  by eexists.
Qed.

#[global] Instance bash_full_total : TotalScanner BashParser.
Proof. intros p text. apply bash_line_ok. Qed.
#[global] Instance bash_basic_total : TotalScanner unit.
Proof. intros p text. cbn. destruct (basic_is_code_ok text) as [b ->]. by eexists. Qed.

(** ** Multi-line constructs *)

Lemma inside_heredoc p s :
  bp_state p = heredoc →
  inside_multiline s p =
    Ok (if bool_decide (trim_string s (trim_default ++ ["`"%char]) = bp_heredocMarker p)
        then bp_set_state none p else p, false).
Proof. intros Hp. unfold inside_multiline. by rewrite Hp. Qed.

Lemma inside_backslash p s :
  bp_state p = backslash → s ≠ [] →
  ∃ z, at_back s = Ok z ∧
    inside_multiline s p = Ok (if bool_decide (z = BS) then p else bp_set_state none p, false).
Proof.
  intros Hp Hs. unfold inside_multiline. rewrite Hp. destruct (at_back_ok s Hs) as [z Hz].
  exists z. split; [done|]. by rewrite Hz.
Qed.

(** ** Trimming *)

Lemma trim_blank text : Forall (.∈ [" "; "009"]%char) text → trim_string text trim_default = [].
Proof.
  intros H. unfold trim_string.
  assert (find_last_not_of trim_default text = None) as ->.
  { apply find_last_not_of_None. eapply Forall_impl; [exact H|]. unfold trim_default. set_solver. }
  by rewrite (proj2 (find_first_not_of_None _ _)).
Qed.

Lemma find_first_not_of_app set a c b :
  Forall (.∈ set) a → c ∉ set → find_first_not_of set (a ++ c :: b) = Some (length a).
Proof.
  intros Ha Hc. induction Ha as [|x a Hx Ha IH]; cbn.
  - by rewrite bool_decide_eq_false_2.
  - rewrite bool_decide_eq_true_2 by done. by rewrite IH.
Qed.

(** After leading blanks the text starts at its first other character. *)
Lemma trim_first a c rest :
  Forall (.∈ [" "; "009"]%char) a → c ∉ trim_default →
  ∃ t, trim_string (a ++ c :: rest) trim_default = c :: t.
Proof.
  intros Ha Hc. unfold trim_string.
  destruct (find_last_not_of trim_default (a ++ c :: rest)) as [e|] eqn:E.
  - apply find_last_not_of_Some in E as (p & x & b & Heq & <- & Hx & Hb).
    rewrite Heq. assert (take (length p + 1) (p ++ x :: b) = p ++ [x]) as -> by by rewrite take_app_add.
    assert (Hpre : ∃ q, p ++ [x] = a ++ c :: q).
    { destruct (decide (length a < length p)%nat) as [Hlt|Hge].
      - apply app_eq_inv in Heq as [(k & -> & Hk)|(k & -> & Hk)].
        + exfalso. rewrite length_app in Hlt. lia.
        + destruct k as [|y k]; [rewrite app_nil_r in Hlt; lia|]. injection Hk as <- Hk.
          exists (k ++ [x]). by rewrite <-app_assoc.
      - apply app_eq_inv in Heq as [(k & -> & Hk)|(k & -> & Hk)].
        + destruct k as [|y k]; [by exists []; injection Hk as -> _; rewrite app_nil_r|].
          exfalso. injection Hk as -> Hk. apply Forall_app in Ha as [_ Ha].
          apply Forall_cons in Ha as [Hy _]. apply Hx. unfold trim_default. set_solver.
        + destruct k as [|y k]; [exists []; injection Hk as -> _; by rewrite app_nil_r|].
          exfalso. rewrite length_app in Hge. cbn in Hge. lia. }
    destruct Hpre as [q Hq]. rewrite Hq.
    rewrite find_first_not_of_app; [|done|].
    + rewrite drop_app_length. by eexists.
    + intros Hin. apply Hc. unfold trim_default. set_solver.
  - apply find_last_not_of_None in E. apply Forall_app in E as [_ E].
    apply Forall_cons in E as [E _]. done.
Qed.

Lemma strip_comment_hash t : strip_comment ("#"%char :: t) = Ok [].
Proof.
  unfold strip_comment. rewrite find_prefix by done. cbn [Nat.leb mbind res_mbind res_bind andb orb].
  rewrite substr_ok by lia. done.
Qed.

(** ** Trace lines *)

Lemma getlines_first delim a s :
  delim ∉ a → split_string (a ++ delim :: s) delim = a :: split_string s delim.
Proof. intros H. unfold split_string. by rewrite getlines_cons. Qed.

Lemma fmt_u_no_at z : 0 ≤ z < 2 ^ 64 → "@"%char ∉ fmt_u z.
Proof.
  intros Hz Hin. unfold fmt_u in Hin.
  destruct (digits_shape 10 63 z [] ltac:(lia) ltac:(lia)) as (c & D & E & HF & _).
  change 64%nat with (S 63) in Hin. rewrite E, app_nil_r in Hin.
  eapply Forall_forall in HF; [|exact Hin]. destruct HF as (d & Hd & Heq).
  assert (Forall (λ d, digit_char d ≠ "@"%char) (seqZ 0 16)) as Hno
    by (apply (bool_decide_unpack _); by vm_compute).
  eapply Forall_forall in Hno; [|apply elem_of_seqZ; split; [apply Hd|lia]]. by apply Hno.
Qed.

Lemma find_nested k x :
  str_find (str "kcov@") (replicate k "k"%char ++ str "kcov@" ++ x) = Some k.
Proof.
  induction k as [|k IH]; cbn [replicate app].
  - apply find_prefix, prefixb_app.
  - cbn [str_find]. rewrite IH. by destruct k.
Qed.

Lemma bash_parseFile_ok W use_basic filename s :
  Z.of_nat (length (getLines W filename (se_cache s)).1) < 2 ^ 32 →
  ∃ s', bash_parseFile W use_basic filename s = Ok s'.
Proof.
  intros Hl. unfold bash_parseFile.
  destruct (getLines W filename (se_cache s)) as [lines c]. cbn in Hl.
  destruct (getCrc W filename c) as [crc c']. cbn zeta.
  unfold parseFileBasic, parseFileFull. destruct use_basic.
  - destruct (scan_file_eq (P := unit) W filename crc lines (se_set_cache c' s) Hl) as (code & _ & ->).
    by eexists.
  - destruct (scan_file_eq (P := BashParser) W filename crc lines (se_set_cache c' s) Hl)
      as (code & _ & ->). by eexists.
Qed.

(** ** Properties *)

(** C28: the parser handles every text without leaving it, and what it finds in
    a file that is new to it are distinct line numbers of the file, each
    announced once, in order, with the file's checksum and the number as its
    address; parsing the file again announces nothing. *)
Theorem bash_parse_announces W filename crc lines s :
  Z.of_nat (length lines) < 2 ^ 32 - 1 →
  (∀ nr, 1 ≤ nr ≤ Z.of_nat (length lines) → se_lineIdToAddress s !! getLineId W filename nr = None) →
  ∃ code s', scan_code new_BashParser 1 lines = Ok code ∧
    parseFileFull W filename lines crc s = Ok s' ∧
    NoDup code ∧ Forall (λ nr, 1 ≤ nr ≤ Z.of_nat (length lines)) code ∧
    se_out s' = se_out s ++
      ((λ nr, SLine (OnLine (w_real_path W filename) nr (line_address crc nr))) <$> code) ∧
    parseFileFull W filename lines crc s' = Ok s'.
Proof. exact (scan_announces (P := BashParser) W filename crc lines s). Qed.

(** A blank line, and one whose first character is a number sign, is never
    code and leaves the parser as it was, in the middle of a here document or a
    string as anywhere else. *)
Theorem bash_blank_and_comment p blanks rest :
  Forall (.∈ [" "; "009"]%char) blanks →
  bash_line p blanks = Ok (p, false) ∧
  bash_line p (blanks ++ "#"%char :: rest) = Ok (p, false).
Proof.
  intros Hb. split.
  - unfold bash_line. rewrite trim_blank by done. done.
  - destruct (trim_first blanks "#"%char rest Hb) as [t Ht]; [unfold trim_default; set_solver|].
    unfold bash_line. by rewrite Ht, strip_comment_hash.
Qed.

(** The body of a here document is not code: no line up to the one that
    is the marker, whatever it looks like, is announced, and the parser is
    still in the document after it. *)
Theorem heredoc_body_not_code p nr body rest :
  bp_state p = heredoc →
  Forall (λ text, ∀ s, strip_comment (trim_string text trim_default) = Ok s →
            trim_string s (trim_default ++ ["`"%char]) ≠ bp_heredocMarker p) body →
  scan_code p nr (body ++ rest) = scan_code p (nr + Z.of_nat (length body)) rest.
Proof.
  intros Hp Hbody. revert nr. induction Hbody as [|text body Htext Hbody IH]; intros nr.
  { cbn. by rewrite Z.add_0_r. }
  assert (Hline : bash_line p text = Ok (p, false)).
  { unfold bash_line. destruct (strip_comment_ok (trim_string text trim_default)) as [s Hs].
    rewrite Hs. cbn [mbind res_mbind res_bind]. case_bool_decide as Hn; [done|].
    destruct (never_code_ok s Hn) as [[] ->]; cbn [mbind res_mbind res_bind]; [done|].
    rewrite (inside_heredoc p s Hp). cbn [mbind res_mbind res_bind negb].
    by rewrite bool_decide_eq_false_2 by auto. }
  cbn [app scan_code length ls_step bash_full_scanner]. rewrite Hline. cbn [mbind res_mbind res_bind]. rewrite IH.
  replace (nr + 1 + Z.of_nat (length body)) with (nr + Z.of_nat (S (length body))) by lia.
  by destruct (scan_code p _ rest).
Qed.

(** Of a command continued with backslashes only the first line is code: a
    line in a continuation never is, and the continuation ends with the first
    line that does not end in a backslash. *)
Theorem continuation_not_code p text p' code :
  bp_state p = backslash → bash_line p text = Ok (p', code) →
  code = false ∧ (p' = p ∨ (p' = bp_set_state none p ∧
    ∃ s z, strip_comment (trim_string text trim_default) = Ok s ∧ last s = Some z ∧ z ≠ BS)).
Proof.
  intros Hp. unfold bash_line.
  destruct (strip_comment_ok (trim_string text trim_default)) as [s ->].
  cbn [mbind res_mbind res_bind]. case_bool_decide as Hn; [by intros [= <- <-]; auto|].
  destruct (never_code_ok s Hn) as [[] ->]; cbn [mbind res_mbind res_bind];
    [by intros [= <- <-]; auto|].
  destruct (inside_backslash p s Hp Hn) as (z & Hz & ->).
  cbn [mbind res_mbind res_bind negb]. intros [= <- <-]. split; [done|].
  case_bool_decide; [by left|]. right. split; [done|]. exists s, z. split; [done|].
  unfold at_back in Hz. destruct (last s); [|done]. by injection Hz as <-.
Qed.

(** C29: a trace line of the shell, at any nesting depth, for a file that is not
    one of kcov's helpers: the file is announced and parsed if it is new, and
    then the line's address is reported hit once, or address 0 if the parser
    does not know the line. *)
Theorem trace_line_hit W use_basic b depth file nr rest :
  be_inputType b ≠ INPUT_SINGLE_QUOTE → "@"%char ∉ file → 0 ≤ nr < 2 ^ 32 →
  has (str "bash-helper.sh") (w_real_path W file) = false →
  has (str "bash-helper-debug-trap.sh") (w_real_path W file) = false →
  Z.of_nat (length (getLines W (w_real_path W file) (se_cache (be_base b))).1) < 2 ^ 32 →
  let cur := replicate depth "k"%char ++ str "kcov@" ++ file ++ "@"%char :: fmt_u nr ++ "@"%char :: rest in
  ∃ s b', report_file W use_basic (w_real_path W file) (be_base b) = Ok s ∧
    bash_checkEvents W use_basic (Some cur) b = Ok (true, b') ∧
    be_stderr b' = be_stderr b ∧
    se_out (be_base b') = se_out s ++
      [SEvent (mkEvent ev_breakpoint 1
         (default 0 (se_lineIdToAddress s !! getLineId W (w_real_path W file) nr)))].
Proof.
  intros Hin Hfile Hnr Hh1 Hh2 Hlen cur.
  assert (∃ s, report_file W use_basic (w_real_path W file) (be_base b) = Ok s) as [s Hs].
  { unfold report_file. case_bool_decide; [by eexists|]. by apply bash_parseFile_ok. }
  exists s. unfold bash_checkEvents. rewrite bool_decide_eq_false_2 by done.
  unfold cur at 1. rewrite find_nested.
  rewrite substr_from_ok.
  2: { unfold cur. rewrite length_app, length_replicate. lia. }
  cbn [mbind res_mbind res_bind].
  assert (Hdrop : drop depth cur = str "kcov" ++ "@"%char :: file ++ "@"%char :: fmt_u nr ++ "@"%char :: rest).
  { unfold cur. by rewrite drop_app_length' by (by rewrite length_replicate). }
  rewrite Hdrop, getlines_first by (apply (bool_decide_unpack _); by vm_compute).
  rewrite getlines_first by done. rewrite getlines_first by (apply fmt_u_no_at; lia).
  rewrite Hh1, Hh2. unfold string_is_integer, string_to_integer.
  rewrite stoull_fmt_u_eq by (first [by left|lia]). rewrite bool_decide_eq_true_2 by done.
  cbn [negb be_base be_inputType be_stderr]. rewrite Hs. cbn [mbind res_mbind res_bind].
  eexists. split; [done|]. split; [done|]. split; [done|]. cbn.
  replace (s64 nr) with nr; [done|]. unfold s64. rewrite Z.mod_small; lia.
Qed.

(** ** Concrete scripts *)

Lemma bash_parse_announces_witness :
  ∃ s', parseFileFull (one_file_world (str "a.sh") []) (str "a.sh")
          [str "#!/bin/bash"; str "f() {"; str "  echo a \"; str "    b"; str "}"; str "cat <<EOF";
           str "done well"; str "EOF"; str "f"] 7 new_ScriptEngine = Ok s' ∧
    length (se_out s') = 3%nat.
Proof.
  destruct (bash_parse_announces (one_file_world (str "a.sh") []) (str "a.sh") 7
    [str "#!/bin/bash"; str "f() {"; str "  echo a \"; str "    b"; str "}"; str "cat <<EOF";
     str "done well"; str "EOF"; str "f"] new_ScriptEngine) as (code & s' & Hc & Hp & _ & _ & Ho & _).
  - vm_compute. reflexivity.
  - intros nr _. reflexivity.
  - exists s'. split; [exact Hp|]. rewrite Ho. vm_compute in Hc. by injection Hc as <-.
Defined.

Lemma bash_blank_and_comment_witness :
  bash_line new_BashParser (str "  ") = Ok (new_BashParser, false).
Proof.
  apply (bash_blank_and_comment new_BashParser (str "  ") []).
  apply (bool_decide_unpack _). vm_compute. exact I.
Defined.

Lemma heredoc_body_not_code_witness :
  let p := mkBash heredoc false false (str "EOF") in
  scan_code p 5 ([str "rm -rf"; str "EOF2"] ++ [str "EOF"]) = scan_code p 7 [str "EOF"].
Proof.
  apply (heredoc_body_not_code (mkBash heredoc false false (str "EOF")) 5); [reflexivity|].
  repeat constructor; intros s Hs; vm_compute in Hs; injection Hs as <-; vm_compute; discriminate.
Defined.

Lemma continuation_not_code_witness :
  let p := mkBash backslash false false [] in
  bash_line p (str "  -v") = Ok (bp_set_state none p, false) ∧ false = false.
Proof.
  split; [vm_compute; reflexivity|].
  apply (continuation_not_code (mkBash backslash false false []) (str "  -v")
           (bp_set_state none (mkBash backslash false false []))); vm_compute; reflexivity.
Defined.

Lemma trace_line_hit_witness :
  ∃ b', bash_checkEvents (one_file_world (str "/a.sh") (str "echo")) false
          (Some (str "kkcov@/a.sh@1@echo")) (mkBashEngine new_ScriptEngine INPUT_NORMAL [])
        = Ok (true, b').
Proof.
  destruct (trace_line_hit (one_file_world (str "/a.sh") (str "echo")) false
    (mkBashEngine new_ScriptEngine INPUT_NORMAL []) 1 (str "/a.sh") 1 (str "echo"))
    as (s & b' & _ & Hc & _); [discriminate|by apply (bool_decide_unpack _); vm_compute|lia| | | |].
  - vm_compute. reflexivity.
  - vm_compute. reflexivity.
  - vm_compute. reflexivity.
  - exists b'. exact Hc.
Defined.

(** Trimming leaves a line that consists of a carriage return alone, so
    that every blank line of a script with DOS line ends counts as code; and an
    ending followed by a comment is not recognised as one: "done" is not code
    but "done # loop" is. *)
Theorem bash_counts_nocode :
  bash_line new_BashParser ["013"%char] = Ok (new_BashParser, true) ∧
  bash_line new_BashParser (str "done") = Ok (new_BashParser, false) ∧
  bash_line new_BashParser (str "done # loop") = Ok (new_BashParser, true).
Proof. by vm_compute. Qed.
