(* ===== verification/PythonEngine.v ===== *)
(** * The python engine (src/src/engines/python-engine.cc)

    Which lines of a python file are code, and how the records the python helper
    writes to the pipe become events.  Starting the helper is not modelled; the
    pipe is what is still to be read from it. *)
From S2P Require Export BashProofs.
From stdpp Require Import options.

Definition COVERAGE_MAGIC : Z := 0x6d6574616c6c6775.

(** ** Lines of code *)

Definition multilineIdx (s : bytes) : option nat :=
  match str_find [SQ; SQ; SQ] s with
  | Some i => Some i
  | None => str_find [DQ; DQ; DQ] s
  end.

Definition isStringDelimiter (c : ascii) : bool := bool_decide (c = SQ) || bool_decide (c = DQ).

Definition isPythonString (s : bytes) : res bool :=
  if (length s <? 2)%nat then Ok false
  else
    first ← at_ s 0;
    last ← at_ s (length s - 1);
    if negb (isStringDelimiter first) then Ok false
    else if negb (isStringDelimiter last) then Ok false
    (* Only string characters *)
    else Ok (negb (forallb isStringDelimiter s)).

Record PyParser := mkPy {
  py_multiline : bool;            (* state == multiline_active *)
  py_startLine : bool;            (* multiLineStartLine *)
}.
Definition new_PyParser : PyParser := mkPy false false.

(** The body of [parseFile]'s loop: the new state, and whether the line is
    announced. *)
Definition py_line (p : PyParser) (text : bytes) : res (PyParser * bool) :=
  let s := trim_string text trim_default in
  if bool_decide (s = []) then Ok (p, false)
  else
    c ← at_ s 0;
    if bool_decide (c = "#"%char) then Ok (p, false)
    else if bool_decide (s ∈ [str "}"; str "},"]) then Ok (p, false)
    else if bool_decide (s ∈ [str "]"; str "],"]) then Ok (p, false)
    else if bool_decide (s = str "[") then Ok (p, false)
    else if contains (str "else:") s then Ok (p, false)
    else if contains (str "finally:") s then Ok (p, false)
    else
      ps ← isPythonString s;
      if ps : bool then Ok (p, false)
      else
        let idx := multilineIdx s in
        if py_multiline p then
          match idx with
          | None => Ok (p, false)
          | Some _ => Ok (mkPy false false, py_startLine p)
          end
        else
          match idx with
          | None => Ok (p, true)
          | Some idx =>
              s2 ← substr_from s (idx + 3);
              match multilineIdx s2 with
              | Some _ => Ok (p, true)                      (* Ends on the same line *)
              | None => Ok (mkPy true (if (0 <? idx)%nat then true else py_startLine p), false)
              end
          end.

#[global] Instance py_scanner : LineScanner PyParser := {|
  ls_init := new_PyParser; ls_step := py_line |}.

(** ** The pipe *)

(** What the helper has still to deliver, and the stream's end-of-file flag. *)
Record PyPipe := mkPyPipe { pp_data : bytes; pp_eof : bool }.

Definition fread (n : Z) (p : PyPipe) : bytes * PyPipe :=
  let got := take (Z.to_nat (Z.min n (Z.of_nat (length (pp_data p))))) (pp_data p) in
  (got, mkPyPipe (drop (length got) (pp_data p)) (pp_eof p || (Z.of_nat (length got) <? n))).

Definition sizeof_coverage_data : nat := 16.
Definition py_buf_size : Z := 8192.

Record Datum := mkDatum { dt_line : Z; dt_filename : bytes }.

Section engine.
Context (W : World) (e : endian).

(** [readCoverageDatum]; [buf] is what the stack buffer held before.  The rest
    of a record goes behind the header, [remainder] being a [size_t]. *)
Definition readCoverageDatum (buf : bytes) (readable : bool) (p : PyPipe)
    : res (option Datum * PyPipe) :=
  if pp_eof p then Ok (None, p)
  else if negb readable then Ok (None, p)
  else
    let '(hdr, p) := fread (Z.of_nat sizeof_coverage_data) p in
    if (length hdr <? sizeof_coverage_data)%nat then Ok (None, p)
    else
      let magic := be_to_host e 8 (native_val e (take 8 hdr)) in
      let size := be_to_host e 4 (native_val e (take 4 (drop 8 hdr))) in
      let line := be_to_host e 4 (native_val e (drop 12 hdr)) in
      if negb ((magic =? COVERAGE_MAGIC) && (size <? py_buf_size)) then Ok (None, p)
      else
        let remainder := u64 (size - Z.of_nat sizeof_coverage_data) in
        let '(got, p) := fread remainder p in
        if py_buf_size - Z.of_nat sizeof_coverage_data <? Z.of_nat (length got) then Fault
        else if Z.of_nat (length got) <? s64 remainder then Ok (None, p)
        else
          name ← c_str (got ++ drop (sizeof_coverage_data + length got) buf);
          Ok (Some (mkDatum line name), p).

Definition py_parseLines (filename : bytes) (lines : list bytes) (crc : Z) (s : ScriptEngine)
    : res ScriptEngine := scan_file PyParser W filename lines crc s.

Definition py_parseFile (filename : bytes) (s : ScriptEngine) : res ScriptEngine :=
  let '(lines, c) := getLines W filename (se_cache s) in
  let '(crc, c) := getCrc W filename c in
  py_parseLines filename lines crc (se_set_cache c s).

Definition py_report_file (filename : bytes) (s : ScriptEngine) : res ScriptEngine :=
  if bool_decide (filename ∈ se_reportedFiles s) then Ok s
  else py_parseFile filename (se_emit (SFile filename) (se_set_reported filename s)).

Definition py_checkEvents (buf : bytes) (readable : bool) (s : ScriptEngine) (p : PyPipe)
    : res (bool * ScriptEngine * PyPipe) :=
  '(d, p) ← readCoverageDatum buf readable p;
  match d with
  | None => Ok (false, reportEvent true ev_error (-1) 0 s, p)
  | Some d =>
      s ← py_report_file (dt_filename d) s;
      Ok (true, hit_event W (dt_filename d) (dt_line d) s, p)
  end.

(** [continueExecution]; [wait]: the child is gone, with its exit status if it
    exited. *)
Definition py_continueExecution (buf : bytes) (readable : bool) (wait : option (option Z))
    (s : ScriptEngine) (p : PyPipe) : res (bool * ScriptEngine * PyPipe) :=
  '(more, s, p) ← py_checkEvents buf readable s p;
  if more : bool then Ok (true, s, p)
  else
    match wait with
    | None => Ok (true, s, p)
    | Some (Some code) => Ok (false, reportEvent true ev_exit_first_process code 0 s, p)
    | Some None => Ok (false, reportEvent true ev_error (-1) 0 s, p)
    end.

Definition py_matchParser (filename data : bytes) : res Z :=
  s ← buf_read data 0 80;
  py ← has_suffix (str ".py") filename;
  Ok (if py : bool then 200 else if contains (str "python") s then 100 else match_none).
End engine.

(** ** Lemmas *)

Lemma multilineIdx_bound s i : multilineIdx s = Some i → (i + 3 ≤ length s)%nat.
Proof.
  unfold multilineIdx. destruct (str_find [SQ; SQ; SQ] s) eqn:E.
  - intros [= <-]. by apply find_bound in E.
  - by intros ?%find_bound.
Qed.

Lemma isPythonString_ok s : ∃ b, isPythonString s = Ok b.
Proof.
  unfold isPythonString. destruct (Nat.ltb_spec (length s) 2); [by eexists|].
  total_step. total_step. repeat case_match; by eexists.
Qed.

Lemma py_line_ok p text : ∃ r, py_line p text = Ok r.
Proof.
  unfold py_line. cbn zeta. set (s := trim_string text trim_default).
  case_bool_decide; [by eexists|]. total_step.
  do 6 (case_match; [by eexists|]).
  destruct (isPythonString_ok s) as [[] ->]; cbn [mbind res_mbind res_bind]; [by eexists|].
  destruct (py_multiline p), (multilineIdx s) as [i|] eqn:Ei; try by eexists.
  rewrite substr_from_ok by (by apply multilineIdx_bound in Ei; lia).
  cbn [mbind res_mbind res_bind]. destruct (multilineIdx (drop (i + 3) s)); by eexists.
Qed.

#[global] Instance py_total : TotalScanner PyParser.
Proof. intros p text. apply py_line_ok. Qed.

Lemma py_multiline_line p text :
  py_multiline p = true → multilineIdx (trim_string text trim_default) = None →
  py_line p text = Ok (p, false).
Proof.
  intros Hp Hm. unfold py_line. cbn zeta. set (s := trim_string text trim_default) in *.
  case_bool_decide; [done|]. total_step.
  do 6 (case_match; [done|]).
  destruct (isPythonString_ok s) as [[] ->]; cbn [mbind res_mbind res_bind]; [done|].
  by rewrite Hp, Hm.
Qed.

(** What the helper writes for a line. *)
Definition datum_bytes (d : Datum) : bytes :=
  be_bytes 8 COVERAGE_MAGIC ++ be_bytes 4 (Z.of_nat (16 + S (length (dt_filename d)))) ++
  be_bytes 4 (dt_line d) ++ dt_filename d ++ [NUL].

Definition datum_ok (d : Datum) : Prop :=
  0 ≤ dt_line d < 2 ^ 32 ∧ no_nul (dt_filename d) ∧ Z.of_nat (16 + S (length (dt_filename d))) < py_buf_size.

Lemma fread_app n a rest :
  n = Z.of_nat (length a) → fread n (mkPyPipe (a ++ rest) false) = (a, mkPyPipe rest false).
Proof.
  intros ->. unfold fread. cbn [pp_data pp_eof]. rewrite length_app.
  replace (Z.to_nat (Z.min (Z.of_nat (length a)) (Z.of_nat (length a + length rest)))) with (length a) by lia.
  rewrite take_app_length, drop_app_length. by rewrite Z.ltb_irrefl.
Qed.

Lemma be_host_bytes e n v : be_to_host e n (native_val e (be_bytes n v)) = v mod 256 ^ Z.of_nat n.
Proof. rewrite <-(length_be_bytes n v) at 1. by rewrite be_to_host_native, be_val_bytes. Qed.

Lemma readCoverageDatum_ok e buf d rest :
  datum_ok d →
  readCoverageDatum e buf true (mkPyPipe (datum_bytes d ++ rest) false)
  = Ok (Some d, mkPyPipe rest false).
Proof.
  intros (Hl & Hn & Hsz). unfold readCoverageDatum, datum_bytes. cbn [pp_eof negb].
  set (hdr := be_bytes 8 COVERAGE_MAGIC ++ be_bytes 4 (Z.of_nat (16 + S (length (dt_filename d)))) ++
              be_bytes 4 (dt_line d)).
  replace ((be_bytes 8 COVERAGE_MAGIC ++ _) ++ rest) with (hdr ++ (dt_filename d ++ [NUL]) ++ rest)
    by (unfold hdr; by rewrite <-!app_assoc).
  assert (Hhdr : length hdr = 16%nat) by (unfold hdr; by rewrite !length_app, !length_be_bytes).
  rewrite fread_app by (by rewrite Hhdr). rewrite Hhdr. cbn [Nat.ltb Nat.leb sizeof_coverage_data].
  assert (take 8 hdr = be_bytes 8 COVERAGE_MAGIC) as ->.
  { unfold hdr. by rewrite take_app_length' by (by rewrite length_be_bytes). }
  assert (take 4 (drop 8 hdr) = be_bytes 4 (Z.of_nat (16 + S (length (dt_filename d))))) as ->.
  { unfold hdr. rewrite drop_app_length' by (by rewrite length_be_bytes).
    by rewrite take_app_length' by (by rewrite length_be_bytes). }
  assert (drop 12 hdr = be_bytes 4 (dt_line d)) as ->.
  { unfold hdr. rewrite app_assoc. by rewrite drop_app_length' by (by rewrite length_app, !length_be_bytes). }
  rewrite !be_host_bytes. change (256 ^ Z.of_nat 4) with (2 ^ 32).
  rewrite (Z.mod_small (Z.of_nat _)), (Z.mod_small (dt_line d)) by (unfold py_buf_size in *; lia).
  change (COVERAGE_MAGIC mod 256 ^ Z.of_nat 8) with COVERAGE_MAGIC. rewrite Z.eqb_refl.
  rewrite (proj2 (Z.ltb_lt _ _)) by lia. cbn [andb negb].
  rewrite uw_small by (unfold sizeof_coverage_data, py_buf_size in *; lia).
  rewrite fread_app by (rewrite length_app; cbn [length]; unfold sizeof_coverage_data; lia).
  rewrite length_app. cbn [length].
  rewrite (proj2 (Z.ltb_ge _ _)) by (unfold py_buf_size, sizeof_coverage_data in *; lia).
  assert (s64 (Z.of_nat (16 + S (length (dt_filename d))) - Z.of_nat sizeof_coverage_data) =
          Z.of_nat (length (dt_filename d) + 1)) as ->.
  { unfold s64, sizeof_coverage_data. rewrite Z.mod_small by (unfold py_buf_size in *; lia). lia. }
  rewrite Z.ltb_irrefl, <-app_assoc. cbn [app]. rewrite c_str_app by done.
  cbn [mbind res_mbind res_bind]. by destruct d.
Qed.

Lemma py_checkEvents_ok W e buf s d rest :
  datum_ok d →
  py_checkEvents W e buf true s (mkPyPipe (datum_bytes d ++ rest) false) =
  (s ← py_report_file W (dt_filename d) s;
   Ok (true, hit_event W (dt_filename d) (dt_line d) s, mkPyPipe rest false)).
Proof. intros Hd. unfold py_checkEvents. by rewrite readCoverageDatum_ok. Qed.

(** ** Properties *)

(** What a sequence of records means: each file is announced and parsed when it
    is first named, and each record is a hit of its line. *)
Definition py_events (W : World) (ds : list Datum) (s : ScriptEngine) : res ScriptEngine :=
  res_foldl (λ s d, s ← py_report_file W (dt_filename d) s;
                    Ok (hit_event W (dt_filename d) (dt_line d) s)) s ds.

(** C35: the records the helper writes, one after the other, are read back one
    by one on a host of any byte order, whatever the stack buffer held: every
    record becomes one event, and exactly its bytes leave the pipe. *)
Theorem python_stream W e buf ds s rest :
  Forall datum_ok ds →
  res_foldl (λ '(s, p) (_ : Datum), '(_, s, p) ← py_checkEvents W e buf true s p; Ok (s, p))
    (s, mkPyPipe (concat (datum_bytes <$> ds) ++ rest) false) ds
  = (s' ← py_events W ds s; Ok (s', mkPyPipe rest false)).
Proof.
  intros Hds. revert s. induction Hds as [|d ds Hd Hds IH]; intros s; [done|].
  cbn [fmap list_fmap concat res_foldl]. rewrite <-app_assoc, py_checkEvents_ok by done.
  unfold py_events. cbn [res_foldl]. destruct (py_report_file W (dt_filename d) s) as [s1| | |]; try done.
  cbn [mbind res_mbind res_bind]. rewrite IH. done.
Qed.

(** What the python parser finds in a file that is new to it are distinct
    line numbers of the file, each announced once, in order, at its own
    address; parsing the file again announces nothing. *)
Theorem python_parse_announces W filename crc lines s :
  Z.of_nat (length lines) < 2 ^ 32 - 1 →
  (∀ nr, 1 ≤ nr ≤ Z.of_nat (length lines) → se_lineIdToAddress s !! getLineId W filename nr = None) →
  ∃ code s', scan_code new_PyParser 1 lines = Ok code ∧
    py_parseLines W filename lines crc s = Ok s' ∧
    NoDup code ∧ Forall (λ nr, 1 ≤ nr ≤ Z.of_nat (length lines)) code ∧
    se_out s' = se_out s ++
      ((λ nr, SLine (OnLine (w_real_path W filename) nr (line_address crc nr))) <$> code) ∧
    py_parseLines W filename lines crc s' = Ok s'.
Proof. exact (scan_announces (P := PyParser) W filename crc lines s). Qed.

(** The lines of a multi-line string are not code: between the opening
    quotes and the line with the closing ones nothing is announced. *)
Theorem python_multiline_body p nr body rest :
  py_multiline p = true →
  Forall (λ text, multilineIdx (trim_string text trim_default) = None) body →
  scan_code p nr (body ++ rest) = scan_code p (nr + Z.of_nat (length body)) rest.
Proof.
  intros Hp Hbody. revert nr. induction Hbody as [|text body Ht Hbody IH]; intros nr.
  { cbn. by rewrite Z.add_0_r. }
  cbn [app scan_code length ls_step py_scanner]. rewrite py_multiline_line by done.
  cbn [mbind res_mbind res_bind]. rewrite IH.
  replace (nr + 1 + Z.of_nat (length body)) with (nr + Z.of_nat (S (length body))) by lia.
  by destruct (scan_code p _ rest).
Qed.

(** ** Concrete files and pipes *)

#[local] Definition demo_datum : Datum := mkDatum 2 (str "/a.py").

Lemma python_stream_witness :
  let W := one_file_world (str "/a.py") (str "x = 1") in
  let pipe := datum_bytes demo_datum ++ datum_bytes demo_datum in
  res_foldl (λ '(s, p) (_ : Datum), '(_, s, p) ← py_checkEvents W LittleEndian (zeros 8192) true s p; Ok (s, p))
    (new_ScriptEngine, mkPyPipe (pipe ++ []) false) [demo_datum; demo_datum]
  = (s' ← py_events W [demo_datum; demo_datum] new_ScriptEngine; Ok (s', mkPyPipe [] false)).
Proof.
  cbn zeta. replace (datum_bytes demo_datum ++ datum_bytes demo_datum)
    with (concat (datum_bytes <$> [demo_datum; demo_datum])) by reflexivity.
  apply (python_stream (one_file_world (str "/a.py") (str "x = 1")) LittleEndian (zeros 8192)
           [demo_datum; demo_datum] new_ScriptEngine []).
  repeat constructor; try (apply (bool_decide_unpack _); vm_compute; exact I).
Defined.

Lemma python_parse_announces_witness :
  ∃ s', py_parseLines (one_file_world (str "/a.py") []) (str "/a.py")
          [str "def f():"; str "  'doc'"; str "  a = '''x"; str "  y"; str "  '''"; str "else:"; str "f()"]
          7 new_ScriptEngine = Ok s' ∧ length (se_out s') = 3%nat.
Proof.
  destruct (python_parse_announces (one_file_world (str "/a.py") []) (str "/a.py") 7
    [str "def f():"; str "  'doc'"; str "  a = '''x"; str "  y"; str "  '''"; str "else:"; str "f()"]
    new_ScriptEngine) as (code & s' & Hc & Hp & _ & _ & Ho & _).
  - vm_compute. reflexivity.
  - intros nr _. reflexivity.
  - exists s'. split; [exact Hp|]. rewrite Ho. vm_compute in Hc. by injection Hc as <-.
Defined.

Lemma python_multiline_body_witness :
  scan_code (mkPy true false) 4 ([str "x = 1"; str "import y"] ++ [str "'''"])
  = scan_code (mkPy true false) 6 [str "'''"].
Proof.
  apply (python_multiline_body (mkPy true false) 4); [reflexivity|].
  repeat constructor; vm_compute; reflexivity.
Defined.

(** A record whose size is smaller than its header makes the reader ask for
    a remainder of nearly 2^64 bytes: it swallows the records behind it, and
    overruns its 8192-byte buffer when more than that is in the pipe. *)
Theorem python_small_record :
  let bad := be_bytes 8 COVERAGE_MAGIC ++ be_bytes 4 0 ++ be_bytes 4 1 in
  readCoverageDatum LittleEndian (zeros 8192) true (mkPyPipe (bad ++ datum_bytes demo_datum) false)
  = Ok (Some (mkDatum 1 (str "metallgu")), mkPyPipe [] true) ∧
  readCoverageDatum LittleEndian (zeros 8192) true (mkPyPipe (bad ++ zeros 8177) false) = Fault.
Proof. by vm_compute. Qed.
