(* ===== verification/Ptrace.v ===== *)
(** * The ptrace engine (src/src/engines/ptrace.cc, ptrace_linux.cc)

    Breakpoints in a traced process, on every processor kcov is built for.  The
    platform is a type class: [PtraceSys] has the functions of ptrace_sys.hh, of which
    [linux_sys] is the instance for Linux, over the system calls of [PtraceOS];
    [PtraceLaws] is what the engine relies on.  [Ptrace] is the engine's state;
    [registerBreakpoint], [setupAllBreakpoints], [clearBreakpoint], [waitEvent] and
    [continueExecution] its operations.  The theorems say what the process sees:
    its text is as it was but for the traps at registered addresses, and an
    address that trapped has its instruction back. *)
From S2P Require Export Scripts.
From stdpp Require Import options.

(** ** Fields of words *)

(** The [m] bits from [i] on, and their replacement in a word of [N] bits. *)
Definition field (m i w : Z) : Z := Z.land (Z.shiftr w i) (Z.ones m).
Definition patch (N mask i w v : Z) : Z :=
  Z.lor (Z.land w (uw N (Z.lnot (Z.shiftl mask i)))) (uw N (Z.shiftl v i)).

Lemma field_range m i w : 0 ≤ m → 0 ≤ field m i w < 2 ^ m.
Proof. intros Hm. unfold field. rewrite Z.land_ones by lia. apply Z.mod_pos_bound. lia. Qed.

Lemma field_testbit m i w n : 0 ≤ i → 0 ≤ m → 0 ≤ n →
  Z.testbit (field m i w) n = Z.testbit w (n + i) && (n <? m).
Proof.
  intros. unfold field. rewrite Z.land_spec, Z.shiftr_spec by lia. f_equal. destruct (Z.ltb_spec n m).
  - by rewrite Z.ones_spec_low by lia.
  - by rewrite Z.ones_spec_high by lia.
Qed.

Lemma testbit_small v m n : 0 ≤ v < 2 ^ m → 0 ≤ m ≤ n → Z.testbit v n = false.
Proof. intros Hv Hm. rewrite <-(Z.mod_small v (2 ^ m)) by lia. apply Z.mod_pow2_bits_high. lia. Qed.

Lemma patch_testbit N m i w v n :
  0 ≤ v < 2 ^ m → 0 ≤ i → 0 ≤ m → i + m ≤ N → 0 ≤ n →
  Z.testbit (patch N (Z.ones m) i w v) n =
    if (i <=? n) && (n <? i + m) then Z.testbit v (n - i) else Z.testbit w n && (n <? N).
Proof.
  intros Hv Hi Hm HN Hn. unfold patch, uw. rewrite Z.lor_spec, Z.land_spec. destruct (Z.ltb_spec n N).
  - rewrite !Z.mod_pow2_bits_low by lia. rewrite Z.lnot_spec, !Z.shiftl_spec by lia.
    destruct (Z.leb_spec i n); cbn [andb].
    + destruct (Z.ltb_spec n (i + m)).
      * rewrite Z.ones_spec_low by lia. by rewrite andb_false_r.
      * rewrite Z.ones_spec_high, (testbit_small v m) by lia. by rewrite orb_false_r.
    + rewrite !(Z.testbit_neg_r _ (n - i)) by lia. by rewrite orb_false_r.
  - rewrite !Z.mod_pow2_bits_high by lia. rewrite !andb_false_r. destruct (Z.ltb_spec n (i + m)); [lia|].
    by rewrite andb_false_r.
Qed.

Lemma patch_range N m i w v :
  0 ≤ v < 2 ^ m → 0 ≤ i → 0 ≤ m → i + m ≤ N → 0 ≤ patch N (Z.ones m) i w v < 2 ^ N.
Proof.
  intros. assert (patch N (Z.ones m) i w v = uw N (patch N (Z.ones m) i w v)) as ->;
    [|apply Z.mod_pos_bound; lia].
  apply Z.bits_inj'. intros n Hn. unfold uw. destruct (Z.lt_ge_cases n N).
  - by rewrite Z.mod_pow2_bits_low by lia.
  - rewrite Z.mod_pow2_bits_high, patch_testbit by lia.
    destruct (Z.ltb_spec n (i + m)); [lia|]. rewrite andb_false_r. destruct (Z.ltb_spec n N); [lia|].
    apply andb_false_r.
Qed.

(** Replacing a field gives it its value and leaves those that do not overlap. *)
Lemma field_patch N m i j w v :
  0 ≤ v < 2 ^ m → 0 ≤ m → 0 ≤ i → i + m ≤ N → 0 ≤ j → j + m ≤ N → i = j ∨ i + m ≤ j ∨ j + m ≤ i →
  field m j (patch N (Z.ones m) i w v) = if j =? i then v else field m j w.
Proof.
  intros Hv Hm Hi HiN Hj HjN Hd. apply Z.bits_inj'. intros n Hn.
  rewrite field_testbit, patch_testbit by lia. destruct (Z.eqb_spec j i) as [->|Hne].
  - destruct (Z.ltb_spec n m).
    + replace (i <=? n + i) with true by lia. replace (n + i <? i + m) with true by lia. cbn [andb].
      rewrite andb_true_r. f_equal. lia.
    + rewrite andb_false_r. symmetry. apply (testbit_small v m); lia.
  - rewrite field_testbit by lia. destruct (Z.ltb_spec n m); [|by rewrite !andb_false_r].
    rewrite !andb_true_r. replace (n + j <? N) with true by lia. rewrite andb_true_r.
    destruct (Z.leb_spec i (n + j)), (Z.ltb_spec (n + j) (i + m)); cbn [andb]; (done || lia).
Qed.

Lemma field_whole m w : 0 ≤ m → 0 ≤ w < 2 ^ m → field m 0 w = w.
Proof. intros. unfold field. rewrite Z.shiftr_0_r, Z.land_ones by lia. by apply Z.mod_small. Qed.

Lemma patch_whole m w v : 0 ≤ m → 0 ≤ v < 2 ^ m → patch m (Z.ones m) 0 w v = v.
Proof.
  intros Hm Hv. apply Z.bits_inj'. intros n Hn. rewrite patch_testbit by lia.
  replace (0 <=? n) with true by lia. cbn [andb]. destruct (Z.ltb_spec n (0 + m)); [by rewrite Z.sub_0_r|].
  destruct (Z.ltb_spec n m); [lia|]. rewrite andb_false_r. symmetry. apply (testbit_small v m); lia.
Qed.

(** ** Processors *)

Inductive Cpu :=
  | cpu_i386 | cpu_x86_64 | cpu_ppc | cpu_ppc64 | cpu_ppc64le | cpu_arm | cpu_aarch64
  | cpu_riscv32 | cpu_riscv64 | cpu_loongarch64 | cpu_sparc64.
#[global] Instance Cpu_eq_dec : EqDecision Cpu.
Proof. solve_decision. Defined.

Definition is_x86 (c : Cpu) : bool := match c with cpu_i386 | cpu_x86_64 => true | _ => false end.
(** sizeof(unsigned long) *)
Definition word_bytes (c : Cpu) : Z :=
  match c with cpu_i386 | cpu_ppc | cpu_arm | cpu_riscv32 => 4 | _ => 8 end.
Definition word_bits (c : Cpu) : Z := 8 * word_bytes c.

(** ** Trap instructions (ptrace.cc) *)

Definition getAligned (c : Cpu) (addr : Z) : Z := addr / word_bytes c * word_bytes c.

Definition arch_setupBreakpoint (c : Cpu) (addr old_data : Z) : Z :=
  let aligned_addr := getAligned c addr in
  let offs := addr - aligned_addr in
  let shift := 8 * offs in
  match c with
  | cpu_i386 | cpu_x86_64 => patch (word_bits c) 0xff shift old_data 0xcc
  | cpu_ppc | cpu_ppc64 | cpu_ppc64le => 0x7fe00008
  | cpu_arm => 0xfedeffe7
  | cpu_aarch64 => patch (word_bits c) 0xffffffff shift old_data 0xd4200000
  | cpu_riscv32 | cpu_riscv64 => 0x00100073
  | cpu_loongarch64 => patch (word_bits c) 0xffffffff shift old_data 0x002a0004
  | cpu_sparc64 => patch (word_bits c) 0xffffffff shift old_data 0x91d02001
  end.

Definition arch_clearBreakpoint (c : Cpu) (addr old_data cur_data : Z) : Z :=
  if is_x86 c then
    let aligned_addr := getAligned c addr in
    let offs := addr - aligned_addr in
    let shift := 8 * offs in
    let old_byte := Z.land (Z.shiftr old_data shift) 0xff in
    patch (word_bits c) 0xff shift cur_data old_byte
  else old_data.

(** ** The platform (include/ptrace_sys.hh) *)

Class PtraceSys (K : Type) := {
  sys_cpu : Cpu;
  sys_SIGSTOP : Z;
  sys_sigill : Z;                              (* the signal of an undefined trap *)
  peekWord : K → Z → Z → Z;
  pokeWord : K → Z → Z → Z → K;
  getPc : K → Z → Z;
  singleStep : K → Z → K;
  skipInstruction : K → Z → K;
  getEvent : K → Z → Z → Z;
  eventIsForky : Z → Z → bool;
  eventIsNewChild : Z → Z → bool;
  follow_child : K → Z → K;
  cont : K → Z → Z → Z * K;
  wait_all : K → (Z * Z) * K;
}.

(** The status word of [waitpid] (bits/waitstatus.h). *)
Definition WIFSTOPPED (status : Z) : bool := Z.land status 0xff =? 0x7f.
Definition WSTOPSIG (status : Z) : Z := Z.land (Z.shiftr status 8) 0xff.
Definition WTERMSIG (status : Z) : Z := Z.land status 0x7f.
Definition WIFEXITED (status : Z) : bool := WTERMSIG status =? 0.
Definition WIFSIGNALED (status : Z) : bool :=
  negb (WTERMSIG status =? 0) && negb (WTERMSIG status =? 0x7f).
Definition WEXITSTATUS (status : Z) : Z := Z.land (Z.shiftr status 8) 0xff.
Definition SIGTRAP : Z := 5.

(** ** Linux (ptrace_linux.cc) *)

(** [ptrace(2)] and [waitpid(2)] over the state [K] of the kernel and the
    tracees; [getregs_pc] and [setregs_pc] are the slot of the program counter in
    what [PTRACE_GETREGS] gives and [PTRACE_SETREGS] takes. *)
Class PtraceOS (K : Type) := {
  ptrace_peektext : K → Z → Z → Z;
  ptrace_poketext : K → Z → Z → Z → K;
  getregs_pc : K → Z → Z;
  setregs_pc : K → Z → Z → K;
  ptrace_cont : K → Z → Z → Z * K;
  waitpid_all : K → (Z * Z) * K;
}.

(** signal.h *)
Definition SIGILL : Z := 4.
Definition SIGSTOP : Z := 19.
Definition SIGSYS : Z := 31.

Section linux.
Context (c : Cpu) {K : Type} `{!PtraceOS K}.

Definition linux_peekWord (k : K) (pid aligned_addr : Z) : Z := ptrace_peektext k pid aligned_addr.
Definition linux_pokeWord (k : K) (pid aligned_addr value : Z) : K :=
  ptrace_poketext k pid aligned_addr value.
Definition linux_cont (k : K) (pid signal : Z) : Z * K := ptrace_cont k pid signal.
Definition linux_wait_all (k : K) : (Z * Z) * K := waitpid_all k.
Definition linux_follow_child (k : K) (pid : Z) : K := k.

Definition arch_getPcFromRegs (pc : Z) : Z := if is_x86 c then uw (word_bits c) (pc - 1) else pc.
Definition arch_adjustPcAfterBreakpoint (pc : Z) : Z := if is_x86 c then uw (word_bits c) (pc - 1) else pc.

Definition linux_getPc (k : K) (pid : Z) : Z := arch_getPcFromRegs (getregs_pc k pid).

(** Despite its name it only steps the program counter back over the trap. *)
Definition linux_singleStep (k : K) (pid : Z) : K :=
  setregs_pc k pid (arch_adjustPcAfterBreakpoint (getregs_pc k pid)).

(** The processors that have to be moved over a trap; SPARC and RISC-V are not among
    them. *)
Definition linux_skipInstruction (k : K) (pid : Z) : K :=
  match c with
  | cpu_ppc | cpu_ppc64 | cpu_ppc64le | cpu_arm | cpu_aarch64 | cpu_loongarch64 =>
      setregs_pc k pid (uw (word_bits c) (getregs_pc k pid + 4))
  | _ => k
  end.

Definition linux_getEvent (status : Z) : Z := Z.shiftr status 16.

(** PTRACE_EVENT_FORK, PTRACE_EVENT_VFORK and PTRACE_EVENT_CLONE *)
Definition linux_eventIsForky (signal event : Z) : bool :=
  (signal =? SIGTRAP) && ((event =? 3) || (event =? 1) || (event =? 2)).
Definition linux_eventIsNewChild (signal event : Z) : bool := false.

#[local] Instance linux_sys : PtraceSys K := {|
  sys_cpu := c;
  sys_SIGSTOP := SIGSTOP;
  sys_sigill := match c with cpu_arm | cpu_aarch64 => SIGILL | _ => SIGSYS end;
  peekWord := linux_peekWord;
  pokeWord := linux_pokeWord;
  getPc := linux_getPc;
  singleStep := linux_singleStep;
  skipInstruction := linux_skipInstruction;
  getEvent _ _ := linux_getEvent;
  eventIsForky := linux_eventIsForky;
  eventIsNewChild := linux_eventIsNewChild;
  follow_child := linux_follow_child;
  cont := linux_cont;
  wait_all := linux_wait_all;
|}.
End linux.

(** ** The engine *)

(** What the engine calls, in order: its listener's [onEvent], the wait for the
    library data, and [kill(2)]. *)
Inductive PtraceCall :=
  | PtEvent (ev : EngineEvent)
  | PtBlockUntilSolibDataRead
  | PtKill (pid signal : Z).

Record Ptrace := mkPtrace {
  m_instructionMap : gmap Z Z;
  m_pendingBreakpoints : list Z;
  m_firstBreakpoint : bool;
  m_activeChild : Z;
  m_firstChild : Z;
  m_children : gmap Z Z;
  m_signal : Z;
  m_lastSignalAddress : Z;
  m_calls : list PtraceCall;
}.

Definition new_Ptrace : Ptrace := mkPtrace ∅ [] true 0 0 ∅ 0 0 [].

Definition pt_set_map (m : gmap Z Z) (s : Ptrace) : Ptrace :=
  mkPtrace m (m_pendingBreakpoints s) (m_firstBreakpoint s) (m_activeChild s)
    (m_firstChild s) (m_children s) (m_signal s) (m_lastSignalAddress s) (m_calls s).
Definition pt_set_pending (l : list Z) (s : Ptrace) : Ptrace :=
  mkPtrace (m_instructionMap s) l (m_firstBreakpoint s) (m_activeChild s)
    (m_firstChild s) (m_children s) (m_signal s) (m_lastSignalAddress s) (m_calls s).
Definition pt_set_first (b : bool) (s : Ptrace) : Ptrace :=
  mkPtrace (m_instructionMap s) (m_pendingBreakpoints s) b (m_activeChild s)
    (m_firstChild s) (m_children s) (m_signal s) (m_lastSignalAddress s) (m_calls s).
Definition pt_set_active (pid : Z) (s : Ptrace) : Ptrace :=
  mkPtrace (m_instructionMap s) (m_pendingBreakpoints s) (m_firstBreakpoint s) pid
    (m_firstChild s) (m_children s) (m_signal s) (m_lastSignalAddress s) (m_calls s).
Definition pt_set_firstChild (pid : Z) (s : Ptrace) : Ptrace :=
  mkPtrace (m_instructionMap s) (m_pendingBreakpoints s) (m_firstBreakpoint s) (m_activeChild s)
    pid (m_children s) (m_signal s) (m_lastSignalAddress s) (m_calls s).
Definition pt_set_children (m : gmap Z Z) (s : Ptrace) : Ptrace :=
  mkPtrace (m_instructionMap s) (m_pendingBreakpoints s) (m_firstBreakpoint s) (m_activeChild s)
    (m_firstChild s) m (m_signal s) (m_lastSignalAddress s) (m_calls s).
Definition pt_set_signal (sig : Z) (s : Ptrace) : Ptrace :=
  mkPtrace (m_instructionMap s) (m_pendingBreakpoints s) (m_firstBreakpoint s) (m_activeChild s)
    (m_firstChild s) (m_children s) sig (m_lastSignalAddress s) (m_calls s).
Definition pt_set_lastSignalAddress (addr : Z) (s : Ptrace) : Ptrace :=
  mkPtrace (m_instructionMap s) (m_pendingBreakpoints s) (m_firstBreakpoint s) (m_activeChild s)
    (m_firstChild s) (m_children s) (m_signal s) addr (m_calls s).
Definition pt_call (c : PtraceCall) (s : Ptrace) : Ptrace :=
  mkPtrace (m_instructionMap s) (m_pendingBreakpoints s) (m_firstBreakpoint s) (m_activeChild s)
    (m_firstChild s) (m_children s) (m_signal s) (m_lastSignalAddress s) (m_calls s ++ [c]).

Section engine.
Context {K : Type} `{!PtraceSys K}.

(** The state after [forkChild] or [attachPid] has its stopped child. *)
Definition started (pid : Z) (s : Ptrace) : Ptrace :=
  pt_set_firstChild pid (pt_set_active pid s).

Definition registerBreakpoint (addr : Z) (k : K) (s : Ptrace) : Z * Ptrace :=
  if addr =? 0 then (-1, s)
  else match m_instructionMap s !! addr with
  | Some _ => (0, s)
  | None =>
      let data := peekWord k (m_activeChild s) (getAligned sys_cpu addr) in
      let s := pt_set_map (<[addr := data]> (m_instructionMap s)) s in
      (0, pt_set_pending (m_pendingBreakpoints s ++ [addr]) s)
  end.

Definition clearBreakpoint (addr : Z) (k : K) (s : Ptrace) : bool * K :=
  match m_instructionMap s !! addr with
  | None => (false, k)
  | Some val =>
      let val := arch_clearBreakpoint sys_cpu addr val (peekWord k (m_activeChild s) (getAligned sys_cpu addr)) in
      (true, pokeWord k (m_activeChild s) (getAligned sys_cpu addr) val)
  end.

Definition setup_one (pid : Z) (k : K) (addr : Z) : K :=
  let cur_data := peekWord k pid (getAligned sys_cpu addr) in
  pokeWord k pid (getAligned sys_cpu addr) (arch_setupBreakpoint sys_cpu addr cur_data).

Definition setupAllBreakpoints (k : K) (s : Ptrace) : K * Ptrace :=
  (foldl (setup_one (m_activeChild s)) k (m_pendingBreakpoints s), pt_set_pending [] s).

Definition childrenLeft (s : Ptrace) : bool :=
  (0 <? Z.of_nat (size (m_children s))) && bool_decide (is_Some (m_children s !! m_firstChild s)).

(** The three cases of a status, after [m_activeChild] and the address are set. *)
Definition wait_stopped (who status addr : Z) (k : K) (s : Ptrace) : EngineEvent * (K * Ptrace) :=
  let sig := WSTOPSIG status in
  let event := getEvent k who status in
  if eventIsNewChild sig event then
    (mkEvent ev_signal 0 addr, (follow_child k who, pt_set_lastSignalAddress addr s))
  else if eventIsForky sig event then
    (mkEvent ev_signal 0 addr, (k, pt_set_lastSignalAddress addr s))
  else if (sig =? SIGTRAP) || (sig =? sys_SIGSTOP) || (sig =? sys_sigill) then
    let insnFound := bool_decide (is_Some (m_instructionMap s !! addr)) in
    let k := if insnFound then singleStep k who
             else if negb (sig =? sys_SIGSTOP) then skipInstruction k who else k in
    let s := if m_firstBreakpoint s && insnFound
             then pt_set_first false (pt_call PtBlockUntilSolibDataRead s) else s in
    (mkEvent ev_breakpoint (-1) addr, (k, s))
  else (mkEvent ev_signal sig addr, (k, pt_set_lastSignalAddress addr s)).

Definition wait_signaled (who status : Z) (k : K) (s : Ptrace) : EngineEvent * (K * Ptrace) :=
  let sig := WTERMSIG status in
  let s := pt_set_children (delete who (m_children s)) s in
  (mkEvent (if childrenLeft s then ev_signal else ev_signal_exit) sig (m_lastSignalAddress s),
    (k, s)).

Definition wait_exited (who status addr : Z) (k : K) (s : Ptrace) : EngineEvent * (K * Ptrace) :=
  let s := pt_set_children (delete who (m_children s)) s in
  (mkEvent (if who =? m_firstChild s then ev_exit_first_process else ev_exit)
     (WEXITSTATUS status) addr, (k, s)).

Definition waitEvent (k : K) (s : Ptrace) : EngineEvent * (K * Ptrace) :=
  let '((who, status), k) := wait_all k in
  if who =? -1 then (mkEvent ev_error (-1) 0, (k, s))
  else
    let s := pt_set_active who (pt_set_children (<[who := 1]> (m_children s)) s) in
    let addr := getPc k who in
    if WIFSTOPPED status then wait_stopped who status addr k s
    else if WIFSIGNALED status then wait_signaled who status k s
    else if WIFEXITED status then wait_exited who status addr k s
    else (mkEvent ev_error (-1) addr, (k, s)).

(** [continueExecution]: whether to go on, the kernel and the engine. *)
Definition continueExecution (k : K) (s : Ptrace) : bool * (K * Ptrace) :=
  let '(k, s) := setupAllBreakpoints k s in
  let '(res, k) := cont k (m_activeChild s) (m_signal s) in
  let s := if res <? 0 then pt_set_children (delete (m_activeChild s) (m_children s)) s else s in
  let '(ev, (k, s)) := waitEvent k s in
  let s := pt_set_signal (if bool_decide (ev_type ev = ev_signal) then ev_data ev else 0) s in
  let s := pt_call (PtEvent ev) s in
  let k := if bool_decide (ev_type ev = ev_breakpoint) then (clearBreakpoint (ev_addr ev) k s).2 else k in
  (negb (bool_decide (ev_type ev = ev_error)), (k, s)).

Definition Ptrace_kill (signal : Z) (s : Ptrace) : Ptrace :=
  if m_activeChild s =? 0 then s else pt_call (PtKill (m_activeChild s) signal) s.
End engine.

(** [PtraceEngineCreator::matchFile] *)
Definition ptrace_matchFile (data : bytes) : res Z :=
  ident ← buf_read data 0 4;
  Ok (if bool_decide (ident = byte_of 0x7f :: str "ELF") then match_perfect else 1).

(** ** Instructions in a word *)

(** What a trap replaces: a byte, or an instruction of four bytes. *)
Definition unit_bytes (c : Cpu) : Z := if is_x86 c then 1 else 4.
Definition unit_bits (c : Cpu) : Z := 8 * unit_bytes c.
Definition trap_of (c : Cpu) : Z :=
  match c with
  | cpu_i386 | cpu_x86_64 => 0xcc
  | cpu_ppc | cpu_ppc64 | cpu_ppc64le => 0x7fe00008
  | cpu_arm => 0xfedeffe7
  | cpu_aarch64 => 0xd4200000
  | cpu_riscv32 | cpu_riscv64 => 0x00100073
  | cpu_loongarch64 => 0x002a0004
  | cpu_sparc64 => 0x91d02001
  end.

(** Where memory has the bytes at an address in the word that [PTRACE_PEEKTEXT] gives. *)
Definition big_endian (c : Cpu) : bool := match c with cpu_ppc | cpu_ppc64 | cpu_sparc64 => true | _ => false end.
Definition mem_shift (c : Cpu) (a : Z) : Z :=
  let offs := a - getAligned c a in
  if big_endian c then word_bits c - unit_bits c - 8 * offs else 8 * offs.

(** The instruction (on x86: its byte) a word has at an address. *)
Definition unit_at (c : Cpu) (w a : Z) : Z := field (unit_bits c) (mem_shift c a) w.

(** Instructions are aligned but on x86. *)
Definition insn_at (c : Cpu) (a : Z) : Prop := is_x86 c = true ∨ a mod 4 = 0.

(** The processors on which the trap is put where it belongs, and those on which
    clearing it changes nothing else: see [trap_misplaced] and [neighbour_lost]
    for the others. *)
Definition placed_traps (c : Cpu) : bool :=
  match c with cpu_ppc64 | cpu_ppc64le | cpu_riscv64 | cpu_sparc64 => false | _ => true end.
Definition own_traps (c : Cpu) : bool := is_x86 c || (word_bytes c =? 4).

Lemma word_bytes_cases c : word_bytes c = 4 ∨ word_bytes c = 8.
Proof. destruct c; auto. Qed.

Lemma getAligned_offs c addr : 0 ≤ addr - getAligned c addr < word_bytes c.
Proof.
  unfold getAligned. pose proof (word_bytes_cases c). set (n := word_bytes c) in *.
  pose proof (Z.div_mod addr n). pose proof (Z.mod_pos_bound addr n). nia.
Qed.

Lemma getAligned_idem c a : getAligned c (getAligned c a) = getAligned c a.
Proof. unfold getAligned. pose proof (word_bytes_cases c). by rewrite Z.div_mul by lia. Qed.

(** The places of instructions in a word lie in it, and two of them do not overlap. *)
Lemma insn_offs c a : insn_at c a →
  is_x86 c = true ∨ (a - getAligned c a) = 0 ∨ (word_bytes c = 8 ∧ a - getAligned c a = 4).
Proof.
  intros [?|Ha]; [by left|]. pose proof (getAligned_offs c a) as Ho. right.
  assert (a - getAligned c a = a mod word_bytes c) as E.
  { unfold getAligned. pose proof (word_bytes_cases c). rewrite Z.mod_eq by lia. lia. }
  rewrite E in *. clear E. destruct (word_bytes_cases c) as [W|W]; rewrite W in *; [left; lia|].
  pose proof (Znumtheory.Zmod_div_mod 4 8 a ltac:(lia) ltac:(lia) ltac:(by exists 2)) as E.
  rewrite Ha in E. pose proof (Z.div_mod (a mod 8) 4). lia.
Qed.

Lemma mem_shift_ok c a : insn_at c a → 0 ≤ mem_shift c a ∧ mem_shift c a + unit_bits c ≤ word_bits c.
Proof.
  intros Ha. pose proof (getAligned_offs c a) as Ho. pose proof (word_bytes_cases c) as Hw.
  unfold mem_shift, word_bits, unit_bits, unit_bytes.
  destruct (insn_offs c a Ha) as [Hx | [Hz | [W Hz]]].
  - rewrite Hx. destruct (big_endian c); lia.
  - destruct (big_endian c), (is_x86 c); lia.
  - destruct (big_endian c), (is_x86 c); lia.
Qed.

Lemma mem_shift_apart c a b : insn_at c a → insn_at c b → getAligned c a = getAligned c b → a ≠ b →
  mem_shift c a + unit_bits c ≤ mem_shift c b ∨ mem_shift c b + unit_bits c ≤ mem_shift c a.
Proof.
  intros Ha Hb E Hne. pose proof (getAligned_offs c a). pose proof (getAligned_offs c b).
  unfold mem_shift, word_bits, unit_bits, unit_bytes.
  destruct (is_x86 c) eqn:Hx.
  - destruct (big_endian c); lia.
  - destruct (insn_offs c a Ha) as [? | [? | [W ?]]]; [congruence|..];
      (destruct (insn_offs c b Hb) as [? | [? | [W' ?]]]; [congruence|..]); destruct (big_endian c); lia.
Qed.

Lemma unit_at_range c w a : 0 ≤ unit_at c w a < 2 ^ unit_bits c.
Proof. apply field_range. unfold unit_bits, unit_bytes. destruct (is_x86 c); lia. Qed.

Lemma unit_patch c w v a b :
  0 ≤ v < 2 ^ unit_bits c → insn_at c a → insn_at c b → getAligned c a = getAligned c b →
  unit_at c (patch (word_bits c) (Z.ones (unit_bits c)) (mem_shift c a) w v) b =
    if b =? a then v else unit_at c w b.
Proof.
  intros Hv Ha Hb E. unfold unit_at. pose proof (mem_shift_ok c a Ha). pose proof (mem_shift_ok c b Hb).
  assert (0 ≤ unit_bits c) by (unfold unit_bits, unit_bytes; destruct (is_x86 c); lia).
  rewrite field_patch; [|lia..|].
  - destruct (Z.eqb_spec b a) as [->|Hne]; [by rewrite Z.eqb_refl|].
    destruct (Z.eqb_spec (mem_shift c b) (mem_shift c a)); [|done].
    destruct (mem_shift_apart c a b Ha Hb E) as [?|?]; [done|..];
      unfold unit_bits, unit_bytes in *; destruct (is_x86 c); lia.
  - destruct (decide (a = b)) as [->|Hne]; [by left|]. right. by apply mem_shift_apart.
Qed.

Lemma unit_word c w a : word_bytes c = 4 → is_x86 c = false → insn_at c a → 0 ≤ w < 2 ^ 32 → unit_at c w a = w.
Proof.
  intros W Hx Ha Hw. unfold unit_at, mem_shift, unit_bits, unit_bytes, word_bits. rewrite W, Hx.
  destruct (insn_offs c a Ha) as [? | [-> | [? ?]]]; [congruence| |lia].
  by destruct (big_endian c); apply field_whole.
Qed.

(** Setting a trap puts it where it belongs and nowhere else. *)
Lemma setup_unit c a b w :
  placed_traps c = true → 0 ≤ w < 2 ^ word_bits c → insn_at c a → insn_at c b →
  getAligned c a = getAligned c b →
  0 ≤ arch_setupBreakpoint c a w < 2 ^ word_bits c ∧
  unit_at c (arch_setupBreakpoint c a w) b = if b =? a then trap_of c else unit_at c w b.
Proof.
  intros Hp Hw Ha Hb E.
  assert (0 ≤ trap_of c < 2 ^ unit_bits c) as Ht by by destruct c.
  pose proof (mem_shift_ok c a Ha).
  assert (arch_setupBreakpoint c a w = patch (word_bits c) (Z.ones (unit_bits c)) (mem_shift c a) w (trap_of c)
          ∨ (word_bytes c = 4 ∧ is_x86 c = false ∧ arch_setupBreakpoint c a w = trap_of c)) as [-> | (W & Hx & ->)].
  { destruct c; try done; try (by left); right; done. }
  - split; [apply patch_range; [done|lia|by destruct c|lia]|by apply unit_patch].
  - assert (a = b) as <-.
    { destruct (insn_offs c a Ha) as [?|[?|[? ?]]]; [congruence| |lia].
      destruct (insn_offs c b Hb) as [?|[?|[? ?]]]; [congruence| |lia]. lia. }
    rewrite Z.eqb_refl. unfold word_bits. rewrite W. unfold unit_bits, unit_bytes in Ht. rewrite Hx in Ht.
    split; [done|]. by apply unit_word.
Qed.

(** Clearing one brings the saved instruction back; all of the saved word where it
    is a word that is written. *)
Lemma clear_unit c a b old cur :
  0 ≤ old < 2 ^ word_bits c → insn_at c a → insn_at c b → getAligned c a = getAligned c b →
  0 ≤ arch_clearBreakpoint c a old cur < 2 ^ word_bits c ∧
  unit_at c (arch_clearBreakpoint c a old cur) b =
    if (b =? a) || negb (is_x86 c) then unit_at c old b else unit_at c cur b.
Proof.
  intros Ho Ha Hb E. unfold arch_clearBreakpoint. destruct (is_x86 c) eqn:Hx.
  - assert (big_endian c = false ∧ unit_bits c = 8) as [He Hu] by by destruct c.
    assert (8 * (a - getAligned c a) = mem_shift c a) as -> by (unfold mem_shift; by rewrite He).
    pose proof (mem_shift_ok c a Ha) as Hs. change 0xff with (Z.ones 8).
    fold (field 8 (mem_shift c a) old). pose proof (unit_at_range c old a) as Hr. unfold unit_at in Hr.
    rewrite Hu in *. split; [apply patch_range; lia|].
    pose proof (unit_patch c cur (field 8 (mem_shift c a) old) a b) as H. rewrite Hu in H.
    rewrite H by done. rewrite orb_false_r. destruct (Z.eqb_spec b a) as [->|]; [|done].
    unfold unit_at. by rewrite Hu.
  - by rewrite orb_true_r.
Qed.

(** The same, when only one instruction is in a word or only the byte is written. *)
Lemma clear_unit_own c a b old cur :
  own_traps c = true → 0 ≤ old < 2 ^ word_bits c → insn_at c a → insn_at c b → getAligned c a = getAligned c b →
  unit_at c (arch_clearBreakpoint c a old cur) b = if b =? a then unit_at c old a else unit_at c cur b.
Proof.
  intros Hown Ho Ha Hb E. destruct (clear_unit c a b old cur Ho Ha Hb E) as [_ ->].
  destruct (Z.eqb_spec b a) as [->|Hne]; [done|]. unfold own_traps in Hown.
  destruct (is_x86 c) eqn:Hx; [done|]. apply Z.eqb_eq in Hown.
  destruct (insn_offs c a Ha) as [?|[?|[? ?]]]; [congruence| |lia].
  destruct (insn_offs c b Hb) as [?|[?|[? ?]]]; [congruence|lia|lia].
Qed.

(** ** What the code relies on *)

(** The processes [shares] are the threads of the traced program; [text] is its
    code as aligned words, [pc] the program counter of a thread.  The functions of
    the platform read and write them, and nothing but a poke changes the code: the
    program does not modify its own. *)
Class PtraceLaws {K : Type} `{!PtraceSys K} (shares : Z → bool) (text : K → Z → Z) (pc : K → Z → Z) := {
  text_range k a : 0 ≤ text k a < 2 ^ word_bits sys_cpu;
  text_peek k pid a : shares pid = true → getAligned sys_cpu a = a → peekWord k pid a = text k a;
  text_poke k pid a v b : shares pid = true → getAligned sys_cpu a = a →
    text (pokeWord k pid a v) b = if b =? a then uw (word_bits sys_cpu) v else text k b;
  text_step k pid b : text (singleStep k pid) b = text k b;
  text_skip k pid b : text (skipInstruction k pid) b = text k b;
  text_follow k pid b : text (follow_child k pid) b = text k b;
  text_cont k pid sig b : text (cont k pid sig).2 b = text k b;
  text_wait k b : text (wait_all k).2 b = text k b;
  pc_step k pid : pc (singleStep k pid) pid = getPc k pid;
  pc_poke k pid a v who : pc (pokeWord k pid a v) who = pc k who;
}.

Section theorems.
Context {K : Type} `{!PtraceSys K} {shares : Z → bool} {text pc : K → Z → Z}
  `{!PtraceLaws shares text pc}.
Notation cpu := (sys_cpu (K:=K)).
Context (Hplaced : placed_traps cpu = true).

(** What the program finds at an address. *)
Definition view (k : K) (a : Z) : Z := unit_at cpu (text k (getAligned cpu a)) a.

Lemma view_poke k pid a v b : shares pid = true → 0 ≤ v < 2 ^ word_bits cpu →
  view (pokeWord k pid (getAligned cpu a) v) b =
    if getAligned cpu b =? getAligned cpu a then unit_at cpu v b else view k b.
Proof using PtraceLaws0.
  intros Hp Hv. unfold view. rewrite text_poke by (done || apply getAligned_idem).
  destruct (Z.eqb_spec (getAligned cpu b) (getAligned cpu a)); [|done]. by rewrite uw_small.
Qed.

Lemma view_setup_one k pid a b : shares pid = true → insn_at cpu a → insn_at cpu b →
  view (setup_one pid k a) b = if b =? a then trap_of cpu else view k b.
Proof using PtraceLaws0 Hplaced.
  intros Hp Ha Hb. unfold setup_one. rewrite text_peek by (done || apply getAligned_idem).
  set (w := text k (getAligned cpu a)).
  destruct (setup_unit cpu a a w Hplaced (text_range k _) Ha Ha eq_refl) as [Hr _].
  rewrite view_poke by done. destruct (Z.eqb_spec (getAligned cpu b) (getAligned cpu a)) as [E|E].
  - destruct (setup_unit cpu a b w Hplaced (text_range k _) Ha Hb ltac:(done)) as [_ ->].
    unfold view, w. by rewrite E.
  - destruct (Z.eqb_spec b a) as [->|]; done.
Qed.

Lemma view_setup pid l b : shares pid = true → insn_at cpu b → Forall (insn_at cpu) l → ∀ k,
  view (foldl (setup_one pid) k l) b = if bool_decide (b ∈ l) then trap_of cpu else view k b.
Proof using PtraceLaws0 Hplaced.
  intros Hp Hb. induction l as [|a l IH]; intros Hl k; cbn; [done|]. apply Forall_cons in Hl as [Ha Hl].
  rewrite IH, view_setup_one by done.
  destruct (decide (b ∈ l)) as [Hin|Hin].
  - rewrite !bool_decide_eq_true_2; [done|by right|done].
  - rewrite (bool_decide_eq_false_2 (b ∈ l)) by done. destruct (Z.eqb_spec b a) as [->|Hne].
    + rewrite bool_decide_eq_true_2; [done|by left].
    + rewrite bool_decide_eq_false_2; [done|]. intros [->|]%elem_of_cons; done.
Qed.

Lemma view_clear k s a b :
  shares (m_activeChild s) = true → insn_at cpu a → insn_at cpu b →
  (∀ w, m_instructionMap s !! a = Some w → 0 ≤ w < 2 ^ word_bits cpu) →
  view (clearBreakpoint a k s).2 b =
    match m_instructionMap s !! a with
    | Some w =>
        if (b =? a) || (negb (is_x86 cpu) && (getAligned cpu b =? getAligned cpu a))
        then unit_at cpu w b else view k b
    | None => view k b
    end.
Proof using PtraceLaws0.
  intros Hp Ha Hb Hw. unfold clearBreakpoint. destruct (m_instructionMap s !! a) as [w|]; [|done].
  specialize (Hw w eq_refl). cbn [snd].
  rewrite text_peek by (done || apply getAligned_idem). set (cur := text k (getAligned cpu a)).
  destruct (clear_unit cpu a a w cur Hw Ha Ha eq_refl) as [Hr _].
  rewrite view_poke by done. destruct (Z.eqb_spec (getAligned cpu b) (getAligned cpu a)) as [E|E].
  - destruct (clear_unit cpu a b w cur Hw Ha Hb ltac:(done)) as [_ ->]. rewrite andb_true_r.
    destruct ((b =? a) || negb (is_x86 cpu)); [done|]. unfold view, cur. by rewrite E.
  - rewrite andb_false_r, orb_false_r. destruct (Z.eqb_spec b a) as [->|]; done.
Qed.

(** The invariant of the engine with respect to the text [orig] of the program. *)
Record engine_ok (orig : Z → Z) (k : K) (s : Ptrace) : Prop := {
  ok_saved a w : m_instructionMap s !! a = Some w → insn_at cpu a ∧ 0 ≤ w < 2 ^ word_bits cpu ∧ unit_at cpu w a = orig a;
  ok_word a w b : m_instructionMap s !! a = Some w → insn_at cpu b → getAligned cpu b = getAligned cpu a →
    unit_at cpu w b = orig b ∨ unit_at cpu w b = trap_of cpu ∧ is_Some (m_instructionMap s !! b);
  ok_view a : insn_at cpu a → view k a = orig a ∨ view k a = trap_of cpu ∧ is_Some (m_instructionMap s !! a);
  ok_pending a : a ∈ m_pendingBreakpoints s → is_Some (m_instructionMap s !! a);
  ok_active : shares (m_activeChild s) = true;
}.

Lemma engine_ok_ext orig k k' s s' :
  (∀ a, view k' a = view k a) → m_instructionMap s' = m_instructionMap s →
  m_pendingBreakpoints s' = m_pendingBreakpoints s → shares (m_activeChild s') = true →
  engine_ok orig k s → engine_ok orig k' s'.
Proof using Type. intros Hv Hm Hp Ha [H1 H2 H3 H4 H5]. split; intros *; rewrite ?Hv, ?Hm, ?Hp; eauto. Qed.

Lemma ok_pending_insn orig k s : engine_ok orig k s → Forall (insn_at cpu) (m_pendingBreakpoints s).
Proof using Type.
  intros Hok. apply Forall_forall. intros a [w Hw]%(ok_pending _ _ _ Hok). by apply (ok_saved _ _ _ Hok a w).
Qed.

Lemma register_ok orig k s a : insn_at cpu a → engine_ok orig k s → engine_ok orig k (registerBreakpoint a k s).2.
Proof using PtraceLaws0.
  intros Ha Hok. unfold registerBreakpoint. destruct (a =? 0); [done|].
  destruct (m_instructionMap s !! a) as [w|] eqn:E; [done|].
  destruct Hok as [H1 H2 H3 H4 H5]. rewrite text_peek by (done || apply getAligned_idem).
  assert (∀ b, is_Some (m_instructionMap s !! b) →
    is_Some (<[a := text k (getAligned cpu a)]> (m_instructionMap s) !! b)) as Hmono
    by (intros b Hb; by apply lookup_insert_is_Some'; right).
  split; cbn; [| | | |done].
  - intros b w [(<- & <-) | (Hne & Hb)]%lookup_insert_Some; [|by apply H1].
    split_and!; [done|apply text_range..|].
    destruct (H3 a Ha) as [H|[_ [? H]]]; [exact H|congruence].
  - intros b w c [(<- & <-) | (Hne & Hb)]%lookup_insert_Some Hc Ec.
    + assert (unit_at cpu (text k (getAligned cpu a)) c = view k c) as -> by (unfold view; by rewrite Ec).
      destruct (H3 c Hc) as [?|[? ?]]; [by left|right; auto].
    + destruct (H2 b w c Hb Hc Ec) as [?|[? ?]]; [by left|right; auto].
  - intros b Hb. destruct (H3 b Hb) as [|[? ?]]; [by left|right; auto].
  - intros b [Hb | ->%list_elem_of_singleton]%elem_of_app; [auto|]. apply lookup_insert_is_Some'. by left.
Qed.

Lemma setup_ok orig k s : engine_ok orig k s →
  engine_ok orig (setupAllBreakpoints k s).1 (setupAllBreakpoints k s).2.
Proof using All.
  intros Hok. pose proof (ok_pending_insn _ _ _ Hok) as Hl. destruct Hok as [H1 H2 H3 H4 H5].
  split; cbn; [done|done| |by intros ? ?%elem_of_nil|done].
  intros a Ha. rewrite view_setup by done. case_bool_decide; [right|by apply H3]. split; [done|].
  by apply H4.
Qed.

Lemma clear_ok orig k s a : engine_ok orig k s → engine_ok orig (clearBreakpoint a k s).2 s.
Proof using PtraceLaws0.
  intros Hok. destruct (m_instructionMap s !! a) as [w|] eqn:E;
    [|unfold clearBreakpoint; by rewrite E].
  destruct (ok_saved _ _ _ Hok a w E) as (Ha & Hw & Hu).
  split; [apply Hok|apply Hok| |apply Hok|apply Hok].
  intros b Hb. rewrite view_clear; [|by apply Hok|done|done|intros w'; congruence].
  rewrite E. destruct (Z.eqb_spec b a) as [->|Hne]; cbn [orb]; [by left|].
  destruct (Z.eqb_spec (getAligned cpu b) (getAligned cpu a)) as [Ew|]; [|rewrite andb_false_r; by apply Hok].
  rewrite andb_true_r. destruct (negb (is_x86 cpu)); [|by apply Hok].
  by apply (ok_word _ _ _ Hok a w b).
Qed.

Lemma view_singleStep k pid a : view (singleStep k pid) a = view k a.
Proof using PtraceLaws0. unfold view. by rewrite text_step. Qed.

Lemma pc_clear k s a who : pc (clearBreakpoint a k s).2 who = pc k who.
Proof using PtraceLaws0.
  unfold clearBreakpoint. destruct (m_instructionMap s !! a); [|done]. apply pc_poke.
Qed.

(** The traced program has threads but no other processes. *)
Context (one_process : ∀ k : K, (wait_all k).1.1 = -1 ∨ shares (wait_all k).1.1 = true).

Lemma waitEvent_frame k s : shares (m_activeChild s) = true →
  let '(_, (k', s')) := waitEvent k s in
  (∀ a, view k' a = view k a) ∧ m_instructionMap s' = m_instructionMap s ∧
  m_pendingBreakpoints s' = m_pendingBreakpoints s ∧ shares (m_activeChild s') = true.
Proof using PtraceLaws0 one_process.
  intros Hs. unfold waitEvent. pose proof (one_process k) as Hw.
  assert (∀ a, view (wait_all k).2 a = view k a) as Ht
    by (intros a; unfold view; by rewrite text_wait).
  destruct (wait_all k) as [[who status] k1]. cbn [fst snd] in *.
  destruct (Z.eqb_spec who (-1)); [done|]. destruct Hw as [|Hw]; [done|].
  destruct (WIFSTOPPED status); [|destruct (WIFSIGNALED status); [|destruct (WIFEXITED status)]];
    [|done..].
  unfold wait_stopped. repeat case_match; simplify_eq; (split; [|done]);
    intros; rewrite <-Ht; unfold view; by rewrite ?text_step, ?text_skip, ?text_follow.
Qed.

(** The state when the process has been continued. *)
Definition continued (k : K) (s : Ptrace) : K * Ptrace :=
  let '(k, s) := setupAllBreakpoints k s in
  let '(res, k) := cont k (m_activeChild s) (m_signal s) in
  (k, if res <? 0 then pt_set_children (delete (m_activeChild s) (m_children s)) s else s).

Lemma continueExecution_eq k s :
  continueExecution k s =
    let '(ev, (k, s)) := waitEvent (continued k s).1 (continued k s).2 in
    let s := pt_set_signal (if bool_decide (ev_type ev = ev_signal) then ev_data ev else 0) s in
    let s := pt_call (PtEvent ev) s in
    (negb (bool_decide (ev_type ev = ev_error)),
      (if bool_decide (ev_type ev = ev_breakpoint) then (clearBreakpoint (ev_addr ev) k s).2 else k, s)).
Proof using Type.
  unfold continueExecution, continued. destruct (setupAllBreakpoints k s) as [k1 s1].
  by destruct (cont k1 (m_activeChild s1) (m_signal s1)) as [res k2].
Qed.

Lemma continued_frame k s :
  (∀ a, view (continued k s).1 a = view (setupAllBreakpoints k s).1 a) ∧
  m_instructionMap (continued k s).2 = m_instructionMap s ∧
  m_pendingBreakpoints (continued k s).2 = [] ∧ m_activeChild (continued k s).2 = m_activeChild s.
Proof using PtraceLaws0.
  unfold continued. cbn. set (k1 := foldl _ _ _).
  assert (∀ a, view (cont k1 (m_activeChild s) (m_signal s)).2 a = view k1 a) as Ht
    by (intros a; unfold view; by rewrite text_cont).
  destruct (cont _ _ _) as [res k2]. cbn. split; [done|]. by destruct (res <? 0).
Qed.

Lemma continueExecution_ok orig k s : engine_ok orig k s →
  engine_ok orig (continueExecution k s).2.1 (continueExecution k s).2.2 ∧
  m_instructionMap (continueExecution k s).2.2 = m_instructionMap s ∧
  m_pendingBreakpoints (continueExecution k s).2.2 = [].
Proof using All.
  intros Hok. rewrite continueExecution_eq.
  destruct (continued_frame k s) as (Hv & Hm & Hp & Ha).
  pose proof (setup_ok _ _ _ Hok) as Hok1. pose proof (ok_active _ _ _ Hok) as Hs.
  pose proof (waitEvent_frame (continued k s).1 (continued k s).2) as Hw. rewrite Ha in Hw.
  destruct (waitEvent _ _) as [ev [k2 s2]]. destruct (Hw Hs) as (Hv2 & Hm2 & Hp2 & Ha2). cbn.
  split; [|by rewrite Hm2, Hp2].
  assert (engine_ok orig k2 s2) as Hok2.
  { eapply engine_ok_ext; [| | |exact Ha2|exact Hok1].
    - intros a. by rewrite Hv2, Hv.
    - by rewrite Hm2, Hm.
    - by rewrite Hp2, Hp. }
  destruct (bool_decide (ev_type ev = ev_breakpoint)).
  - apply clear_ok. by eapply engine_ok_ext, Hok2.
  - by eapply engine_ok_ext, Hok2.
Qed.

(** What the rest of kcov does with the engine. *)
Inductive pt_step : K * Ptrace → K * Ptrace → Prop :=
  | step_register k s addr : insn_at cpu addr → pt_step (k, s) (k, (registerBreakpoint addr k s).2)
  | step_continue k s : pt_step (k, s) (continueExecution k s).2.

Lemma pt_steps_ok orig st st' :
  rtc pt_step st st' → engine_ok orig st.1 st.2 → engine_ok orig st'.1 st'.2.
Proof using All.
  induction 1 as [|? ? ? Hstep _ IH]; [done|]. intros Hok. apply IH.
  destruct Hstep; cbn in *; [by apply register_ok|by apply continueExecution_ok].
Qed.

Lemma started_ok k pid : shares pid = true → engine_ok (view k) k (started pid new_Ptrace).
Proof using Type.
  split; [done|done|by left|by intros ? ?%elem_of_nil|done].
Qed.

(** C21: the traced program is not disturbed.  However breakpoints are
    registered and the process continued, every instruction of its text is the original
    one or the trap at a registered address, also when several addresses share a
    word: on x86 byte by byte, and on the processors with instructions of four
    bytes whose traps are put where they belong. *)
Theorem breakpoints_transparent k pid st a :
  shares pid = true → rtc pt_step (k, started pid new_Ptrace) st → insn_at cpu a →
  view st.1 a = view k a ∨ view st.1 a = trap_of cpu ∧ is_Some (m_instructionMap st.2 !! a).
Proof using All.
  intros Hp Hst Ha. apply (ok_view (view k)); [|done]. eapply pt_steps_ok; [done|]. by apply started_ok.
Qed.

(** *** Where a trap is alone in what is written *)

Section own.
Context (Hown : own_traps cpu = true).

Lemma view_clear_own orig k s a b : engine_ok orig k s → insn_at cpu b →
  view (clearBreakpoint a k s).2 b =
    if bool_decide (is_Some (m_instructionMap s !! a)) && (b =? a) then orig a else view k b.
Proof using Hown PtraceLaws0.
  intros Hok Hb. destruct (m_instructionMap s !! a) as [w|] eqn:E.
  - destruct (ok_saved _ _ _ Hok a w E) as (Ha & Hw & Hu).
    rewrite bool_decide_eq_true_2 by by eexists. cbn [andb].
    rewrite view_clear; [|by apply Hok|done|done|intros w'; congruence]. rewrite E.
    destruct (Z.eqb_spec b a) as [->|Hne]; [done|]. cbn [orb].
    destruct (Z.eqb_spec (getAligned cpu b) (getAligned cpu a)) as [Ew|]; [|by rewrite andb_false_r].
    rewrite andb_true_r. destruct (is_x86 cpu) eqn:Hx; [done|]. exfalso. apply Hne.
    unfold own_traps in Hown. rewrite Hx in Hown. cbn in Hown. apply Z.eqb_eq in Hown.
    destruct (insn_offs cpu a Ha) as [?|[?|[? ?]]]; [congruence| |lia].
    destruct (insn_offs cpu b Hb) as [?|[?|[? ?]]]; [congruence| |lia]. lia.
  - rewrite bool_decide_eq_false_2 by (by intros [? ?]). unfold clearBreakpoint. by rewrite E.
Qed.

(** An address that has been disarmed stays so. *)
Record disarmed (orig : Z → Z) (a : Z) (k : K) (s : Ptrace) : Prop := {
  dis_ok : engine_ok orig k s;
  dis_known : is_Some (m_instructionMap s !! a);
  dis_pending : a ∉ m_pendingBreakpoints s;
  dis_view : view k a = orig a;
}.

Lemma disarmed_step orig a st st' : pt_step st st' → disarmed orig a st.1 st.2 →
  disarmed orig a st'.1 st'.2.
Proof using All.
  intros Hstep [Hok Hk Hp Hv].
  assert (insn_at cpu a) as Ha by (destruct Hk as [w Hw]; by apply (ok_saved _ _ _ Hok a w)).
  destruct Hstep as [k s b Hb|k s]; cbn [fst snd] in *.
  - split; [by apply register_ok| | |done].
    + unfold registerBreakpoint. destruct (b =? 0); [done|].
      destruct (m_instructionMap s !! b); [done|]. cbn. apply lookup_insert_is_Some'; auto.
    + unfold registerBreakpoint. destruct (b =? 0); [done|].
      destruct (m_instructionMap s !! b) eqn:E; [done|]. cbn.
      intros [? | ->%list_elem_of_singleton]%elem_of_app; [done|]. destruct Hk. congruence.
  - destruct (continueExecution_ok _ _ _ Hok) as (Hok' & Hm' & Hp'). split; [done| | |].
    + by rewrite Hm'.
    + rewrite Hp'. by intros ?%elem_of_nil.
    + rewrite continueExecution_eq. destruct (continued_frame k s) as (Hv1 & Hm1 & Hp1 & Ha1).
      pose proof (ok_active _ _ _ Hok) as Hs. pose proof (setup_ok _ _ _ Hok) as Hok1.
      pose proof (waitEvent_frame (continued k s).1 (continued k s).2) as Hw. rewrite Ha1 in Hw.
      destruct (waitEvent _ _) as [ev [k2 s2]]. destruct (Hw Hs) as (Hv2 & Hm2 & Hp2 & Ha2). cbn [fst snd].
      assert (view k2 a = orig a) as E.
      { rewrite Hv2, Hv1. cbn. rewrite view_setup, bool_decide_eq_false_2; [done|done|done|done|].
        by eapply ok_pending_insn. }
      destruct (bool_decide _); [|done].
      set (s3 := pt_call _ _). assert (engine_ok orig k2 s3) as Hok3.
      { eapply engine_ok_ext; [| | | |exact Hok1]; [intros x; by rewrite Hv2, Hv1|by cbn; rewrite Hm2, Hm1|by cbn; rewrite Hp2, Hp1|done]. }
      rewrite (view_clear_own orig) by done. rewrite E. destruct (Z.eqb_spec a (ev_addr ev)) as [<-|];
        [|by rewrite andb_false_r]. rewrite andb_true_r. by case_match.
Qed.

Lemma disarmed_steps orig a st st' : rtc pt_step st st' → disarmed orig a st.1 st.2 →
  disarmed orig a st'.1 st'.2.
Proof using All. induction 1; eauto using disarmed_step. Qed.
End own.

(** A stop at a trap: no event of [ptrace], and the signal of a trap. *)
Definition trap_stop (k : K) (who status : Z) : Prop :=
  WIFSTOPPED status = true ∧ (WSTOPSIG status = SIGTRAP ∨ WSTOPSIG status = sys_sigill) ∧
  eventIsNewChild (WSTOPSIG status) (getEvent k who status) = false ∧
  eventIsForky (WSTOPSIG status) (getEvent k who status) = false.

Lemma waitEvent_trap k s who status k' :
  wait_all k = ((who, status), k') → who ≠ -1 → trap_stop k' who status →
  is_Some (m_instructionMap s !! getPc k' who) →
  ∃ s', waitEvent k s = (mkEvent ev_breakpoint (-1) (getPc k' who), (singleStep k' who, s')) ∧
    m_instructionMap s' = m_instructionMap s ∧ m_activeChild s' = who ∧
    m_pendingBreakpoints s' = m_pendingBreakpoints s ∧
    m_calls s' = m_calls s ++ (if m_firstBreakpoint s then [PtBlockUntilSolibDataRead] else []).
Proof using Type.
  intros Hw Hne (Hst & Hsig & Hnc & Hfk) Hmap. unfold waitEvent. rewrite Hw.
  destruct (Z.eqb_spec who (-1)); [done|].
  rewrite Hst. unfold wait_stopped. rewrite Hnc, Hfk.
  assert ((WSTOPSIG status =? SIGTRAP) || (WSTOPSIG status =? sys_SIGSTOP) || (WSTOPSIG status =? sys_sigill) = true) as ->.
  { destruct Hsig as [-> | ->]; rewrite Z.eqb_refl; [done|]. by rewrite orb_true_r. }
  cbn [m_instructionMap pt_set_active pt_set_children].
  rewrite bool_decide_eq_true_2 by done. rewrite andb_true_r. cbn.
  destruct (m_firstBreakpoint s); cbn; eexists; split_and!; try done. cbn. by rewrite app_nil_r.
Qed.

(** C23: where a trap is alone in what is written, a trap at a registered address is
    reported as a breakpoint at that address; the thread is set back to it and finds
    its original instruction there, every other pending breakpoint has been armed and
    nothing else has changed.  The address never traps again, whatever happens later. *)
Theorem trap_hit k pid k1 s1 who status k3 :
  let k2 := (continued k1 s1).1 in
  let a := getPc k3 who in
  let st := (continueExecution k1 s1).2 in
  own_traps cpu = true →
  shares pid = true → rtc pt_step (k, started pid new_Ptrace) (k1, s1) →
  wait_all k2 = ((who, status), k3) → who ≠ -1 → trap_stop k3 who status →
  is_Some (m_instructionMap s1 !! a) →
  (continueExecution k1 s1).1 = true ∧
  m_calls st.2 = m_calls s1 ++ (if m_firstBreakpoint s1 then [PtBlockUntilSolibDataRead] else [])
                   ++ [PtEvent (mkEvent ev_breakpoint (-1) a)] ∧
  pc st.1 who = a ∧
  (∀ b, insn_at cpu b →
     view st.1 b = if b =? a then view k a
                   else if bool_decide (b ∈ m_pendingBreakpoints s1) then trap_of cpu else view k1 b) ∧
  (∀ st', rtc pt_step st st' → view st'.1 a = view k a).
Proof using All.
  intros k2 a st Hown Hp Hreach Hw Hne Hstop Hmap.
  pose proof (pt_steps_ok _ _ _ Hreach (started_ok k pid Hp)) as Hok. cbn [fst snd] in Hok.
  destruct (continueExecution_ok _ _ _ Hok) as (Hok' & Hm' & Hp').
  destruct (continued_frame k1 s1) as (Hv & Hm & Hpe & Ha).
  destruct (waitEvent_trap (continued k1 s1).1 (continued k1 s1).2 who status k3)
    as (s' & Ew & Hm2 & Ha2 & Hp2 & Hc); [done..|by rewrite Hm|].
  pose proof (continueExecution_eq k1 s1) as Ec. rewrite Ew in Ec. cbv zeta in Ec.
  cbn [ev_type ev_addr ev_data] in Ec. rewrite (bool_decide_eq_true_2 (ev_breakpoint = ev_breakpoint)) in Ec by done.
  fold a in Ec. set (s4 := pt_call _ _) in Ec.
  assert (engine_ok (view k) (singleStep k3 who) s4) as Hok4.
  { eapply engine_ok_ext; [| | | |exact (setup_ok _ _ _ Hok)].
    - intros b. rewrite view_singleStep, <-Hv. fold k2. unfold view. by rewrite <-(text_wait k2), Hw.
    - unfold s4. cbn. by rewrite Hm2, Hm.
    - unfold s4. cbn. by rewrite Hp2, Hpe.
    - unfold s4. cbn. rewrite Ha2. pose proof (one_process k2) as Hs. rewrite Hw in Hs. by destruct Hs. }
  assert (∀ b, insn_at cpu b → view st.1 b = if b =? a then view k a
            else if bool_decide (b ∈ m_pendingBreakpoints s1) then trap_of cpu else view k1 b) as Hview.
  { intros b Hb. unfold st. rewrite Ec. cbn [fst snd]. rewrite (view_clear_own Hown (view k)) by done.
    assert (bool_decide (is_Some (m_instructionMap s4 !! a)) = true) as ->
      by (apply bool_decide_eq_true_2; unfold s4; cbn; by rewrite Hm2, Hm).
    cbn [andb]. destruct (b =? a); [done|]. rewrite view_singleStep.
    trans (view k2 b); [unfold view; by rewrite <-(text_wait k2), Hw|].
    unfold k2. rewrite Hv. cbn. rewrite view_setup; [done|by apply (ok_active _ _ _ Hok)|done|].
    by eapply ok_pending_insn. }
  split_and!; [| | |done|].
  - by rewrite Ec.
  - unfold st. rewrite Ec. cbn. rewrite Hc, <-app_assoc. unfold continued. cbn.
    by destruct (cont _ _ _) as [? ?], (_ <? 0).
  - unfold st. rewrite Ec. cbn [fst snd]. rewrite pc_clear. apply pc_step.
  - intros st' Hst'. apply (dis_view (view k) a st'.1 st'.2). eapply disarmed_steps; [done|done|].
    assert (insn_at cpu a) by (destruct Hmap as [w Hw0]; by apply (ok_saved _ _ _ Hok a w)).
    split; [exact Hok'|unfold st; by rewrite Hm'|unfold st; rewrite Hp'; by intros ?%elem_of_nil|].
    by rewrite Hview, Z.eqb_refl.
Qed.

(** *** Where two instructions share the word that is written *)

Lemma shared_word a b x :
  own_traps cpu = false → insn_at cpu a → insn_at cpu b → insn_at cpu x → a ≠ b →
  getAligned cpu b = getAligned cpu a → getAligned cpu x = getAligned cpu a → x = a ∨ x = b.
Proof using Type.
  unfold own_traps. intros [Hx Hw]%orb_false_iff Ha Hb Hix Hne E1 E2.
  destruct (insn_offs cpu a Ha) as [?|Oa]; [congruence|].
  destruct (insn_offs cpu b Hb) as [?|Ob]; [congruence|].
  destruct (insn_offs cpu x Hix) as [?|Ox]; [congruence|]. lia.
Qed.

Record word_clean (orig : Z → Z) (a b : Z) (k : K) (s : Ptrace) : Prop := {
  wc_ok : engine_ok orig k s;
  wc_saved x w : x = a ∨ x = b → m_instructionMap s !! x = Some w →
    unit_at cpu w a = orig a ∧ unit_at cpu w b = orig b;
  wc_known x : x = a ∨ x = b → is_Some (m_instructionMap s !! x);
  wc_pending x : x = a ∨ x = b → x ∉ m_pendingBreakpoints s;
  wc_view x : x = a ∨ x = b → view k x = orig x;
}.

Lemma view_clear_word orig a b k s y :
  own_traps cpu = false → a ≠ b → getAligned cpu b = getAligned cpu a →
  word_clean orig a b k s → ∀ x, x = a ∨ x = b → view (clearBreakpoint y k s).2 x = orig x.
Proof using PtraceLaws0.
  intros Hown Hne E [Hok Hs Hk Hp Hv] x Hx.
  assert (∀ z, z = a ∨ z = b → insn_at cpu z) as Hi.
  { intros z Hz. destruct (Hk z Hz) as [w Hw]. by apply (ok_saved _ _ _ Hok z w). }
  destruct (m_instructionMap s !! y) as [w|] eqn:Ey; [|unfold clearBreakpoint; rewrite Ey; by apply Hv].
  destruct (ok_saved _ _ _ Hok y w Ey) as (Hy & Hw & _).
  rewrite view_clear; [|by apply Hok|done|by apply Hi|intros w'; congruence]. rewrite Ey.
  assert (getAligned cpu x = getAligned cpu a) as Ex by (destruct Hx as [-> | ->]; done).
  destruct ((x =? y) || (negb (is_x86 cpu) && (getAligned cpu x =? getAligned cpu y))) eqn:Ec; [|by apply Hv].
  assert (getAligned cpu y = getAligned cpu a) as Eya.
  { apply orb_true_iff in Ec as [->%Z.eqb_eq | [_ ?%Z.eqb_eq]%andb_true_iff]; congruence. }
  assert (y = a ∨ y = b) as Hyab by (eapply (shared_word a b y); eauto).
  destruct (Hs y w Hyab Ey) as [? ?]. by destruct Hx as [-> | ->].
Qed.

Lemma word_clean_step orig a b st st' :
  own_traps cpu = false → a ≠ b → getAligned cpu b = getAligned cpu a →
  pt_step st st' → word_clean orig a b st.1 st.2 → word_clean orig a b st'.1 st'.2.
Proof using All.
  intros Hown Hne E Hstep Hwc. pose proof Hwc as [Hok Hs Hk Hp Hv].
  assert (∀ z, z = a ∨ z = b → insn_at cpu z) as Hi.
  { intros z Hz. destruct (Hk z Hz) as [w Hw]. by apply (ok_saved _ _ _ Hok z w). }
  destruct Hstep as [k s c Hc|k s]; cbn [fst snd] in *.
  - pose proof (register_ok orig k s c Hc Hok) as Hok'. unfold registerBreakpoint in *.
    destruct (c =? 0); [done|]. destruct (m_instructionMap s !! c) eqn:Ec; [done|]. cbn in *.
    assert (∀ x, x = a ∨ x = b → c ≠ x) as Hcx by (intros x Hx ->; destruct (Hk x Hx); congruence).
    split; cbn; [done| | | |done].
    + intros x w Hx. rewrite lookup_insert_ne by by apply Hcx. by apply Hs.
    + intros x Hx. rewrite lookup_insert_ne by (by apply Hcx). auto.
    + intros x Hx [? | ->%list_elem_of_singleton]%elem_of_app; [by apply (Hp x)|by apply (Hcx c)].
  - destruct (continueExecution_ok _ _ _ Hok) as (Hok' & Hm' & Hp').
    split; [done|by rewrite Hm'|by rewrite Hm'|rewrite Hp'; by intros ? _ ?%elem_of_nil|].
    intros x Hx. rewrite continueExecution_eq. destruct (continued_frame k s) as (Hv1 & Hm1 & Hp1 & Ha1).
    pose proof (ok_active _ _ _ Hok) as Ha. pose proof (setup_ok _ _ _ Hok) as Hok1.
    pose proof (waitEvent_frame (continued k s).1 (continued k s).2) as Hw. rewrite Ha1 in Hw.
    destruct (waitEvent _ _) as [ev [k2 s2]]. destruct (Hw Ha) as (Hv2 & Hm2 & Hp2 & Ha2). cbn [fst snd].
    assert (∀ z, z = a ∨ z = b → view k2 z = orig z) as Ez.
    { intros z Hz. rewrite Hv2, Hv1. cbn. rewrite view_setup, bool_decide_eq_false_2; auto.
      by eapply ok_pending_insn. }
    destruct (bool_decide _); [|by apply Ez].
    apply (view_clear_word orig a b); [done..| |done].
    split; cbn; rewrite ?Hm2, ?Hm1, ?Hp2, ?Hp1; [|done|done|by intros ? _ ?%elem_of_nil|done].
    eapply engine_ok_ext; [| | | |exact Hok1]; [intros y; by rewrite Hv2, Hv1|by cbn; rewrite Hm2, Hm1|by cbn; rewrite Hp2, Hp1|done].
Qed.

Lemma word_clean_steps orig a b st st' :
  own_traps cpu = false → a ≠ b → getAligned cpu b = getAligned cpu a →
  rtc pt_step st st' → word_clean orig a b st.1 st.2 → word_clean orig a b st'.1 st'.2.
Proof using All. induction 4; eauto using word_clean_step. Qed.

(** The engine after two addresses of one word were registered. *)
Lemma two_registered k pid a b :
  let w := text k (getAligned cpu a) in
  let s := (registerBreakpoint b k (registerBreakpoint a k (started pid new_Ptrace)).2).2 in
  shares pid = true → a ≠ 0 → b ≠ 0 → a ≠ b → getAligned cpu b = getAligned cpu a →
  m_instructionMap s = <[b := w]> (<[a := w]> ∅) ∧ m_pendingBreakpoints s = [a; b] ∧
  m_calls s = [] ∧ m_firstBreakpoint s = true.
Proof using All.
  intros w s Hp Ha0 Hb0 Hne E. unfold s, registerBreakpoint.
  rewrite (proj2 (Z.eqb_neq a 0)), (proj2 (Z.eqb_neq b 0)) by done.
  cbn. rewrite lookup_empty. cbn. rewrite lookup_insert_ne, lookup_empty by done. cbn.
  rewrite !text_peek by (done || apply getAligned_idem). by rewrite E.
Qed.

(** Clearing one of them writes the word back as it was before both. *)
Lemma view_clear_two k k3 s a b x :
  own_traps cpu = false → shares (m_activeChild s) = true → insn_at cpu a → insn_at cpu b →
  getAligned cpu b = getAligned cpu a → m_instructionMap s !! a = Some (text k (getAligned cpu a)) →
  x = a ∨ x = b → view (clearBreakpoint a k3 s).2 x = view k x.
Proof using All.
  intros Hown Hs Ha Hb E Hm Hx.
  rewrite view_clear; [|done..|by destruct Hx as [-> | ->]|].
  - rewrite Hm. unfold own_traps in Hown. apply orb_false_iff in Hown as [-> _]. cbn [negb andb].
    unfold view. destruct Hx as [-> | ->]; [by rewrite Z.eqb_refl|]. by rewrite E, Z.eqb_refl, orb_true_r.
  - rewrite Hm. intros w' [= <-]. apply text_range.
Qed.

(** Two addresses in one word of a processor that writes the whole word back (64-bit
    ARM and LoongArch): both traps are there when the process runs, but when it
    reaches the first, the second is cleared with it and never set again, though it
    is registered and was not reported. *)
Theorem neighbour_lost k pid a b who status k3 :
  let s1 := (registerBreakpoint b k (registerBreakpoint a k (started pid new_Ptrace)).2).2 in
  let k2 := (continued k s1).1 in
  let st := (continueExecution k s1).2 in
  own_traps cpu = false → shares pid = true → a ≠ 0 → b ≠ 0 → a ≠ b → insn_at cpu a → insn_at cpu b →
  getAligned cpu b = getAligned cpu a →
  wait_all k2 = ((who, status), k3) → who ≠ -1 → trap_stop k3 who status → getPc k3 who = a →
  view k2 b = trap_of cpu ∧
  m_calls st.2 = [PtBlockUntilSolibDataRead; PtEvent (mkEvent ev_breakpoint (-1) a)] ∧
  ∀ st', rtc pt_step st st' → view st'.1 b = view k b ∧ is_Some (m_instructionMap st'.2 !! b).
Proof using All.
  intros s1 k2 st Hown Hp Ha0 Hb0 Hne Ha Hb E Hw Hwho Hstop Hpc.
  set (w := text k (getAligned cpu a)).
  destruct (two_registered k pid a b) as (Hmap & Hpend & Hcalls & Hfirst); [done..|].
  fold w in Hmap. fold s1 in Hmap, Hpend, Hcalls, Hfirst.
  assert (engine_ok (view k) k s1) as Hok by (apply register_ok, register_ok; [done|done|by apply started_ok]).
  destruct (continueExecution_ok _ _ _ Hok) as (Hok' & Hm' & Hp').
  destruct (continued_frame k s1) as (Hv & Hm & Hpe & Hact).
  destruct (waitEvent_trap (continued k s1).1 (continued k s1).2 who status k3)
    as (s' & Ew & Hm2 & Ha2 & Hp2 & Hc); [done..| |].
  { rewrite Hm, Hmap, Hpc, lookup_insert_ne, lookup_insert by done. rewrite decide_True by done. by eexists. }
  pose proof (continueExecution_eq k s1) as Ec. rewrite Ew in Ec. cbv zeta in Ec.
  cbn [ev_type ev_addr ev_data] in Ec. rewrite (bool_decide_eq_true_2 (ev_breakpoint = ev_breakpoint)) in Ec by done.
  rewrite Hpc in Ec. set (s4 := pt_call _ _) in Ec.
  assert (∀ x w', m_instructionMap s1 !! x = Some w' → w' = w) as Hsaved.
  { intros x w'. rewrite Hmap. intros [[_ <-]|[_ H]]%lookup_insert_Some; [done|].
    apply lookup_insert_Some in H as [[_ <-]|[_ H]]; [done|]. by rewrite lookup_empty in H. }
  assert (shares who = true) as Hs by (pose proof (one_process k2) as Hs; rewrite Hw in Hs; by destruct Hs).
  assert (∀ x, x = a ∨ x = b → view st.1 x = view k x) as Hview.
  { intros x Hx. unfold st. rewrite Ec. cbn [fst snd].
    apply (view_clear_two k (singleStep k3 who) s4 a b); try done; unfold s4; cbn; [by rewrite Ha2|].
    rewrite Hm2, Hm, Hmap, lookup_insert_ne, lookup_insert by done. by rewrite decide_True. }
  split_and!.
  - unfold k2. rewrite Hv. cbn. rewrite Hpend, view_setup.
    + rewrite bool_decide_eq_true_2; [done|]. right. by left.
    + apply (ok_active _ _ _ Hok).
    + done.
    + apply Forall_cons_2; [done|]. by apply Forall_singleton.
  - assert (m_calls (continued k s1).2 = [] ∧ m_firstBreakpoint (continued k s1).2 = true) as [E1 E2].
    { unfold continued, setupAllBreakpoints. destruct (cont _ _ _) as [res kx], (res <? 0); cbn; done. }
    unfold st. rewrite Ec. cbn. by rewrite Hc, E1, E2.
  - intros st' Hst'.
    destruct (word_clean_steps (view k) a b st st') as [_ _ Hk _ Hvs]; [done..| |auto].
    split; [done| | | |done].
    + intros x w' _ Hx. unfold st in Hx. rewrite Hm' in Hx. apply Hsaved in Hx as ->. unfold view, w. by rewrite E.
    + unfold st. rewrite Hm', Hmap. intros x [-> | ->]; apply lookup_insert_is_Some'; [right|by left].
      apply lookup_insert_is_Some'. by left.
    + unfold st. rewrite Hp'. by intros ? _ ?%elem_of_nil.
Qed.
End theorems.

(** ** Words on which a trap is put elsewhere *)

(** The other instruction of a word of eight bytes. *)
Definition neighbour (c : Cpu) (a : Z) : Z := 2 * getAligned c a + 4 - a.

Lemma neighbour_spec c a : word_bytes c = 8 → is_x86 c = false → insn_at c a →
  neighbour c a ≠ a ∧ insn_at c (neighbour c a) ∧ getAligned c (neighbour c a) = getAligned c a ∧
  neighbour c a - getAligned c a = 4 - (a - getAligned c a).
Proof.
  intros W Hx Ha. unfold neighbour, insn_at.
  assert (∃ q, getAligned c a = 8 * q) as [q Hq] by (unfold getAligned; rewrite W; eexists; apply Z.mul_comm).
  assert (a = 8 * q ∨ a = 8 * q + 4) as Hoff
    by (destruct (insn_offs c a Ha) as [?|[?|[_ ?]]]; [congruence|left; lia|right; lia]).
  rewrite Hq. split_and!; [lia| |unfold getAligned; rewrite W|lia].
  - right. destruct Hoff as [-> | ->]; [replace (2 * (8 * q) + 4 - 8 * q) with ((2 * q + 1) * 4) by lia
      |replace (2 * (8 * q) + 4 - (8 * q + 4)) with ((2 * q) * 4) by lia]; by rewrite Z.mod_mul.
  - enough ((2 * (8 * q) + 4 - a) / 8 = q) as -> by lia. symmetry.
    apply (Z.div_unique_pos _ _ q (8 * q + 4 - a)); lia.
Qed.

(** On 64-bit PowerPC, RISC-V and SPARC the instruction beside the registered one is
    overwritten, by the trap or by zero, whatever the word was. *)
Theorem trap_misplaced (c : Cpu) (w a : Z) :
  placed_traps c = false → 0 ≤ w < 2 ^ 64 → insn_at c a →
  neighbour c a ≠ a ∧ getAligned c (neighbour c a) = getAligned c a ∧
  (unit_at c (arch_setupBreakpoint c a w) (neighbour c a) = trap_of c ∨
   unit_at c (arch_setupBreakpoint c a w) (neighbour c a) = 0).
Proof.
  intros Hc Hw Ha. assert (word_bytes c = 8 ∧ is_x86 c = false) as [W Hx] by by destruct c.
  destruct (neighbour_spec c a W Hx Ha) as (Hne & Hi & E & Eo). split_and!; [done|done|].
  assert (a - getAligned c a = 0 ∨ a - getAligned c a = 4) as Hoff
    by (destruct (insn_offs c a Ha) as [?|[?|[_ ?]]]; [congruence|by left|by right]).
  destruct c; try done; unfold unit_at, arch_setupBreakpoint, mem_shift;
    rewrite ?E, ?Eo; cbn [big_endian]; destruct Hoff as [-> | ->]; try (by left; reflexivity); try (by right; reflexivity);
    left; unfold unit_bits, unit_bytes, word_bits; cbn [is_x86 word_bytes]; cbn [Z.mul Z.sub Z.add Z.opp Z.pos_sub Pos.mul];
    change 0xffffffff with (Z.ones 32); rewrite field_patch by (cbn; lia); done.
Qed.

(** ** On Linux *)

(** What the code relies on of Linux: see [PtraceLaws]. *)
Class LinuxLaws (c : Cpu) {K : Type} `{!PtraceOS K} (shares : Z → bool) (text : K → Z → Z) := {
  os_text_range k a : 0 ≤ text k a < 2 ^ word_bits c;
  os_text_peek k pid a : shares pid = true → getAligned c a = a → ptrace_peektext k pid a = text k a;
  os_text_poke k pid a v b : shares pid = true → getAligned c a = a →
    text (ptrace_poketext k pid a v) b = if b =? a then uw (word_bits c) v else text k b;
  os_text_setregs k pid v b : text (setregs_pc k pid v) b = text k b;
  os_text_cont k pid sig b : text (ptrace_cont k pid sig).2 b = text k b;
  os_text_wait k b : text (waitpid_all k).2 b = text k b;
  os_regs_set k pid v : getregs_pc (setregs_pc k pid v) pid = v;
  os_regs_poke k pid a v who : getregs_pc (ptrace_poketext k pid a v) who = getregs_pc k who;
}.

Lemma linux_laws (c : Cpu) {K : Type} `{!PtraceOS K} (shares : Z → bool) (text : K → Z → Z) :
  LinuxLaws c shares text → PtraceLaws (PtraceSys0:=linux_sys c) shares text getregs_pc.
Proof.
  intros [H1 H2 H3 H4 H5 H6 H7 H8]. split; cbn; auto.
  - intros. apply H4.
  - intros. unfold linux_skipInstruction. by destruct c; rewrite ?H4.
  - intros. unfold linux_singleStep. by rewrite H7.
Qed.

(** ** A kernel for concrete runs *)

(** One process with a given text and the stops it will make: the status and the
    instruction pointer of each. *)
Record DemoKernel := mkDemo { dk_text : Z → Z; dk_pc : Z; dk_stops : list (Z * Z) }.

#[global] Instance Demo_OS : PtraceOS DemoKernel := {
  ptrace_peektext k _ a := u64 (dk_text k a);
  ptrace_poketext k _ a v :=
    mkDemo (λ b, if b =? a then v else dk_text k b) (dk_pc k) (dk_stops k);
  getregs_pc k _ := dk_pc k;
  setregs_pc k _ v := mkDemo (dk_text k) v (dk_stops k);
  ptrace_cont k _ _ := (0, k);
  waitpid_all k :=
    match dk_stops k with
    | [] => ((-1, 0), k)
    | (status, rip) :: l => ((77, status), mkDemo (dk_text k) rip l)
    end;
}.

Definition demo_text (k : DemoKernel) (a : Z) : Z := u64 (dk_text k a).
Lemma Demo_linux c : word_bytes c = 8 → LinuxLaws c (λ pid, pid =? 77) demo_text.
Proof.
  intros W. assert (word_bits c = 64) as Hb by (unfold word_bits; by rewrite W).
  split; intros; rewrite ?Hb; unfold demo_text; cbn; try done.
  - apply u64_range.
  - by destruct (b =? a).
  - by destruct (dk_stops k) as [|[? ?] ?].
Qed.

#[export] Instance demo_sys : PtraceSys DemoKernel := linux_sys cpu_x86_64.
Lemma Demo_laws : PtraceLaws (λ pid, pid =? 77) demo_text getregs_pc.
Proof. exact (linux_laws cpu_x86_64 _ _ (Demo_linux cpu_x86_64 eq_refl)). Qed.

Lemma Demo_one_process (k : DemoKernel) :
  (waitpid_all k).1.1 = -1 ∨ ((waitpid_all k).1.1 =? 77) = true.
Proof. cbn. destruct (dk_stops k) as [|[? ?] ?]; [by left|by right]. Qed.

(** Two breakpoints in one word, at 0x1001 and 0x1004; the process traps at the
    second. *)
Definition demo_start : DemoKernel := mkDemo (λ _, 0x1122334455667788) 0 [(0x057f, 0x1005)].
Definition demo_engine : Ptrace :=
  (registerBreakpoint 0x1004 demo_start
    (registerBreakpoint 0x1001 demo_start (started 77 new_Ptrace)).2).2.

Lemma demo_reached :
  rtc pt_step (demo_start, started 77 new_Ptrace) (demo_start, demo_engine).
Proof.
  eapply rtc_l; [apply (step_register _ _ 0x1001); by left|].
  eapply rtc_l; [apply (step_register _ _ 0x1004); by left|]. apply rtc_refl.
Qed.

Lemma breakpoints_transparent_witness :
  let k := (continued demo_start demo_engine).1 in
  map (view (text := demo_text) k) [0x1000; 0x1001; 0x1002; 0x1003; 0x1004; 0x1005] =
    [0x88; 0xcc; 0x66; 0x55; 0xcc; 0x33] ∧
  (view (text := demo_text) demo_start 0x1001 = 0x77 ∨
   view (text := demo_text) demo_start 0x1001 = 0xcc ∧
   is_Some (m_instructionMap demo_engine !! 0x1001)).
Proof.
  split; [vm_compute; reflexivity|].
  exact (breakpoints_transparent (PtraceLaws0 := Demo_laws) eq_refl Demo_one_process demo_start 77
    (demo_start, demo_engine) 0x1001 eq_refl demo_reached (or_introl eq_refl)).
Defined.

Lemma trap_hit_witness :
  let st := (continueExecution demo_start demo_engine).2 in
  map (view (text := demo_text) st.1) [0x1001; 0x1004] = [0xcc; 0x44] ∧
  dk_pc st.1 = 0x1004 ∧
  ∀ st', rtc pt_step st st' → view (text := demo_text) st'.1 0x1004 = 0x44.
Proof.
  destruct (trap_hit (PtraceLaws0 := Demo_laws) eq_refl Demo_one_process demo_start 77 demo_start demo_engine
    77 0x057f (mkDemo (dk_text (continued demo_start demo_engine).1) 0x1005 [])
    eq_refl eq_refl demo_reached eq_refl ltac:(done)
    (conj eq_refl (conj (or_introl eq_refl) (conj eq_refl eq_refl)))
    ltac:(vm_compute; eauto)) as (_ & _ & Hpc & _ & Hlater).
  split; [vm_compute; reflexivity|]. split; [exact Hpc|].
  intros st' Hst'. exact (Hlater st' Hst').
Defined.

(** 64-bit ARM: two instructions in one word, the first of which is reached. *)
Definition demo_arm : DemoKernel := mkDemo (λ _, 0x9100042191000400) 0 [(0x057f, 0x1000)].
#[local] Notation arm_sys := (linux_sys (K:=DemoKernel) cpu_aarch64).

Lemma neighbour_lost_witness :
  let s := (@registerBreakpoint _ arm_sys 0x1004 demo_arm
      (@registerBreakpoint _ arm_sys 0x1000 demo_arm (started 77 new_Ptrace)).2).2 in
  let st := (@continueExecution _ arm_sys demo_arm s).2 in
  view (PtraceSys0 := arm_sys) (text := demo_text) (@continued _ arm_sys demo_arm s).1 0x1004 = trap_of cpu_aarch64 ∧
  m_calls st.2 = [PtBlockUntilSolibDataRead; PtEvent (mkEvent ev_breakpoint (-1) 0x1000)] ∧
  view (PtraceSys0 := arm_sys) (text := demo_text) st.1 0x1004 = 0x91000421 ∧
  is_Some (m_instructionMap st.2 !! 0x1004).
Proof.
  intros s st.
  destruct (neighbour_lost (PtraceSys0 := arm_sys)
    (PtraceLaws0 := linux_laws cpu_aarch64 _ _ (Demo_linux cpu_aarch64 eq_refl)) eq_refl Demo_one_process demo_arm 77
    0x1000 0x1004 77 0x057f (mkDemo (dk_text (@continued _ arm_sys demo_arm s).1) 0x1000 []))
    as (Htrap & Hcalls & Hlater); [done|done|done|done|done|by right|by right|done|done|done|by split_and!; [|left| |]|done|].
  destruct (Hlater st (rtc_refl _ _)). by split_and!.
Defined.

Lemma trap_misplaced_witness :
  unit_at cpu_riscv64 (arch_setupBreakpoint cpu_riscv64 0x1004 0x0000006f00000013) 0x1000 = trap_of cpu_riscv64 ∨
  unit_at cpu_riscv64 (arch_setupBreakpoint cpu_riscv64 0x1004 0x0000006f00000013) 0x1000 = 0.
Proof.
  apply (trap_misplaced cpu_riscv64 0x0000006f00000013 0x1004); [done|done|by right].
Defined.
