(* ===== verification/PtraceFreeBSD.v ===== *)
(** * The ptrace engine on FreeBSD (src/src/engines/ptrace_freebsd.cc)

    The functions of ptrace_sys.hh over the system calls of FreeBSD, as an instance
    of the platform the engine of Ptrace.v is proved for. *)
From S2P Require Export Ptrace.
From stdpp Require Import options.

(** [ptrace(2)] with the requests the file uses: [pt_io_read] and [pt_io_write] are
    PT_IO with PIOD_READ_I and PIOD_WRITE_I, [pt_lwpinfo] the flags of PT_LWPINFO;
    [None] when a call fails. *)
Class FreeBSD (K : Type) := {
  pt_io_read : K → Z → Z → option Z;
  pt_io_write : K → Z → Z → Z → K;
  pt_getregs : K → Z → option Z;
  pt_setregs : K → Z → Z → K;
  pt_lwpinfo : K → Z → option Z;
  pt_continue : K → Z → Z → Z * K;
  pt_attach : K → Z → Z * Z * K;                (* result and errno *)
  pt_detach : K → Z → K;
  pt_follow_fork : K → Z → Z * K;
  pt_trace_me : K → Z * K;
  bsd_waitpid : K → (Z * Z) * K;
}.

(** sys/ptrace.h and sys/signal.h *)
Definition PL_FLAG_FORKED : Z := 0x40.
Definition PL_FLAG_CHILD : Z := 0x80.
Definition BSD_SIGSTOP : Z := 17.
Definition BSD_SIGSYS : Z := 12.

Section freebsd.
Context {K : Type} `{!FreeBSD K}.
(** What a variable holds that a failed call has not set. *)
Context (unset : Z).

Definition bsd_getPcFromRegs (r_rip : Z) : Z := u64 (r_rip - 1).
Definition bsd_adjustPcAfterBreakpoint (r_rip : Z) : Z := u64 (r_rip - 1).

Definition bsd_attachAll (pid : Z) (k : K) : Z * K :=
  let '(r, errno, k) := pt_attach k pid in (if r <? 0 then errno else 0, k).
Definition bsd_cont (k : K) (pid signal : Z) : Z * K := pt_continue k pid signal.
Definition bsd_detach (pid : Z) (k : K) : K := pt_detach k pid.
Definition bsd_disable_aslr (k : K) : bool * K := (true, k).
Definition bsd_eventIsForky (signal event : Z) : bool :=
  (signal =? SIGTRAP) && negb (Z.land event PL_FLAG_FORKED =? 0).
Definition bsd_eventIsNewChild (signal event : Z) : bool :=
  (signal =? BSD_SIGSTOP) && negb (Z.land event PL_FLAG_CHILD =? 0).
Definition bsd_follow_fork (pid : Z) (k : K) : Z * K := pt_follow_fork k pid.
Definition bsd_follow_child (pid : Z) (k : K) : Z * K := bsd_follow_fork pid k.
Definition bsd_getEvent (k : K) (pid status : Z) : Z := default unset (pt_lwpinfo k pid).
Definition bsd_getPc (k : K) (pid : Z) : Z := bsd_getPcFromRegs (default unset (pt_getregs k pid)).
Definition bsd_get_current_cpu (k : K) : Z := 0.
Definition bsd_peekWord (k : K) (pid aligned_addr : Z) : Z := default unset (pt_io_read k pid aligned_addr).
Definition bsd_pokeWord (k : K) (pid aligned_addr value : Z) : K := pt_io_write k pid aligned_addr value.
Definition bsd_singleStep (k : K) (pid : Z) : K :=
  pt_setregs k pid (bsd_adjustPcAfterBreakpoint (default unset (pt_getregs k pid))).
Definition bsd_skipInstruction (k : K) (pid : Z) : K := k.
Definition bsd_tie_process_to_cpu (pid cpu : Z) (k : K) : K := k.
Definition bsd_trace_me (k : K) : Z * K := pt_trace_me k.
Definition bsd_wait_all (k : K) : (Z * Z) * K := bsd_waitpid k.

#[local] Instance freebsd_sys : PtraceSys K := {|
  sys_cpu := cpu_x86_64;
  sys_SIGSTOP := BSD_SIGSTOP;
  sys_sigill := BSD_SIGSYS;
  peekWord := bsd_peekWord;
  pokeWord := bsd_pokeWord;
  getPc := bsd_getPc;
  singleStep := bsd_singleStep;
  skipInstruction := bsd_skipInstruction;
  getEvent := bsd_getEvent;
  eventIsForky := bsd_eventIsForky;
  eventIsNewChild := bsd_eventIsNewChild;
  follow_child k pid := (bsd_follow_child pid k).2;
  cont := bsd_cont;
  wait_all := bsd_wait_all;
|}.

(** ** What the code relies on *)

Class FreeBSDLaws (shares : Z → bool) (text : K → Z → Z) (rip : K → Z → Z) := {
  bsd_range k a : 0 ≤ text k a < 2 ^ 64;
  bsd_read k pid a : shares pid = true → getAligned cpu_x86_64 a = a → pt_io_read k pid a = Some (text k a);
  bsd_write k pid a v b : shares pid = true → getAligned cpu_x86_64 a = a →
    text (pt_io_write k pid a v) b = if b =? a then u64 v else text k b;
  bsd_setregs k pid v b : text (pt_setregs k pid v) b = text k b;
  bsd_follow k pid b : text (pt_follow_fork k pid).2 b = text k b;
  bsd_continue k pid sig b : text (pt_continue k pid sig).2 b = text k b;
  bsd_wait k b : text (bsd_waitpid k).2 b = text k b;
  bsd_getregs k pid : pt_getregs k pid = Some (rip k pid);
  bsd_rip_set k pid v : rip (pt_setregs k pid v) pid = v;
  bsd_rip_write k pid a v who : rip (pt_io_write k pid a v) who = rip k who;
}.

Context {shares : Z → bool} {text rip : K → Z → Z} `{!FreeBSDLaws shares text rip}.

(** The laws the engine is proved from. *)
Lemma freebsd_laws : PtraceLaws (PtraceSys0:=freebsd_sys) shares text rip.
Proof using Type*.
  split; cbn.
  - apply bsd_range.
  - intros k pid a Hp Ha. unfold bsd_peekWord. by rewrite bsd_read.
  - intros. by apply bsd_write.
  - intros. apply bsd_setregs.
  - done.
  - intros. apply bsd_follow.
  - intros. apply bsd_continue.
  - intros. apply bsd_wait.
  - intros. unfold bsd_singleStep, bsd_getPc. by rewrite bsd_rip_set.
  - intros. apply bsd_rip_write.
Qed.

(** On FreeBSD, too, the program finds its own bytes or the trap at a registered
    address; and the first stop of a forked child makes the engine follow the
    child's own forks, is not reported as a breakpoint and sends it no signal. *)
Theorem freebsd_engine (one_process : ∀ k : K, (bsd_waitpid k).1.1 = -1 ∨ shares (bsd_waitpid k).1.1 = true)
    (k : K) (pid a : Z) (st : K * Ptrace) (k' : K) (who status : Z) :
  shares pid = true → rtc pt_step (k, started pid new_Ptrace) st →
  (view (text:=text) st.1 a = view (text:=text) k a ∨
   view (text:=text) st.1 a = 0xcc ∧ is_Some (m_instructionMap st.2 !! a)) ∧
  (bsd_waitpid (continued st.1 st.2).1 = ((who, status), k') → who ≠ -1 →
   WIFSTOPPED status = true → WSTOPSIG status = BSD_SIGSTOP → pt_lwpinfo k' who = Some PL_FLAG_CHILD →
   ∃ s', continueExecution st.1 st.2 = (true, ((pt_follow_fork k' who).2, s')) ∧
     m_calls s' = m_calls st.2 ++ [PtEvent (mkEvent ev_signal 0 (u64 (rip k' who - 1)))] ∧ m_signal s' = 0).
Proof using Type*.
  intros Hp Hst. pose proof freebsd_laws as Hlaws. split.
  - refine (ok_view (view (text:=text) k) st.1 st.2 _ a (or_introl eq_refl)).
    apply (pt_steps_ok (PtraceSys0:=freebsd_sys) (PtraceLaws0:=Hlaws) eq_refl one_process _ _ _ Hst).
    by apply started_ok.
  - intros Hw Hwho Hstop Hsig Hflag. rewrite continueExecution_eq. unfold waitEvent. cbn [wait_all freebsd_sys].
    unfold bsd_wait_all. rewrite Hw. destruct (Z.eqb_spec who (-1)); [done|]. rewrite Hstop.
    unfold wait_stopped. cbn [eventIsNewChild getEvent freebsd_sys].
    unfold bsd_getEvent. rewrite Hflag, Hsig. change (bsd_eventIsNewChild _ _) with true. cbv iota.
    cbn [ev_type ev_data ev_addr]. 
    rewrite (bool_decide_eq_true_2 (ev_signal = ev_signal)), (bool_decide_eq_false_2 (ev_signal = ev_error)),
      (bool_decide_eq_false_2 (ev_signal = ev_breakpoint)) by done.
    eexists. split; [reflexivity|]. split; [|done].
    cbn [pt_call pt_set_signal pt_set_lastSignalAddress pt_set_active pt_set_children m_calls].
    unfold getPc, freebsd_sys, bsd_getPc. rewrite bsd_getregs. f_equal.
    unfold continued, setupAllBreakpoints. by destruct (cont _ _ _) as [res k0], (res <? 0).
Qed.
End freebsd.

(** *** On a kernel *)

(** The demonstration kernel of Ptrace.v behind the calls of FreeBSD; each stop is
    that of a new child. *)
#[local] Instance Demo_FreeBSD : FreeBSD DemoKernel := {|
  pt_io_read k pid a := Some (u64 (dk_text k a));
  pt_io_write k pid a v := mkDemo (λ b, if b =? a then v else dk_text k b) (dk_pc k) (dk_stops k);
  pt_getregs k pid := Some (dk_pc k);
  pt_setregs k pid v := mkDemo (dk_text k) v (dk_stops k);
  pt_lwpinfo k pid := Some PL_FLAG_CHILD;
  pt_continue k pid sig := (0, k);
  pt_attach k pid := (0, 0, k);
  pt_detach k pid := k;
  pt_follow_fork k pid := (0, k);
  pt_trace_me k := (0, k);
  bsd_waitpid k := waitpid_all k;
|}.

Lemma Demo_FreeBSDLaws : FreeBSDLaws (λ pid, pid =? 77) demo_text (λ k _, dk_pc k).
Proof.
  split; intros; unfold demo_text; cbn; try done.
  - apply u64_range.
  - by destruct (b =? a).
  - by destruct (dk_stops k) as [|[? ?] ?].
Qed.

Definition demo_forked : DemoKernel := mkDemo (λ _, 0x1122334455667788) 0 [(0x117f, 0x2001)].

Lemma freebsd_engine_witness :
  ∃ s', @continueExecution _ (freebsd_sys 0) demo_forked (started 77 new_Ptrace)
        = (true, (mkDemo (dk_text demo_forked) 0x2001 [], s')) ∧
    m_calls s' = [PtEvent (mkEvent ev_signal 0 0x2000)] ∧ m_signal s' = 0.
Proof.
  destruct (freebsd_engine 0 (FreeBSDLaws0 := Demo_FreeBSDLaws) Demo_one_process demo_forked 77 0x2000
    (demo_forked, started 77 new_Ptrace) (mkDemo (dk_text demo_forked) 0x2001 []) 77 0x117f) as [_ H].
  - reflexivity.
  - apply rtc_refl.
  - apply H; reflexivity || done.
Defined.
