(* ===== verification/SystemMode.v ===== *)
(** * System mode (src/src/engines/system-mode-file-format.cc,
    src/src/system-mode/file-data.cc, src/src/system-mode/registration.cc)

    The coverage memory that many tracer processes share ([system_mode_memory]),
    its file format, the instrumented binaries with a trailer ([SystemModeFile])
    and the registration message of a new process.  [reportIndex] is modelled
    twice: as one call, and as a machine whose steps are its memory accesses,
    any number of which run interleaved. *)
From S2P Require Export Endian Interfaces.
From stdpp Require Import options.

(** ** The shared memory *)

Record system_mode_memory := mkMemory {
  smm_filename : bytes;
  smm_options : bytes;
  smm_n_entries : Z;
  smm_data : list Z;
  smm_dirtyCount : Z;
  smm_cleanCount : Z;
}.

Definition new_system_mode_memory (fn opts : bytes) (n : Z) : system_mode_memory :=
  mkMemory fn opts n (replicate (Z.to_nat n) 0) 0 0.

Definition smm_set_data (d : list Z) (m : system_mode_memory) : system_mode_memory :=
  mkMemory (smm_filename m) (smm_options m) (smm_n_entries m) d (smm_dirtyCount m) (smm_cleanCount m).
Definition smm_set_dirty (c : Z) (m : system_mode_memory) : system_mode_memory :=
  mkMemory (smm_filename m) (smm_options m) (smm_n_entries m) (smm_data m) c (smm_cleanCount m).
Definition smm_set_clean (c : Z) (m : system_mode_memory) : system_mode_memory :=
  mkMemory (smm_filename m) (smm_options m) (smm_n_entries m) (smm_data m) (smm_dirtyCount m) c.

(** [data[i]]: an access outside the mapping is not defined. *)
Definition word_at (m : system_mode_memory) (i : Z) : res Z :=
  or_fault (smm_data m !! Z.to_nat i).

(** [1 << bit] as the unsigned word it is combined with. *)
Definition bit_mask (bit : Z) : Z := u32 (Z.shiftl 1 bit).

Definition indexIsHit (m : system_mode_memory) (index : Z) : res bool :=
  if smm_n_entries m <=? index / 32 then Ok false
  else
    cur ← word_at m (index / 32);
    let bit := index mod 32 in
    Ok (negb (Z.land cur (bit_mask bit) =? 0)).

(** One call, with nothing else running. *)
Definition reportIndex (index : Z) (m : system_mode_memory) : res system_mode_memory :=
  let wordIdx := index / 32 in
  let bit := index mod 32 in
  if smm_n_entries m <=? wordIdx then Ok m
  else
    cur ← word_at m wordIdx;
    if negb (Z.land cur (bit_mask bit) =? 0) then Ok m
    else
      val ← word_at m wordIdx;
      let newVal := Z.lor val (bit_mask bit) in
      let m := smm_set_data (<[Z.to_nat wordIdx := newVal]> (smm_data m)) m in
      Ok (smm_set_dirty (u32 (smm_dirtyCount m + 1)) m).

Definition isDirty (m : system_mode_memory) : bool :=
  negb (smm_dirtyCount m =? smm_cleanCount m).
Definition markClean (m : system_mode_memory) : system_mode_memory :=
  smm_set_clean (smm_dirtyCount m) m.

(** *** Interleaved calls *)

(** Where a call of [reportIndex] is: before its first access, at the head of
    the loop, before the compare-and-swap with the value it read, before the
    increment of the counter, returned. *)
Inductive Reporting :=
  | RStart (index : Z)
  | RLoop (index : Z)
  | RSwap (index val : Z)
  | RCount (index : Z)
  | RDone (index : Z).

(** One memory access of a call. *)
Definition report_access (r : Reporting) (m : system_mode_memory)
    : option (res (Reporting * system_mode_memory)) :=
  match r with
  | RStart index => Some (
      if smm_n_entries m <=? index / 32 then Ok (RDone index, m)
      else
        cur ← word_at m (index / 32);
        if negb (Z.land cur (bit_mask (index mod 32)) =? 0) then Ok (RDone index, m)
        else Ok (RLoop index, m))
  | RLoop index => Some (val ← word_at m (index / 32); Ok (RSwap index val, m))
  | RSwap index val => Some (
      cur ← word_at m (index / 32);
      if cur =? val then
        let newVal := Z.lor val (bit_mask (index mod 32)) in
        Ok (RCount index, smm_set_data (<[Z.to_nat (index / 32) := newVal]> (smm_data m)) m)
      else Ok (RLoop index, m))
  | RCount index => Some (Ok (RDone index, smm_set_dirty (u32 (smm_dirtyCount m + 1)) m))
  | RDone _ => None
  end.

(** Some process makes its next access. *)
Inductive report_step : list Reporting * system_mode_memory → list Reporting * system_mode_memory → Prop :=
  | report_one rs m i r r' m' :
      rs !! i = Some r → report_access r m = Some (Ok (r', m')) →
      report_step (rs, m) (<[i := r']> rs, m').

(** ** The file format *)

Section format.
Context (e : endian).

Definition SYSTEM_MODE_FILE_MAGIC : Z := 0x4d455247.
Definition SYSTEM_MODE_FILE_VERSION : Z := 1.
Definition sizeof_system_mode_file : Z := 24.

(** [memcpy] of a table of words. *)
Definition words (n : nat) (l : list Z) : bytes := l ≫= native_bytes e n.

Fixpoint read_words (n : nat) (count : nat) (b : bytes) (off : Z) : res (list Z) :=
  match count with
  | O => Ok []
  | S count =>
      v ← load e n b off;
      l ← read_words n count b (off + Z.of_nat n);
      Ok (v :: l)
  end.

Definition memoryToFile (m : system_mode_memory) : res bytes :=
  let n := smm_n_entries m in
  let outSize := sizeof_system_mode_file + n * 4 +
                 Z.of_nat (length (smm_filename m)) + Z.of_nat (length (smm_options m)) + 2 in
  let out := zeros (Z.to_nat outSize) in
  out ← store e 4 0 SYSTEM_MODE_FILE_MAGIC out;
  out ← store e 4 4 SYSTEM_MODE_FILE_VERSION out;
  out ← store e 4 8 n out;
  let filename_offset := u32 (n * 4 + sizeof_system_mode_file) in
  let kcov_options_offset := u32 (filename_offset + Z.of_nat (length (smm_filename m)) + 1) in
  out ← store e 4 16 filename_offset out;
  out ← store e 4 20 kcov_options_offset out;
  out ← zwrite filename_offset (smm_filename m ++ [NUL]) out;
  out ← zwrite kcov_options_offset (smm_options m ++ [NUL]) out;
  zwrite sizeof_system_mode_file (words 4 (take (Z.to_nat n) (smm_data m))) out.

(** [None] is the NULL of a file that is rejected. *)
Definition fileToMemory (file : bytes) : res (option system_mode_memory) :=
  magic ← load e 4 file 0;
  if negb (magic =? SYSTEM_MODE_FILE_MAGIC) then Ok None
  else
    version ← load e 4 file 4;
    if negb (version =? SYSTEM_MODE_FILE_VERSION) then Ok None
    else
      n_entries ← load e 4 file 8;
      filename_offset ← load e 4 file 16;
      if filename_offset <? sizeof_system_mode_file + n_entries * 4 then Ok None
      else
        kcov_options_offset ← load e 4 file 20;
        if kcov_options_offset <? u32 (filename_offset + 1) then Ok None
        else
          filename ← zc_str file filename_offset;
          options ← zc_str file kcov_options_offset;
          data ← read_words 4 (Z.to_nat n_entries) file sizeof_system_mode_file;
          Ok (Some (mkMemory filename options n_entries data 0 0)).

(** ** Instrumented binaries (file-data.cc) *)

Record SystemModeFile := mkSystemModeFile {
  sm_id : Z;
  sm_filename : bytes;
  sm_options : bytes;
  sm_data : bytes;
  sm_entries : list Z;
}.

Definition new_SystemModeFile : SystemModeFile := mkSystemModeFile 0 [] [] [] [].

Definition TRAILER_MAGIC : Z := 0x19992000.
Definition TRAILER_VERSION : Z := 1.
Definition sizeof_trailer : Z := 32.

Definition padTo8 (sz : Z) : Z := if Z.land sz 7 =? 0 then sz else sz + (8 - Z.land sz 7).

(** The fields of the trailer at [t] that make it acceptable. *)
Definition unmarshalTrailer (p : bytes) (t : Z) : res bool :=
  magic ← load e 4 p t;
  if negb (magic =? TRAILER_MAGIC) then Ok false
  else
    version ← load e 4 p (t + 4);
    if negb (version =? TRAILER_VERSION) then Ok false
    else
      filename_size ← load e 4 p (t + 20);
      if negb (Z.land filename_size 7 =? 0) then Ok false
      else
        options_size ← load e 4 p (t + 24);
        Ok (Z.land options_size 7 =? 0).

(** A block of [uncompressedSize] zeroes with the data copied into it. *)
Definition uncompressEntries (p : bytes) (off compressedSize uncompressedSize : Z) : res bytes :=
  d ← zread p off (Z.to_nat compressedSize);
  zwrite 0 d (zeros (Z.to_nat uncompressedSize)).

Definition addEntry (index value : Z) (f : SystemModeFile) : SystemModeFile :=
  let i := Z.to_nat index in
  let entries := sm_entries f ++ replicate (S i - length (sm_entries f)) 0 in
  mkSystemModeFile (sm_id f) (sm_filename f) (sm_options f) (sm_data f) (<[i := value]> entries).

(** The loop over the entries, from entry [i] on. *)
Fixpoint read_entries (count : nat) (i : Z) (entries : bytes) (f : SystemModeFile)
    : res SystemModeFile :=
  match count with
  | O => Ok f
  | S count =>
      v ← load e 8 entries (8 * i);
      read_entries count (i + 1) entries (addEntry i v f)
  end.

(** [base] is the address of the block. *)
Definition SystemModeFile_parse (base : Z) (fileData : bytes) (isRaw : bool)
    : res (option SystemModeFile) :=
  let fileSize := Z.of_nat (length fileData) in
  if fileSize =? 0 then Ok None
  else
    let f := mkSystemModeFile 0 [] [] fileData [] in
    if isRaw then Ok (Some f)
    else
      let t := fileSize - sizeof_trailer in
      if negb ((base + t) mod 8 =? 0) then Ok None
      else
        ok ← unmarshalTrailer fileData t;
        if negb ok then Ok None
        else
          compressed_size ← load e 4 fileData (t + 8);
          uncompressed_size ← load e 4 fileData (t + 12);
          id ← load e 4 fileData (t + 16);
          filename_size ← load e 4 fileData (t + 20);
          options_size ← load e 4 fileData (t + 24);
          n_entries ← load e 2 fileData (t + 28);
          if fileSize + sizeof_trailer <? u32 (u32 (filename_size + options_size) + compressed_size)
          then Ok None
          else
            let filename := t - compressed_size - options_size - filename_size in
            c ← zread fileData (filename + u32 (filename_size - 1)) 1;
            if negb (bool_decide (c = [NUL])) then Ok None
            else
              let options := t - compressed_size - options_size in
              c ← zread fileData (options + u32 (options_size - 1)) 1;
              if negb (bool_decide (c = [NUL])) then Ok None
              else
                m_filename ← zc_str fileData filename;
                m_options ← zc_str fileData options;
                entries ← uncompressEntries fileData (t - compressed_size) compressed_size
                            uncompressed_size;
                f ← read_entries (Z.to_nat n_entries) 0 entries
                      (mkSystemModeFile id m_filename m_options fileData []);
                Ok (Some f).

Definition fromRawFile (base id : Z) (filename options fileData : bytes) : res (option SystemModeFile) :=
  o ← SystemModeFile_parse base fileData true;
  Ok (match o with
      | Some f => Some (mkSystemModeFile id filename options (sm_data f) (sm_entries f))
      | None => None
      end).
Definition fromProcessedFile (base : Z) (fileData : bytes) : res (option SystemModeFile) :=
  SystemModeFile_parse base fileData false.

Definition getProcessedData (f : SystemModeFile) : res bytes :=
  let fileSize := Z.of_nat (length (sm_data f)) in
  let n := Z.of_nat (length (sm_entries f)) in
  if n =? 0 then zwrite 0 (sm_data f) (zeros (Z.to_nat fileSize))
  else
    let padded := padTo8 fileSize in
    let uncompressedSize := u32 (n * 8) in
    (* compressEntries *)
    _ ← zwrite 0 (take (Z.to_nat uncompressedSize) (words 8 (sm_entries f)))
          (zeros (Z.to_nat uncompressedSize));
    let compressedSize := u32 (padTo8 uncompressedSize) in
    let filenameSize := u32 (padTo8 (Z.of_nat (length (sm_filename f)) + 1)) in
    let optionsSize := u32 (padTo8 (Z.of_nat (length (sm_options f)) + 1)) in
    let outSize := padded + filenameSize + optionsSize + compressedSize + sizeof_trailer in
    let out := zeros (Z.to_nat outSize) in
    out ← zwrite 0 (sm_data f) out;
    let start := padded in
    let options := start + filenameSize in
    let t := outSize - sizeof_trailer in
    out ← zwrite start (sm_filename f ++ [NUL]) out;
    out ← zwrite (options + u32 (filenameSize - 1)) [NUL] out;
    out ← zwrite options (sm_options f ++ [NUL]) out;
    out ← zwrite (options + u32 (optionsSize - 1)) [NUL] out;
    out ← zwrite (start + filenameSize + optionsSize) (words 8 (sm_entries f)) out;
    out ← store e 4 t TRAILER_MAGIC out;
    out ← store e 4 (t + 4) TRAILER_VERSION out;
    out ← store e 2 (t + 28) n out;
    out ← store e 4 (t + 12) uncompressedSize out;
    out ← store e 4 (t + 8) compressedSize out;
    out ← store e 4 (t + 20) filenameSize out;
    out ← store e 4 (t + 24) optionsSize out;
    store e 4 (t + 16) (sm_id f) out.

(** ** Registration (registration.cc) *)

Definition NEW_PROCES_MAGIC : Z := 0x76817812.
Definition NEW_PROCES_VERSION : Z := 1.
Definition sizeof_new_process_entry : Z := 12.

Definition unmarshalProcessEntry (p : bytes) : res bool :=
  magic ← load e 4 p 0;
  if negb (magic =? NEW_PROCES_MAGIC) then Ok false
  else
    version ← load e 4 p 4;
    if negb (version =? NEW_PROCES_VERSION) then Ok false
    else
      entry_size ← load e 2 p 8;
      if entry_size <? sizeof_new_process_entry + 1 then Ok false
      else
        let filenameSize := u16 (entry_size - sizeof_new_process_entry) in
        c ← zread p (sizeof_new_process_entry + (filenameSize - 1)) 1;
        Ok (bool_decide (c = [NUL])).

Definition parseProcessEntry (p : bytes) : res (option (Z * bytes)) :=
  ok ← unmarshalProcessEntry p;
  if negb ok then Ok None
  else
    pid ← load e 2 p 10;
    filename ← zc_str p sizeof_new_process_entry;
    Ok (Some (pid, filename)).

Definition createProcessEntry (pid : Z) (filename : bytes) : res bytes :=
  let size := u32 (sizeof_new_process_entry + Z.of_nat (length filename) + 1) in
  let entry := zeros (Z.to_nat size) in
  entry ← store e 4 0 NEW_PROCES_MAGIC entry;
  entry ← store e 4 4 NEW_PROCES_VERSION entry;
  entry ← store e 2 8 size entry;
  entry ← store e 2 10 pid entry;
  zwrite sizeof_new_process_entry (filename ++ [NUL]) entry.
End format.

(** ** Bits of the shared memory *)

(** The mapping has the words the object says; the counter is a [uint32_t]. *)
Definition smm_wf (m : system_mode_memory) : Prop :=
  Z.of_nat (length (smm_data m)) = smm_n_entries m ∧ 0 ≤ smm_dirtyCount m < 2 ^ 32.

(** The indices of the mapping. *)
Definition in_range (m : system_mode_memory) (index : Z) : bool := index / 32 <? smm_n_entries m.

(** Whether an index is hit, where [indexIsHit] is defined. *)
Definition hit (m : system_mode_memory) (index : Z) : bool :=
  match indexIsHit m index with Ok b => b | _ => false end.

Lemma index_bit index : 0 ≤ index mod 32 < 32.
Proof. by apply Z.mod_pos_bound. Qed.

Lemma bit_mask_spec cur bit : 0 ≤ bit < 32 →
  negb (Z.land cur (bit_mask bit) =? 0) = Z.testbit cur bit.
Proof.
  intros Hb. unfold bit_mask. rewrite Z.shiftl_1_l, uw_small
    by (split; [lia|apply Z.pow_lt_mono_r; lia]).
  destruct (Z.eqb_spec (Z.land cur (2 ^ bit)) 0) as [E|E]; cbn; symmetry.
  - rewrite <-(andb_true_r (Z.testbit _ _)), <-(Z.pow2_bits_true bit) by lia.
    by rewrite <-Z.land_spec, E, Z.bits_0.
  - destruct (Z.testbit cur bit) eqn:T; [done|]. destruct E. apply Z.bits_inj'. intros n Hn.
    rewrite Z.land_spec, Z.bits_0, Z.pow2_bits_eqb by lia.
    destruct (Z.eqb_spec bit n) as [<-|]; [by rewrite T|apply andb_false_r].
Qed.

Lemma testbit_mask bit n : 0 ≤ bit < 32 → 0 ≤ n → Z.testbit (bit_mask bit) n = (bit =? n).
Proof.
  intros. unfold bit_mask. rewrite Z.shiftl_1_l, uw_small
    by (split; [lia|apply Z.pow_lt_mono_r; lia]). apply Z.pow2_bits_eqb. lia.
Qed.

Lemma word_at_ok m index : smm_wf m → 0 ≤ index → in_range m index = true →
  ∃ w, smm_data m !! Z.to_nat (index / 32) = Some w ∧ word_at m (index / 32) = Ok w.
Proof.
  unfold smm_wf, in_range, word_at. intros [Hwf _] Hi Hr.
  pose proof (Z.div_pos index 32).
  destruct (lookup_lt_is_Some_2 (smm_data m) (Z.to_nat (index / 32))) as [w Hw]; [lia|].
  exists w. by rewrite Hw.
Qed.

Lemma hit_word m index w : 0 ≤ index → in_range m index = true →
  smm_data m !! Z.to_nat (index / 32) = Some w → hit m index = Z.testbit w (index mod 32).
Proof.
  unfold in_range, hit, indexIsHit, word_at. intros Hi Hr Hw.
  destruct (Z.leb_spec (smm_n_entries m) (index / 32)); [lia|]. rewrite Hw. cbn.
  apply bit_mask_spec, index_bit.
Qed.
Lemma hit_out m index : in_range m index = false → hit m index = false.
Proof.
  unfold in_range, hit, indexIsHit. intros Hr.
  by destruct (Z.leb_spec (smm_n_entries m) (index / 32)); [|lia].
Qed.

Lemma wf_count m : smm_wf m → smm_wf (smm_set_dirty (u32 (smm_dirtyCount m + 1)) m).
Proof. intros [? ?]. split; [done|]. apply u32_range. Qed.
Lemma wf_set_word m k v : smm_wf m → smm_wf (smm_set_data (<[k := v]> (smm_data m)) m).
Proof. unfold smm_wf. cbn. by rewrite length_insert. Qed.

(** Setting the bit of an index changes what is hit at that index only. *)
Lemma hit_set m index w j : smm_wf m → 0 ≤ index → in_range m index = true → 0 ≤ j →
  smm_data m !! Z.to_nat (index / 32) = Some w →
  let m' := smm_set_data (<[Z.to_nat (index / 32) := Z.lor w (bit_mask (index mod 32))]> (smm_data m)) m in
  hit m' j = hit m j || (j =? index).
Proof.
  intros Hwf Hi Hr Hj Hw m'. destruct (in_range m j) eqn:Hrj.
  - destruct (word_at_ok m j Hwf Hj Hrj) as (v & Hv & _). rewrite (hit_word m j v) by done.
    pose proof (Z.div_mod j 32). pose proof (Z.div_mod index 32).
    pose proof (index_bit index). pose proof (index_bit j).
    pose proof (Z.div_pos j 32). pose proof (Z.div_pos index 32).
    destruct (decide (j / 32 = index / 32)) as [E|E].
    + rewrite (hit_word m' j (Z.lor w (bit_mask (index mod 32)))); [|done..|].
      2: { cbn. rewrite E. apply list_lookup_insert_eq. eauto using lookup_lt_Some. }
      rewrite E, Hw in Hv. injection Hv as <-. rewrite Z.lor_spec, testbit_mask by lia.
      f_equal. destruct (Z.eqb_spec (index mod 32) (j mod 32)), (Z.eqb_spec j index); congruence || lia.
    + rewrite (hit_word m' j v); [|done..|].
      2: { cbn. rewrite list_lookup_insert_ne by lia. done. }
      destruct (Z.eqb_spec j index); [congruence|]. by rewrite orb_false_r.
  - rewrite !hit_out by done. destruct (Z.eqb_spec j index); [congruence|done].
Qed.

(** One call does what an interleaving of one call does. *)
Lemma reportIndex_hit m index : smm_wf m → 0 ≤ index →
  ∃ m', reportIndex index m = Ok m' ∧ smm_wf m' ∧
    ∀ j, 0 ≤ j → hit m' j = hit m j || (in_range m index && (j =? index)).
Proof.
  intros Hwf Hi. unfold reportIndex. destruct (Z.leb_spec (smm_n_entries m) (index / 32)) as [Hr|Hr].
  { exists m. split_and!; [done|done|]. intros. unfold in_range.
    destruct (Z.ltb_spec (index / 32) (smm_n_entries m)); [lia|]. by rewrite orb_false_r. }
  assert (in_range m index = true) as Hin by (unfold in_range; lia).
  destruct (word_at_ok m index Hwf Hi Hin) as (w & Hw & E). rewrite E. cbn.
  rewrite bit_mask_spec by apply index_bit. destruct (Z.testbit w (index mod 32)) eqn:T.
  - exists m. split_and!; [done..|]. intros j Hj. rewrite Hin.
    destruct (Z.eqb_spec j index) as [->|]; [|by rewrite orb_false_r].
    by rewrite (hit_word m index w), T.
  - eexists. split_and!; [done|by apply (wf_count (smm_set_data _ m)), wf_set_word|]. intros j Hj. rewrite Hin.
    by apply (hit_set m index w).
Qed.

(** A call on its own is a schedule of its machine. *)
Lemma reportIndex_steps m index : smm_wf m → 0 ≤ index →
  ∃ m', reportIndex index m = Ok m' ∧ rtc report_step ([RStart index], m) ([RDone index], m').
Proof.
  intros Hwf Hi.
  assert (∀ r m r' m', report_access r m = Some (Ok (r', m')) → report_step ([r], m) ([r'], m')) as Hone.
  { intros r m1 r' m2 H. by apply (report_one [r] m1 0 r r' m2). }
  unfold reportIndex. destruct (smm_n_entries m <=? index / 32) eqn:Hr.
  { exists m. split; [done|]. apply rtc_once, Hone. cbn. by rewrite Hr. }
  assert (in_range m index = true) as Hin by (unfold in_range; lia).
  destruct (word_at_ok m index Hwf Hi Hin) as (w & Hw & E). rewrite E. cbn.
  destruct (negb (Z.land w (bit_mask (index mod 32)) =? 0)) eqn:T.
  { exists m. split; [done|]. apply rtc_once, Hone. cbn. rewrite Hr, E. cbn. by rewrite T. }
  eexists. split; [done|].
  eapply rtc_l; [apply Hone; cbn; rewrite Hr, E; cbn; by rewrite T|].
  eapply rtc_l; [apply Hone; cbn; by rewrite E|].
  eapply rtc_l; [apply Hone; cbn; rewrite E; cbn; by rewrite Z.eqb_refl|].
  by apply rtc_once, Hone.
Qed.

(** ** Interleavings *)

Definition rep_index (r : Reporting) : Z :=
  match r with
  | RStart i | RLoop i | RSwap i _ | RCount i | RDone i => i
  end.
(** Calls that have not swapped yet, and those about to count. *)
Definition is_unswapped (r : Reporting) : bool :=
  match r with RStart _ | RLoop _ | RSwap _ _ => true | _ => false end.
Definition is_counting (r : Reporting) : bool := match r with RCount _ => true | _ => false end.
Definition is_done (r : Reporting) : bool := match r with RDone _ => true | _ => false end.

(** What a call knows. *)
Definition rep_ok (m : system_mode_memory) (r : Reporting) : Prop :=
  0 ≤ rep_index r ∧
  match r with
  | RStart _ => True
  | RLoop i | RSwap i _ => in_range m i = true
  | RCount i => hit m i = true
  | RDone i => in_range m i = true → hit m i = true
  end.

Definition something_new (m0 m : system_mode_memory) : Prop :=
  ∃ j, 0 ≤ j ∧ hit m j = true ∧ hit m0 j = false.

Record machine_ok (m0 : system_mode_memory) (indices : list Z) (rs : list Reporting)
    (m : system_mode_memory) : Prop := {
  mo_wf : smm_wf m;
  mo_size : smm_n_entries m = smm_n_entries m0;
  mo_clean : smm_cleanCount m = smm_cleanCount m0;
  mo_indices : rep_index <$> rs = indices;
  mo_calls : Forall (rep_ok m) rs;
  mo_keeps j : 0 ≤ j → hit m0 j = true → hit m j = true;
  mo_only j : 0 ≤ j → hit m j = true → hit m0 j = true ∨ j ∈ indices;
  mo_dirty : ∃ c : nat, smm_dirtyCount m = u32 (smm_dirtyCount m0 + Z.of_nat c) ∧
    (c + count_if is_counting rs + count_if is_unswapped rs ≤ length rs)%nat ∧
    (something_new m0 m → 1 ≤ c + count_if is_counting rs)%nat;
}.

Lemma rep_ok_mono m m' r :
  smm_n_entries m' = smm_n_entries m → (∀ j, 0 ≤ j → hit m j = true → hit m' j = true) →
  rep_ok m r → rep_ok m' r.
Proof.
  intros Hn Hh [Hi Hr]. split; [done|]. unfold in_range in *. rewrite Hn. destruct r; cbn in *; auto.
Qed.

Lemma count_if_update {A} (p : A → bool) l i x y :
  l !! i = Some x →
  (count_if p (<[i:=y]> l) + (if p x then 1 else 0) = count_if p l + (if p y then 1 else 0))%nat.
Proof.
  intros Hi. rewrite insert_take_drop by eauto using lookup_lt_Some.
  rewrite <-(take_drop_middle l i x Hi) at 3. rewrite !count_if_app. cbn.
  destruct (p x), (p y); cbn; lia.
Qed.

(** What one access does: a call moves on without a change, sets its bit, or
    counts it. *)
Record access_effect (m m' : system_mode_memory) (r r' : Reporting) : Prop := {
  ae_index : rep_index r' = rep_index r;
  ae_pos : 0 ≤ rep_index r;
  ae_wf : smm_wf m';
  ae_size : smm_n_entries m' = smm_n_entries m;
  ae_clean : smm_cleanCount m' = smm_cleanCount m;
  ae_hit k : 0 ≤ k → hit m' k = hit m k || ((k =? rep_index r) && is_counting r');
  ae_ok : rep_ok m' r';
  ae_cases :
    (m' = m ∧ is_counting r = false ∧ is_counting r' = false ∧
      (is_unswapped r' = true → is_unswapped r = true)) ∨
    (is_unswapped r = true ∧ is_counting r = false ∧ is_counting r' = true ∧
      is_unswapped r' = false ∧ smm_dirtyCount m' = smm_dirtyCount m) ∨
    (is_counting r = true ∧ is_unswapped r = false ∧ is_counting r' = false ∧
      is_unswapped r' = false ∧ smm_data m' = smm_data m ∧
      smm_dirtyCount m' = u32 (smm_dirtyCount m + 1));
}.

(** A call that only moves on. *)
Lemma access_move m r r' :
  smm_wf m → rep_index r' = rep_index r → rep_ok m r' →
  is_counting r = false → is_counting r' = false → (is_unswapped r' = true → is_unswapped r = true) →
  access_effect m m r r'.
Proof.
  intros Hwf Hi [Hp Hr] Hc Hc' Hu. split; try done; [by rewrite <-Hi| |by left].
  intros k _. by rewrite Hc', andb_false_r, orb_false_r.
Qed.

Lemma report_access_effect m r r' m' :
  smm_wf m → rep_ok m r → report_access r m = Some (Ok (r', m')) → access_effect m m' r r'.
Proof.
  intros Hwf [Hpos Hr] Hacc.
  destruct r as [j|j|j val|j|j]; cbn in Hacc, Hpos, Hr; [| | | |done].
  - destruct (Z.leb_spec (smm_n_entries m) (j / 32)) as [Hn|Hn].
    { simplify_eq. apply access_move; try done. split; [done|].
      cbn. unfold in_range. lia. }
    assert (in_range m j = true) as Hin by (unfold in_range; lia).
    destruct (word_at_ok m j Hwf Hpos Hin) as (w & Hw & E). rewrite E in Hacc. cbn in Hacc.
    rewrite bit_mask_spec in Hacc by apply index_bit.
    destruct (Z.testbit w (j mod 32)) eqn:T; simplify_eq;
      apply access_move; try done.
    split; [done|]. intros _. cbn. by rewrite (hit_word _ j w).
  - destruct (word_at_ok m j Hwf Hpos Hr) as (w & Hw & E). rewrite E in Hacc. cbn in Hacc.
    simplify_eq. by apply access_move.
  - destruct (word_at_ok m j Hwf Hpos Hr) as (w & Hw & E). rewrite E in Hacc. cbn in Hacc.
    destruct (Z.eqb_spec w val) as [Heq|]; [subst w|simplify_eq; by apply access_move].
    injection Hacc as <- <-.
    assert (Hhit : ∀ k, 0 ≤ k → hit (smm_set_data
        (<[Z.to_nat (j / 32) := Z.lor val (bit_mask (j mod 32))]> (smm_data m)) m) k
        = hit m k || (k =? j)) by (intros; by apply (hit_set m j val)).
    split; try done; [by apply wf_set_word| | |by right; left].
    + intros k Hk. cbn. by rewrite Hhit, andb_true_r.
    + split; [done|]. cbn. by rewrite Hhit, Z.eqb_refl, orb_true_r.
  - simplify_eq. split; try done; [by apply wf_count| |by right; right].
    intros k _. cbn. by rewrite andb_false_r, orb_false_r.
Qed.

(** What the calls together know is kept by an access of one of them. *)
Lemma access_calls m m' r r' rs i :
  access_effect m m' r r' → rs !! i = Some r → Forall (rep_ok m) rs →
  Forall (rep_ok m') (<[i:=r']> rs) ∧ rep_index <$> <[i:=r']> rs = rep_index <$> rs.
Proof.
  intros He Hi Hf. split.
  - apply Forall_insert; [|apply He]. eapply Forall_impl; [exact Hf|].
    intros. eapply (rep_ok_mono m); [apply He| |done].
    intros k Hk Hh. by rewrite (ae_hit _ _ _ _ He), Hh.
  - rewrite list_fmap_insert, (ae_index _ _ _ _ He). apply list_insert_id.
    by rewrite list_lookup_fmap, Hi.
Qed.

Lemma machine_step m0 indices rs m rs' m' :
  report_step (rs, m) (rs', m') → machine_ok m0 indices rs m → machine_ok m0 indices rs' m'.
Proof.
  intros Hstep Hok. inversion Hstep as [? ? i r r' ? Hi Hacc]; subst; clear Hstep.
  destruct Hok as [H1 H2 H2c H3 H4 H5 H6 (c & Hc & Hle & Hnew)].
  pose proof (Forall_lookup_1 _ _ _ _ H4 Hi) as Hr.
  pose proof (report_access_effect m r r' m' H1 Hr Hacc) as He.
  destruct (access_calls m m' r r' rs i He Hi H4) as [Hcalls Hidx].
  pose proof (count_if_update is_counting rs i r r' Hi) as E1.
  pose proof (count_if_update is_unswapped rs i r r' Hi) as E2.
  destruct He as [_ Hpos Hwf Hsize Hclean Hhit _ Hcases].
  split; [done|congruence|congruence|congruence|done|..].
  - intros k Hk Hh. by rewrite Hhit, H5 by auto.
  - intros k Hk. rewrite Hhit by done. intros [Hh|[->%Z.eqb_eq _]%andb_true_iff]%orb_true_iff; [by apply H6|].
    right. rewrite <-H3. apply list_elem_of_fmap. exists r. split; [done|]. by eapply list_elem_of_lookup_2.
  - rewrite length_insert. destruct Hcases as [(-> & Ec & Ec' & Hu)|[(Eu & Ec & Ec' & Eu' & Hd)|(Ec & Eu & Ec' & Eu' & Hd & Hd')]].
    + exists c. rewrite Ec, Ec' in E1.
      assert (count_if is_counting (<[i:=r']> rs) = count_if is_counting rs) as -> by lia.
      split_and!; [done| |done]. destruct (is_unswapped r'), (is_unswapped r); lia.
    + exists c. rewrite Ec, Ec' in E1. rewrite Eu, Eu' in E2. rewrite Hd.
      split_and!; [done|lia|lia].
    + exists (S c). rewrite Ec, Ec' in E1. rewrite Eu, Eu' in E2.
      assert (Hsame : something_new m0 m' → something_new m0 m).
      { intros (k & Hk & Hh & Hh0). exists k. split; [done|]. split; [|done].
        rewrite Hhit, Ec', andb_false_r, orb_false_r in Hh by done. done. }
      rewrite Hd', Hc, uw_add_l. split_and!; [f_equal; lia|lia|intros _; lia].
Qed.

Lemma machine_start m0 indices :
  smm_wf m0 → Forall (Z.le 0) indices → machine_ok m0 indices (RStart <$> indices) m0.
Proof.
  intros Hwf Hpos. split; try done.
  - rewrite <-list_fmap_compose. apply list_fmap_id.
  - apply Forall_fmap. eapply Forall_impl; [exact Hpos|]. by split.
  - auto.
  - exists O. rewrite Z.add_0_r. split_and!.
    + symmetry. apply uw_small, Hwf.
    + assert (count_if is_counting (RStart <$> indices) = O) as ->
        by (clear; induction indices; cbn; auto).
      apply count_if_le.
    + intros (j & _ & H1 & H2). congruence.
Qed.

Lemma machine_reach m0 indices rs m :
  smm_wf m0 → Forall (Z.le 0) indices → rtc report_step (RStart <$> indices, m0) (rs, m) →
  machine_ok m0 indices rs m.
Proof.
  intros Hwf Hpos Hsteps. apply (rtc_ind_r (λ st, machine_ok m0 indices st.1 st.2)
    (RStart <$> indices, m0)) in Hsteps; [done|by apply machine_start|].
  intros [rs1 m1] [rs2 m2] _ Hstep IH. by eapply machine_step.
Qed.

(** The potential of a call, and of the machine: a failed swap needs another
    call's swap, and every call swaps once. *)
Definition call_potential (m : system_mode_memory) (r : Reporting) : nat :=
  match r with
  | RStart _ => 4
  | RLoop _ => 3
  | RSwap i val => if bool_decide (smm_data m !! Z.to_nat (i / 32) = Some val) then 2 else 4
  | RCount _ => 1
  | RDone _ => 0
  end.
Definition potential (rs : list Reporting) (m : system_mode_memory) : nat :=
  2 * length rs * count_if is_unswapped rs + sum_list_with (call_potential m) rs.

Lemma sum_update {A} (f : A → nat) l i x y :
  l !! i = Some x → (sum_list_with f (<[i:=y]> l) + f x = sum_list_with f l + f y)%nat.
Proof.
  intros Hi. rewrite insert_take_drop by eauto using lookup_lt_Some.
  rewrite <-(take_drop_middle l i x Hi) at 3. rewrite !sum_list_with_app. cbn. lia.
Qed.

Lemma call_potential_swap m m' rs :
  (sum_list_with (call_potential m') rs ≤ sum_list_with (call_potential m) rs + 2 * length rs)%nat.
Proof.
  induction rs as [|r rs IH]; cbn; [lia|].
  assert (call_potential m' r ≤ call_potential m r + 2)%nat; [|lia].
  destruct r; cbn; try lia. repeat case_bool_decide; lia.
Qed.

Lemma potential_step rs m rs' m' :
  report_step (rs, m) (rs', m') → (potential rs' m' < potential rs m)%nat.
Proof.
  intros Hstep. inversion Hstep as [? ? i r r' ? Hi Hacc]; subst; clear Hstep.
  unfold potential. rewrite length_insert.
  pose proof (count_if_update is_unswapped rs i r r' Hi) as E1.
  pose proof (sum_update (call_potential m') rs i r r' Hi) as E2.
  pose proof (lookup_lt_Some _ _ _ Hi) as Hlt.
  assert (m' = m → is_unswapped r' = true → is_unswapped r = true →
    (call_potential m r' < call_potential m r)%nat →
    (2 * length rs * count_if is_unswapped (<[i:=r']> rs) +
     sum_list_with (call_potential m') (<[i:=r']> rs) <
     2 * length rs * count_if is_unswapped rs + sum_list_with (call_potential m) rs)%nat) as Hsame.
  { intros -> Hu' Hu Hlt'. rewrite Hu, Hu' in E1. nia. }
  destruct r as [j|j|j val|j|j]; cbn in Hacc; [| | | |done].
  - destruct (_ <=? _).
    { simplify_eq. cbn in E1, E2. nia. }
    destruct (word_at m (j / 32)); cbn in Hacc; try done.
    destruct (negb _); simplify_eq; [cbn in E1, E2; nia|]. apply Hsame; cbn; lia || done.
  - unfold word_at in Hacc. destruct (smm_data m !! Z.to_nat (j / 32)) as [w|] eqn:E; [|done].
    cbn in Hacc. simplify_eq. apply Hsame; try done. cbn. rewrite bool_decide_eq_true_2 by done. lia.
  - unfold word_at in Hacc. destruct (smm_data m !! Z.to_nat (j / 32)) as [w|] eqn:E; [|done].
    cbn in Hacc. destruct (Z.eqb_spec w val) as [Heq|Hne].
    + injection Hacc as <- <-. subst w.
      pose proof (call_potential_swap m (smm_set_data
        (<[Z.to_nat (j / 32) := Z.lor val (bit_mask (j mod 32))]> (smm_data m)) m) rs) as E3.
      cbn [is_unswapped call_potential] in E1, E2.
      assert (2 ≤ if bool_decide (smm_data (smm_set_data
        (<[Z.to_nat (j / 32) := Z.lor val (bit_mask (j mod 32))]> (smm_data m)) m)
        !! Z.to_nat (j / 32) = Some val) then 2 else 4)%nat by (case_bool_decide; lia).
      nia.
    + simplify_eq. apply Hsame; try done. cbn. rewrite bool_decide_eq_false_2 by congruence. lia.
  - simplify_eq. change (call_potential (smm_set_dirty _ m)) with (call_potential m) in *.
    cbn in E1, E2. nia.
Qed.

Lemma potential_start indices m :
  (potential (RStart <$> indices) m = length indices * (2 * length indices + 4))%nat.
Proof.
  unfold potential. rewrite length_fmap.
  assert (count_if is_unswapped (RStart <$> indices) = length indices) as ->
    by (induction indices; cbn; auto).
  assert (sum_list_with (call_potential m) (RStart <$> indices) = 4 * length indices)%nat as ->
    by (induction indices as [|? ? IH]; cbn [sum_list_with fmap list_fmap length]; [done|]; rewrite IH; cbn; lia).
  lia.
Qed.

Lemma report_progress m0 indices rs m :
  machine_ok m0 indices rs m → forallb is_done rs = false → ∃ st, report_step (rs, m) st.
Proof.
  intros Hok Hnot.
  assert (∃ i r, rs !! i = Some r ∧ is_done r = false) as (i & r & Hi & Hr).
  { clear Hok. induction rs as [|r rs IH]; [done|]. cbn in Hnot.
    destruct (is_done r) eqn:E; [|by exists O, r]. destruct (IH Hnot) as (i & r' & ? & ?).
    by exists (S i), r'. }
  pose proof (mo_wf _ _ _ _ Hok) as Hwf.
  pose proof (Forall_lookup_1 _ _ _ _ (mo_calls _ _ _ _ Hok) Hi) as [Hpos Hc].
  assert (∃ r' m', report_access r m = Some (Ok (r', m'))) as (r' & m' & Hacc);
    [|by exists (<[i:=r']> rs, m'); econstructor].
  destruct r as [j|j|j val|j|j]; cbn in Hpos, Hc |- *; [| | | |done].
  - destruct (Z.leb_spec (smm_n_entries m) (j / 32)); [by eauto|].
    destruct (word_at_ok m j Hwf Hpos) as (w & _ & ->); [unfold in_range; lia|]. cbn.
    case_match; eauto.
  - destruct (word_at_ok m j Hwf Hpos Hc) as (w & _ & ->). cbn. eauto.
  - destruct (word_at_ok m j Hwf Hpos Hc) as (w & _ & ->). cbn. case_match; eauto.
  - eauto.
Qed.

(** C22: processes that report hits to the shared memory do not lose each
    other's.  However their accesses interleave, no bit is ever cleared and only
    reported indices are set; when all calls have returned exactly the reported
    indices inside the mapping have been added, and if one of them was new a
    clean memory has become dirty, so that it will be written. *)
Theorem concurrent_reports m0 indices rs m :
  smm_wf m0 → Forall (Z.le 0) indices → rtc report_step (RStart <$> indices, m0) (rs, m) →
  (∀ j, 0 ≤ j → hit m0 j = true → hit m j = true) ∧
  (∀ j, 0 ≤ j → hit m j = true → hit m0 j = true ∨ j ∈ indices) ∧
  (forallb is_done rs = true →
    (∀ j, 0 ≤ j → hit m j = hit m0 j || (bool_decide (j ∈ indices) && in_range m0 j)) ∧
    (isDirty m0 = false → Z.of_nat (length indices) < 2 ^ 32 → something_new m0 m →
      isDirty m = true)).
Proof.
  intros Hwf Hpos Hsteps. pose proof (machine_reach _ _ _ _ Hwf Hpos Hsteps) as Hok.
  split; [apply (mo_keeps _ _ _ _ Hok)|]. split; [apply (mo_only _ _ _ _ Hok)|].
  intros Hdone.
  assert (∀ r, r ∈ rs → is_done r = true) as Hall.
  { intros r Hr. rewrite List.forallb_forall in Hdone. by apply Hdone, list_elem_of_In. }
  split.
  - intros j Hj. apply eq_true_iff_eq. rewrite orb_true_iff, andb_true_iff, bool_decide_eq_true.
    split.
    + intros Hh. destruct (mo_only _ _ _ _ Hok j Hj Hh) as [|Hin]; [by left|right]. split; [done|].
      destruct (in_range m0 j) eqn:E; [done|]. rewrite hit_out in Hh; [done|].
      unfold in_range in *. by rewrite (mo_size _ _ _ _ Hok).
    + intros [Hh|[Hin Hr]]; [by apply (mo_keeps _ _ _ _ Hok)|].
      rewrite <-(mo_indices _ _ _ _ Hok) in Hin. apply list_elem_of_fmap in Hin as (r & -> & Hr').
      pose proof (proj1 (Forall_forall _ _) (mo_calls _ _ _ _ Hok) r Hr') as [_ Hc].
      specialize (Hall r Hr'). destruct r; try done. apply Hc.
      unfold in_range in *. by rewrite (mo_size _ _ _ _ Hok).
  - intros Hclean Hlen Hnew. destruct (mo_dirty _ _ _ _ Hok) as (c & Hc & Hle & Hpos').
    assert (count_if is_counting rs = O) as E.
    { rewrite (count_if_ext _ (λ _, false)); [clear; by induction rs|].
      intros r Hr. specialize (Hall r Hr). by destruct r. }
    rewrite E in *. specialize (Hpos' Hnew).
    assert (length rs = length indices) by (by rewrite <-(mo_indices _ _ _ _ Hok), length_fmap).
    unfold isDirty in *. rewrite (mo_clean _ _ _ _ Hok), Hc.
    destruct (Z.eqb_spec (smm_dirtyCount m0) (smm_cleanCount m0)) as [<-|]; [|done].
    destruct Hwf as [_ Hd]. destruct (Z.eqb_spec (u32 (smm_dirtyCount m0 + Z.of_nat c)) (smm_dirtyCount m0))
      as [Heq|]; [|done].
    unfold uw in Heq. pose proof (Z.div_mod (smm_dirtyCount m0 + Z.of_nat c) (2 ^ 32)).
    assert ((smm_dirtyCount m0 + Z.of_nat c) / 2 ^ 32 = 0 ∨
            1 ≤ (smm_dirtyCount m0 + Z.of_nat c) / 2 ^ 32) by
      (pose proof (Z.div_pos (smm_dirtyCount m0 + Z.of_nat c) (2 ^ 32)); lia).
    nia.
Qed.

(** The lock-free loop ends.  [n] concurrent calls make at most
    [n * (2 * n + 4)] accesses between them, none of them outside the mapping,
    and as long as a call has not returned some call can make its next access. *)
Theorem concurrent_reports_terminate m0 indices rs m steps :
  smm_wf m0 → Forall (Z.le 0) indices →
  nsteps report_step steps (RStart <$> indices, m0) (rs, m) →
  (steps ≤ length indices * (2 * length indices + 4))%nat ∧
  (forallb is_done rs = false → ∃ st, report_step (rs, m) st).
Proof.
  intros Hwf Hpos Hsteps. split.
  - rewrite <-(potential_start indices m0).
    assert (∀ n st st', nsteps report_step n st st' → (n + potential st'.1 st'.2 ≤ potential st.1 st.2)%nat)
      as Hpot; [|specialize (Hpot _ _ _ Hsteps); cbn [fst snd] in Hpot; lia].
    clear. induction 1 as [|n [r1 m1] [r2 m2] st Hstep _ IH]; [done|].
    pose proof (potential_step _ _ _ _ Hstep). cbn [fst snd] in *. lia.
  - apply report_progress with m0 indices. eapply machine_reach; [done..|].
    by eapply rtc_nsteps_2.
Qed.

(** Two processes report bits 0 and 3 of one word; the second reads the word
    before the first swaps it and must try again. *)
Definition demo_memory : system_mode_memory := new_system_mode_memory [] [] 1.

Definition demo_schedule : list nat := [0; 1; 0; 1; 0; 1; 1; 1; 0; 1]%nat.

(** Runs the calls in the order of a schedule. *)
Fixpoint run_schedule (l : list nat) (rs : list Reporting) (m : system_mode_memory)
    : option (list Reporting * system_mode_memory) :=
  match l with
  | [] => Some (rs, m)
  | i :: l =>
      r ← rs !! i;
      match report_access r m with
      | Some (Ok (r', m')) => run_schedule l (<[i := r']> rs) m'
      | _ => None
      end
  end.

Lemma run_schedule_steps l : ∀ rs m st,
  run_schedule l rs m = Some st → nsteps report_step (length l) (rs, m) st.
Proof.
  induction l as [|i l IH]; intros rs m st; cbn.
  { intros [= <-]. constructor. }
  destruct (rs !! i) as [r|] eqn:Hi; cbn; [|done].
  destruct (report_access r m) as [[[r' m']| | |]|] eqn:Hr; try done.
  intros H. econstructor; [by econstructor|]. by apply IH.
Qed.

Definition demo_result : list Reporting * system_mode_memory :=
  ([RDone 0; RDone 3], mkMemory [] [] 1 [9] 2 0).
Lemma demo_run : nsteps report_step 10 (RStart <$> [0; 3], demo_memory) demo_result.
Proof. apply (run_schedule_steps demo_schedule). reflexivity. Qed.
Lemma demo_wf : smm_wf demo_memory.
Proof. split; [reflexivity|]. cbn. lia. Qed.

Lemma concurrent_reports_witness :
  forallb is_done demo_result.1 = true ∧
  (hit demo_result.2 3 = hit demo_memory 3 || (bool_decide (3 ∈ [0; 3]) && in_range demo_memory 3)) ∧
  hit demo_result.2 3 = true ∧ hit demo_result.2 1 = false.
Proof.
  destruct (concurrent_reports demo_memory [0; 3] demo_result.1 demo_result.2 demo_wf
    ltac:(repeat constructor; lia) (rtc_nsteps_2 _ _ _ demo_run)) as (_ & _ & H).
  split; [reflexivity|]. split; [apply (proj1 (H eq_refl)); lia|]. split; reflexivity.
Defined.
Lemma concurrent_reports_terminate_witness :
  (10 ≤ 2 * (2 * 2 + 4))%nat ∧ forallb is_done demo_result.1 = true.
Proof.
  split; [|reflexivity].
  exact (proj1 (concurrent_reports_terminate demo_memory [0; 3] demo_result.1 demo_result.2 10
    demo_wf ltac:(repeat constructor; lia) demo_run)).
Defined.
