(* ===== verification/SystemProofs.v ===== *)
(** * System mode: what is written is read back

    Round trips of the coverage memory's file, of instrumented binaries and of the
    registration message, and the bound on the file name that the trailer's
    writer needs. *)
From S2P Require Export SystemMode.
From stdpp Require Import options.

(** Running stores from left to right over zeroes, and loads from known blocks. *)
Ltac store_all :=
  unfold store; repeat (skip_parts; rewrite zwrite_here by (len; lia); cbn [mbind res_mbind res_bind]).
Ltac load_field :=
  repeat (rewrite load_skip by (len; lia); len); rewrite load_here by (len; lia);
  rewrite Z.mod_small; [reflexivity|done || lia].

Section proofs.
Context (e : endian).
Abbreviation enc := (native_bytes e).

Lemma length_words n l : length (words e n l) = (n * length l)%nat.
Proof.
  unfold words. induction l as [|x l IH]; cbn; [lia|].
  rewrite length_app, length_native_bytes. unfold words in IH. lia.
Qed.
Lemma words_cons n x l : words e n (x :: l) = enc n x ++ words e n l.
Proof. done. Qed.

Lemma read_words_ok n l rest : ∀ pre off,
  off = Z.of_nat (length pre) → Forall (λ v, 0 ≤ v < 256 ^ Z.of_nat n) l →
  read_words e n (length l) (pre ++ words e n l ++ rest) off = Ok l.
Proof.
  induction l as [|x l IH]; intros pre off -> Hl; [done|].
  apply Forall_cons in Hl as [Hx Hl]. cbn [length read_words]. rewrite words_cons, <-app_assoc.
  rewrite load_skip, load_here by lia. cbn [mbind res_mbind res_bind].
  rewrite Z.mod_small by done. rewrite (app_assoc pre). rewrite IH; [done| |done].
  rewrite length_app, length_native_bytes. lia.
Qed.

Definition memory_block (m : system_mode_memory) : bytes :=
  let fo := smm_n_entries m * 4 + 24 in
  enc 4 SYSTEM_MODE_FILE_MAGIC ++ enc 4 SYSTEM_MODE_FILE_VERSION ++ enc 4 (smm_n_entries m) ++
  zeros 4 ++ enc 4 fo ++ enc 4 (fo + Z.of_nat (length (smm_filename m)) + 1) ++
  words e 4 (smm_data m) ++ (smm_filename m ++ [NUL]) ++ (smm_options m ++ [NUL]).

Definition memory_size (m : system_mode_memory) : Z :=
  sizeof_system_mode_file + smm_n_entries m * 4 +
  Z.of_nat (length (smm_filename m)) + Z.of_nat (length (smm_options m)) + 2.

Lemma memoryToFile_ok m : smm_wf m → memory_size m < 2 ^ 32 →
  memoryToFile e m = Ok (memory_block m).
Proof.
  intros [Hwf _] Hsize. unfold memory_size, sizeof_system_mode_file in *.
  unfold memoryToFile, sizeof_system_mode_file. rewrite take_ge by lia.
  rewrite (uw_small 32 (smm_n_entries m * 4 + 24)) by lia.
  rewrite (uw_small 32 (_ + 1)) by lia.
  set (n := smm_n_entries m) in *. set (d := smm_data m) in *.
  replace (Z.to_nat _) with (4 + (4 + (4 + (4 + (4 + (4 + (4 * length d +
    (S (length (smm_filename m)) + S (length (smm_options m))))))))))%nat by lia.
  rewrite !zeros_add.
  rewrite <-(app_nil_r (zeros (S (length (smm_options m))))).
  store_all. skip_parts. rewrite zwrite_here by (rewrite ?length_words; len; lia).
  cbn [mbind res_mbind res_bind]. by rewrite app_nil_r.
Qed.

Lemma length_memory_block m : smm_wf m → Z.of_nat (length (memory_block m)) = memory_size m.
Proof.
  intros [Hwf _]. unfold memory_block, memory_size, sizeof_system_mode_file.
  rewrite !length_app, !length_native_bytes, length_words, length_zeros. cbn [length]. lia.
Qed.

Lemma fileToMemory_ok m :
  smm_wf m → memory_size m < 2 ^ 32 → Forall (λ w, 0 ≤ w < 2 ^ 32) (smm_data m) →
  no_nul (smm_filename m) → no_nul (smm_options m) →
  fileToMemory e (memory_block m) =
  Ok (Some (mkMemory (smm_filename m) (smm_options m) (smm_n_entries m) (smm_data m) 0 0)).
Proof.
  intros Hwf Hsize Hd Hf Ho.
  destruct Hwf as [Hwf _].
  unfold memory_size, sizeof_system_mode_file in Hsize.
  set (b := memory_block m). set (n := smm_n_entries m) in *.
  set (fo := n * 4 + 24). set (oo := fo + Z.of_nat (length (smm_filename m)) + 1).
  assert (load e 4 b 0 = Ok SYSTEM_MODE_FILE_MAGIC) as L0 by (unfold b, memory_block; load_field).
  assert (load e 4 b 4 = Ok SYSTEM_MODE_FILE_VERSION) as L4 by (unfold b, memory_block; load_field).
  assert (load e 4 b 8 = Ok n) as L8 by (unfold b, memory_block; load_field).
  assert (load e 4 b 16 = Ok fo) as L16 by (unfold b, memory_block; load_field).
  assert (load e 4 b 20 = Ok oo) as L20 by (unfold b, memory_block; load_field).
  set (hdr := enc 4 SYSTEM_MODE_FILE_MAGIC ++ enc 4 SYSTEM_MODE_FILE_VERSION ++ enc 4 n ++ zeros 4 ++
            enc 4 fo ++ enc 4 oo).
  assert (length hdr = 24%nat) as Hlen by (unfold hdr; by len).
  assert (b = (hdr ++ words e 4 (smm_data m)) ++ smm_filename m ++ NUL :: smm_options m ++ [NUL]) as E1
    by (unfold b, memory_block, hdr; by rewrite <-!app_assoc).
  assert (b = ((hdr ++ words e 4 (smm_data m)) ++ smm_filename m ++ [NUL]) ++ smm_options m ++ NUL :: [])
    as E2 by (rewrite E1; by rewrite <-!app_assoc).
  assert (zc_str b fo = Ok (smm_filename m)) as Sf
    by (rewrite E1; apply zc_str_at; [rewrite length_app, length_words; lia|done]).
  assert (zc_str b oo = Ok (smm_options m)) as So
    by (rewrite E2; apply zc_str_at; [rewrite !length_app, length_words; cbn [length]; lia|done]).
  assert (read_words e 4 (Z.to_nat n) b 24 = Ok (smm_data m)) as Sd.
  { rewrite E1, <-app_assoc. replace (Z.to_nat n) with (length (smm_data m)) by lia.
    apply read_words_ok; [lia|done]. }
  unfold fileToMemory, sizeof_system_mode_file. rewrite L0. cbn [mbind res_mbind res_bind].
  rewrite Z.eqb_refl, L4. cbn. rewrite L8. cbn. rewrite L16. cbn.
  destruct (Z.ltb_spec fo (24 + n * 4)); [lia|]. rewrite L20. cbn. rewrite uw_small by lia.
  destruct (Z.ltb_spec oo (fo + 1)); [lia|].
  rewrite Sf. cbn. rewrite So. cbn. by rewrite Sd.
Qed.

(** C36: the coverage memory that is written to disk is the one that is read
    back, hit for hit, with its file name and options, as long as the file fits
    the format's 32-bit offsets. *)
Theorem memory_file_roundtrip m :
  smm_wf m → memory_size m < 2 ^ 32 → Forall (λ w, 0 ≤ w < 2 ^ 32) (smm_data m) →
  no_nul (smm_filename m) → no_nul (smm_options m) →
  ∃ b m', memoryToFile e m = Ok b ∧ Z.of_nat (length b) = memory_size m ∧
    fileToMemory e b = Ok (Some m') ∧
    smm_filename m' = smm_filename m ∧ smm_options m' = smm_options m ∧
    smm_data m' = smm_data m ∧ (∀ j, hit m' j = hit m j) ∧ isDirty m' = false.
Proof.
  intros Hwf Hsize Hd Hf Ho. exists (memory_block m).
  exists (mkMemory (smm_filename m) (smm_options m) (smm_n_entries m) (smm_data m) 0 0).
  split_and!; [by apply memoryToFile_ok|by apply length_memory_block|by apply fileToMemory_ok|done..].
Qed.

(** ** Registration *)

Definition process_entry_block (pid : Z) (filename : bytes) : bytes :=
  enc 4 NEW_PROCES_MAGIC ++ enc 4 NEW_PROCES_VERSION ++
  enc 2 (13 + Z.of_nat (length filename)) ++ enc 2 pid ++ filename ++ [NUL].

Lemma createProcessEntry_ok pid filename : 13 + Z.of_nat (length filename) < 2 ^ 32 →
  createProcessEntry e pid filename = Ok (process_entry_block pid filename).
Proof.
  intros Hsize. unfold createProcessEntry, sizeof_new_process_entry.
  replace (12 + Z.of_nat (length filename) + 1) with (13 + Z.of_nat (length filename)) by lia.
  rewrite uw_small by lia.
  replace (Z.to_nat _) with (4 + (4 + (2 + (2 + S (length filename)))))%nat by lia.
  rewrite !zeros_add, <-(app_nil_r (zeros (S (length filename)))).
  store_all. by rewrite app_nil_r.
Qed.

(** What follows the entry in the buffer does not matter. *)
Lemma parseProcessEntry_block pid filename rest :
  0 ≤ pid < 2 ^ 16 → 13 + Z.of_nat (length filename) < 2 ^ 16 → no_nul filename →
  parseProcessEntry e (process_entry_block pid filename ++ rest) = Ok (Some (pid, filename)).
Proof.
  intros Hpid Hsize Hf. set (b := process_entry_block pid filename ++ rest).
  assert (load e 4 b 0 = Ok NEW_PROCES_MAGIC) as L0
    by (unfold b, process_entry_block; rewrite <-!app_assoc; load_field).
  assert (load e 4 b 4 = Ok NEW_PROCES_VERSION) as L4
    by (unfold b, process_entry_block; rewrite <-!app_assoc; load_field).
  assert (load e 2 b 8 = Ok (13 + Z.of_nat (length filename))) as L8
    by (unfold b, process_entry_block; rewrite <-!app_assoc; load_field).
  assert (load e 2 b 10 = Ok pid) as L10
    by (unfold b, process_entry_block; rewrite <-!app_assoc; load_field).
  set (hdr := enc 4 NEW_PROCES_MAGIC ++ enc 4 NEW_PROCES_VERSION ++
              enc 2 (13 + Z.of_nat (length filename)) ++ enc 2 pid).
  assert (length hdr = 12%nat) as Hlen by (unfold hdr; by len).
  assert (b = hdr ++ filename ++ NUL :: rest) as E
    by (unfold b, process_entry_block, hdr; by rewrite <-!app_assoc).
  assert (zc_str b 12 = Ok filename) as S12 by (rewrite E; apply zc_str_at; [by rewrite Hlen|done]).
  assert (zread b (12 + (Z.of_nat (length filename) + 1 - 1)) 1 = Ok [NUL]) as R.
  { rewrite E, zread_skip, zread_skip by (rewrite ?Hlen; lia).
    apply (zread_here [NUL]); [rewrite Hlen; lia|done]. }
  unfold parseProcessEntry, unmarshalProcessEntry, sizeof_new_process_entry.
  rewrite L0. cbn. rewrite L4. cbn. rewrite L8. cbn.
  destruct (Z.ltb_spec (13 + Z.of_nat (length filename)) (12 + 1)); [lia|].
  replace (13 + Z.of_nat (length filename) - 12) with (Z.of_nat (length filename) + 1) by lia.
  rewrite uw_small by lia. rewrite R. cbn. rewrite bool_decide_eq_true_2 by done. cbn.
  rewrite L10. cbn. by rewrite S12.
Qed.

(** The daemon decodes a registration message to the process and program
    that sent it, if the message's length fits its 16-bit field. *)
Theorem process_entry_roundtrip pid filename :
  0 ≤ pid < 2 ^ 16 → 13 + Z.of_nat (length filename) < 2 ^ 16 → no_nul filename →
  ∃ b, createProcessEntry e pid filename = Ok b ∧ parseProcessEntry e b = Ok (Some (pid, filename)).
Proof.
  intros Hpid Hsize Hf. exists (process_entry_block pid filename).
  split; [apply createProcessEntry_ok; lia|].
  rewrite <-(app_nil_r (process_entry_block pid filename)). by apply parseProcessEntry_block.
Qed.

(** ** Instrumented binaries *)

Lemma padTo8_spec n : 0 ≤ n → n ≤ padTo8 n < n + 8 ∧ padTo8 n mod 8 = 0.
Proof.
  intros H. unfold padTo8. change 7 with (Z.ones 3). rewrite Z.land_ones by lia.
  change (2 ^ 3) with 8. pose proof (Z.mod_pos_bound n 8).
  destruct (Z.eqb_spec (n mod 8) 0) as [E|E]; [lia|].
  split; [lia|]. replace (n + (8 - n mod 8)) with ((n / 8 + 1) * 8); [by rewrite Z.mod_mul|].
  pose proof (Z.div_mod n 8). lia.
Qed.
Lemma padTo8_multiple n : padTo8 (n * 8) = n * 8.
Proof.
  unfold padTo8. change 7 with (Z.ones 3). rewrite Z.land_ones by lia.
  change (2 ^ 3) with 8. by rewrite Z.mod_mul.
Qed.

(** Writes into the zeroes after what has been written. *)
Lemma zwrite_fill off d pre gap k k' :
  off = Z.of_nat (length pre + gap) → k = (gap + (length d + k'))%nat →
  zwrite off d (pre ++ zeros k) = Ok ((pre ++ zeros gap ++ d) ++ zeros k').
Proof.
  intros -> ->. rewrite !zeros_add, !zwrite_skip by (len; lia). rewrite zwrite_here by (len; lia).
  cbn [mbind res_mbind res_bind]. by rewrite <-!app_assoc.
Qed.
Lemma zwrite_str off s pre gap k k' :
  off = Z.of_nat (length pre + gap) → k = (gap + (length s + S k'))%nat →
  zwrite off (s ++ [NUL]) (pre ++ zeros k) = Ok ((pre ++ zeros gap ++ s) ++ zeros (S k')).
Proof.
  intros -> ->. rewrite (zwrite_fill _ _ _ gap _ k') by (len; lia).
  f_equal. rewrite <-!app_assoc. done.
Qed.
Lemma zwrite_nul off pre k :
  Z.of_nat (length pre) ≤ off < Z.of_nat (length pre + k) →
  zwrite off [NUL] (pre ++ zeros k) = Ok (pre ++ zeros k).
Proof.
  intros Hoff. set (g := (Z.to_nat off - length pre)%nat).
  rewrite (zwrite_fill _ _ _ g _ (k - g - 1)) by (len; lia).
  f_equal. rewrite <-!app_assoc. f_equal. change [NUL] with (zeros 1).
  rewrite <-!zeros_add. f_equal. lia.
Qed.
Lemma zread_nul off pre k post :
  Z.of_nat (length pre) ≤ off < Z.of_nat (length pre + k) →
  zread (pre ++ zeros k ++ post) off 1 = Ok [NUL].
Proof.
  intros Hoff. rewrite zread_skip by lia. set (g := Z.to_nat (off - Z.of_nat (length pre))).
  replace k with (g + (1 + (k - g - 1)))%nat by lia. rewrite !zeros_add, <-!app_assoc.
  rewrite zread_skip by (len; lia). apply zread_here; [len; lia|done].
Qed.

Lemma zwrite_all d n : length d = n → zwrite 0 d (zeros n) = Ok d.
Proof.
  intros <-. rewrite <-(app_nil_r (zeros _)), zwrite_here by (len; lia). by rewrite app_nil_r.
Qed.

(** The parts of a processed file. *)
Section processed.
Context (f : SystemModeFile).
Definition data_size : Z := padTo8 (Z.of_nat (length (sm_data f))).
Definition name_size : Z := padTo8 (Z.of_nat (length (sm_filename f)) + 1).
Definition opts_size : Z := padTo8 (Z.of_nat (length (sm_options f)) + 1).
Definition entries_size : Z := Z.of_nat (length (sm_entries f)) * 8.

(** What the format can hold. *)
Record fits : Prop := {
  fit_entries : 0 < Z.of_nat (length (sm_entries f)) < 2 ^ 16;
  fit_values : Forall (λ v, 0 ≤ v < 2 ^ 64) (sm_entries f);
  fit_id : 0 ≤ sm_id f < 2 ^ 32;
  fit_filename : no_nul (sm_filename f);
  fit_options : no_nul (sm_options f);
  fit_size : name_size + opts_size + entries_size < 2 ^ 32;
}.

Definition body1 : bytes :=
  sm_data f ++ zeros (Z.to_nat data_size - length (sm_data f)) ++ sm_filename f.
Definition body2 : bytes :=
  body1 ++ zeros (Z.to_nat name_size - length (sm_filename f)) ++ sm_options f.
Definition body3 : bytes :=
  body2 ++ zeros (Z.to_nat opts_size - length (sm_options f)) ++ words e 8 (sm_entries f).
Definition trailer_block : bytes :=
  enc 4 TRAILER_MAGIC ++ enc 4 TRAILER_VERSION ++ enc 4 entries_size ++ enc 4 entries_size ++
  enc 4 (sm_id f) ++ enc 4 name_size ++ enc 4 opts_size ++
  enc 2 (Z.of_nat (length (sm_entries f))) ++ zeros 2.

Lemma data_size_spec : Z.of_nat (length (sm_data f)) ≤ data_size ∧ data_size mod 8 = 0.
Proof. destruct (padTo8_spec (Z.of_nat (length (sm_data f)))); unfold data_size; lia. Qed.
Lemma name_size_spec : Z.of_nat (length (sm_filename f)) < name_size ∧ name_size mod 8 = 0.
Proof. destruct (padTo8_spec (Z.of_nat (length (sm_filename f)) + 1)); unfold name_size; lia. Qed.
Lemma opts_size_spec : Z.of_nat (length (sm_options f)) < opts_size ∧ opts_size mod 8 = 0.
Proof. destruct (padTo8_spec (Z.of_nat (length (sm_options f)) + 1)); unfold opts_size; lia. Qed.

Lemma length_body1 : Z.of_nat (length body1) = data_size + Z.of_nat (length (sm_filename f)).
Proof. pose proof data_size_spec. unfold body1. len. lia. Qed.
Lemma length_body2 :
  Z.of_nat (length body2) = data_size + name_size + Z.of_nat (length (sm_options f)).
Proof. pose proof length_body1. pose proof name_size_spec. unfold body2. len. lia. Qed.
Lemma length_body3 :
  Z.of_nat (length body3) = data_size + name_size + opts_size + entries_size.
Proof.
  pose proof length_body2. pose proof opts_size_spec. unfold body3, entries_size. len.
  rewrite length_words. lia.
Qed.

Lemma getProcessedData_ok : fits → name_size ≤ opts_size + entries_size + 32 →
  getProcessedData e f = Ok (body3 ++ trailer_block).
Proof.
  intros [[Hn Hn'] _ _ _ _ Hsize] Hname. pose proof length_body1 as L1.
  pose proof length_body2 as L2. pose proof length_body3 as L3.
  pose proof data_size_spec as [HD _]. pose proof name_size_spec as [HF _].
  pose proof opts_size_spec as [HO _].
  unfold getProcessedData, sizeof_trailer. unfold entries_size in *.
  fold data_size name_size opts_size.
  destruct (Z.eqb_spec (Z.of_nat (length (sm_entries f))) 0); [lia|].
  rewrite (uw_small 32 (_ * 8)) by lia. rewrite padTo8_multiple.
  rewrite (uw_small 32 (_ * 8)) by lia. rewrite (uw_small 32 name_size), (uw_small 32 opts_size) by lia.
  rewrite (uw_small 32 (name_size - 1)), (uw_small 32 (opts_size - 1)) by lia.
  rewrite take_ge by (rewrite length_words; lia).
  rewrite (zwrite_all (words _ _ _)) by (rewrite length_words; lia). cbn [mbind res_mbind res_bind].
  set (T := data_size + name_size + opts_size + Z.of_nat (length (sm_entries f)) * 8 + 32).
  change (zeros (Z.to_nat T)) with ([] ++ zeros (Z.to_nat T)).
  assert (T = data_size + name_size + opts_size + Z.of_nat (length (sm_entries f)) * 8 + 32) as HT by done.
  clearbody T.
  rewrite (zwrite_fill _ _ _ 0 _ (Z.to_nat (T - Z.of_nat (length (sm_data f))))) by (cbn; lia).
  cbn [mbind res_mbind res_bind zeros replicate app].
  rewrite (zwrite_str _ _ _ (Z.to_nat data_size - length (sm_data f)) _
    (Z.to_nat (T - data_size - Z.of_nat (length (sm_filename f)) - 1))) by lia.
  fold body1. cbn [mbind res_mbind res_bind].
  rewrite zwrite_nul by lia. cbn [mbind res_mbind res_bind].
  rewrite (zwrite_str _ _ _ (Z.to_nat name_size - length (sm_filename f)) _
    (Z.to_nat (T - data_size - name_size - Z.of_nat (length (sm_options f)) - 1))) by lia.
  fold body2. cbn [mbind res_mbind res_bind].
  rewrite zwrite_nul by lia. cbn [mbind res_mbind res_bind].
  rewrite (zwrite_fill _ _ _ (Z.to_nat opts_size - length (sm_options f)) _ 32)
    by (rewrite ?length_words; lia).
  fold body3. cbn [mbind res_mbind res_bind].
  change 32%nat with (4 + (4 + (4 + (4 + (4 + (4 + (4 + (2 + 2))))))))%nat.
  rewrite !zeros_add. unfold store.
  repeat (skip_parts; rewrite zwrite_here by (len; lia); cbn [mbind res_mbind res_bind]).
  done.
Qed.

Lemma length_trailer_block : length trailer_block = 32%nat.
Proof. unfold trailer_block. by len. Qed.

(** Reading the entries back. *)
Lemma read_entries_ok l : ∀ dn g,
  sm_entries g = dn → Forall (λ v, 0 ≤ v < 2 ^ 64) l →
  read_entries e (length l) (Z.of_nat (length dn)) (words e 8 (dn ++ l)) g =
  Ok (mkSystemModeFile (sm_id g) (sm_filename g) (sm_options g) (sm_data g) (dn ++ l)).
Proof.
  induction l as [|v l IH]; intros dn g Hg Hl.
  { cbn. rewrite app_nil_r, <-Hg. by destruct g. }
  apply Forall_cons in Hl as [Hv Hl]. cbn [length read_entries].
  assert (words e 8 (dn ++ v :: l) = words e 8 dn ++ enc 8 v ++ words e 8 l) as E
    by (unfold words; by rewrite bind_app).
  rewrite E, load_skip, load_here by (rewrite length_words; lia). rewrite <-E.
  cbn [mbind res_mbind res_bind]. rewrite Z.mod_small by done.
  replace (dn ++ v :: l) with ((dn ++ [v]) ++ l) by (by rewrite <-app_assoc).
  replace (Z.of_nat (length dn) + 1) with (Z.of_nat (length (dn ++ [v])))
    by (rewrite length_app; cbn; lia).
  unfold addEntry. rewrite IH; [done| |done]. cbn [sm_entries]. rewrite Nat2Z.id, Hg.
  replace (S (length dn) - length dn)%nat with 1%nat by lia. cbn.
  rewrite insert_app_r_alt by lia. by rewrite Nat.sub_diag.
Qed.

Ltac trailer_field b := unfold b, trailer_block; rewrite load_skip by lia; load_field.

Lemma land_7 z : Z.land z 7 = z mod 8.
Proof. change 7 with (Z.ones 3). by rewrite Z.land_ones. Qed.

(** The strings and the entries of a processed file. *)
Lemma parse_strings : no_nul (sm_filename f) → no_nul (sm_options f) →
  let b := body3 ++ trailer_block in
  zread b (data_size + (name_size - 1)) 1 = Ok [NUL] ∧
  zread b (data_size + name_size + (opts_size - 1)) 1 = Ok [NUL] ∧
  zc_str b data_size = Ok (sm_filename f) ∧
  zc_str b (data_size + name_size) = Ok (sm_options f) ∧
  zread b (data_size + name_size + opts_size) (Z.to_nat entries_size) = Ok (words e 8 (sm_entries f)).
Proof.
  intros Hfn Hop b. pose proof length_body1 as L1.
  pose proof length_body2 as L2. pose proof length_body3 as L3.
  pose proof data_size_spec as [HD _]. pose proof name_size_spec as [HF _].
  pose proof opts_size_spec as [HO _].
  set (k1 := (Z.to_nat name_size - length (sm_filename f))%nat).
  set (k2 := (Z.to_nat opts_size - length (sm_options f))%nat).
  assert (b = body2 ++ zeros k2 ++ words e 8 (sm_entries f) ++ trailer_block) as E2
    by (unfold b, body3; by rewrite <-!app_assoc).
  assert (b = body1 ++ zeros k1 ++ sm_options f ++ zeros k2 ++ words e 8 (sm_entries f) ++
            trailer_block) as E1 by (rewrite E2; unfold body2; by rewrite <-!app_assoc).
  split_and!.
  - rewrite E1. apply zread_nul. lia.
  - rewrite E2. apply zread_nul. lia.
  - replace k1 with (S (k1 - 1)) in E1 by lia. rewrite E1. unfold body1.
    rewrite (app_assoc (sm_data f)), <-(app_assoc _ (sm_filename f)).
    apply (zc_str_at _ (sm_filename f)); [len; lia|done].
  - replace k2 with (S (k2 - 1)) in E1 by lia. rewrite E1, app_assoc.
    apply (zc_str_at _ (sm_options f)); [len; lia|done].
  - rewrite E2, app_assoc, zread_skip by (len; lia). apply zread_here; [len; lia|].
    rewrite length_words. unfold entries_size. lia.
Qed.

Lemma parse_ok base : fits → base mod 8 = 0 →
  fromProcessedFile e base (body3 ++ trailer_block) =
  Ok (Some (mkSystemModeFile (sm_id f) (sm_filename f) (sm_options f) (body3 ++ trailer_block)
    (sm_entries f))).
Proof.
  intros [[Hn Hn'] Hv Hid Hfn Hop Hsize] Hbase. pose proof length_body1 as L1.
  pose proof length_body2 as L2. pose proof length_body3 as L3.
  pose proof data_size_spec as [HD HD8]. pose proof name_size_spec as [HF HF8].
  pose proof opts_size_spec as [HO HO8]. pose proof length_trailer_block as LT.
  assert (entries_size mod 8 = 0) as HE8 by (unfold entries_size; by rewrite Z.mod_mul).
  set (t := Z.of_nat (length body3)). set (b := body3 ++ trailer_block).
  assert (Z.of_nat (length b) = t + 32) as Hb by (unfold b; rewrite length_app, LT; lia).
  assert (0 < entries_size < 2 ^ 32) as HE by (unfold entries_size in *; lia).
  assert (load e 4 b t = Ok TRAILER_MAGIC) as L0 by trailer_field b.
  assert (load e 4 b (t + 4) = Ok TRAILER_VERSION) as L4 by trailer_field b.
  assert (load e 4 b (t + 8) = Ok entries_size) as L8 by trailer_field b.
  assert (load e 4 b (t + 12) = Ok entries_size) as L12 by trailer_field b.
  assert (load e 4 b (t + 16) = Ok (sm_id f)) as L16 by trailer_field b.
  assert (load e 4 b (t + 20) = Ok name_size) as L20 by trailer_field b.
  assert (load e 4 b (t + 24) = Ok opts_size) as L24 by trailer_field b.
  assert (load e 2 b (t + 28) = Ok (Z.of_nat (length (sm_entries f)))) as L28 by trailer_field b.
  destruct parse_strings as (R1 & R2 & S1 & S2 & E1); [done..|]. fold b in R1, R2, S1, S2, E1.
  unfold fromProcessedFile, SystemModeFile_parse, sizeof_trailer. rewrite Hb.
  destruct (Z.eqb_spec (t + 32) 0); [lia|]. replace (t + 32 - 32) with t by lia.
  replace ((base + t) mod 8) with 0.
  2: { rewrite Z.add_mod, Hbase by lia. unfold t. rewrite L3.
       rewrite (Z.add_mod (_ + _ + _)), (Z.add_mod (_ + _)), (Z.add_mod data_size), HD8, HF8, HO8, HE8 by lia.
       done. }
  unfold unmarshalTrailer. rewrite L0. cbn. rewrite L4. cbn. rewrite L20. cbn.
  rewrite land_7, HF8. cbn. rewrite L24. cbn. rewrite land_7, HO8. cbn.
  rewrite L8. cbn. rewrite L12. cbn. rewrite L16. cbn. rewrite L28. cbn.
  rewrite (uw_small 32 (name_size + opts_size)), (uw_small 32 (_ + entries_size)) by lia.
  destruct (Z.ltb_spec (t + 32 + 32) (name_size + opts_size + entries_size)); [lia|].
  rewrite (uw_small 32 (name_size - 1)), (uw_small 32 (opts_size - 1)) by lia.
  replace (t - entries_size - opts_size - name_size) with data_size by lia.
  replace (t - entries_size - opts_size) with (data_size + name_size) by lia.
  replace (t - entries_size) with (data_size + name_size + opts_size) by lia.
  rewrite R1. cbn. rewrite bool_decide_eq_true_2 by done. cbn.
  rewrite R2. cbn. rewrite bool_decide_eq_true_2 by done. cbn.
  rewrite S1. cbn. rewrite S2. cbn. unfold uncompressEntries. rewrite E1. cbn.
  rewrite zwrite_all by (rewrite length_words; unfold entries_size; lia). cbn.
  rewrite Nat2Z.id. pose proof (read_entries_ok (sm_entries f) []) as Hr. cbn in Hr.
  by rewrite Hr.
Qed.

Lemma zwrite_outside off d b :
  Z.of_nat (length b) < off + Z.of_nat (length d) → zwrite off d b = Fault.
Proof.
  intros H. unfold zwrite.
  destruct (Z.leb_spec (off + Z.of_nat (length d)) (Z.of_nat (length b))); [lia|].
  by rewrite andb_false_r.
Qed.

Lemma getProcessedData_fault : fits → opts_size + entries_size + 32 < name_size →
  getProcessedData e f = Fault.
Proof.
  intros [[Hn Hn'] _ _ _ _ Hsize] Hname. pose proof length_body1 as L1.
  pose proof data_size_spec as [HD _]. pose proof name_size_spec as [HF _].
  pose proof opts_size_spec as [HO _].
  unfold getProcessedData, sizeof_trailer. unfold entries_size in *.
  fold data_size name_size opts_size.
  destruct (Z.eqb_spec (Z.of_nat (length (sm_entries f))) 0); [lia|].
  rewrite (uw_small 32 (_ * 8)) by lia. rewrite padTo8_multiple.
  rewrite (uw_small 32 (_ * 8)) by lia. rewrite (uw_small 32 name_size), (uw_small 32 opts_size) by lia.
  rewrite (uw_small 32 (name_size - 1)) by lia.
  rewrite take_ge by (rewrite length_words; lia).
  rewrite (zwrite_all (words _ _ _)) by (rewrite length_words; lia). cbn [mbind res_mbind res_bind].
  set (T := data_size + name_size + opts_size + Z.of_nat (length (sm_entries f)) * 8 + 32).
  change (zeros (Z.to_nat T)) with ([] ++ zeros (Z.to_nat T)).
  assert (T = data_size + name_size + opts_size + Z.of_nat (length (sm_entries f)) * 8 + 32) as HT by done.
  clearbody T.
  rewrite (zwrite_fill _ _ _ 0 _ (Z.to_nat (T - Z.of_nat (length (sm_data f))))) by (cbn; lia).
  cbn [mbind res_mbind res_bind zeros replicate app].
  rewrite (zwrite_str _ _ _ (Z.to_nat data_size - length (sm_data f)) _
    (Z.to_nat (T - data_size - Z.of_nat (length (sm_filename f)) - 1))) by lia.
  fold body1. cbn [mbind res_mbind res_bind].
  by rewrite zwrite_outside by (len; lia).
Qed.
End processed.

(** C9: An instrumented binary of between one and 65535 breakpoint addresses (and
    the other bounds of the format, [fits]) is written with a trailer from which it
    is read back, where it is mapped at a multiple of 8 and on a host of the same
    byte order, with its identifier, file name, options and addresses; its own bytes
    come first.  Only when the padded file name is longer than options, addresses
    and trailer together is the block overrun instead. *)
Theorem processed_file_roundtrip f base :
  fits f → base mod 8 = 0 →
  (name_size f ≤ opts_size f + entries_size f + 32 →
   ∃ b g, getProcessedData e f = Ok b ∧ fromProcessedFile e base b = Ok (Some g) ∧
     sm_id g = sm_id f ∧ sm_filename g = sm_filename f ∧ sm_options g = sm_options f ∧
     sm_entries g = sm_entries f ∧ sm_data f `prefix_of` b) ∧
  (opts_size f + entries_size f + 32 < name_size f → getProcessedData e f = Fault).
Proof.
  intros Hf Hbase. split; [|by apply getProcessedData_fault].
  intros Hname. eexists _, _. split; [by apply getProcessedData_ok|].
  split; [by apply parse_ok|]. split_and!; [done..|].
  unfold body3, body2, body1. rewrite <-!app_assoc. by eexists.
Qed.

(** A binary whose file name is long compared to its options and addresses
    makes the writer of the trailer run off its block: the terminator of the
    name is stored relative to the options. *)
Theorem long_name_overflows f :
  fits f → opts_size f + entries_size f + 32 < name_size f → getProcessedData e f = Fault.
Proof. apply getProcessedData_fault. Qed.
End proofs.

(** ** Concrete runs *)

Definition demo_saved : system_mode_memory :=
  mkMemory (str "/usr/bin/ls") (str "--include-path=/usr") 2 [5; 0x80000000] 4 4.

Lemma memory_file_roundtrip_witness :
  hit demo_saved 63 = true ∧
  ∃ b m', memoryToFile BigEndian demo_saved = Ok b ∧ Z.of_nat (length b) = memory_size demo_saved ∧
    fileToMemory BigEndian b = Ok (Some m') ∧
    smm_filename m' = str "/usr/bin/ls" ∧ smm_options m' = str "--include-path=/usr" ∧
    smm_data m' = [5; 0x80000000] ∧ (∀ j, hit m' j = hit demo_saved j) ∧ isDirty m' = false.
Proof.
  split; [reflexivity|].
  apply (memory_file_roundtrip BigEndian demo_saved); [split; [reflexivity|cbn; lia]|vm_compute; reflexivity| | |].
  - repeat constructor; lia.
  - apply (bool_decide_unpack _). vm_compute. exact I.
  - apply (bool_decide_unpack _). vm_compute. exact I.
Defined.

Lemma process_entry_roundtrip_witness :
  ∃ b, createProcessEntry LittleEndian 4711 (str "/bin/sh") = Ok b ∧
    parseProcessEntry LittleEndian b = Ok (Some (4711, str "/bin/sh")).
Proof.
  apply (process_entry_roundtrip LittleEndian 4711 (str "/bin/sh")); [lia|cbn; lia|].
  apply (bool_decide_unpack _). vm_compute. exact I.
Defined.

(** Two addresses, with a short and with a long path. *)
Definition demo_binary (name : bytes) : SystemModeFile :=
  mkSystemModeFile 0x1234 name (str "--verify") (str "ELF...") [0x401000; 0x401010].

Lemma demo_binary_fits name :
  no_nul name → Z.of_nat (length name) < 1000 → fits (demo_binary name).
Proof.
  intros Hn Hl. split; cbn -[Z.pow]; [lia|repeat constructor; lia|lia|done| |].
  - apply (bool_decide_unpack _). vm_compute. exact I.
  - destruct (padTo8_spec (Z.of_nat (length name) + 1)); [lia|]. unfold name_size. cbn [demo_binary sm_filename].
    change (opts_size (demo_binary name)) with 16. change (entries_size (demo_binary name)) with 16. lia.
Qed.

Lemma processed_file_roundtrip_witness :
  ∃ b g, getProcessedData LittleEndian (demo_binary (str "/bin/ls")) = Ok b ∧
    fromProcessedFile LittleEndian 0x1000 b = Ok (Some g) ∧
    sm_id g = 0x1234 ∧ sm_filename g = str "/bin/ls" ∧ sm_options g = str "--verify" ∧
    sm_entries g = [0x401000; 0x401010] ∧ str "ELF..." `prefix_of` b.
Proof.
  apply (processed_file_roundtrip LittleEndian (demo_binary (str "/bin/ls")) 0x1000);
    [|reflexivity|vm_compute; discriminate].
  apply demo_binary_fits; [|vm_compute; reflexivity].
  apply (bool_decide_unpack _). vm_compute. exact I.
Defined.

Definition demo_long_name : bytes := str "/opt/vendor/product/releases/2024-01/bin/some-long-program-name-x".

Lemma long_name_overflows_witness :
  length demo_long_name = 65%nat ∧
  getProcessedData LittleEndian (demo_binary demo_long_name) = Fault.
Proof.
  split; [reflexivity|]. apply (long_name_overflows LittleEndian (demo_binary demo_long_name)).
  - apply demo_binary_fits; [|vm_compute; reflexivity].
    apply (bool_decide_unpack _). vm_compute. exact I.
  - vm_compute. reflexivity.
Defined.
