(* ===== verification/Collector.v ===== *)
(** * The collector (src/src/collector.cc)

    The loop that runs a program under an engine: it sets the breakpoints the
    parser announces, continues the engine until it is done, passes hits to its
    listeners and computes kcov's exit code.  The engine is the class [IEngine];
    the ptrace engine is an instance. *)
From S2P Require Export Ptrace.
From stdpp Require Import options.

(** [IEngine] (include/engine.hh).  An operation that lets the program run also
    gives the events the engine reports to its listener meanwhile. *)
Class IEngine (E : Type) := {
  eng_start : bytes → E → list EngineEvent * bool * E;
  eng_registerBreakpoint : Z → E → E;
  eng_continueExecution : E → list EngineEvent * bool * E;
}.

(** Calls of the collector on the others: [onAddressHit] and [onTick] of the
    listener with the given number, and the exit code written to the fifo
    "done.fifo" of the target directory. *)
Inductive CollectorCall :=
  | COnAddressHit (listener : nat) (c : HitCall)
  | COnTick (listener : nat)
  | CWriteDoneFifo (exitCode : bytes).

Record Collector := mkCollector {
  col_listeners : nat;
  col_eventTickListeners : nat;
  col_exitCode : Z;
  col_signalExit : bool;
  col_calls : list CollectorCall;
}.

Definition new_Collector : Collector := mkCollector 0 0 (-1) false [].

Definition registerListener (c : Collector) : Collector :=
  mkCollector (S (col_listeners c)) (col_eventTickListeners c) (col_exitCode c) (col_signalExit c)
    (col_calls c).
Definition registerEventTickListener (c : Collector) : Collector :=
  mkCollector (col_listeners c) (S (col_eventTickListeners c)) (col_exitCode c) (col_signalExit c)
    (col_calls c).

Definition col_emit (l : list CollectorCall) (c : Collector) : Collector :=
  mkCollector (col_listeners c) (col_eventTickListeners c) (col_exitCode c) (col_signalExit c)
    (col_calls c ++ l).
Definition col_exit (code : Z) (sig : bool) (c : Collector) : Collector :=
  mkCollector (col_listeners c) (col_eventTickListeners c) code sig (col_calls c).

Definition col_tick (c : Collector) : Collector :=
  col_emit (COnTick <$> seq 0 (col_eventTickListeners c)) c.

(** [SIGABRT] and the others of signal.h that have a name here. *)
Definition signal_names : list (Z * bytes) :=
  [(6, str "SIGABRT"); (11, str "SIGSEGV"); (4, str "SIGILL"); (15, str "SIGTERM");
   (2, str "SIGINT"); (7, str "SIGBUS"); (8, str "SIGFPE")].

Definition signal_name (data : Z) : bytes :=
  match find (λ p, data =? p.1) signal_names with
  | Some (_, name) => name
  | None => str "unknown signal " ++ fmt_d data
  end.

(** Used in messages. *)
Definition eventToName (ev : EngineEvent) : bytes :=
  match ev_type ev with
  | ev_breakpoint => str "breakpoint at 0x" ++ fmt_x (ev_addr ev)
  | ev_exit => str "exit code " ++ fmt_d (ev_data ev)
  | ev_signal | ev_signal_exit => signal_name (ev_data ev)
  | ev_error => str "error"
  | ev_exit_first_process => str "unknown"
  end.

Section collector.
Context {F : Type} `{!IFilter F} (flt : F).
(** "daemonize-on-first-process-exit" *)
Context (daemonize : bool).

Definition onEvent (ev : EngineEvent) (c : Collector) : Collector :=
  match ev_type ev with
  | ev_error => c
  | ev_signal => c
  | ev_signal_exit => col_exit (ev_data ev) true c
  | ev_exit_first_process =>
      let c := if daemonize then col_emit [CWriteDoneFifo (fmt_u (u32 (ev_data ev)))] c else c in
      col_exit (ev_data ev) (col_signalExit c) c
  | ev_exit => if col_signalExit c then c else col_exit (ev_data ev) (col_signalExit c) c
  | ev_breakpoint =>
      col_emit ((λ i, COnAddressHit i (OnAddressHit (ev_addr ev) 1)) <$> seq 0 (col_listeners c)) c
  end.

Section run.
Context {E : Type} `{!IEngine E}.

(** Called by the parser for each line. *)
Definition col_onLine (l : LineCall) (eng : E) : E :=
  if negb (runFilters flt (line_file l)) then eng
  else eng_registerBreakpoint (line_addr l) eng.

(** The loop; [None] when it has not ended after [fuel] rounds. *)
Fixpoint col_loop (fuel : nat) (c : Collector) (eng : E) : option (Collector * E) :=
  match fuel with
  | O => None
  | S fuel =>
      let '(evs, shouldContinue, eng) := eng_continueExecution eng in
      let c := foldl (λ c ev, onEvent ev c) c evs in
      let c := col_tick c in
      if negb shouldContinue then Some (c, eng) else col_loop fuel c eng
  end.

(** [run]: the exit code and the collector.  [lines] is what the parser
    announces in [parse()]. *)
Definition col_run (fuel : nat) (filename : bytes) (lines : list LineCall) (c : Collector) (eng : E)
    : option (Z * (Collector * E)) :=
  let '(evs, ok, eng) := eng_start filename eng in
  let c := foldl (λ c ev, onEvent ev c) c evs in
  if negb ok then Some (-1, (c, eng))
  else
    let eng := foldl (λ eng l, col_onLine l eng) eng lines in
    '(c, eng) ← col_loop fuel c eng;
    Some (col_exitCode c, (c, eng)).
End run.
End collector.

(** The ptrace engine: the events are those it reports while it continues.  Its
    start needs the executable to be there; the kernel state is the one in which
    the child has stopped. *)
#[global] Instance Ptrace_IEngine {K : Type} `{!PtraceSys K} : IEngine (K * Ptrace) := {
  eng_start _ eng := ([], true, eng);
  eng_registerBreakpoint addr eng := (eng.1, (registerBreakpoint addr eng.1 eng.2).2);
  eng_continueExecution eng :=
    let '(b, (k, s)) := continueExecution eng.1 eng.2 in
    (omap (λ c, match c with PtEvent ev => Some ev | _ => None end)
       (drop (length (m_calls eng.2)) (m_calls s)), b, (k, s));
}.

(** ** What a run gives *)

Definition is_signal_exit (ev : EngineEvent) : bool := bool_decide (ev_type ev = ev_signal_exit).

(** An event that sets the exit code, given those before it: ordinary exits do
    not count any more after a signal has ended the program. *)
Definition sets_exit (before : list EngineEvent) (ev : EngineEvent) : bool :=
  match ev_type ev with
  | ev_signal_exit | ev_exit_first_process => true
  | ev_exit => negb (existsb is_signal_exit before)
  | _ => false
  end.

(** The exit code is that of the last event that sets it, -1 if there is none. *)
Definition exit_is (evs : list EngineEvent) (code : Z) : Prop :=
  (∃ a ev b, evs = a ++ ev :: b ∧ sets_exit a ev = true ∧ code = ev_data ev ∧
    ∀ b1 ev' b2, b = b1 ++ ev' :: b2 → sets_exit (a ++ ev :: b1) ev' = false) ∨
  (code = -1 ∧ ∀ a ev b, evs = a ++ ev :: b → sets_exit a ev = false).

(** The calls an event leads to, with [n] listeners. *)
Definition event_calls (daemonize : bool) (n : nat) (ev : EngineEvent) : list CollectorCall :=
  match ev_type ev with
  | ev_breakpoint => (λ i, COnAddressHit i (OnAddressHit (ev_addr ev) 1)) <$> seq 0 n
  | ev_exit_first_process => if daemonize then [CWriteDoneFifo (fmt_u (u32 (ev_data ev)))] else []
  | _ => []
  end.

Lemma exit_is_snoc evs code ev :
  exit_is evs code → exit_is (evs ++ [ev]) (if sets_exit evs ev then ev_data ev else code).
Proof.
  intros H. destruct (sets_exit evs ev) eqn:Hs.
  { left. exists evs, ev, []. split_and!; [done..|]. by intros [|] ? ?. }
  destruct H as [(a & ev0 & b & -> & Ha & -> & Hlast)|[-> Hnone]].
  - left. exists a, ev0, (b ++ [ev]). split_and!; [by rewrite <-app_assoc|done|done|].
    intros b1 ev' b2 E. destruct b2 as [|x b2 _] using rev_ind.
    + apply app_inj_tail in E as [-> ->]. done.
    + rewrite app_comm_cons, app_assoc in E. apply app_inj_tail in E as [E _]. by eapply Hlast.
  - right. split; [done|]. intros a ev' b E. destruct b as [|x b _] using rev_ind.
    + apply app_inj_tail in E as [-> ->]. done.
    + rewrite app_comm_cons, app_assoc in E. apply app_inj_tail in E as [E _]. by eapply Hnone.
Qed.

Section theorems.
Context {F : Type} `{!IFilter F} (flt : F) (daemonize : bool).
Context {E : Type} `{!IEngine E}.

(** What has been collected after the events [evs]: everything but the ticks. *)
Record collected (n : nat) (evs : list EngineEvent) (c : Collector) : Prop := {
  cd_listeners : col_listeners c = n;
  cd_exit : exit_is evs (col_exitCode c);
  cd_signal : col_signalExit c = existsb is_signal_exit evs;
}.

Lemma onEvent_collected n evs c ev :
  collected n evs c → collected n (evs ++ [ev]) (onEvent daemonize ev c).
Proof.
  intros [Hn He Hs]. pose proof (exit_is_snoc evs _ ev He) as He'. unfold sets_exit in He'.
  assert (existsb is_signal_exit (evs ++ [ev]) =
          existsb is_signal_exit evs || is_signal_exit ev) as Hs'
    by (rewrite existsb_app; cbn; by rewrite orb_false_r).
  rewrite <-Hs in He', Hs'. unfold onEvent. destruct (ev_type ev) eqn:Et.
  all: assert (is_signal_exit ev = bool_decide (ev_type ev = ev_signal_exit)) as Eb by done.
  all: rewrite Et in Eb; cbn in Eb; rewrite Eb, ?orb_false_r, ?orb_true_r in Hs'.
  - by split.
  - by split.
  - by split.
  - destruct (col_signalExit c) eqn:Ec; split; cbn in *; congruence.
  - destruct daemonize; split; cbn in *; congruence.
  - by split.
Qed.

Lemma onEvents_collected n evs' : ∀ evs c,
  collected n evs c → collected n (evs ++ evs') (foldl (λ c ev, onEvent daemonize ev c) c evs').
Proof.
  induction evs' as [|ev evs' IH]; intros evs c Hc; cbn; [by rewrite app_nil_r|].
  replace (evs ++ ev :: evs') with ((evs ++ [ev]) ++ evs') by (by rewrite <-app_assoc).
  by apply IH, onEvent_collected.
Qed.

Lemma onEvent_calls c ev :
  col_calls (onEvent daemonize ev c) = col_calls c ++ event_calls daemonize (col_listeners c) ev ∧
  col_listeners (onEvent daemonize ev c) = col_listeners c ∧
  col_eventTickListeners (onEvent daemonize ev c) = col_eventTickListeners c.
Proof.
  unfold onEvent, event_calls. destruct (ev_type ev); cbn; rewrite ?app_nil_r; try done.
  - by destruct (col_signalExit c).
  - destruct daemonize; cbn; by rewrite ?app_nil_r.
Qed.

Lemma onEvents_calls evs : ∀ c,
  let c' := foldl (λ c ev, onEvent daemonize ev c) c evs in
  col_calls c' = col_calls c ++ (evs ≫= event_calls daemonize (col_listeners c)) ∧
  col_listeners c' = col_listeners c ∧ col_eventTickListeners c' = col_eventTickListeners c.
Proof.
  induction evs as [|ev evs IH]; intros c; cbn; [by rewrite app_nil_r|].
  destruct (onEvent_calls c ev) as (H1 & H2 & H3).
  destruct (IH (onEvent daemonize ev c)) as (-> & -> & ->). rewrite H1, H2, H3.
  split_and!; [|done..]. by rewrite <-app_assoc.
Qed.

(** An engine that runs for some rounds and ends. *)
Inductive engine_runs : E → list (list EngineEvent) → E → Prop :=
  | runs_last eng evs eng' :
      eng_continueExecution eng = (evs, false, eng') → engine_runs eng [evs] eng'
  | runs_more eng evs eng1 rounds eng' :
      eng_continueExecution eng = (evs, true, eng1) → engine_runs eng1 rounds eng' →
      engine_runs eng (evs :: rounds) eng'.

(** The calls of a round: its events, then the ticks. *)
Definition round_calls (n ticks : nat) (evs : list EngineEvent) : list CollectorCall :=
  (evs ≫= event_calls daemonize n) ++ (COnTick <$> seq 0 ticks).

Lemma col_loop_runs eng rounds eng' : engine_runs eng rounds eng' → ∀ fuel n evs c,
  (length rounds ≤ fuel)%nat → collected n evs c →
  ∃ c', col_loop daemonize fuel c eng = Some (c', eng') ∧
    collected n (evs ++ concat rounds) c' ∧
    col_calls c' = col_calls c ++ (rounds ≫= round_calls n (col_eventTickListeners c)).
Proof.
  induction 1 as [eng evs0 eng' Heng|eng evs0 eng1 rounds eng' Heng _ IH];
    intros [|fuel] n evs c Hf Hc; cbn in Hf; try lia; cbn; rewrite Heng; cbn.
  all: destruct (onEvents_calls evs0 c) as (H1 & H2 & H3).
  all: pose proof (onEvents_collected n evs0 evs c Hc) as Hc'.
  all: set (c1 := foldl _ c evs0) in *.
  all: assert (collected n (evs ++ evs0) (col_tick c1)) as Ht by (destruct Hc'; by split).
  - eexists. split_and!; [done|by rewrite app_nil_r|]. cbn. unfold round_calls.
    by rewrite H1, H3, (cd_listeners _ _ _ Hc), app_nil_r, <-app_assoc.
  - destruct (IH fuel n (evs ++ evs0) (col_tick c1)) as (c' & E1 & E2 & E3); [lia|done|].
    exists c'. split_and!; [done|by rewrite app_assoc|]. rewrite E3. cbn. unfold round_calls at 2.
    by rewrite H1, H3, (cd_listeners _ _ _ Hc), <-!app_assoc.
Qed.

(** C24: a run ends when the engine does, and then every breakpoint has been
    passed to every listener, once and in order, every listener for ticks has
    been called after each round, and the exit code is that of the last event
    that sets it: an ordinary exit after a fatal signal does not hide it. *)
Theorem collector_run fuel filename lines n ticks eng eng0 rounds eng' :
  eng_start filename eng = ([], true, eng0) →
  engine_runs (foldl (λ eng addr, eng_registerBreakpoint addr eng) eng0
    (line_addr <$> filter (λ l, runFilters flt (line_file l) = true) lines)) rounds eng' →
  (length rounds ≤ fuel)%nat →
  ∃ code c', col_run flt daemonize fuel filename lines (mkCollector n ticks (-1) false []) eng =
    Some (code, (c', eng')) ∧
    exit_is (concat rounds) code ∧ col_calls c' = rounds ≫= round_calls n ticks.
Proof.
  intros Hstart Hruns Hfuel. unfold col_run. rewrite Hstart. cbn [foldl negb].
  set (eng1 := foldl (λ eng l, col_onLine flt l eng) eng0 lines).
  assert (eng1 = foldl (λ eng addr, eng_registerBreakpoint addr eng) eng0
    (line_addr <$> filter (λ l, runFilters flt (line_file l) = true) lines)) as E1.
  { unfold eng1. clear. revert eng0. induction lines as [|l lines IH]; intros eng0; [done|].
    rewrite filter_cons. cbn [foldl]. rewrite IH. unfold col_onLine.
    destruct (runFilters flt (line_file l)) eqn:E1; case_decide; done. }
  rewrite <-E1 in Hruns.
  destruct (col_loop_runs eng1 rounds eng' Hruns fuel n [] (mkCollector n ticks (-1) false []))
    as (c' & E2 & Hc & Hcalls); [done| |].
  { split; [done| |done]. right. split; [done|]. by intros [|]. }
  exists (col_exitCode c'), c'. rewrite E2. cbn. split_and!; [done| |done]. apply Hc.
Qed.
End theorems.

(** The program of [demo_start] under the ptrace engine, filtered out of one of
    two files: one hit, then an exit of the first process, then the error of a
    [waitpid] without children. *)
Definition demo_process : DemoKernel :=
  mkDemo (λ _, 0x1122334455667788) 0 [(0x057f, 0x1005); (0x0300, 0x1005)].

Definition demo_filter : IFilter unit := {|
  runFilters := λ _ f, bool_decide (f = str "main.c");
  runLineFilters := λ f _ _ _, (true, f);
  mangleSourcePath := λ _ p, p |}.

Definition demo_lines : list LineCall :=
  [OnLine (str "main.c") 3 0x1004; OnLine (str "lib.c") 7 0x1001].

Lemma collector_run_witness :
  ∃ code c' eng', @col_run unit demo_filter tt false (DemoKernel * Ptrace) _ 3 (str "prog") demo_lines
      (mkCollector 2 1 (-1) false []) (demo_process, started 77 new_Ptrace) = Some (code, (c', eng')) ∧
    exit_is [mkEvent ev_breakpoint (-1) 0x1004; mkEvent ev_exit_first_process 3 0x1004; mkEvent ev_error (-1) 0] code ∧
    code = 3 ∧
    col_calls c' = [COnAddressHit 0 (OnAddressHit 0x1004 1); COnAddressHit 1 (OnAddressHit 0x1004 1);
                    COnTick 0; COnTick 0; COnTick 0].
Proof.
  set (eng0 := (demo_process, (registerBreakpoint 0x1004 demo_process (started 77 new_Ptrace)).2)).
  set (e1 := (eng_continueExecution eng0).2). set (e2 := (eng_continueExecution e1).2).
  destruct (@collector_run unit demo_filter tt false (DemoKernel * Ptrace) _ 3 (str "prog") demo_lines 2 1
    (demo_process, started 77 new_Ptrace) (demo_process, started 77 new_Ptrace)
    [[mkEvent ev_breakpoint (-1) 0x1004]; [mkEvent ev_exit_first_process 3 0x1004];
     [mkEvent ev_error (-1) 0]] (eng_continueExecution e2).2) as (code & c' & Hrun & Hexit & Hcalls).
  - reflexivity.
  - eapply runs_more with e1; [vm_compute; reflexivity|].
    eapply runs_more with e2; [vm_compute; reflexivity|].
    apply runs_last. vm_compute. reflexivity.
  - cbn. lia.
  - exists code, c', (eng_continueExecution e2).2. split; [exact Hrun|]. split; [exact Hexit|].
    split; [|exact Hcalls].
    vm_compute in Hrun. congruence.
Defined.
