(* ===== verification/Writers.v ===== *)
(** * Writers (src/src/writers/writer-base.cc, html-writer.cc)

    What the report writers share: the source files to show, the summary that one
    run leaves for the index of all runs, and the common path of the files.  Of
    the HTML writer the page of one file and the list names of the index.  The
    writers ask the reporter through the class [IReporter]; the reporter and the
    dummy reporter are instances. *)
From S2P Require Export Reporter.
From stdpp Require Import options.

(** ** [IReporter] (include/reporter.hh) *)
Class IReporter (R : Type) := {
  rep_fileIsIncluded : R → bytes → bool;
  rep_lineIsCode : R → bytes → Z → res bool;
  rep_getLineExecutionCount : R → bytes → Z → res LineExecutionCount;
  rep_getExecutionSummary : R → res ExecutionSummary;
}.

Definition Reporter_IReporter {F : Type} `{!IFilter F} (W : World) (hits : PossibleHits)
    (iter_files : gmap bytes File → list (bytes * File)) : IReporter (Reporter F) := {|
  rep_fileIsIncluded r file := fileIsIncluded file r;
  rep_lineIsCode r file nr := lineIsCode file nr r;
  rep_getLineExecutionCount r file nr := getLineExecutionCount hits file nr r;
  rep_getExecutionSummary r := getExecutionSummary W iter_files r;
|}.
Definition DummyReporter_IReporter : IReporter unit := {|
  rep_fileIsIncluded _ file := DummyReporter_fileIsIncluded file;
  rep_lineIsCode _ file nr := Ok (DummyReporter_lineIsCode file nr);
  rep_getLineExecutionCount _ file nr := Ok (DummyReporter_getLineExecutionCount file nr);
  rep_getExecutionSummary _ := Ok DummyReporter_getExecutionSummary;
|}.

(** Text of the source with its double quotes written as back quotes. *)
Definition txt (s : string) : bytes :=
  map (λ c, if bool_decide (c = "`"%char) then "034"%char else c) (str s).
Definition NL : ascii := "010"%char.

(** ** Source files *)

(** [WriterBase::File] *)
Record WFile := mkWFile {
  wf_name : bytes;
  wf_fileName : bytes;
  wf_outFileName : bytes;
  wf_jsonOutFileName : bytes;
  wf_crc : Z;
  wf_lineMap : gmap Z bytes;
  wf_codeLines : Z;
  wf_executedLines : Z;
  wf_lastLineNr : Z;
}.

(** One line as it is kept: up to a NUL, without trailing blanks. *)
Definition trim_line (lineptr : bytes) : bytes :=
  let s := c_prefix lineptr in
  match find_last_not_of (str " " ++ [NL; "013"%char; "009"%char]) s with
  | Some i => take (S i) s
  | None => []
  end.

(** [readFile]: the lines by number and the number after the last. *)
Definition readFile_lines (content : bytes) : gmap Z bytes * Z :=
  foldl (λ '(m, nr) l, (<[nr := trim_line (l ++ [NL])]> m, nr + 1)) (∅, 1) (getlines NL [] content).

Section writer.
Context (W : World).

Definition new_WFile (filename : bytes) : res WFile :=
  let m_fileName := match str_rfind (str "/") filename with
                    | Some pos => drop (S pos) filename
                    | None => filename
                    end in
  let m_crc := w_hash_block W filename in
  match w_read_file W filename with
  | None => Panic
  | Some content =>
      let '(m_lineMap, m_lastLineNr) := readFile_lines content in
      Ok (mkWFile filename m_fileName (m_fileName ++ str "." ++ fmt_x m_crc ++ str ".html")
            (m_fileName ++ str "." ++ fmt_x m_crc ++ str ".js") m_crc m_lineMap 0 0 m_lastLineNr)
  end.

Record WriterBase := mkWriterBase { wb_files : gmap bytes WFile; wb_commonPath : bytes }.
Definition new_WriterBase : WriterBase := mkWriterBase ∅ (str "not set").

Section reporter.
Context {R : Type} `{!IReporter R} (rep : R).

Definition wb_onLine (file : bytes) (lineNr addr : Z) (w : WriterBase) : res WriterBase :=
  if negb (rep_fileIsIncluded rep file) then Ok w
  else match wb_files w !! file with
  | Some _ => Ok w
  | None =>
      if negb (w_file_exists W file) then Ok w
      else f ← new_WFile file; Ok (mkWriterBase (<[file := f]> (wb_files w)) (wb_commonPath w))
  end.
End reporter.

(** ** The common path *)

(** The inner loop: each round drops the last component. *)
Fixpoint shorten (fuel : nat) (m_commonPath name : bytes) : bytes :=
  match fuel with
  | O => m_commonPath
  | S fuel =>
      match str_rfind (str "/") m_commonPath with
      | None => m_commonPath
      | Some pos =>
          let m_commonPath := take pos m_commonPath in
          if bool_decide (str_find m_commonPath name = Some 0%nat) then m_commonPath
          else shorten fuel m_commonPath name
      end
  end.

Definition common_one (m_commonPath name : bytes) : bytes :=
  let m_commonPath := if bool_decide (m_commonPath = str "not set") then name else m_commonPath in
  if bool_decide (str_find m_commonPath name = Some 0%nat) then m_commonPath
  else shorten (S (length m_commonPath)) m_commonPath name.

(** [names] are the names of the files in iteration order. *)
Definition setupCommonPaths (names : list bytes) (w : WriterBase) : WriterBase :=
  mkWriterBase (wb_files w) (foldl common_one (wb_commonPath w) names).

(** ** The summary *)

Section summary.
Context (e : endian).

Definition SUMMARY_MAGIC : Z := 0x456d696c.
Definition SUMMARY_VERSION : Z := 2.
Definition sizeof_summaryStruct : nat := 276.
Definition sizeof_name : nat := 256.

Definition marshalSummary (summary : ExecutionSummary) (name : bytes) : res bytes :=
  let p := zeros sizeof_summaryStruct in
  p ← store e 4 0 (to_be e 4 SUMMARY_MAGIC) p;
  p ← store e 4 4 (to_be e 4 SUMMARY_VERSION) p;
  p ← store e 4 8 (to_be e 4 (es_includeInTotals summary)) p;
  p ← store e 4 12 (to_be e 4 (es_lines summary)) p;
  p ← store e 4 16 (to_be e 4 (es_executedLines summary)) p;
  (* strncpy *)
  zwrite 20 (take (sizeof_name - 1) (c_prefix name)) p.

Definition unMarshalSummary (data : bytes) : res (option (ExecutionSummary * bytes)) :=
  if negb (bool_decide (length data = sizeof_summaryStruct)) then Ok None
  else
    magic ← load e 4 data 0;
    if negb (be_to_host e 4 magic =? SUMMARY_MAGIC) then Ok None
    else
      version ← load e 4 data 4;
      if negb (be_to_host e 4 version =? SUMMARY_VERSION) then Ok None
      else
        nLines ← load e 4 data 12;
        nExecutedLines ← load e 4 data 16;
        includeInTotals ← load e 4 data 8;
        name ← zc_str data 20;
        Ok (Some (mkSummary (be_to_host e 4 nLines) (be_to_host e 4 nExecutedLines)
                    (be_to_host e 4 includeInTotals), name)).
End summary.
End writer.

(** ** The HTML writer *)

Section html.
Context {R : Type} `{!IReporter R} (rep : R) (m_maxPossibleHits : PossibleHits).

Definition lineClass (cnt : LineExecutionCount) : bytes :=
  match m_maxPossibleHits with
  | HITS_UNLIMITED | HITS_SINGLE =>
      if negb (lc_hits cnt =? 0) then str "lineCov" else str "lineNoCov"
  | HITS_LIMITED =>
      if lc_hits cnt =? lc_possibleHits cnt then str "lineCov"
      else if negb (lc_hits cnt =? 0) then str "linePartCov" else str "lineNoCov"
  end.

(** The attributes of a line of code. *)
Definition line_attributes (cnt : LineExecutionCount) : bytes :=
  txt ",`class`:`" ++ lineClass cnt ++ txt "`,`hits`:`" ++ fmt_u (lc_hits cnt) ++ txt "`," ++
  (if negb (lc_order cnt =? 0) then txt "`order`:`" ++ fmt_u (lc_order cnt) ++ txt "`," else []) ++
  (if negb (bool_decide (m_maxPossibleHits = HITS_SINGLE))
   then txt "`possible_hits`:`" ++ fmt_u (lc_possibleHits cnt) ++ txt "`," else []).

(** The loop of [writeOne] over the lines from [n] on: the JSON text, and the
    executed and code lines so far. *)
Fixpoint write_lines (count : nat) (n : Z) (file : WFile) (out : bytes) (nExecutedLines nCodeLines : Z)
    : res (bytes * Z * Z) :=
  match count with
  | O => Ok (out, nExecutedLines, nCodeLines)
  | S count =>
      let line := default [] (wf_lineMap file !! n) in
      let out := out ++ txt "{`lineNum`:`" ++ fmt_5u n ++ txt "`,`line`:`" in
      s ← escape_json line;
      let out := out ++ s ++ txt "`" in
      code ← rep_lineIsCode rep (wf_name file) n;
      if (code : bool) then
        cnt ← rep_getLineExecutionCount rep (wf_name file) n;
        write_lines count (n + 1) file (out ++ line_attributes cnt ++ txt "}," ++ [NL])
          (u32 (nExecutedLines + (if lc_hits cnt =? 0 then 0 else 1))) (u32 (nCodeLines + 1))
      else
        write_lines count (n + 1) file (out ++ txt "}," ++ [NL]) nExecutedLines nCodeLines
  end.

(** [writeOne]: the lines of the JSON file and the updated file. *)
Definition writeOne (file : WFile) : res (bytes * WFile) :=
  '(out, nExecutedLines, nCodeLines) ←
    write_lines (Z.to_nat (wf_lastLineNr file - 1)) 1 file (txt "var data = {lines:[" ++ [NL]) 0 0;
  let file :=
    if 1 <? wf_lastLineNr file then
      mkWFile (wf_name file) (wf_fileName file) (wf_outFileName file) (wf_jsonOutFileName file)
        (wf_crc file) (wf_lineMap file) nCodeLines nExecutedLines (wf_lastLineNr file)
    else file in
  Ok (out ++ txt "]};" ++ [NL], file).

(** The lists' totals: of all files in [writeIndex], of the summaries that are
    to be included in [writeGlobalIndex]. *)
Definition index_totals (files : list WFile) : Z * Z :=
  foldl (λ '(code, executed) f, (u32 (code + wf_codeLines f), u32 (executed + wf_executedLines f)))
    (0, 0) files.
Definition global_totals (summaries : list ExecutionSummary) : Z * Z :=
  foldl (λ '(code, executed) s,
    if negb (es_includeInTotals s =? 0)
    then (u32 (code + es_lines s), u32 (executed + es_executedLines s)) else (code, executed))
    (0, 0) summaries.

(** The path that is cut off: the common path less [stripLevel] components. *)
Fixpoint path_to_remove (stripLevel : nat) (pathToRemove : bytes) : bytes :=
  match stripLevel with
  | O => pathToRemove
  | S stripLevel =>
      match str_rfind (str "/") pathToRemove with
      | None => pathToRemove
      | Some slashPos => path_to_remove stripLevel (take slashPos pathToRemove)
      end
  end.

(** The name of a file in the index; [None] for "path-strip-level" is [~0U]. *)
Definition listName (stripLevel : option nat) (m_commonPath name : bytes) : res bytes :=
  match str_find m_commonPath name, stripLevel with
  | Some _, Some stripLevel =>
      if bool_decide (length m_commonPath = 0%nat) then Ok name
      else
        let pathToRemove := path_to_remove stripLevel m_commonPath in
        let prefix := if bool_decide (pathToRemove = []) then [] else str "[...]" in
        rest ← substr_from name (length pathToRemove);
        Ok (prefix ++ rest)
  | _, _ => Ok name
  end.
End html.

(** ** Proofs *)

Lemma load_be e n v c off : off = 0 →
  load e n (be_bytes n v ++ c) off = Ok (native_val e (be_bytes n v)).
Proof. intros ->. unfold load. by rewrite zread_here by (done || apply length_be_bytes). Qed.
Lemma be_to_host_be e v : 0 ≤ v < 2 ^ 32 → be_to_host e 4 (native_val e (be_bytes 4 v)) = v.
Proof.
  intros Hv. pose proof (be_to_host_native e (be_bytes 4 v)) as H. rewrite length_be_bytes in H.
  rewrite H, be_val_bytes. by apply Z.mod_small.
Qed.

Definition summary_block (s : ExecutionSummary) (name : bytes) : bytes :=
  be_bytes 4 SUMMARY_MAGIC ++ be_bytes 4 SUMMARY_VERSION ++ be_bytes 4 (es_includeInTotals s) ++
  be_bytes 4 (es_lines s) ++ be_bytes 4 (es_executedLines s) ++
  name ++ zeros (256 - length name).

Lemma marshalSummary_ok e s name : (length (take 255 (c_prefix name)) ≤ 255)%nat →
  marshalSummary e s name = Ok (summary_block s (take 255 (c_prefix name))).
Proof.
  intros Hlen. unfold marshalSummary, sizeof_summaryStruct, sizeof_name, store.
  change (256 - 1)%nat with 255%nat. set (nm := take 255 (c_prefix name)) in *.
  rewrite !native_to_be.
  replace 276%nat with (4 + (4 + (4 + (4 + (4 + (length nm + (256 - length nm)))))))%nat by lia.
  rewrite !zeros_add.
  repeat (skip_parts; rewrite zwrite_here by (len; lia); cbn [mbind res_mbind res_bind]).
  done.
Qed.

Ltac summary_field b :=
  unfold b, summary_block; repeat (rewrite load_skip by (len; lia); len); apply load_be; lia.

(** The summary a run leaves is read by any later run, on a host of either
    byte order, with the same totals and the name up to 255 characters. *)
Theorem summary_roundtrip (writer reader : endian) s name :
  0 ≤ es_lines s < 2 ^ 32 → 0 ≤ es_executedLines s < 2 ^ 32 → 0 ≤ es_includeInTotals s < 2 ^ 32 →
  ∃ b, marshalSummary writer s name = Ok b ∧
    unMarshalSummary reader b = Ok (Some (s, take 255 (c_prefix name))).
Proof.
  intros H1 H2 H3. assert (length (take 255 (c_prefix name)) ≤ 255)%nat as Hlen
    by (rewrite length_take; lia).
  rewrite marshalSummary_ok by done. eexists. split; [done|].
  set (nm := take 255 (c_prefix name)) in *. set (b := summary_block s nm).
  assert (length b = 276%nat) as Hb by (unfold b, summary_block; len; lia).
  assert (load reader 4 b 0 = Ok (native_val reader (be_bytes 4 SUMMARY_MAGIC))) as L0 by summary_field b.
  assert (load reader 4 b 4 = Ok (native_val reader (be_bytes 4 SUMMARY_VERSION))) as L4 by summary_field b.
  assert (load reader 4 b 8 = Ok (native_val reader (be_bytes 4 (es_includeInTotals s)))) as L8
    by summary_field b.
  assert (load reader 4 b 12 = Ok (native_val reader (be_bytes 4 (es_lines s)))) as L12 by summary_field b.
  assert (load reader 4 b 16 = Ok (native_val reader (be_bytes 4 (es_executedLines s)))) as L16
    by summary_field b.
  assert (zc_str b 20 = Ok nm) as Hname.
  { unfold b, summary_block. replace (256 - length nm)%nat with (S (255 - length nm)) by lia.
    rewrite !app_assoc, <-(app_assoc _ nm). apply (zc_str_at _ nm); [by len|].
    unfold nm, no_nul. intros (i & Hi & _)%elem_of_take.
    by eapply (c_prefix_is_no_nul name), list_elem_of_lookup_2. }
  unfold unMarshalSummary, sizeof_summaryStruct. rewrite Hb, bool_decide_eq_true_2 by done. cbn [negb].
  rewrite L0. cbn [mbind res_mbind res_bind]. rewrite be_to_host_be, Z.eqb_refl by done. cbn [negb].
  rewrite L4. cbn [mbind res_mbind res_bind]. rewrite be_to_host_be, Z.eqb_refl by done. cbn [negb].
  rewrite L12. cbn [mbind res_mbind res_bind]. rewrite L16. cbn [mbind res_mbind res_bind].
  rewrite L8. cbn [mbind res_mbind res_bind]. rewrite Hname. cbn [mbind res_mbind res_bind].
  rewrite !be_to_host_be by done. by destruct s.
Qed.

(** *** The common path *)

Lemma shorten_absolute name : ∀ fuel common,
  (length common < fuel)%nat → (common = [] ∨ ∃ r, common = "/"%char :: r) →
  (common ≠ [] ∨ prefixb common name = true) →
  let c := shorten fuel common name in
  prefixb c name = true ∧ c `prefix_of` common ∧ (c = [] ∨ ∃ r, c = "/"%char :: r).
Proof.
  induction fuel as [|fuel IH]; intros common Hf Habs Hne; [lia|]. cbn [shorten].
  destruct (str_rfind (str "/") common) as [pos|] eqn:E.
  - unfold str_rfind in E. apply rfind_from_Some in E as (Hp & _ & Hle & _).
    assert (pos < length common)%nat as Hlt.
    { apply prefixb_spec in Hp as [t Ht]. apply (f_equal length) in Ht.
      rewrite length_drop, length_app in Ht. cbn in Ht. lia. }
    assert (take pos common = [] ∨ ∃ r, take pos common = "/"%char :: r) as Habs'.
    { destruct Habs as [->|[r ->]]; [left; apply take_nil|]. destruct pos; [by left|right]. by eexists. }
    assert (take pos common `prefix_of` common) as Hpre
      by (exists (drop pos common); by rewrite take_drop).
    case_bool_decide as Hfind.
    + apply find_0_prefix in Hfind. done.
    + destruct (IH (take pos common)) as (H1 & H2 & H3).
      * rewrite length_take. lia.
      * done.
      * left. intros E'. apply Hfind. rewrite E'. apply find_prefix. by destruct name.
      * split_and!; [done| |done]. by etrans.
  - split_and!; [|done|done]. destruct Hne as [Hne|]; [|done]. exfalso.
    destruct Habs as [|[r ->]]; [done|]. unfold str_rfind, rfind_from in E. apply last_None in E.
    assert (O ∈ filter (λ i, prefixb (str "/") (drop i ("/"%char :: r)) = true)
      (seq 0 (S (Nat.min (length ("/"%char :: r)) (length ("/"%char :: r)))))) as Hin.
    { apply list_elem_of_filter. split; [done|]. apply elem_of_seq. lia. }
    rewrite E in Hin. by apply not_elem_of_nil in Hin.
Qed.

(** An absolute path, or the empty string that all of them start with. *)
Definition absolute (s : bytes) : Prop := s = [] ∨ ∃ r, s = "/"%char :: r.

Lemma common_one_absolute common name :
  absolute name → common = str "not set" ∨ absolute common →
  let c := common_one common name in
  prefixb c name = true ∧ absolute c ∧ (common = str "not set" ∨ c `prefix_of` common).
Proof.
  intros Hname Hcommon. unfold common_one.
  set (start := if bool_decide (common = str "not set") then name else common).
  assert (absolute start) as Hstart.
  { unfold start. case_bool_decide; [done|]. by destruct Hcommon. }
  assert (∀ c, c `prefix_of` start → common = str "not set" ∨ c `prefix_of` common) as Hpre.
  { intros c Hc. unfold start in Hc. case_bool_decide; [by left|by right]. }
  case_bool_decide as Hfind.
  - apply find_0_prefix in Hfind. split_and!; [done|done|]. by apply Hpre.
  - destruct (shorten_absolute name (S (length start)) start) as (H1 & H2 & H3); [lia|done| |].
    + left. intros E'. apply Hfind. rewrite E'. apply find_prefix. by destruct name.
    + split_and!; [done|done|]. by apply Hpre.
Qed.

(** After [setupCommonPaths] the common path is a prefix of the name of every
    file, whatever the order of the files and also when it is called again with
    more of them: the names in the index can be cut at its length.  The loop
    over the components always ends. *)
Theorem common_path_prefix names w :
  Forall absolute names → wb_commonPath w = str "not set" ∨ absolute (wb_commonPath w) →
  Forall (λ name, wb_commonPath (setupCommonPaths names w) `prefix_of` name) names.
Proof.
  intros Hn Hc. cbn. generalize (wb_commonPath w) Hc. clear w Hc.
  assert (∀ names common, Forall absolute names → absolute common →
    absolute (foldl common_one common names) ∧ foldl common_one common names `prefix_of` common) as Hmono.
  { clear. induction names as [|name names IH]; intros common Hn Hc; [done|]. cbn.
    apply Forall_cons in Hn as [Hname Hn].
    destruct (common_one_absolute common name) as (_ & H2 & H3); [done|by right|].
    destruct (IH _ Hn H2) as [H4 H5]. split; [done|]. etrans; [exact H5|].
    destruct H3 as [->|]; [|done]. by destruct Hc as [|[? ?]]. }
  induction Hn as [|name names Hname Hn IH]; intros common Hc; [constructor|]. cbn.
  destruct (common_one_absolute common name Hname Hc) as (H1 & H2 & _).
  constructor; [|apply IH; by right].
  etrans; [apply Hmono; done|]. by apply prefixb_spec.
Qed.

(** *** The page of a file *)

Section page.
Context {R : Type} `{!IReporter R} (rep : R) (hits : PossibleHits).
Context (code : Z → bool) (cnt : Z → LineExecutionCount).

(** The JSON object of a line. *)
Definition page_line (file : WFile) (n : Z) : bytes :=
  txt "{`lineNum`:`" ++ fmt_5u n ++ txt "`,`line`:`" ++
  concat (json_char <$> default [] (wf_lineMap file !! n)) ++ txt "`" ++
  (if code n then line_attributes hits (cnt n) else []) ++ txt "}," ++ [NL].

Definition is_executed (n : Z) : bool := code n && negb (lc_hits (cnt n) =? 0).

Lemma write_lines_ok file k : ∀ n out ex cd,
  0 ≤ ex → 0 ≤ cd → ex + Z.of_nat k < 2 ^ 32 → cd + Z.of_nat k < 2 ^ 32 →
  (∀ i, n ≤ i < n + Z.of_nat k → rep_lineIsCode rep (wf_name file) i = Ok (code i) ∧
    (code i = true → rep_getLineExecutionCount rep (wf_name file) i = Ok (cnt i))) →
  write_lines rep hits k n file out ex cd =
    Ok (out ++ concat (page_line file <$> seqZ n (Z.of_nat k)),
        ex + Z.of_nat (count_if is_executed (seqZ n (Z.of_nat k))),
        cd + Z.of_nat (count_if code (seqZ n (Z.of_nat k)))).
Proof.
  induction k as [|k IH]; intros n out ex cd Hex Hcd Hmax1 Hmax2 Hq.
  { cbn. by rewrite app_nil_r, !Z.add_0_r. }
  rewrite seqZ_cons by lia. replace (Z.pred (Z.of_nat (S k))) with (Z.of_nat k) by lia.
  change (Z.succ n) with (n + 1). cbn [write_lines fmap list_fmap concat count_if].
  rewrite escape_json_eq. cbn [mbind res_mbind res_bind].
  destruct (Hq n) as [Hcode Hcnt]; [lia|]. rewrite Hcode. cbn [mbind res_mbind res_bind].
  unfold is_executed at 1, page_line at 1. destruct (code n) eqn:E.
  - rewrite Hcnt by done. cbn [mbind res_mbind res_bind andb].
    rewrite IH; [| |apply u32_range|..].
    + rewrite (uw_small 32 (cd + 1)) by lia. rewrite uw_small by (case_match; lia).
      rewrite <-!app_assoc. f_equal.
      destruct (lc_hits (cnt n) =? 0); cbn [negb id];
        (apply f_equal2; [apply f_equal2; [done|lia]|lia]).
    + apply u32_range.
    + rewrite uw_small by (case_match; lia). case_match; lia.
    + rewrite uw_small by lia. lia.
    + intros i Hi. apply Hq. lia.
  - rewrite IH by (lia || (intros; apply Hq; lia)). cbn [andb id].
    by rewrite <-!app_assoc.
Qed.

(** The page of a file shows each of its lines once, in order, and its
    counts are the numbers of lines the reporter calls code and executed. *)
Theorem html_page file :
  let lines := seqZ 1 (wf_lastLineNr file - 1) in
  1 < wf_lastLineNr file < 2 ^ 32 →
  (∀ n, 1 ≤ n < wf_lastLineNr file → rep_lineIsCode rep (wf_name file) n = Ok (code n) ∧
    (code n = true → rep_getLineExecutionCount rep (wf_name file) n = Ok (cnt n))) →
  ∃ out file', writeOne rep hits file = Ok (out, file') ∧
    out = txt "var data = {lines:[" ++ [NL] ++ concat (page_line file <$> lines) ++ txt "]};" ++ [NL] ∧
    wf_codeLines file' = Z.of_nat (count_if code lines) ∧
    wf_executedLines file' = Z.of_nat (count_if is_executed lines) ∧
    wf_executedLines file' ≤ wf_codeLines file' ∧ wf_name file' = wf_name file.
Proof.
  intros lines Hlast Hq. unfold writeOne.
  rewrite write_lines_ok; [|lia..|intros; apply Hq; lia]. cbn [mbind res_mbind res_bind].
  rewrite Z2Nat.id by lia. fold lines. destruct (Z.ltb_spec 1 (wf_lastLineNr file)); [|lia].
  eexists _, _. split; [done|]. cbn [wf_codeLines wf_executedLines wf_name].
  split_and!; [by rewrite <-!app_assoc|lia|lia| |done].
  assert (count_if is_executed lines ≤ count_if code lines)%nat; [|lia].
  apply count_if_mono. unfold is_executed. by intros x _ [? _]%andb_true_iff.
Qed.
End page.

(** ** Concrete runs *)

Lemma summary_roundtrip_witness :
  ∃ b, marshalSummary BigEndian (mkSummary 120 80 1) (str "my-program") = Ok b ∧
    unMarshalSummary LittleEndian b = Ok (Some (mkSummary 120 80 1, str "my-program")).
Proof.
  apply (summary_roundtrip BigEndian LittleEndian (mkSummary 120 80 1) (str "my-program")); cbn; lia.
Defined.

Lemma common_path_prefix_witness :
  wb_commonPath (setupCommonPaths [str "/home/a/src/x.c"; str "/home/a/include/y.h"; str "/home/b.c"]
    new_WriterBase) = str "/home" ∧
  Forall (λ name, str "/home" `prefix_of` name)
    [str "/home/a/src/x.c"; str "/home/a/include/y.h"; str "/home/b.c"].
Proof.
  split; [vm_compute; reflexivity|].
  apply (common_path_prefix [str "/home/a/src/x.c"; str "/home/a/include/y.h"; str "/home/b.c"]
    new_WriterBase).
  - do 3 (apply Forall_cons_2; [right; eexists; reflexivity|]). apply Forall_nil_2.
  - left. reflexivity.
Defined.

(** Two lines of a script, the second one hit. *)
Definition demo_file : WFile :=
  mkWFile (str "/a.sh") (str "a.sh") [] [] 0 {[ 1 := str "# x"; 2 := str "echo" ]} 0 0 3.
Definition demo_reporter : IReporter unit := {|
  rep_fileIsIncluded _ _ := true;
  rep_lineIsCode _ _ n := Ok (n =? 2);
  rep_getLineExecutionCount _ _ n := Ok (mkCount 4 1 1);
  rep_getExecutionSummary _ := Ok (mkSummary 1 1 1);
|}.

Lemma html_page_witness :
  ∃ out file', @writeOne unit demo_reporter tt HITS_UNLIMITED demo_file = Ok (out, file') ∧
    contains (txt "`line`:`echo`,`class`:`lineCov`,`hits`:`4`") out = true ∧
    wf_codeLines file' = 1 ∧ wf_executedLines file' = 1.
Proof.
  destruct (@html_page unit demo_reporter tt HITS_UNLIMITED (λ n, n =? 2) (λ _, mkCount 4 1 1) demo_file)
    as (out & file' & H1 & H2 & H3 & H4 & _).
  - cbn. lia.
  - intros n _. split; [reflexivity|]. intros _. reflexivity.
  - exists out, file'. split; [exact H1|]. split; [rewrite H2; vm_compute; reflexivity|].
    split; [exact H3|exact H4].
Defined.
