(* ===== verification/Configuration.v ===== *)
(** * The configuration (src/src/configuration.cc)

    The three tables of keys with their values, [setKey] and its listeners, the
    defaults, the list and number helpers, and [parse]: what each option does,
    and what is derived from the positional arguments.

    [getopt_long] is the C library's: the definitions take it as an argument, a
    function from the table of options and [argv] to the options it reports, in
    order, and [optind] after the last.  The table is the program's. *)
From S2P Require Import Prelude CxxString Utils Interfaces.
From stdpp Require Import options.

(** ** The tables *)

Inductive Value := VString (val : bytes) | VInt (val : Z) | VList (val : list bytes).
Inductive KeyType := KString | KInt | KList.
#[global] Instance KeyType_eq_dec : EqDecision KeyType.
Proof. solve_decision. Defined.

(** [m_programArgs] is what follows in [argv], [None] before [parse];
    [m_notified] are the calls [onConfigurationChanged(key)] made so far, with
    the listener; [m_debug_mask] is the global [g_kcov_debug_mask]. *)
Record Configuration := {
  m_strings : gmap bytes bytes;
  m_ints : gmap bytes Z;
  m_stringVectors : gmap bytes (list bytes);
  m_programArgs : option (list bytes);
  m_argc : Z;
  m_printUncommon : bool;
  m_listeners : gmap bytes nat;
  m_notified : list (nat * bytes);
  m_debug_mask : Z;
}.

Definition notifyKeyListeners (c : Configuration) (key : bytes) : Configuration :=
  match m_listeners c !! key with
  | None => c
  | Some l =>
      {| m_strings := m_strings c; m_ints := m_ints c; m_stringVectors := m_stringVectors c;
         m_programArgs := m_programArgs c; m_argc := m_argc c;
         m_printUncommon := m_printUncommon c; m_listeners := m_listeners c;
         m_notified := m_notified c ++ [(l, key)]; m_debug_mask := m_debug_mask c |}
  end.

(** The three overloads of [setKey]; a value for the [int] one is converted. *)
Definition setKey (c : Configuration) (key : bytes) (val : Value) : Configuration :=
  notifyKeyListeners
    {| m_strings := match val with VString s => <[key:=s]> (m_strings c) | _ => m_strings c end;
       m_ints := match val with VInt i => <[key:=s32 i]> (m_ints c) | _ => m_ints c end;
       m_stringVectors :=
         match val with VList l => <[key:=l]> (m_stringVectors c) | _ => m_stringVectors c end;
       m_programArgs := m_programArgs c; m_argc := m_argc c;
       m_printUncommon := m_printUncommon c; m_listeners := m_listeners c;
       m_notified := m_notified c; m_debug_mask := m_debug_mask c |}
    key.

Definition conf_registerListener (c : Configuration) (listener : nat) (keys : list bytes) : Configuration :=
  {| m_strings := m_strings c; m_ints := m_ints c; m_stringVectors := m_stringVectors c;
     m_programArgs := m_programArgs c; m_argc := m_argc c;
     m_printUncommon := m_printUncommon c;
     m_listeners := foldl (λ ls k, <[k:=listener]> ls) (m_listeners c) keys;
     m_notified := m_notified c; m_debug_mask := m_debug_mask c |}.

Definition or_panic {A} (o : option A) : res A :=
  match o with Some a => Ok a | None => Panic end.

Definition keyAsString (c : Configuration) (key : bytes) : res bytes := or_panic (m_strings c !! key).
Definition keyAsInt (c : Configuration) (key : bytes) : res Z := or_panic (m_ints c !! key).
Definition keyAsList (c : Configuration) (key : bytes) : res (list bytes) :=
  or_panic (m_stringVectors c !! key).

Definition set_printUncommon (c : Configuration) : Configuration :=
  {| m_strings := m_strings c; m_ints := m_ints c; m_stringVectors := m_stringVectors c;
     m_programArgs := m_programArgs c; m_argc := m_argc c; m_printUncommon := true;
     m_listeners := m_listeners c; m_notified := m_notified c; m_debug_mask := m_debug_mask c |}.
Definition set_debug_mask (mask : Z) (c : Configuration) : Configuration :=
  {| m_strings := m_strings c; m_ints := m_ints c; m_stringVectors := m_stringVectors c;
     m_programArgs := m_programArgs c; m_argc := m_argc c;
     m_printUncommon := m_printUncommon c; m_listeners := m_listeners c;
     m_notified := m_notified c; m_debug_mask := s32 mask |}.
Definition set_program (args : list bytes) (argc : Z) (c : Configuration) : Configuration :=
  {| m_strings := m_strings c; m_ints := m_ints c; m_stringVectors := m_stringVectors c;
     m_programArgs := Some args; m_argc := argc; m_printUncommon := m_printUncommon c;
     m_listeners := m_listeners c; m_notified := m_notified c; m_debug_mask := m_debug_mask c |}.

(** [IConfiguration::RunMode_t] *)
Definition MODE_COLLECT_ONLY : Z := 1.
Definition MODE_REPORT_ONLY : Z := 2.
Definition MODE_COLLECT_AND_REPORT : Z := 3.
Definition MODE_MERGE_ONLY : Z := 4.
Definition MODE_SYSTEM_RECORD : Z := 5.
Definition MODE_SYSTEM_REPORT : Z := 6.

Definition default_keys : list (bytes * Value) :=
  [(str "kcov-binary-path", VString (str ""));
   (str "binary-path", VString (str ""));
   (str "python-command", VString (str "python"));
   (str "bash-command", VString (str "bash"));
   (str "kernel-coverage-path", VString (str "/sys/kernel/debug/kprobe-coverage"));
   (str "path-strip-level", VInt 2);
   (str "attach-pid", VInt 0);
   (str "parse-solibs", VInt 1);
   (str "clean-output", VInt 0);
   (str "low-limit", VInt 25);
   (str "high-limit", VInt 75);
   (str "output-interval", VInt 5000);
   (str "daemonize-on-first-process-exit", VInt 0);
   (str "dump-summary", VInt 0);
   (str "coveralls-id", VString (str ""));
   (str "strip-path", VString (str ""));
   (str "exclude-line", VString (str ""));
   (str "exclude-region", VString (str ""));
   (str "orig-path-prefix", VString (str ""));
   (str "new-path-prefix", VString (str ""));
   (str "running-mode", VInt MODE_COLLECT_AND_REPORT);
   (str "exclude-pattern", VList []);
   (str "include-pattern", VList []);
   (str "exclude-path", VList []);
   (str "include-path", VList []);
   (str "bash-force-stderr-input", VInt 0);
   (str "bash-handle-sh-invocation", VInt 0);
   (str "bash-tracefd-cloexec", VInt 0);
   (str "bash-use-basic-parser", VInt 0);
   (str "bash-use-ps4", VInt 1);
   (str "bash-parse-file-dir", VList []);
   (str "bash-parse-binary-dir", VInt 1);
   (str "verify", VInt 0);
   (str "command-name", VString (str ""));
   (str "merged-name", VString (str "[merged]"));
   (str "css-file", VString (str ""));
   (str "lldb-use-raw-breakpoint-writes", VInt 0);
   (str "system-mode-write-file", VString (str ""));
   (str "system-mode-write-file-mode", VInt 420);
   (str "system-mode-read-results-file", VString (str ""));
   (str "patchelf-command", VString (str "patchelf"));
   (str "coveralls-service-name", VString (str "travis-ci"));
   (str "cobertura-full-paths", VInt 0);
   (str "codecov-full-paths", VInt 0);
   (str "cobertura-only", VInt 0);
   (str "is-go-binary", VInt 0)].

Definition set_keys (c : Configuration) (kvs : list (bytes * Value)) : Configuration :=
  foldl (λ c '(k, v), setKey c k v) c kvs.

Definition setupDefaults (c : Configuration) : Configuration := set_keys c default_keys.

(** The constructor. *)
Definition newConfiguration : Configuration :=
  setupDefaults
    {| m_strings := ∅; m_ints := ∅; m_stringVectors := ∅; m_programArgs := None; m_argc := 0;
       m_printUncommon := false; m_listeners := ∅; m_notified := []; m_debug_mask := 16 |}.

(** ** Numbers and lists *)

(** [stoul]: [unsigned long] has the 64 bits of [unsigned long long]. *)
Definition stoul (s : bytes) : res Z :=
  match stoull s 10 with
  | StoValue v _ => Ok v
  | InvalidArgument | OutOfRange => Throw
  end.

(** Only [std::invalid_argument] is caught. *)
Definition isInteger (s : bytes) : res bool :=
  match stoull s 10 with
  | StoValue _ pos => Ok (bool_decide (pos = length s))
  | InvalidArgument => Ok false
  | OutOfRange => Throw
  end.

(** The loop of [getCommaSeparatedList]: [pos] is where the search for a comma
    goes on, [lastPos] where the current item starts. *)
Fixpoint comma_loop (fuel : nat) (s : bytes) (lastPos pos : nat) (out : list bytes)
  : option (list bytes * nat) :=
  match fuel with
  | O => None
  | S fuel =>
      match find_from (str ",") s pos with
      | None => Some (out, lastPos)
      | Some p => comma_loop fuel s (p + 1) (p + 1) (out ++ [take (p - lastPos) (drop lastPos s)])
      end
  end.

Definition getCommaSeparatedList (s : bytes) : list bytes :=
  match str_find (str ",") s with
  | None => [s]
  | Some _ =>
      match comma_loop (S (length s)) s 0 0 [] with
      | Some (out, lastPos) => out ++ [take (length s - lastPos) (drop lastPos s)]
      | None => []
      end
  end.

(** What [parse] asks of the world: [lstat] (directory?, executable?),
    [realpath], the environment, the parser that matches a file (its type), the
    two hashes of the target directory. *)
Record Env := {
  e_lstat : bytes → option (bool * bool);
  e_realpath : bytes → option bytes;
  e_HOME : option bytes;
  e_PATH : option bytes;
  e_matchParser : bytes → option bytes;
  e_std_hash : bytes → Z;
  e_hash_file : bytes → Z;
}.

Definition env_exists (e : Env) (path : bytes) : bool := bool_decide (is_Some (e_lstat e path)).
Definition env_real_path (e : Env) (path : bytes) : bytes :=
  (get_real_path (e_realpath e) ∅ path).1.

(** [s[0] == '~'] reads the terminator of an empty string; [get_home() + ...]
    takes the length of what [getenv] returned. *)
Definition expand_one (e : Env) (s : bytes) : res bytes :=
  c ← at_ s 0;
  if bool_decide (c = "~"%char) then
    home ← or_fault (e_HOME e);
    tail ← substr s 1 (length s);
    Ok (home ++ tail)
  else Ok s.

Definition expandPath (e : Env) (paths : list bytes) : res (list bytes) :=
  res_foldl (λ out s, s ← expand_one e s; Ok (out ++ [s])) [] paths.

(** ** --configure *)

Definition must_be_integer : list bytes :=
  [str "low-limit"; str "high-limit"; str "bash-use-basic-parser";
   str "cobertura-full-paths"; str "codecov-full-paths"].
Definition set_as_integer : list bytes :=
  [str "low-limit"; str "high-limit"; str "system-mode-read-results-file";
   str "bash-use-basic-parser"; str "lldb-use-raw-breakpoint-writes";
   str "cobertura-full-paths"; str "codecov-full-paths"].
Definition set_as_string : list bytes :=
  [str "system-mode-write-file"; str "command-name"; str "css-file"; str "merged-name";
   str "coveralls-service-name"].

Definition configure (c : Configuration) (key value : bytes) : res Configuration :=
  ok ← (if bool_decide (key ∈ must_be_integer) then isInteger value else Ok true);
  if negb ok then Panic
  else if bool_decide (key ∈ set_as_integer) then v ← stoul value; Ok (setKey c key (VInt v))
  else if bool_decide (key ∈ set_as_string) then Ok (setKey c key (VString value))
  else Panic.

(** The calls for the pairs of one option, with false for the return through
    [usage] at one that is no pair. *)
Fixpoint configure_all (c : Configuration) (values : list bytes) : res (bool * Configuration) :=
  match values with
  | [] => Ok (true, c)
  | it :: rest =>
      match split_string it "="%char with
      | [key; value] => c ← configure c key value; configure_all c rest
      | _ => Ok (false, c)
      end
  end.

(** ** The usage text *)

(** The values substituted in the text of [usage]; the second part is that of
    [uncommonOptions]. *)
Record UsageText := {
  u_limits : Z * Z;
  u_uncommon : option (Z * Z * bytes * bytes * bytes);
}.

Definition uncommonOptions (c : Configuration) : res (option (Z * Z * bytes * bytes * bytes)) :=
  if negb (m_printUncommon c) then Ok None
  else
    level ← keyAsInt c (str "path-strip-level");
    interval ← keyAsInt c (str "output-interval");
    python ← keyAsString c (str "python-command");
    bash ← keyAsString c (str "bash-command");
    patchelf ← keyAsString c (str "patchelf-command");
    Ok (Some (level, interval, python, bash, patchelf)).

Definition usage (c : Configuration) : res UsageText :=
  low ← keyAsInt c (str "low-limit");
  high ← keyAsInt c (str "high-limit");
  uncommon ← uncommonOptions c;
  Ok {| u_limits := (low, high); u_uncommon := uncommon |}.

(** ** Options *)

Inductive has_arg := no_argument | required_argument.

(** [struct option]: name, argument, and the character [getopt_long] returns. *)
Definition long_options : list (bytes * has_arg * ascii) :=
  [(str "help", no_argument, "h"%char);
   (str "pid", required_argument, "p"%char);
   (str "limits", required_argument, "l"%char);
   (str "output-interval", required_argument, "O"%char);
   (str "path-strip-level", required_argument, "S"%char);
   (str "skip-solibs", no_argument, "L"%char);
   (str "exit-first-process", no_argument, "F"%char);
   (str "clang", no_argument, "c"%char);
   (str "configure", required_argument, "M"%char);
   (str "clean", no_argument, "E"%char);
   (str "cobertura-only", no_argument, "o"%char);
   (str "exclude-pattern", required_argument, "x"%char);
   (str "include-pattern", required_argument, "i"%char);
   (str "exclude-path", required_argument, "X"%char);
   (str "include-path", required_argument, "I"%char);
   (str "coveralls-id", required_argument, "T"%char);
   (str "strip-path", required_argument, "Z"%char);
   (str "exclude-line", required_argument, "u"%char);
   (str "exclude-region", required_argument, "G"%char);
   (str "debug", required_argument, "D"%char);
   (str "debug-force-bash-stderr", no_argument, "d"%char);
   (str "bash-handle-sh-invocation", no_argument, "s"%char);
   (str "bash-tracefd-cloexec", no_argument, "t"%char);
   (str "bash-dont-parse-binary-dir", no_argument, "j"%char);
   (str "bash-parse-files-in-dirs", required_argument, "J"%char);
   (str "replace-src-path", required_argument, "R"%char);
   (str "collect-only", no_argument, "C"%char);
   (str "report-only", no_argument, "r"%char);
   (str "merge", no_argument, "m"%char);
   (str "python-parser", required_argument, "P"%char);
   (str "patchelf", required_argument, "e"%char);
   (str "bash-parser", required_argument, "B"%char);
   (str "bash-method", required_argument, "4"%char);
   (str "system-record", no_argument, "8"%char);
   (str "system-report", no_argument, "9"%char);
   (str "verify", no_argument, "V"%char);
   (str "dump-summary", no_argument, "5"%char);
   (str "version", no_argument, "v"%char);
   (str "uncommon-options", no_argument, "U"%char)].

Definition short_options : bytes := str "+:hp:s:l:t:".

(** The locals of [parse] that the options change. *)
Record ParseState := { ps_conf : Configuration; ps_extraNeeded : nat; ps_printUsage : bool }.

(** What handling an option comes to: on to the next, [return usage()], or
    [exit]. *)
Inductive opt_result :=
  | Next (s : ParseState)
  | Usage (u : UsageText) (c : Configuration)
  | Exit (code : Z).

Definition return_usage (c : Configuration) : res opt_result := u ← usage c; Ok (Usage u c).

Definition opt_is (opt c : ascii) : bool := bool_decide (opt = c).

(** [find_first_of(":")], [find_last_of(":")] on the argument of
    --replace-src-path: the prefixes around the only colon. *)
Definition split_replace (arg : bytes) : option (bytes * bytes) :=
  match str_find (str ":") arg, str_rfind (str ":") arg with
  | Some front, Some back =>
      if bool_decide (front = back) then Some (take front arg, drop (front + 1) arg) else None
  | _, _ => None
  end.

(** The options whose value is checked to be an integer. *)
Definition number_option (s : ParseState) (arg : bytes) (k : Z → ParseState) : res opt_result :=
  ok ← isInteger arg;
  if negb ok then return_usage (ps_conf s)
  else v ← stoul arg; Ok (Next (k v)).

Definition INT_MAX : Z := 2 ^ 31 - 1.

Definition with_conf (s : ParseState) (f : Configuration → Configuration) : ParseState :=
  {| ps_conf := f (ps_conf s); ps_extraNeeded := ps_extraNeeded s;
     ps_printUsage := ps_printUsage s |}.
Definition set_in (s : ParseState) (kvs : list (bytes * Value)) : ParseState :=
  with_conf s (λ c, set_keys c kvs).
Definition next_set (s : ParseState) (kvs : list (bytes * Value)) : res opt_result :=
  Ok (Next (set_in s kvs)).

(** [case 'l'] *)
Definition limits_option (s : ParseState) (arg : bytes) : res opt_result :=
  match getCommaSeparatedList arg with
  | [low; high] =>
      ok ← (ok ← isInteger low; if negb ok then Ok false else isInteger high);
      if negb ok then return_usage (ps_conf s)
      else
        l ← stoul low; 
        let s := set_in s [(str "low-limit", VInt l)] in
        h ← stoul high;
        next_set s [(str "high-limit", VInt h)]
  | _ => return_usage (ps_conf s)
  end.

(** [case 'R'] *)
Definition replace_option (e : Env) (s : ParseState) (arg : bytes) : res opt_result :=
  match split_replace arg with
  | Some (orig, new) =>
      match e_realpath e new with
      | Some _ => next_set s [(str "orig-path-prefix", VString orig);
                              (str "new-path-prefix", VString new)]
      | None => Panic
      end
  | None => Panic
  end.

(** [case 'M'] *)
Definition configure_option (s : ParseState) (arg : bytes) : res opt_result :=
  '(pairs, c) ← configure_all (ps_conf s) (split_string arg ","%char);
  if negb (pairs : bool) then return_usage c else Ok (Next (with_conf s (λ _, c))).

(** The body of the option loop of [parse]: one round of its [switch], for what
    [getopt_long] returned and [optarg] ([None] is NULL). *)
Definition parse_option (e : Env) (s : ParseState) (opt : ascii) (optarg : option bytes)
  : res opt_result :=
  let arg := or_throw optarg in
  let set_str key := a ← arg; next_set s [(key, VString a)] in
  let set_list key := a ← arg; next_set s [(key, VList (getCommaSeparatedList a))] in
  let set_paths key :=
    a ← arg; paths ← expandPath e (getCommaSeparatedList a); next_set s [(key, VList paths)] in
  if opt_is opt "000" then Ok (Next s)
  else if opt_is opt "h" then
    Ok (Next {| ps_conf := ps_conf s; ps_extraNeeded := ps_extraNeeded s; ps_printUsage := true |})
  else if opt_is opt "U" then Ok (Next (with_conf s set_printUncommon))
  else if opt_is opt "V" then next_set s [(str "verify", VInt 1)]
  else if opt_is opt "v" then Ok (Exit 0)
  else if opt_is opt "L" then next_set s [(str "parse-solibs", VInt 0)]
  else if opt_is opt "F" then next_set s [(str "daemonize-on-first-process-exit", VInt 1)]
  else if opt_is opt "E" then next_set s [(str "clean-output", VInt 1)]
  else if opt_is opt "p" then
    a ← arg;
    number_option s a (λ pid,
      let s := set_in s [(str "attach-pid", VInt pid)] in
      if env_exists e (str "/proc/" ++ fmt_u pid ++ str "/exe")
      then {| ps_conf := ps_conf s; ps_extraNeeded := 1; ps_printUsage := ps_printUsage s |}
      else s)
  else if opt_is opt "O" then
    a ← arg; number_option s a (λ v, set_in s [(str "output-interval", VInt v)])
  else if opt_is opt "o" then next_set s [(str "cobertura-only", VInt 1)]
  else if opt_is opt "S" then
    a ← arg;
    number_option s a (λ v,
      let pathStripLevel := s32 v in
      set_in s [(str "path-strip-level",
                 VInt (if pathStripLevel =? 0 then INT_MAX else pathStripLevel))])
  else if opt_is opt "D" then
    a ← arg; number_option s a (λ v, with_conf s (set_debug_mask v))
  else if opt_is opt "M" then a ← arg; configure_option s a
  else if opt_is opt "i" then set_list (str "include-pattern")
  else if opt_is opt "P" then set_str (str "python-command")
  else if opt_is opt "e" then set_str (str "patchelf-command")
  else if opt_is opt "B" then set_str (str "bash-command")
  else if opt_is opt "T" then set_str (str "coveralls-id")
  else if opt_is opt "Z" then set_str (str "strip-path")
  else if opt_is opt "u" then set_str (str "exclude-line")
  else if opt_is opt "G" then set_str (str "exclude-region")
  else if opt_is opt "x" then set_list (str "exclude-pattern")
  else if opt_is opt "I" then set_paths (str "include-path")
  else if opt_is opt "X" then set_paths (str "exclude-path")
  else if opt_is opt "d" then
    next_set s [(str "bash-force-stderr-input", VInt 1); (str "bash-use-ps4", VInt 1)]
  else if opt_is opt "s" then next_set s [(str "bash-handle-sh-invocation", VInt 1)]
  else if opt_is opt "t" then next_set s [(str "bash-tracefd-cloexec", VInt 1)]
  else if opt_is opt "4" then
    a ← arg;
    if bool_decide (a = str "DEBUG") then next_set s [(str "bash-use-ps4", VInt 0)]
    else if bool_decide (a = str "PS4") then next_set s [(str "bash-use-ps4", VInt 1)]
    else Panic
  else if opt_is opt "C" then next_set s [(str "running-mode", VInt MODE_COLLECT_ONLY)]
  else if opt_is opt "r" then next_set s [(str "running-mode", VInt MODE_REPORT_ONLY)]
  else if opt_is opt "m" then next_set s [(str "running-mode", VInt MODE_MERGE_ONLY)]
  else if opt_is opt "5" then next_set s [(str "dump-summary", VInt 1)]
  else if opt_is opt "8" then
    next_set s [(str "running-mode", VInt MODE_SYSTEM_RECORD); (str "parse-solibs", VInt 0)]
  else if opt_is opt "9" then
    next_set s [(str "running-mode", VInt MODE_SYSTEM_REPORT); (str "parse-solibs", VInt 0)]
  else if opt_is opt "l" then a ← arg; limits_option s a
  else if opt_is opt "j" then next_set s [(str "bash-parse-binary-dir", VInt 0)]
  else if opt_is opt "J" then set_list (str "bash-parse-file-dir")
  else if opt_is opt "R" then a ← arg; replace_option e s a
  else if opt_is opt ":" then return_usage (ps_conf s)
  else if opt_is opt "?" then return_usage (ps_conf s)
  else Panic.

(** The option loop: the options as [getopt_long] delivers them. *)
Fixpoint parse_options (e : Env) (s : ParseState) (opts : list (ascii * option bytes))
  : res opt_result :=
  match opts with
  | [] => Ok (Next s)
  | (opt, optarg) :: opts =>
      r ← parse_option e s opt optarg;
      match r with Next s => parse_options e s opts | _ => Ok r end
  end.

(** ** The positional arguments *)

(** [argv[i]] made a [std::string]; [argv[argc]] is NULL. *)
Definition argv_at (argv : list bytes) (i : nat) : res bytes := or_fault (argv !! i).

(** The file to cover: its name, or what the process runs. *)
Definition program_path (e : Env) (c : Configuration) (argv : list bytes) (afterOpts : nat)
  : res bytes :=
  pid ← keyAsInt c (str "attach-pid");
  if pid =? 0 then argv_at argv (afterOpts + 1)
  else
    let path := env_real_path e (str "/proc/" ++ fmt_d pid ++ str "/exe") in
    if negb (env_exists e path) then
      _ ← (if bool_decide (length argv < afterOpts + 1)%nat then usage c ≫= λ _, Ok tt else Ok tt);
      argv_at argv (afterOpts + 1)
    else Ok path.

(** The path that [look_path] found, or the given one; its directory and name. *)
Definition binary_of (e : Env) (path : bytes) : bytes :=
  default path (look_path (e_lstat e) (env_real_path e) (e_PATH e) path).2.

Definition target_name (dir name : bytes) (hash : Z) : bytes :=
  dir ++ str "/" ++ name ++ str "." ++ fmt_08x hash.

Definition target_directory (e : Env) (c : Configuration) (outDirectory binaryPath binaryName : bytes)
  : res bytes :=
  only ← keyAsInt c (str "cobertura-only");
  if negb (only =? 0) then Ok outDirectory
  else if bool_decide (e_matchParser e binaryPath ∈ [Some (str "bash"); Some (str "python")]) then
    dir ← keyAsString c (str "out-directory");
    name ← keyAsString c (str "binary-name");
    Ok (target_name dir name (u64 (e_std_hash e name)))
  else
    Ok (target_name outDirectory binaryName
          (u32 (e_hash_file e (env_real_path e binaryPath)))).

(** What [parse] and [usage] leave: [true] and the configuration, or [false]
    and the usage text that was printed. *)
Inductive parse_result :=
  | Parsed (c : Configuration)
  | Refused (u : UsageText) (c : Configuration)
  | Exited (code : Z).

Definition refuse (c : Configuration) : res parse_result := u ← usage c; Ok (Refused u c).

Definition parse_program (e : Env) (c : Configuration) (argv : list bytes) (afterOpts : nat)
    (outDirectory : bytes) (finish : Configuration → Configuration) : res parse_result :=
  path ← program_path e c argv afterOpts;
  let binaryPath := binary_of e path in
  let '(dir, binaryName) := split_path binaryPath in
  let c := set_keys c [(str "binary-path", VString dir); (str "binary-name", VString binaryName)] in
  target ← target_directory e c outDirectory binaryPath binaryName;
  let c := setKey c (str "target-directory") (VString target) in
  mode ← keyAsInt c (str "running-mode");
  exists_ ← (if mode =? MODE_REPORT_ONLY then
              t ← keyAsString c (str "target-directory"); Ok (env_exists e t)
             else Ok true);
  if negb exists_ then refuse c
  else
    command ← keyAsString c (str "command-name");
    let c := if bool_decide (command = []) then setKey c (str "command-name") (VString binaryName)
             else c in
    Ok (Parsed (finish c)).

Definition parse_positional (e : Env) (s : ParseState) (argv : list bytes) (afterOpts : nat)
  : res parse_result :=
  let c := ps_conf s in
  let finish := set_program (drop (afterOpts + 1) argv)
                            (Z.of_nat (length argv) - Z.of_nat afterOpts - 1) in
  if bool_decide (length argv < afterOpts + ps_extraNeeded s)%nat then refuse c
  else
    outDirectory ← argv_at argv afterOpts;
    last ← at_back outDirectory;
    let outDirectory :=
      if bool_decide (last ≠ "/"%char) then outDirectory ++ str "/" else outDirectory in
    let c := setKey c (str "out-directory") (VString outDirectory) in
    mode ← keyAsInt c (str "running-mode");
    if mode =? MODE_MERGE_ONLY then
      Ok (Parsed (finish
        (set_keys c [(str "binary-name", VString (str "merged-kcov-output"));
                     (str "target-directory", VString (outDirectory ++ str "/merged-kcov-output"))])))
    else parse_program e c argv afterOpts outDirectory finish.

(** ** parse *)

(** The C library's [getopt_long], for one [argv]: the characters it returns
    with [optarg], until it returns -1, and [optind] then. *)
Abbreviation Getopt :=
  (bytes → list (bytes * has_arg * ascii) → list bytes → list (ascii * option bytes) * nat).

Definition parse (getopt_long : Getopt) (e : Env) (c : Configuration) (argv : list bytes)
  : res parse_result :=
  let c := setupDefaults c in
  program ← or_throw (head argv);
  let c := setKey c (str "kcov-binary-path") (VString (env_real_path e program)) in
  let '(opts, optind) := getopt_long short_options long_options argv in
  r ← parse_options e {| ps_conf := c; ps_extraNeeded := 2; ps_printUsage := false |} opts;
  match r with
  | Usage u c => Ok (Refused u c)
  | Exit code => Ok (Exited code)
  | Next s => if ps_printUsage s then refuse (ps_conf s)
              else parse_positional e s argv optind
  end.

#[local] Arguments set_keys : simpl never.
#[local] Arguments str : simpl never.

(** ** Which keys have a value *)

Definition type_of (v : Value) : KeyType :=
  match v with VString _ => KString | VInt _ => KInt | VList _ => KList end.

(** The key can be read with the accessor of its type. *)
Definition has_key (c : Configuration) (k : KeyType * bytes) : Prop :=
  match k.1 with
  | KString => is_Some (m_strings c !! k.2)
  | KInt => is_Some (m_ints c !! k.2)
  | KList => is_Some (m_stringVectors c !! k.2)
  end.

Definition ints_ok (c : Configuration) : Prop :=
  map_Forall (λ _ v, - 2 ^ 31 ≤ v < 2 ^ 31) (m_ints c).

(** What every operation keeps: no key is lost, and integers stay [int]s. *)
Definition keeps (c c' : Configuration) : Prop :=
  (∀ k, has_key c k → has_key c' k) ∧ (ints_ok c → ints_ok c').

#[export] Instance keeps_preorder : PreOrder keeps.
Proof.
  split; [by split|]. intros c1 c2 c3 [H1 H2] [H3 H4]. split; auto.
Qed.

(** Records with the same tables. *)
Lemma keeps_same c c' :
  m_strings c' = m_strings c → m_ints c' = m_ints c →
  m_stringVectors c' = m_stringVectors c → keeps c c'.
Proof.
  intros E1 E2 E3. split.
  - intros [[] k]; unfold has_key; cbn; by rewrite ?E1, ?E2, ?E3.
  - unfold ints_ok. by rewrite E2.
Qed.

Lemma keeps_notify c key : keeps c (notifyKeyListeners c key).
Proof. unfold notifyKeyListeners. case_match; [by apply keeps_same|done]. Qed.

Lemma insert_is_Some {A} (m : gmap bytes A) k k' v :
  is_Some (m !! k) → is_Some (<[k':=v]> m !! k).
Proof. intros [x Hx]. destruct (decide (k' = k)) as [->|]; simplify_map_eq; by eexists. Qed.

Lemma keeps_setKey c key v : keeps c (setKey c key v).
Proof.
  unfold setKey. etransitivity; [|apply keeps_notify]. split.
  - intros [[] k]; unfold has_key; cbn; destruct v; auto using insert_is_Some.
  - unfold ints_ok. cbn. destruct v as [|i|]; try done.
    intros H. apply map_Forall_insert_2; [apply s32_range|done].
Qed.

Lemma setKey_has c key v : has_key (setKey c key v) (type_of v, key).
Proof.
  unfold setKey. eapply (proj1 (keeps_notify _ _)).
  unfold has_key. destruct v; cbn; rewrite lookup_insert_eq; by eexists.
Qed.

Lemma keeps_set_keys c kvs : keeps c (set_keys c kvs).
Proof.
  unfold set_keys. revert c.
  induction kvs as [|[k v] kvs IH]; intros c; cbn; [done|].
  etransitivity; [apply keeps_setKey|apply IH].
Qed.

Lemma set_keys_have c kvs k v : (k, v) ∈ kvs → has_key (set_keys c kvs) (type_of v, k).
Proof.
  unfold set_keys. revert c.
  induction kvs as [|[k' v'] kvs IH]; intros c; cbn; [by intros ?%not_elem_of_nil|].
  intros [[= -> ->]|H]%elem_of_cons; [|by apply IH].
  apply (keeps_set_keys _ kvs), setKey_has.
Qed.

#[export] Hint Resolve keeps_setKey keeps_set_keys : kcov.

Lemma keyAsString_ok c k : has_key c (KString, k) → ∃ v, keyAsString c k = Ok v.
Proof. intros [v Hv]. exists v. unfold keyAsString. cbn in Hv. by rewrite Hv. Qed.
Lemma keyAsInt_ok c k : has_key c (KInt, k) → ∃ v, keyAsInt c k = Ok v.
Proof. intros [v Hv]. exists v. unfold keyAsInt. cbn in Hv. by rewrite Hv. Qed.

(** What [setKey] does to the tables. *)
Lemma m_strings_notify c k : m_strings (notifyKeyListeners c k) = m_strings c.
Proof. unfold notifyKeyListeners. by case_match. Qed.
Lemma m_ints_notify c k : m_ints (notifyKeyListeners c k) = m_ints c.
Proof. unfold notifyKeyListeners. by case_match. Qed.
Lemma m_stringVectors_notify c k :
  m_stringVectors (notifyKeyListeners c k) = m_stringVectors c.
Proof. unfold notifyKeyListeners. by case_match. Qed.

Lemma m_strings_setKey c k v :
  m_strings (setKey c k v) = match v with VString s => <[k:=s]> (m_strings c) | _ => m_strings c end.
Proof. unfold setKey. by rewrite m_strings_notify. Qed.
Lemma m_ints_setKey c k v :
  m_ints (setKey c k v) = match v with VInt i => <[k:=s32 i]> (m_ints c) | _ => m_ints c end.
Proof. unfold setKey. by rewrite m_ints_notify. Qed.
Lemma m_stringVectors_setKey c k v :
  m_stringVectors (setKey c k v)
  = match v with VList l => <[k:=l]> (m_stringVectors c) | _ => m_stringVectors c end.
Proof. unfold setKey. by rewrite m_stringVectors_notify. Qed.

(** ** Options keep the tables *)

Definition result_keeps (c : Configuration) (r : res opt_result) : Prop :=
  match r with Ok (Next s) => keeps c (ps_conf s) | Ok (Usage _ c') => keeps c c' | _ => True end.

Lemma return_usage_keeps c c' : keeps c c' → result_keeps c (return_usage c').
Proof. intros H. unfold return_usage. by destruct (usage c'). Qed.

Lemma next_set_keeps s kvs : result_keeps (ps_conf s) (next_set s kvs).
Proof. apply keeps_set_keys. Qed.

Lemma bind_keeps {A} c (m : res A) f :
  (∀ a, m = Ok a → result_keeps c (f a)) → result_keeps c (m ≫= f).
Proof. intros H. destruct m; cbn; auto. Qed.

Lemma number_option_keeps s a k :
  (∀ v, keeps (ps_conf s) (ps_conf (k v))) → result_keeps (ps_conf s) (number_option s a k).
Proof.
  intros Hk. unfold number_option. apply bind_keeps. intros ok _.
  case_match; [by apply return_usage_keeps|]. apply bind_keeps. intros v _. apply Hk.
Qed.

Lemma configure_keeps c k v c' : configure c k v = Ok c' → keeps c c'.
Proof.
  unfold configure. intros (ok & _ & H)%bind_Ok. revert H.
  case_match; [done|]. case_bool_decide.
  - intros (x & _ & [= <-])%bind_Ok. auto with kcov.
  - case_bool_decide; intros [= <-]. auto with kcov.
Qed.

Lemma configure_all_keeps c values b c' : configure_all c values = Ok (b, c') → keeps c c'.
Proof.
  revert c; induction values as [|it rest IH]; intros c; cbn; [by intros [= _ <-]|].
  destruct (split_string _ _) as [|k [|v [|]]]; try by intros [= _ <-].
  intros (c1 & H1%configure_keeps & H2%IH)%bind_Ok. by etransitivity.
Qed.

Lemma limits_option_keeps s a : result_keeps (ps_conf s) (limits_option s a).
Proof.
  unfold limits_option. destruct (getCommaSeparatedList a) as [|x [|y [|]]];
    try by apply return_usage_keeps.
  apply bind_keeps; intros ok _. case_match; [by apply return_usage_keeps|].
  apply bind_keeps; intros l _. apply bind_keeps; intros h _.
  cbn. etransitivity; apply keeps_setKey.
Qed.

Lemma configure_option_keeps s a : result_keeps (ps_conf s) (configure_option s a).
Proof.
  unfold configure_option. apply bind_keeps. intros [b c] H%configure_all_keeps.
  destruct b; cbn; [done|by apply return_usage_keeps].
Qed.

Lemma parse_option_keeps e s opt optarg : result_keeps (ps_conf s) (parse_option e s opt optarg).
Proof.
  unfold parse_option, replace_option.
  repeat case_match; subst;
    first [ exact I | apply next_set_keeps | by apply return_usage_keeps
          | apply bind_keeps; intros a _ | by apply keeps_same | reflexivity ];
    repeat first
      [ apply next_set_keeps | apply limits_option_keeps | apply configure_option_keeps
      | apply number_option_keeps; intros v; repeat case_match; cbn;
        first [by apply keeps_same | auto with kcov]
      | apply bind_keeps; intros ? ? | exact I | case_match ].
Qed.

Lemma parse_options_keeps e s opts : result_keeps (ps_conf s) (parse_options e s opts).
Proof.
  revert s; induction opts as [|[opt optarg] opts IH]; intros s; cbn; [done|].
  apply bind_keeps. intros r Hr.
  pose proof (parse_option_keeps e s opt optarg) as H. rewrite Hr in H. cbn in H.
  destruct r as [s'| |]; [|done..]. specialize (IH s').
  destruct (parse_options e s' opts) as [[]| | |]; cbn in *; try done; by etransitivity.
Qed.

(** ** What the positional arguments add *)

(** A refused or accepted configuration extends the one before. *)
Definition parsed_from (c : Configuration) (keys : list (KeyType * bytes)) (args : list bytes)
    (argc : Z) (r : parse_result) : Prop :=
  match r with
  | Parsed c' => keeps c c' ∧ Forall (has_key c') keys ∧ m_programArgs c' = Some args
                 ∧ m_argc c' = argc
  | Refused _ c' => keeps c c'
  | Exited _ => True
  end.

(** The keys without default that the positional arguments set. *)
Definition positional_keys : list (KeyType * bytes) :=
  [(KString, str "out-directory"); (KString, str "binary-name"); (KString, str "target-directory")].

Lemma keeps_set_program c args argc : keeps c (set_program args argc c).
Proof. by apply keeps_same. Qed.

Lemma refuse_keeps c c' r keys args argc :
  refuse c' = Ok r → keeps c c' → parsed_from c keys args argc r.
Proof. unfold refuse. by intros (u & _ & [= <-])%bind_Ok. Qed.

Lemma parse_program_from e c argv n out args argc r :
  has_key c (KString, str "out-directory") →
  parse_program e c argv n out (set_program args argc) = Ok r →
  parsed_from c positional_keys args argc r.
Proof.
  intros Hout. unfold parse_program. intros (path & _ & H)%bind_Ok. revert H.
  destruct (split_path _) as [dir name].
  set (c1 := set_keys c _).
  assert (Hc1 : keeps c c1) by apply keeps_set_keys.
  assert (Hn : has_key c1 (KString, str "binary-name")).
  { apply (set_keys_have c _ _ (VString name)). right. left. }
  intros (t & _ & H)%bind_Ok. revert H.
  set (c2 := setKey c1 _ _). assert (Hc2 : keeps c1 c2) by apply keeps_setKey.
  intros (mode & _ & (ok & _ & H)%bind_Ok)%bind_Ok. revert H.
  destruct (negb ok); [intros H; eapply refuse_keeps; [exact H|by etransitivity]|].
  intros (cmd & _ & [= <-])%bind_Ok.
  set (c3 := if bool_decide (cmd = []) then _ else _).
  assert (Hc3 : keeps c2 c3) by (subst c3; case_bool_decide; auto with kcov; reflexivity).
  assert (Hk : keeps c2 (set_program args argc c3))
    by (etransitivity; [exact Hc3|apply keeps_set_program]).
  split; [etransitivity; [|exact Hk]; by etransitivity|].
  split; [|done]. repeat apply Forall_cons_2; [..|apply Forall_nil_2]; apply Hk.
  - by apply Hc2, Hc1.
  - by apply Hc2.
  - apply (setKey_has c1 _ (VString t)).
Qed.

Lemma parse_positional_from e s argv n r :
  parse_positional e s argv n = Ok r →
  parsed_from (ps_conf s) positional_keys (drop (n + 1) argv)
    (Z.of_nat (length argv) - Z.of_nat n - 1) r.
Proof.
  unfold parse_positional. case_bool_decide as Hargs; [intros H; by eapply refuse_keeps|].
  intros (out & _ & (l & _ & H)%bind_Ok)%bind_Ok. revert H.
  set (dir := if bool_decide _ then _ else _). set (c := setKey _ _ _).
  assert (Hc : keeps (ps_conf s) c) by apply keeps_setKey.
  assert (Ho : has_key c (KString, str "out-directory"))
    by apply (setKey_has _ _ (VString dir)).
  intros (mode & _ & H)%bind_Ok. revert H. case_match.
  - intros [= <-]. set (c' := set_keys c _).
    assert (Hc' : keeps c c') by apply keeps_set_keys.
    split; [etransitivity; [|apply keeps_set_program]; by etransitivity|].
    split; [|done]. repeat apply Forall_cons_2; [..|apply Forall_nil_2]; apply keeps_set_program.
    + by apply Hc'.
    + eapply (set_keys_have c _ _ (VString _)). left.
    + eapply (set_keys_have c _ _ (VString _)). right. left.
  - intros Hr%parse_program_from; [|done]. destruct r; cbn in *; [|by etransitivity|done].
    destruct Hr as (? & ? & ? & ?). split_and!; try done. by etransitivity.
Qed.

(** ** The comma-separated lists *)

Lemma comma_find_item a b : ","%char ∉ a → str_find (str ",") (a ++ ","%char :: b) = Some (length a).
Proof.
  change (str ",") with [","%char].
  induction a as [|c a IH]; intros Ha; [done|].
  apply not_elem_of_cons in Ha as [? ?]. cbn.
  rewrite bool_decide_eq_false_2 by done. cbn. by rewrite IH.
Qed.

Lemma comma_find_none a : ","%char ∉ a → str_find (str ",") a = None.
Proof.
  change (str ",") with [","%char].
  induction a as [|c a IH]; intros Ha; [done|].
  apply not_elem_of_cons in Ha as [? ?]. cbn.
  rewrite bool_decide_eq_false_2 by done. cbn. by rewrite IH.
Qed.

Lemma join_cons (delim : ascii) x y xs : join delim (x :: y :: xs) = x ++ delim :: join delim (y :: xs).
Proof. done. Qed.

(** The loop collects all items but the last, and stops where the last starts. *)
Lemma comma_loop_join fuel s pos out x xs :
  Forall (","%char ∉.) (x :: xs) → drop pos s = join ","%char (x :: xs) → (pos ≤ length s)%nat →
  (length s < fuel + pos)%nat →
  ∃ last ys, x :: xs = ys ++ [last]
    ∧ ∃ p, comma_loop fuel s pos pos out = Some (out ++ ys, p) ∧ drop p s = last.
Proof.
  revert fuel pos out x; induction xs as [|y xs IH]; intros fuel pos out x Hf Hd Hp Hfuel;
    destruct fuel as [|fuel]; [lia| |lia|].
  - apply Forall_cons in Hf as [Hx _]. cbn [join fmap list_fmap concat] in Hd.
    rewrite app_nil_r in Hd. exists x, []. split; [done|]. exists pos. cbn [comma_loop].
    unfold find_from. rewrite bool_decide_eq_true_2, Hd, comma_find_none by done.
    by rewrite app_nil_r.
  - apply Forall_cons in Hf as [Hx Hf]. rewrite join_cons in Hd.
    pose proof (f_equal length Hd) as Hl. rewrite length_drop, length_app in Hl. cbn in Hl.
    destruct (IH fuel (pos + length x + 1)%nat (out ++ [x]) y) as (l & ys & E & p & Hc & Hlast);
      [done| |lia..|].
    { rewrite <-!Nat.add_assoc, <-drop_drop, Hd, drop_app_add'; [done|lia]. }
    exists l, (x :: ys). split; [by rewrite E|]. exists p. split; [|done].
    cbn [comma_loop]. unfold find_from. rewrite bool_decide_eq_true_2 by done.
    rewrite Hd, comma_find_item by done. cbn [fmap option_fmap option_map].
    replace (pos + length x - pos)%nat with (length x) by lia. rewrite take_app_length. rewrite <-app_assoc in Hc. exact Hc.
Qed.

(** Every string is its items, separated by commas. *)
Lemma comma_items s : ∃ x xs, Forall (","%char ∉.) (x :: xs) ∧ s = join ","%char (x :: xs).
Proof.
  induction s as [|c s (x & xs & Hf & ->)].
  { exists [], []. split; [|done]. constructor; [|done]. by apply not_elem_of_nil. }
  apply Forall_cons in Hf as [Hx Hxs].
  destruct (decide (c = ","%char)) as [->|Hc].
  - exists [], (x :: xs). split; [|done]. constructor; [by apply not_elem_of_nil|by constructor].
  - exists (c :: x), xs. split; [|done]. constructor; [by apply not_elem_of_cons|done].
Qed.

Lemma comma_list_join x xs :
  Forall (","%char ∉.) (x :: xs) → getCommaSeparatedList (join ","%char (x :: xs)) = x :: xs.
Proof.
  intros Hf. unfold getCommaSeparatedList. destruct xs as [|y xs].
  - cbn [join fmap list_fmap concat]. rewrite app_nil_r, comma_find_none; [done|].
    by apply Forall_cons in Hf as [? _].
  - rewrite join_cons, comma_find_item by (by apply Forall_cons in Hf as [? _]).
    rewrite <-join_cons. set (s := join _ _).
    destruct (comma_loop_join (S (length s)) s 0 [] x (y :: xs)) as (l & ys & E & p & -> & Hp);
      [done|by rewrite drop_0|lia..|].
    rewrite Hp, take_ge, E; [done|]. rewrite <-Hp, length_drop. lia.
Qed.

(** Joining items and taking them apart are inverse to each other, for all
    items without a comma and for all arguments; the loop ends. *)
Theorem comma_list_roundtrip (x : bytes) (xs : list bytes) (s : bytes) :
  Forall (","%char ∉.) (x :: xs) →
  getCommaSeparatedList (join ","%char (x :: xs)) = x :: xs
  ∧ join ","%char (getCommaSeparatedList s) = s
  ∧ Forall (","%char ∉.) (getCommaSeparatedList s).
Proof.
  intros Hf. split; [by apply comma_list_join|].
  destruct (comma_items s) as (y & ys & Hs & ->). by rewrite comma_list_join.
Qed.

Lemma comma_list_roundtrip_witness :
  getCommaSeparatedList (str "/usr/include,,~/src/") = [str "/usr/include"; []; str "~/src/"]
  ∧ join ","%char (getCommaSeparatedList (str ",a,")) = str ",a,".
Proof.
  destruct (comma_list_roundtrip (str "/usr/include") [[]; str "~/src/"] (str ",a,"))
    as (H1 & H2 & _); [|by split].
  apply (bool_decide_unpack _). by vm_compute.
Defined.

(** ** The keys the program reads *)

(** Every key that a component reads with [keyAsString], [keyAsInt] or
    [keyAsList], with the type it reads it at. *)
Definition program_keys : list (KeyType * bytes) :=
  ((KInt,.) <$> [str "attach-pid"; str "bash-force-stderr-input";
     str "bash-handle-sh-invocation"; str "bash-parse-binary-dir"; str "bash-tracefd-cloexec";
     str "bash-use-basic-parser"; str "bash-use-ps4"; str "clean-output";
     str "cobertura-full-paths"; str "cobertura-only"; str "codecov-full-paths";
     str "daemonize-on-first-process-exit"; str "dump-summary"; str "high-limit";
     str "is-go-binary"; str "low-limit"; str "output-interval"; str "parse-solibs";
     str "path-strip-level"; str "running-mode"; str "verify"])
  ++ ((KList,.) <$> [str "bash-parse-file-dir"; str "exclude-path"; str "exclude-pattern";
     str "include-path"; str "include-pattern"])
  ++ ((KString,.) <$> [str "bash-command"; str "binary-name"; str "binary-path";
     str "command-name"; str "coveralls-id"; str "coveralls-service-name"; str "css-file";
     str "exclude-line"; str "exclude-region"; str "kcov-binary-path";
     str "kernel-coverage-path"; str "merged-name"; str "new-path-prefix"; str "orig-path-prefix";
     str "out-directory"; str "patchelf-command"; str "python-command"; str "strip-path";
     str "system-mode-read-results-file"; str "system-mode-write-file"; str "target-directory"]).

Definition declared : list (KeyType * bytes) :=
  ((λ '(k, v), (type_of v, k)) <$> default_keys) ++ positional_keys.

Lemma program_keys_declared : Forall (.∈ declared) program_keys.
Proof. apply (bool_decide_unpack _). by vm_compute. Qed.

Lemma defaults_have c k : k ∈ ((λ '(k, v), (type_of v, k)) <$> default_keys) → has_key (setupDefaults c) k.
Proof.
  intros ([k' v] & -> & Hin)%list_elem_of_fmap. by apply set_keys_have.
Qed.

(** A call of [parse]: the options, from the defaults, and what follows. *)
Lemma parse_cases getopt_long e c argv r :
  parse getopt_long e c argv = Ok r →
  let '(opts, n) := getopt_long short_options long_options argv in
  ∃ s o, keeps (setupDefaults c) (ps_conf s) ∧ parse_options e s opts = Ok o
    ∧ match o with
      | Usage u c => r = Refused u c
      | Exit code => r = Exited code
      | Next s => if ps_printUsage s then refuse (ps_conf s) = Ok r
                  else parse_positional e s argv n = Ok r
      end.
Proof.
  unfold parse. generalize (setupDefaults c) as d. intros d. cbv zeta.
  intros (program & _ & H)%bind_Ok. revert H. destruct (getopt_long _ _ _) as [opts n].
  intros (o & Ho & H)%bind_Ok. eexists _, o. split; [|split; [exact Ho|]].
  - cbn. apply keeps_setKey.
  - destruct o as [s| |]; [by destruct (ps_printUsage s)|by injection H as <-..].
Qed.

Lemma parse_from getopt_long e c argv r :
  parse getopt_long e c argv = Ok r →
  let n := (getopt_long short_options long_options argv).2 in
  parsed_from (setupDefaults c) positional_keys (drop (n + 1) argv)
    (Z.of_nat (length argv) - Z.of_nat n - 1) r.
Proof.
  intros H%parse_cases. generalize dependent (setupDefaults c). intros d H.
  destruct (getopt_long _ _ _) as [opts n]. cbn [snd]. destruct H as (s & o & Hs & Ho & H).
  pose proof (parse_options_keeps e s opts) as Hk. rewrite Ho in Hk. cbn in Hk.
  destruct o as [s'|u c'|code].
  - assert (Hs' : keeps d (ps_conf s')) by (by etransitivity).
    destruct (ps_printUsage s'); [by eapply refuse_keeps|].
    apply parse_positional_from in H. destruct r; cbn in *; [|by etransitivity|done].
    destruct H as (? & ? & ? & ?). split_and!; try done. by etransitivity.
  - subst r. cbn. by etransitivity.
  - by subst r.
Qed.

(** C30: Once [parse] accepted its arguments, every read of a key by any component
    succeeds, at the type it is read at, and integer keys hold values of type
    [int]. *)
Theorem parse_types (getopt_long : Getopt) (e : Env) (c c' : Configuration) (argv : list bytes) :
  ints_ok c → parse getopt_long e c argv = Ok (Parsed c') →
  Forall (λ '(t, k),
    match t with
    | KString => ∃ v, keyAsString c' k = Ok v
    | KInt => ∃ v, keyAsInt c' k = Ok v ∧ - 2 ^ 31 ≤ v < 2 ^ 31
    | KList => ∃ v, keyAsList c' k = Ok v
    end) program_keys.
Proof.
  intros Hc (Hk & Hp & _)%parse_from.
  assert (Hi : ints_ok c') by by apply Hk, keeps_set_keys.
  eapply Forall_impl; [exact program_keys_declared|]. intros [t k] Hin. cbn.
  assert (Hh : has_key c' (t, k)).
  { apply elem_of_app in Hin as [Hin|Hin].
    - by apply Hk, defaults_have.
    - by eapply (proj1 (Forall_forall _ _)) in Hp. }
  destruct t, Hh as [v Hv]; exists v; cbn in Hv;
    unfold keyAsString, keyAsInt, keyAsList; rewrite Hv; [done| |done].
  split; [done|]. by apply (Hi k).
Qed.

(** The program under coverage gets exactly the arguments that follow its
    output directory, and [getArgc] is their number. *)
Theorem parse_arguments (getopt_long : Getopt) (e : Env) (c c' : Configuration) (argv : list bytes) :
  parse getopt_long e c argv = Ok (Parsed c') →
  let optind := (getopt_long short_options long_options argv).2 in
  m_programArgs c' = Some (drop (optind + 1) argv)
  ∧ m_argc c' = Z.of_nat (length (drop (optind + 1) argv))
  ∧ (∃ out, argv !! optind = Some out ∧ out ≠ []).
Proof.
  intros Hp. pose proof (parse_from _ _ _ _ _ Hp) as (_ & _ & H1 & H2).
  apply parse_cases in Hp. revert Hp H1 H2. destruct (getopt_long _ _ _) as [opts n]. cbn [snd].
  intros (s & o & _ & _ & H) H1 H2. destruct o as [s'| |]; [|done..].
  destruct (ps_printUsage s').
  { unfold refuse in H. by apply bind_Ok in H as (u & _ & ?). }
  unfold parse_positional in H. revert H. case_bool_decide as Hn.
  { unfold refuse. by intros (u & _ & ?)%bind_Ok. }
  intros (out & Ho & (l & Hl & _)%bind_Ok)%bind_Ok.
  unfold argv_at, or_fault in Ho. destruct (argv !! n) as [x|] eqn:E; [|done].
  injection Ho as ->. apply lookup_lt_Some in E as Hlt.
  rewrite length_drop, H1, H2. split_and!; [done|lia|]. exists out. split; [done|].
  by intros ->.
Qed.

(** ** What an option can come to *)

Definition usage_keys : list (KeyType * bytes) :=
  ((KInt,.) <$> [str "low-limit"; str "high-limit"; str "path-strip-level"; str "output-interval"])
  ++ ((KString,.) <$> [str "python-command"; str "bash-command"; str "patchelf-command"]).

Lemma usage_ok c : Forall (has_key c) usage_keys → ∃ u, usage c = Ok u.
Proof.
  unfold usage_keys, usage, uncommonOptions. cbn [fmap list_fmap app].
  rewrite !Forall_cons. intros (H1 & H2 & H3 & H4 & H5 & H6 & H7 & _).
  apply keyAsInt_ok in H1 as [? ->], H2 as [? ->], H3 as [? ->], H4 as [? ->].
  apply keyAsString_ok in H5 as [? ->], H6 as [? ->], H7 as [? ->].
  cbn. destruct (m_printUncommon c); cbn; by eexists.
Qed.

Lemma defaults_usage c : Forall (has_key (setupDefaults c)) usage_keys.
Proof.
  assert (H : Forall (.∈ ((λ '(k, v), (type_of v, k)) <$> default_keys)) usage_keys)
    by (apply (bool_decide_unpack _); by vm_compute).
  eapply Forall_impl; [exact H|]. intros. by apply defaults_have.
Qed.

Lemma Forall_keeps c c' ks : keeps c c' → Forall (has_key c) ks → Forall (has_key c') ks.
Proof. intros [H _] Hf. eapply Forall_impl; [exact Hf|]. auto. Qed.

(** A number, in the argument or in its list, that [unsigned long] cannot hold. *)
Definition too_big (optarg : option bytes) : Prop :=
  ∃ a x, optarg = Some a ∧ (x = a ∨ x ∈ getCommaSeparatedList a) ∧ stoull x 10 = OutOfRange.

Definition outcome (panics throws : Prop) {A} (r : res A) : Prop :=
  match r with Ok _ => True | Panic => panics | Throw => throws | Fault => False end.

Lemma outcome_bind (P T : Prop) {A B} (m : res A) (f : A → res B) :
  outcome P T m → (∀ a, m = Ok a → outcome P T (f a)) → outcome P T (m ≫= f).
Proof. intros H Hf. destruct m; cbn in *; auto. Qed.

Lemma isInteger_outcome (P : Prop) x : outcome P (stoull x 10 = OutOfRange) (isInteger x).
Proof. unfold isInteger. by destruct (stoull x 10). Qed.

(** What [isInteger] accepted, [stoul] converts. *)
Lemma isInteger_stoul x : isInteger x = Ok true → ∃ v, stoul x = Ok v.
Proof. unfold isInteger, stoul. destruct (stoull x 10); [|done..]. by eexists. Qed.

Lemma return_usage_ok c : Forall (has_key c) usage_keys → ∃ u, return_usage c = Ok (Usage u c).
Proof. intros [u Hu]%usage_ok. unfold return_usage. rewrite Hu. by eexists. Qed.

Lemma number_option_outcome (P : Prop) s a k :
  Forall (has_key (ps_conf s)) usage_keys → outcome P (too_big (Some a)) (number_option s a k).
Proof.
  intros Hu. unfold number_option. apply outcome_bind.
  - pose proof (isInteger_outcome P a) as H. destruct (isInteger a); cbn in *; try done.
    exists a, a. auto.
  - intros [] Hi; cbn [negb].
    + apply isInteger_stoul in Hi as [v ->]. done.
    + by destruct (return_usage_ok _ Hu) as [u ->].
Qed.

Lemma limits_option_outcome (P : Prop) s a :
  Forall (has_key (ps_conf s)) usage_keys → outcome P (too_big (Some a)) (limits_option s a).
Proof.
  intros Hu. destruct (return_usage_ok _ Hu) as [u Hret]. unfold limits_option.
  destruct (getCommaSeparatedList a) as [|x [|y [|]]] eqn:E; try by rewrite Hret.
  assert (Hi : ∀ z, z ∈ [x; y] → outcome P (too_big (Some a)) (isInteger z)).
  { intros z Hz. pose proof (isInteger_outcome P z) as H. destruct (isInteger z); cbn in *; try done.
    exists a, z. rewrite E. auto. }
  destruct (isInteger x) as [[]| | |] eqn:Ex; cbn;
    try (by apply (Hi x); [left|]); try (specialize (Hi x); rewrite Ex in Hi; by apply Hi; left).
  - destruct (isInteger y) as [[]| | |] eqn:Ey; cbn;
      try (specialize (Hi y); rewrite Ey in Hi; by apply Hi; right; left).
    + apply isInteger_stoul in Ex as [? ->], Ey as [? ->]. done.
    + by rewrite Hret.
  - by rewrite Hret.
Qed.

Lemma configure_outcome c k v : outcome True True (configure c k v).
Proof.
  unfold configure, isInteger, stoul.
  repeat (case_bool_decide || (case_match; cbn) || cbn); done.
Qed.

Lemma configure_option_outcome s a :
  Forall (has_key (ps_conf s)) usage_keys → outcome True True (configure_option s a).
Proof.
  intros Hu. unfold configure_option. apply outcome_bind.
  - generalize (ps_conf s). induction (split_string a ",") as [|it rest IH]; intros c; cbn; [done|].
    destruct (split_string _ _) as [|k [|v [|]]]; try done.
    apply outcome_bind; [apply configure_outcome|]. intros c' _. apply IH.
  - intros [b c] H%configure_all_keeps. destruct b; cbn; [done|].
    by destruct (return_usage_ok c) as [u ->]; [by eapply Forall_keeps|].
Qed.

Lemma expandPath_ok e paths : is_Some (e_HOME e) → ∃ out, expandPath e paths = Ok out.
Proof.
  intros [home Hh]. unfold expandPath.
  destruct (res_foldl_total (λ _, True)
              (λ out s, s ← expand_one e s; Ok (out ++ [s])) [] paths) as (out & H & _); [|done|by eexists].
  intros out s _ _. unfold expand_one. rewrite Hh.
  destruct s as [|c s]; cbn -[substr]; [by eexists|].
  case_bool_decide; cbn -[substr]; [|by eexists].
  rewrite substr_ok by (cbn; lia). by eexists.
Qed.

(** The options that can stop the program with a message: [--clang] always, the
    others on a value they do not know. *)
Definition may_panic (ch : ascii) : Prop := ch ∈ ["c"; "M"; "4"; "R"]%char.

(** Every option of the table but [--clang] has its case: with the argument the
    table asks for it is handled, or the usage text shown, and nothing else can
    happen than the complaints about a --configure pair, a bash method or a
    source path, and the uncaught exception for a number that does not fit.
    [--clang] runs into the [unreachable] of the switch. *)
Theorem option_outcomes (e : Env) (s : ParseState) (name : bytes) (ha : has_arg) (ch : ascii)
    (optarg : option bytes) :
  Forall (has_key (ps_conf s)) usage_keys →
  (name, ha, ch) ∈ long_options →
  (ha = required_argument → is_Some optarg) → is_Some (e_HOME e) →
  match parse_option e s ch optarg with
  | Ok _ => ch ≠ "c"%char
  | Panic => may_panic ch
  | Throw => ch = "M"%char ∨ too_big optarg
  | Fault => False
  end.
Proof.
  intros Hu Hin Harg Hhome.
  destruct (decide (ch = "c"%char)) as [->|Hc]; [by left|].
  cut (outcome (may_panic ch) (ch = "M"%char ∨ too_big optarg) (parse_option e s ch optarg));
    [by destruct (parse_option _ _ _ _)|].
  assert (Hkeep : ∀ (P Q : Prop) {A} (r : res A), outcome P (Q : Prop) r → outcome P (ch = "M"%char ∨ Q) r).
  { intros P Q A r. destruct r; cbn; auto. }
  unfold long_options in Hin. 
  repeat (apply elem_of_cons in Hin as [[= -> -> ->]|Hin];
    [try done; try (destruct (Harg eq_refl) as [a ->]); clear Harg|]);
    [..|by apply not_elem_of_nil in Hin].
  all: try exact I.
  all: try (apply Hkeep; by apply number_option_outcome).
  all: try (apply Hkeep; by apply limits_option_outcome).
  - pose proof (configure_option_outcome s a Hu) as H.
    change (parse_option e s "M" (Some a)) with (configure_option s a).
    destruct (configure_option s a); cbn in *; try done; [right; by left|by left].
  - unfold parse_option. cbn.
    by destruct (expandPath_ok e (getCommaSeparatedList a)) as [out ->].
  - unfold parse_option. cbn.
    by destruct (expandPath_ok e (getCommaSeparatedList a)) as [out ->].
  - change (parse_option e s "R" (Some a)) with (replace_option e s a). unfold replace_option.
    repeat case_match; cbn; try done; by do 3 right; left.
  - unfold parse_option. cbn. repeat case_bool_decide; cbn; try done. right; right; by left.
Qed.

(** ** Concrete runs *)

(** A host with the program /work/prog, [HOME] and a process 1000. *)
Definition demo_env : Env := {|
  e_lstat := λ p,
    if bool_decide (p ∈ [str "/work/prog"; str "/proc/1000/exe"]) then Some (false, true)
    else if bool_decide (p = str "/tmp/out/") then Some (true, true) else None;
  e_realpath := λ p, if bool_decide (p = str "/proc/1000/exe") then Some (str "/work/prog") else Some p;
  e_HOME := Some (str "/home/u");
  e_PATH := Some (str "/bin");
  e_matchParser := λ _, Some (str "ELF");
  e_std_hash := λ _, 7;
  e_hash_file := λ _, 0xbeef |}.

(** Long options written in full, with arguments after '=', up to the first
    argument that is none. *)
Definition demo_option (table : list (bytes * has_arg * ascii)) (a : bytes) : ascii * option bytes :=
  let name := take (default (length a) (str_find (str "=") a)) a in
  let value := (λ i, drop (S i) a) <$> str_find (str "=") a in
  match list_find (λ '(n, _, _), n = drop 2 name) table with
  | Some (_, (_, required_argument, ch)) =>
      match value with Some _ => (ch, value) | None => (":"%char, None) end
  | Some (_, (_, no_argument, ch)) => (ch, None)
  | None => ("?"%char, None)
  end.
Fixpoint demo_loop (table : list (bytes * has_arg * ascii)) (n : nat) (args : list bytes)
  : list (ascii * option bytes) * nat :=
  match args with
  | a :: args =>
      if prefixb (str "--") a then
        let '(os, k) := demo_loop table (S n) args in (demo_option table a :: os, k)
      else ([], n)
  | [] => ([], n)
  end.
Definition demo_getopt : Getopt := λ _ table argv, demo_loop table 1 (tail argv).

Definition demo_argv : list bytes :=
  [str "kcov"; str "--include-path=~/src,lib"; str "--limits=30,80"; str "/tmp/out";
   str "/work/prog"; str "--limits=1,2"; str "x"].

Definition parsed_conf (r : res parse_result) : Configuration :=
  match r with Ok (Parsed c) => c | _ => newConfiguration end.

Definition demo_conf : Configuration :=
  parsed_conf (parse demo_getopt demo_env newConfiguration demo_argv).

Definition is_parsed (r : res parse_result) : bool :=
  match r with Ok (Parsed _) => true | _ => false end.

Lemma is_parsed_conf r : is_parsed r = true → r = Ok (Parsed (parsed_conf r)).
Proof. by destruct r as [[]| | |]. Qed.

Lemma demo_parsed : parse demo_getopt demo_env newConfiguration demo_argv = Ok (Parsed demo_conf).
Proof. apply is_parsed_conf. by vm_compute. Qed.

Lemma new_ints_ok : ints_ok newConfiguration.
Proof. apply keeps_set_keys. apply map_Forall_empty. Qed.

Lemma parse_types_witness :
  (∃ v, keyAsList demo_conf (str "include-path") = Ok v)
  ∧ keyAsList demo_conf (str "include-path") = Ok [str "/home/u/src"; str "lib"]
  ∧ keyAsInt demo_conf (str "low-limit") = Ok 30
  ∧ keyAsString demo_conf (str "target-directory") = Ok (str "/tmp/out//prog.0000beef").
Proof.
  split; [|by vm_compute].
  pose proof (parse_types _ _ _ _ _ new_ints_ok demo_parsed) as Hf.
  rewrite Forall_forall in Hf. apply (Hf (KList, str "include-path")).
  apply (bool_decide_unpack _). by vm_compute.
Defined.

Lemma parse_arguments_witness :
  m_programArgs demo_conf = Some [str "/work/prog"; str "--limits=1,2"; str "x"]
  ∧ m_argc demo_conf = 3.
Proof.
  pose proof (parse_arguments _ _ _ _ _ demo_parsed) as (H1 & H2 & _).
  split; [refine (eq_trans H1 _)|refine (eq_trans H2 _)]; by vm_compute.
Defined.

Lemma option_outcomes_witness :
  let s := {| ps_conf := newConfiguration; ps_extraNeeded := 2; ps_printUsage := false |} in
  match parse_option demo_env s "O" (Some (str "10s")) with
  | Ok _ => "O"%char ≠ "c"%char
  | Panic => may_panic "O"
  | Throw => "O"%char = "M"%char ∨ too_big (Some (str "10s"))
  | Fault => False
  end.
Proof.
  apply (option_outcomes _ _ (str "output-interval") required_argument).
  - apply defaults_usage.
  - do 3 right. left.
  - intros _. by eexists.
  - by eexists.
Defined.

Definition demo_outcome (args : list bytes) : res bool :=
  r ← parse demo_getopt demo_env newConfiguration args;
  Ok (match r with Parsed _ => true | _ => false end).

(** Command lines that end the program otherwise than with the usage text:
    [--clang], which the table offers, reaches [panic("unreachable")]; a number
    that [unsigned long] cannot hold is an uncaught exception, although
    [isInteger] is there to refuse what is no number; an empty output directory
    is indexed before its first character. *)
Theorem parse_bad_command_lines :
  demo_outcome [str "kcov"; str "/tmp/out"; str "/work/prog"] = Ok true
  ∧ demo_outcome [str "kcov"; str "--output-interval=10s"; str "/tmp/out"; str "/work/prog"] = Ok false
  ∧ demo_outcome [str "kcov"; str "--clang"; str "/tmp/out"; str "/work/prog"] = Panic
  ∧ demo_outcome [str "kcov"; str "--output-interval=18446744073709551616"; str "/tmp/out";
                  str "/work/prog"] = Throw
  ∧ demo_outcome [str "kcov"; str ""; str "/work/prog"] = Fault.
Proof. by vm_compute. Qed.
