(* ===== verification/MachEngine.v ===== *)
(** * The Mach engine (src/src/engines/mach-engine.cc)

    Breakpoints in a program on macOS, on both of its architectures, through Mach
    exceptions.  The kernel is a parameter: the class [MachOS] has the calls,
    [MachLaws] what the code relies on.  The messages are taken apart by the
    generated exception server, which calls [CatchMachExceptionRaise]. *)
From S2P Require Export Ptrace.
From S2P Require Import Configuration.
From stdpp Require Import options.

(** ** Trap instructions *)

Inductive Arch := X86_64 | ARM64.
#[global] Instance Arch_eq_dec : EqDecision Arch.
Proof. solve_decision. Defined.

(** The parameter is 32 bits wide. *)
Definition mach_getAligned (addr : Z) : Z := u32 addr / 4 * 4.

(** The distance of the address from the aligned one, as a shift: of a 64-bit count
    the processors take the lowest 6 bits. *)
Definition mach_shift (addr : Z) : Z := (8 * u64 (addr - mach_getAligned addr)) mod 64.

Definition mach_setupBreakpoint (arch : Arch) (addr old_data : Z) : Z :=
  let shift := mach_shift addr in
  match arch with
  | X86_64 => patch 64 0xff shift old_data 0xcc
  | ARM64 => patch 64 0xffffffff shift old_data 0xd4200000
  end.

Definition mach_clearBreakpoint (arch : Arch) (addr old_data cur_data : Z) : Z :=
  match arch with
  | X86_64 =>
      let shift := mach_shift addr in
      let old_byte := Z.land (Z.shiftr old_data shift) 0xff in
      patch 64 0xff shift cur_data old_byte
  | ARM64 => old_data
  end.

(** The program counter to go on at, and whether it was changed. *)
Definition mach_adjustPc (arch : Arch) (pc : Z) : Z * bool :=
  match arch with X86_64 => (u64 (pc - 1), true) | ARM64 => (pc, false) end.

(** ** The kernel *)

(** An exception message, and one the server can not parse. *)
Record MachException := mkException { ex_thread : Z; ex_type : Z; ex_code0 : Z; ex_code1 : Z }.

Class MachOS (K : Type) := {
  vm_read : K → Z → option Z;                  (* [vm_read_overwrite] of a word *)
  vm_protect : K → Z → K * bool;
  vm_write : K → Z → Z → K * bool;
  thread_get_pc : K → Z → option Z;
  thread_set_pc : K → Z → Z → K * bool;
  thread_update : K → Z → Z → K;               (* PT_THUPDATE *)
  mach_msg_receive : K → option (option MachException) * K;
}.

(** Constants of mach/exception_types.h and mach/kern_return.h. *)
Definition EXC_BAD_ACCESS : Z := 1.
Definition EXC_SOFTWARE : Z := 5.
Definition EXC_BREAKPOINT : Z := 6.
Definition EXC_SOFT_SIGNAL : Z := 0x10003.
Definition KERN_SUCCESS : Z := 0.
Definition KERN_ABORTED : Z := 14.
Definition MACH_RCV_INVALID_TYPE : Z := 0x1000400f.

(** ** The engine *)

Record MachEngine := mkMachEngine {
  me_instructionMap : gmap Z Z;
  me_pendingBreakpoints : list Z;              (* a [std::set]: in order *)
  me_imageBase : Z;
  me_events : list EngineEvent;                (* to the listener *)
}.
Definition new_MachEngine : MachEngine := mkMachEngine ∅ [] 0 [].

Fixpoint set_insert (a : Z) (l : list Z) : list Z :=
  match l with
  | [] => [a]
  | b :: l' => if a <? b then a :: l else if a =? b then l else b :: set_insert a l'
  end.

Section engine.
Context (arch : Arch) {K : Type} `{!MachOS K}.

Definition patch_addr (s : MachEngine) (aligned_addr : Z) : Z :=
  u64 (me_imageBase s + Z.land aligned_addr 0xffffffff).

Definition mach_peekWord (k : K) (s : MachEngine) (aligned_addr : Z) : res Z :=
  match vm_read k (patch_addr s aligned_addr) with Some val => Ok val | None => Panic end.

(** A write that fails leaves the page as it is. *)
Definition mach_pokeWord (k : K) (s : MachEngine) (aligned_addr value : Z) : res K :=
  let p := patch_addr s aligned_addr in
  let '(k, ok) := vm_protect k p in
  if negb ok then Panic
  else
    let '(k, ok) := vm_write k p (u32 value) in
    if negb ok then Ok k
    else
      let '(k, ok) := vm_protect k p in
      if negb ok then Panic else Ok k.

Definition mach_registerBreakpoint (conf : Configuration) (addr : Z) (k : K) (s : MachEngine)
  : res (Z * MachEngine) :=
  if bool_decide (is_Some (me_instructionMap s !! addr)) then Ok (0, s)
  else
    mode ← keyAsInt conf (str "running-mode");
    data ← (if negb (mode =? MODE_REPORT_ONLY) then mach_peekWord k s (mach_getAligned addr) else Ok 0);
    let m := <[addr := u32 data]> (me_instructionMap s) in
    Ok (s32 (Z.of_nat (size m)),
        mkMachEngine m (set_insert addr (me_pendingBreakpoints s)) (me_imageBase s) (me_events s)).

Definition mach_setup_one (s : MachEngine) (k : K) (addr : Z) : res K :=
  cur_data ← mach_peekWord k s (mach_getAligned addr);
  mach_pokeWord k s (mach_getAligned addr) (mach_setupBreakpoint arch addr cur_data).

Definition mach_setupAllBreakpoints (k : K) (s : MachEngine) : res (K * MachEngine) :=
  k ← res_foldl (mach_setup_one s) k (me_pendingBreakpoints s);
  Ok (k, mkMachEngine (me_instructionMap s) [] (me_imageBase s) (me_events s)).

Definition mach_clearBreakpoint_at (addr : Z) (k : K) (s : MachEngine) : res (bool * K) :=
  match me_instructionMap s !! addr with
  | None => Ok (false, k)
  | Some val =>
      cur ← mach_peekWord k s (mach_getAligned addr);
      k ← mach_pokeWord k s (mach_getAligned addr) (mach_clearBreakpoint arch addr val cur);
      Ok (true, k)
  end.

Definition onEvent_mach (ev : EngineEvent) (s : MachEngine) : MachEngine :=
  mkMachEngine (me_instructionMap s) (me_pendingBreakpoints s) (me_imageBase s) (me_events s ++ [ev]).

Definition CatchMachExceptionRaise (ex : MachException) (k : K) (s : MachEngine)
  : res (Z * (K * MachEngine)) :=
  if (ex_type ex =? EXC_SOFTWARE) && (ex_code0 ex =? EXC_SOFT_SIGNAL) then
    Ok (KERN_SUCCESS, (thread_update k (ex_thread ex) (ex_code1 ex), s))
  else if ex_type ex =? EXC_BAD_ACCESS then
    Ok (KERN_ABORTED, (k, onEvent_mach (mkEvent ev_signal (s32 (ex_code0 ex)) 0) s))
  else if ex_type ex =? EXC_BREAKPOINT then
    match thread_get_pc k (ex_thread ex) with
    | None => Ok (KERN_SUCCESS, (k, s))
    | Some reg =>
        let '(pc, dirty) := mach_adjustPc arch reg in
        let s := onEvent_mach (mkEvent ev_breakpoint (-1) pc) s in
        '(_, k) ← mach_clearBreakpoint_at pc k s;
        let k := if (dirty : bool) then (thread_set_pc k (ex_thread ex) pc).1 else k in
        Ok (KERN_SUCCESS, (k, s))
    end
  else Ok (KERN_SUCCESS, (k, s)).

Definition mach_continueExecution (k : K) (s : MachEngine) : res (bool * (K * MachEngine)) :=
  '(k, s) ← mach_setupAllBreakpoints k s;
  match mach_msg_receive k with
  | (None, k) => Ok (false, (k, onEvent_mach (mkEvent ev_exit 0 0) s))
  | (Some None, k) => Ok (true, (k, s))
  | (Some (Some ex), k) => '(_, ks) ← CatchMachExceptionRaise ex k s; Ok (true, ks)
  end.
End engine.

(** ** Starting the program *)

(** The first region that starts with a Mach-O header; [None]: kcov exits.  For each
    region its address and the word read from it, [None] when that fails. *)
Definition MH_MAGIC_64 : Z := 0xfeedfacf.
Fixpoint findImageAddress (regions : list (Z * option Z)) : option Z :=
  match regions with
  | [] => None
  | (addr, header) :: regions =>
      match header with
      | None => None
      | Some header =>
          if header =? MH_MAGIC_64 then (if addr =? 0 then None else Some addr)
          else findImageAddress regions
      end
  end.

(** The calls of [start] in order, each with its result. *)
Record MachStartAnswers := mkMachStart {
  msa_spawnattr_init : Z;
  msa_spawnattr_setflags : Z;
  msa_spawn : Z;
  msa_task_for_pid : Z;
  msa_regions : list (Z * option Z);
  msa_get_ports : Z;
  msa_port_allocate : Z;
  msa_set_ports : Z;
  msa_ptrace : Z;
}.

Inductive MachStarted := MachExits (code : Z) | MachFails (s : MachEngine) | MachRuns (s : MachEngine).

Definition mach_start (conf : Configuration) (a : MachStartAnswers) (s : MachEngine) : res MachStarted :=
  attach ← keyAsInt conf (str "attach-pid");
  if negb (attach =? 0) then Ok (MachExits 1)
  else if negb (msa_spawnattr_init a =? 0) || negb (msa_spawnattr_setflags a =? 0) || negb (msa_spawn a =? 0)
  then Ok (MachFails s)
  else if negb (msa_task_for_pid a =? 0) then
    _ ← keyAsString conf (str "kcov-binary-path"); Ok (MachExits 1)
  else
    go ← keyAsInt conf (str "is-go-binary");
    let based base :=
      let s := mkMachEngine (me_instructionMap s) (me_pendingBreakpoints s) base (me_events s) in
      if negb (msa_get_ports a =? 0) || negb (msa_port_allocate a =? 0)
         || negb (msa_set_ports a =? 0) || negb (msa_ptrace a =? 0)
      then Ok (MachFails s) else Ok (MachRuns s) in
    if negb (go =? 0) then based (me_imageBase s)
    else
      match findImageAddress (msa_regions a) with
      | None => Ok (MachExits (-1))
      | Some base => based base
      end.

(** The two entry points of the exception server that are not used. *)
Definition catch_mach_exception_raise_state : Z := MACH_RCV_INVALID_TYPE.
Definition catch_mach_exception_raise_state_identity : Z := MACH_RCV_INVALID_TYPE.

Definition mach_matchFile (data : bytes) : Z := 2.

(** ** What the code relies on *)

(** [text] is the program's memory as aligned words, [mapped] the addresses of those
    that can be read and written; nothing but a write changes them. *)
Class MachLaws {K : Type} `{!MachOS K} (text : K → Z → Z) (mapped : Z → bool) := {
  mt_range k p : 0 ≤ text k p < 2 ^ 32;
  mt_read k p : mapped p = true → vm_read k p = Some (text k p);
  mt_protect_ok k p : mapped p = true → (vm_protect k p).2 = true;
  mt_protect k p q : text (vm_protect k p).1 q = text k q;
  mt_write_ok k p v : mapped p = true → (vm_write k p v).2 = true;
  mt_write k p v q : p mod 4 = 0 → q mod 4 = 0 → 0 ≤ v < 2 ^ 32 →
    text (vm_write k p v).1 q = if q =? p then v else text k q;
  mt_set_pc k t v q : text (thread_set_pc k t v).1 q = text k q;
  mt_update k t v q : text (thread_update k t v) q = text k q;
  mt_receive k q : text (mach_msg_receive k).2 q = text k q;
  mt_pc k t v : thread_get_pc (thread_set_pc k t v).1 t = Some v;
}.

(** ** Words *)

Lemma mach_getAligned_spec a : mach_getAligned a = u32 a - a mod 4.
Proof.
  unfold mach_getAligned, uw. pose proof (Z.div_mod (a mod 2 ^ 32) 4 ltac:(lia)) as H.
  assert ((a mod 2 ^ 32) mod 4 = a mod 4) as E.
  { symmetry. apply Znumtheory.Zmod_div_mod; [lia|lia|]. by exists (2 ^ 30). }
  rewrite E in H. lia.
Qed.

Lemma mach_shift_spec a : 0 ≤ a < 2 ^ 64 → mach_shift a = 8 * (a mod 4).
Proof.
  intros Ha. unfold mach_shift. rewrite mach_getAligned_spec. unfold uw at 2.
  pose proof (Z.mod_pos_bound a 4 ltac:(lia)). pose proof (Z.mod_pos_bound a (2 ^ 32) ltac:(lia)).
  pose proof (Z.mod_le a (2 ^ 32) ltac:(lia) ltac:(lia)).
  assert (0 ≤ a mod 2 ^ 32 - a mod 4).
  { pose proof (mach_getAligned_spec a) as E. unfold uw in E. rewrite <-E. unfold mach_getAligned.
    pose proof (Z.div_pos (u32 a) 4 ltac:(apply u32_range) ltac:(lia)). lia. }
  rewrite uw_small by lia.
  change 64 with (8 * 8). rewrite Z.mul_mod_distr_l by lia. f_equal.
  replace (a - (a mod 2 ^ 32 - a mod 4)) with (a mod 4 + (2 ^ 29 * (a / 2 ^ 32)) * 8).
  - rewrite Z.mod_add by lia. apply Z.mod_small. lia.
  - pose proof (Z.div_mod a (2 ^ 32) ltac:(lia)). lia.
Qed.

(** What a trap replaces: a byte of the word, or the whole of it. *)
Definition unit_of (arch : Arch) (w a : Z) : Z :=
  match arch with X86_64 => field 8 (8 * (a mod 4)) w | ARM64 => w end.
Definition put_unit (arch : Arch) (w a v : Z) : Z :=
  match arch with X86_64 => patch 64 0xff (8 * (a mod 4)) w v | ARM64 => v end.
Definition trap (arch : Arch) : Z := match arch with X86_64 => 0xcc | ARM64 => 0xd4200000 end.
Definition unit_max (arch : Arch) : Z := match arch with X86_64 => 256 | ARM64 => 2 ^ 32 end.

(** A patch of a byte of a 32-bit word, computed in 64 bits. *)
Lemma patch_byte_range i w v :
  0 ≤ w < 2 ^ 32 → 0 ≤ v < 256 → 0 ≤ i → i + 8 ≤ 32 → 0 ≤ patch 64 0xff i w v < 2 ^ 32.
Proof.
  intros. change 0xff with (Z.ones 8). change 256 with (2 ^ 8) in *.
  assert (patch 64 (Z.ones 8) i w v = u32 (patch 64 (Z.ones 8) i w v)) as ->; [|apply u32_range].
  apply Z.bits_inj'. intros n Hn. unfold uw. destruct (Z.lt_ge_cases n 32).
  - by rewrite Z.mod_pow2_bits_low by lia.
  - rewrite Z.mod_pow2_bits_high, patch_testbit by lia.
    replace (n <? i + 8) with false by lia. rewrite andb_false_r. by rewrite (testbit_small w 32) by lia.
Qed.

Lemma setup_put arch a w :
  0 ≤ a < 2 ^ 64 → 0 ≤ w < 2 ^ 32 → (arch = ARM64 → a mod 4 = 0) →
  mach_setupBreakpoint arch a w = put_unit arch w a (trap arch).
Proof.
  intros Ha Hw Hal. unfold mach_setupBreakpoint, put_unit, trap. rewrite mach_shift_spec by done.
  destruct arch; [done|]. rewrite Hal by done. change (8 * 0) with 0. change 0xffffffff with (Z.ones 32).
  apply Z.bits_inj'. intros n Hn. rewrite patch_testbit by lia. replace (0 <=? n) with true by lia.
  cbn [andb]. destruct (Z.ltb_spec n (0 + 32)); [by rewrite Z.sub_0_r|].
  by rewrite (testbit_small w 32), (testbit_small 0xd4200000 32) by lia.
Qed.

Lemma clear_put arch a old cur :
  0 ≤ a < 2 ^ 64 → mach_clearBreakpoint arch a old cur = put_unit arch cur a (unit_of arch old a).
Proof.
  intros Ha. unfold mach_clearBreakpoint, put_unit, unit_of. destruct arch; [|done].
  by rewrite mach_shift_spec by done.
Qed.

Lemma unit_of_range arch w a : 0 ≤ w < 2 ^ 32 → 0 ≤ unit_of arch w a < unit_max arch.
Proof. intros Hw. destruct arch; [apply (field_range 8); lia|done]. Qed.

Lemma put_unit_range arch w a v :
  0 ≤ w < 2 ^ 32 → 0 ≤ v < unit_max arch → 0 ≤ put_unit arch w a v < 2 ^ 32.
Proof.
  intros Hw Hv. destruct arch; [|done]. pose proof (Z.mod_pos_bound a 4 ltac:(lia)).
  apply patch_byte_range; [done|done|lia|lia].
Qed.

(** Putting a unit changes it and no other unit of the word. *)
Lemma unit_put arch w a v b :
  0 ≤ v < unit_max arch → (arch = ARM64 → b mod 4 = a mod 4) →
  unit_of arch (put_unit arch w a v) b = if b mod 4 =? a mod 4 then v else unit_of arch w b.
Proof.
  intros Hv Hal. destruct arch; cbn.
  - pose proof (Z.mod_pos_bound a 4 ltac:(lia)). pose proof (Z.mod_pos_bound b 4 ltac:(lia)).
    change 0xff with (Z.ones 8). change (unit_max X86_64) with (2 ^ 8) in Hv.
    rewrite field_patch by lia.
    destruct (Z.eqb_spec (b mod 4) (a mod 4)) as [->|]; [by rewrite Z.eqb_refl|].
    destruct (Z.eqb_spec (8 * (b mod 4)) (8 * (a mod 4))); [lia|done].
  - by rewrite Hal, Z.eqb_refl.
Qed.

(** ** Properties *)

Lemma set_insert_elem a l b : b ∈ set_insert a l ↔ b = a ∨ b ∈ l.
Proof.
  induction l as [|c l IH]; cbn [set_insert].
  - rewrite list_elem_of_singleton. set_solver.
  - destruct (a <? c); [set_solver|]. destruct (Z.eqb_spec a c) as [->|]; [set_solver|].
    rewrite elem_of_cons, IH. set_solver.
Qed.

Section theorems.
Context (arch : Arch) {K : Type} `{!MachOS K} {text : K → Z → Z} {mapped : Z → bool}
  `{!MachLaws text mapped}.
(** The program lies in 4 GB of addresses from [window] on; [base] is its image. *)
Context (base window : Z).
Context (Hbase : 0 ≤ base ∧ base + 2 ^ 32 ≤ 2 ^ 64 ∧ base mod 4 = 0).
Context (Hwindow : 0 ≤ window ∧ window + 2 ^ 32 ≤ 2 ^ 64 ∧ window mod 2 ^ 32 = 0).

Record in_program (a : Z) : Prop := {
  ip_window : window ≤ a < window + 2 ^ 32;
  ip_mapped : mapped (base + mach_getAligned a) = true;
  ip_aligned : arch = ARM64 → a mod 4 = 0;
}.

(** What the program finds at an address: an instruction byte, or an instruction. *)
Definition mach_view (k : K) (a : Z) : Z := unit_of arch (text k (base + mach_getAligned a)) a.

Lemma aligned_range a : 0 ≤ mach_getAligned a < 2 ^ 32.
Proof using Type.
  pose proof (u32_range a). pose proof (mach_getAligned_spec a). unfold mach_getAligned in *.
  pose proof (Z.mod_pos_bound a 4 ltac:(lia)). pose proof (Z.div_pos (u32 a) 4 ltac:(lia) ltac:(lia)). lia.
Qed.

Lemma patch_addr_eq s a : me_imageBase s = base → patch_addr s (mach_getAligned a) = base + mach_getAligned a.
Proof using Hbase.
  intros E. pose proof (aligned_range a). unfold patch_addr. change 0xffffffff with (Z.ones 32).
  rewrite E, Z.land_ones, Z.mod_small by lia. apply uw_small. lia.
Qed.

Lemma same_word a b :
  in_program a → in_program b → mach_getAligned a = mach_getAligned b → a mod 4 = b mod 4 → a = b.
Proof using Hwindow.
  intros [Ha _ _] [Hb _ _] E1 E2. rewrite !mach_getAligned_spec in E1. unfold uw in E1.
  pose proof (Z.div_mod a (2 ^ 32) ltac:(lia)). pose proof (Z.div_mod b (2 ^ 32) ltac:(lia)).
  assert (∀ x, window ≤ x < window + 2 ^ 32 → x / 2 ^ 32 = window / 2 ^ 32) as Hdiv.
  { intros x Hx. pose proof (Z.div_mod window (2 ^ 32) ltac:(lia)).
    symmetry. apply (Z.div_unique_pos x (2 ^ 32) (window / 2 ^ 32) (x - window)); lia. }
  rewrite Hdiv in * by done. lia.
Qed.

Lemma base_mod a : (base + mach_getAligned a) mod 4 = 0.
Proof using Hbase.
  unfold mach_getAligned. rewrite Z.mod_add by lia. lia.
Qed.

Lemma poke_view k s a v :
  me_imageBase s = base → in_program a → 0 ≤ v < unit_max arch →
  ∃ k', mach_pokeWord k s (mach_getAligned a) (put_unit arch (text k (base + mach_getAligned a)) a v) = Ok k' ∧
    ∀ b, in_program b → mach_view k' b = if b =? a then v else mach_view k b.
Proof using Hbase Hwindow MachLaws0.
  intros Hs Ha Hv. unfold mach_pokeWord. rewrite patch_addr_eq by done. set (p := base + mach_getAligned a).
  set (w := put_unit arch (text k p) a v).
  assert (0 ≤ w < 2 ^ 32) as Hw by (apply put_unit_range; [apply mt_range|done]).
  pose proof (ip_mapped a Ha) as Hm. fold p in Hm.
  pose proof (mt_protect_ok k p Hm) as P1. pose proof (mt_protect k p) as T1.
  destruct (vm_protect k p) as [k1 ok1]. cbn in P1, T1. subst ok1. cbn [negb].
  rewrite uw_small by done.
  pose proof (mt_write_ok k1 p w Hm) as P2. pose proof (mt_write k1 p w) as T2.
  destruct (vm_write k1 p w) as [k2 ok2]. cbn in P2, T2. subst ok2. cbn [negb].
  pose proof (mt_protect_ok k2 p Hm) as P3. pose proof (mt_protect k2 p) as T3.
  destruct (vm_protect k2 p) as [k3 ok3]. cbn in P3, T3. subst ok3. cbn [negb].
  exists k3. split; [done|]. intros b Hb. unfold mach_view. rewrite T3, T2, T1 by (done || apply base_mod).
  destruct (Z.eqb_spec (base + mach_getAligned b) p) as [E | E].
  - unfold w. rewrite unit_put by (try done; intros Harch; by rewrite (ip_aligned a Ha), (ip_aligned b Hb)).
    unfold p in E. destruct (Z.eqb_spec (b mod 4) (a mod 4)) as [E2 | E2].
    + destruct (Z.eqb_spec b a) as [|Hne]; [done|]. exfalso. apply Hne. apply same_word; [done..|lia|done].
    + destruct (Z.eqb_spec b a) as [->|Hne]; [done|]. by rewrite E.
  - destruct (Z.eqb_spec b a) as [->|]; [done|]. done.
Qed.

Lemma setup_one_view k s a :
  me_imageBase s = base → in_program a →
  ∃ k', mach_setup_one arch s k a = Ok k' ∧
    ∀ b, in_program b → mach_view k' b = if b =? a then trap arch else mach_view k b.
Proof using Hbase Hwindow MachLaws0.
  intros Hs Ha. unfold mach_setup_one, mach_peekWord. rewrite patch_addr_eq by done.
  rewrite mt_read by apply Ha. cbn [mbind res_mbind res_bind].
  rewrite setup_put; [|destruct (ip_window a Ha); lia|apply mt_range|apply Ha].
  apply poke_view; [done..|]. by destruct arch.
Qed.

Lemma setups_view s l : me_imageBase s = base → Forall in_program l → ∀ k,
  ∃ k', res_foldl (mach_setup_one arch s) k l = Ok k' ∧
    ∀ b, in_program b → mach_view k' b = if bool_decide (b ∈ l) then trap arch else mach_view k b.
Proof using Hbase Hwindow MachLaws0.
  intros Hs. induction 1 as [|a l Ha Hl IH]; intros k; [by exists k|].
  destruct (setup_one_view k s a Hs Ha) as (k1 & E1 & V1). destruct (IH k1) as (k' & E' & V').
  exists k'. cbn [res_foldl]. rewrite E1. split; [exact E'|]. intros b Hb. rewrite V', V1 by done.
  destruct (Z.eqb_spec b a) as [->|Hne].
  - rewrite (bool_decide_eq_true_2 (a ∈ a :: l)) by by left. by case_match.
  - rewrite (bool_decide_ext (b ∈ a :: l) (b ∈ l)); [done|]. rewrite elem_of_cons. naive_solver.
Qed.

Lemma clear_view k s a w :
  me_imageBase s = base → in_program a → me_instructionMap s !! a = Some w → 0 ≤ w < 2 ^ 32 →
  ∃ k', mach_clearBreakpoint_at arch a k s = Ok (true, k') ∧
    ∀ b, in_program b → mach_view k' b = if b =? a then unit_of arch w a else mach_view k b.
Proof using Hbase Hwindow MachLaws0.
  intros Hs Ha Hm Hw. unfold mach_clearBreakpoint_at, mach_peekWord. rewrite Hm, patch_addr_eq by done.
  rewrite mt_read by apply Ha. cbn [mbind res_mbind res_bind].
  rewrite clear_put by (destruct (ip_window a Ha); lia).
  destruct (poke_view k s a (unit_of arch w a)) as (k' & E & V); [done|done|by apply unit_of_range|].
  exists k'. rewrite E. by split.
Qed.

(** *** The invariant *)

Record mach_ok (orig : Z → Z) (k : K) (s : MachEngine) : Prop := {
  mo_base : me_imageBase s = base;
  mo_saved a w : me_instructionMap s !! a = Some w →
    in_program a ∧ 0 ≤ w < 2 ^ 32 ∧ unit_of arch w a = orig a;
  mo_view a : in_program a →
    mach_view k a = orig a ∨ mach_view k a = trap arch ∧ is_Some (me_instructionMap s !! a);
  mo_pending a : a ∈ me_pendingBreakpoints s → is_Some (me_instructionMap s !! a);
}.

Lemma mach_ok_frame orig k k' s ev :
  (∀ a, in_program a → mach_view k' a = mach_view k a) → mach_ok orig k s →
  mach_ok orig k' s ∧ mach_ok orig k' (onEvent_mach ev s).
Proof using Type.
  intros Hv [H1 H2 H3 H4].
  split; (split; [exact H1|exact H2| |exact H4]); intros a Ha; rewrite Hv by done; exact (H3 a Ha).
Qed.

Context (conf : Configuration) (mode : Z).
Context (Hmode : keyAsInt conf (str "running-mode") = Ok mode) (Hrep : mode ≠ MODE_REPORT_ONLY).

Lemma mach_register_ok orig k s a :
  mach_ok orig k s → in_program a →
  ∃ n s', mach_registerBreakpoint conf a k s = Ok (n, s') ∧ mach_ok orig k s' ∧
    is_Some (me_instructionMap s' !! a) ∧
    (is_Some (me_instructionMap s !! a) → s' = s) ∧
    (∀ b, b ≠ a → me_instructionMap s' !! b = me_instructionMap s !! b) ∧
    (∀ b, b ∈ me_pendingBreakpoints s' → b = a ∨ b ∈ me_pendingBreakpoints s).
Proof using Hbase MachLaws0 Hmode Hrep.
  intros [H1 H2 H3 H4] Ha. unfold mach_registerBreakpoint. case_bool_decide as Hk.
  { exists 0, s. split; [done|]. split; [done|]. split_and!; try done. auto. }
  rewrite Hmode. cbn [mbind res_mbind res_bind]. destruct (Z.eqb_spec mode MODE_REPORT_ONLY); [done|].
  cbn [negb]. unfold mach_peekWord. rewrite patch_addr_eq, mt_read by (done || apply Ha).
  cbn [mbind res_mbind res_bind]. set (w := text k (base + mach_getAligned a)).
  assert (0 ≤ w < 2 ^ 32) as Hw by apply mt_range. rewrite uw_small by done.
  eexists _, _. split; [reflexivity|]. split; [|cbn; split_and!].
  - split; cbn; [done| | |].
    + intros b v [(<- & <-) | (Hne & Hb)]%lookup_insert_Some; [|by apply H2].
      split_and!; [done|lia|lia|]. destruct (H3 a Ha) as [E | [_ E]]; [exact E|done].
    + intros b Hb. destruct (H3 b Hb) as [|[? ?]]; [by left|right]. split; [done|].
      by apply lookup_insert_is_Some'; right.
    + intros b [-> | Hb]%set_insert_elem; apply lookup_insert_is_Some'; auto.
  - apply lookup_insert_is_Some'. by left.
  - done.
  - intros b Hb. by rewrite lookup_insert_ne.
  - intros b. by rewrite set_insert_elem.
Qed.

(** The breakpoints that are set up before the program goes on. *)
Lemma mach_setup_ok orig k s :
  mach_ok orig k s →
  ∃ k' s', mach_setupAllBreakpoints arch k s = Ok (k', s') ∧ mach_ok orig k' s' ∧
    me_instructionMap s' = me_instructionMap s ∧ me_pendingBreakpoints s' = [] ∧ me_events s' = me_events s ∧
    ∀ b, in_program b →
      mach_view k' b = if bool_decide (b ∈ me_pendingBreakpoints s) then trap arch else mach_view k b.
Proof using Hbase Hwindow MachLaws0.
  intros [H1 H2 H3 H4].
  assert (Forall in_program (me_pendingBreakpoints s)) as Hp.
  { apply Forall_forall. intros a Ha. destruct (H4 a Ha) as [w Hw]. by apply (H2 a w). }
  destruct (setups_view s _ H1 Hp k) as (k' & E & V).
  unfold mach_setupAllBreakpoints. rewrite E. cbn [mbind res_mbind res_bind].
  eexists _, _. split; [reflexivity|]. split; [|done]. split; cbn; [done|done| |by intros a ?%elem_of_nil].
  intros a Ha. rewrite V by done. case_bool_decide as Hin; [|by apply H3]. right. auto.
Qed.

(** What the handler of an exception leaves. *)
Lemma mach_exception_ok orig ex k s :
  mach_ok orig k s →
  ∃ r k' s', CatchMachExceptionRaise arch ex k s = Ok (r, (k', s')) ∧ mach_ok orig k' s' ∧
    me_instructionMap s' = me_instructionMap s ∧ me_pendingBreakpoints s' = me_pendingBreakpoints s ∧
    ∀ b, in_program b → mach_view k b = orig b → mach_view k' b = orig b.
Proof using Hbase Hwindow MachLaws0.
  intros Hok. unfold CatchMachExceptionRaise. destruct (_ && _).
  { eexists _, _, _. split; [reflexivity|].
    assert (∀ b, mach_view (thread_update k (ex_thread ex) (ex_code1 ex)) b = mach_view k b) as Hv
      by (intros b; unfold mach_view; by rewrite mt_update).
    split_and!; [|done|done|by intros b _ <-]. eapply (mach_ok_frame orig k _ s (mkEvent ev_exit 0 0)); [|done].
    intros a _. apply Hv. }
  destruct (ex_type ex =? EXC_BAD_ACCESS).
  { eexists _, _, _. split; [reflexivity|]. split_and!; [|done..]. by apply (mach_ok_frame orig k k s). }
  destruct (ex_type ex =? EXC_BREAKPOINT).
  2:{ eexists _, _, _. split; [reflexivity|]. by split_and!. }
  destruct (thread_get_pc k (ex_thread ex)) as [reg|].
  2:{ eexists _, _, _. split; [reflexivity|]. by split_and!. }
  destruct (mach_adjustPc arch reg) as [pc dirty].
  set (s1 := onEvent_mach _ s).
  assert (mach_ok orig k s1) as Hok1 by by apply (mach_ok_frame orig k k s).
  assert (∃ b k1, mach_clearBreakpoint_at arch pc k s1 = Ok (b, k1) ∧ mach_ok orig k1 s1 ∧
            ∀ b, in_program b → mach_view k b = orig b → mach_view k1 b = orig b) as (b & k1 & E & Hok2 & Hv).
  { destruct (me_instructionMap s1 !! pc) as [w|] eqn:Ew.
    - destruct (mo_saved orig k s1 Hok1 pc w Ew) as (Hpc & Hw & Hu).
      destruct (clear_view k s1 pc w (mo_base _ _ _ Hok1) Hpc Ew Hw) as (k1 & E & V).
      exists true, k1. split; [done|]. split.
      + split; [apply Hok1|apply Hok1| |apply Hok1]. intros a Ha. rewrite V by done.
        destruct (Z.eqb_spec a pc) as [->|]; [by left|by apply Hok1].
      + intros a Ha Hva. rewrite V by done. destruct (Z.eqb_spec a pc) as [->|]; done.
    - exists false, k. unfold mach_clearBreakpoint_at. by rewrite Ew. }
  rewrite E. cbn [mbind res_mbind res_bind]. eexists _, _, _. split; [reflexivity|].
  set (k2 := if dirty then _ else k1).
  assert (∀ a, mach_view k2 a = mach_view k1 a) as Hv2.
  { intros a. unfold k2, mach_view. destruct dirty; [|done]. by rewrite mt_set_pc. }
  split_and!; [|done|done|].
  - by apply (mach_ok_frame orig k1 k2 s1 (mkEvent ev_exit 0 0)).
  - intros a Ha Hva. rewrite Hv2. by apply Hv.
Qed.

(** *** Runs *)

(** What the rest of kcov does with the engine. *)
Inductive mach_step : K * MachEngine → K * MachEngine → Prop :=
  | mach_register k s a n s' :
      in_program a → mach_registerBreakpoint conf a k s = Ok (n, s') → mach_step (k, s) (k, s')
  | mach_continue k s b st : mach_continueExecution arch k s = Ok (b, st) → mach_step (k, s) st.

Lemma mach_continue_ok orig k s :
  mach_ok orig k s →
  ∃ b k' s', mach_continueExecution arch k s = Ok (b, (k', s')) ∧ mach_ok orig k' s' ∧
    me_instructionMap s' = me_instructionMap s ∧ me_pendingBreakpoints s' = [] ∧
    ∀ a, in_program a → a ∉ me_pendingBreakpoints s → mach_view k a = orig a → mach_view k' a = orig a.
Proof using Hbase Hwindow MachLaws0.
  intros Hok. destruct (mach_setup_ok orig k s Hok) as (k1 & s1 & E & Hok1 & Hm & Hp & _ & Hv).
  unfold mach_continueExecution. rewrite E. cbn [mbind res_mbind res_bind].
  assert (∀ a, mach_view (mach_msg_receive k1).2 a = mach_view k1 a) as Hr
    by (intros a; unfold mach_view; by rewrite mt_receive).
  assert (∀ a, in_program a → a ∉ me_pendingBreakpoints s → mach_view k a = orig a → mach_view k1 a = orig a) as Hkeep.
  { intros a Ha Hna Ho. rewrite Hv by done. by rewrite bool_decide_eq_false_2. }
  destruct (mach_msg_receive k1) as [[[ex|]|] k2]; cbn [snd] in Hr.
  - assert (mach_ok orig k2 s1) as Hok2 by by apply (mach_ok_frame orig k1 k2 s1 (mkEvent ev_exit 0 0)).
    destruct (mach_exception_ok orig ex k2 s1 Hok2) as (r & k3 & s3 & E3 & Hok3 & Hm3 & Hp3 & Hv3).
    rewrite E3. cbn [mbind res_mbind res_bind]. eexists _, _, _. split; [reflexivity|].
    split_and!; [done|by rewrite Hm3|by rewrite Hp3|]. intros a Ha Hna Ho. apply Hv3; [done|].
    rewrite Hr. auto.
  - eexists _, _, _. split; [reflexivity|].
    split_and!; [by apply (mach_ok_frame orig k1 k2 s1 (mkEvent ev_exit 0 0))|done|done|].
    intros a Ha Hna Ho. rewrite Hr. auto.
  - eexists _, _, _. split; [reflexivity|].
    split_and!; [by apply (mach_ok_frame orig k1 k2 s1 (mkEvent ev_exit 0 0))|done|done|].
    intros a Ha Hna Ho. rewrite Hr. auto.
Qed.

Lemma mach_step_ok orig st st' : mach_step st st' → mach_ok orig st.1 st.2 → mach_ok orig st'.1 st'.2.
Proof using Hbase Hwindow MachLaws0 Hmode Hrep.
  intros [k s a n s' Ha E | k s b st1 E] Hok; cbn in *.
  - destruct (mach_register_ok orig k s a Hok Ha) as (n' & s1 & E' & Hok' & _). congruence.
  - destruct (mach_continue_ok orig k s Hok) as (b' & k1 & s1 & E' & Hok' & _). rewrite E' in E. by simplify_eq.
Qed.

Lemma mach_steps_ok orig st st' : rtc mach_step st st' → mach_ok orig st.1 st.2 → mach_ok orig st'.1 st'.2.
Proof using Hbase Hwindow MachLaws0 Hmode Hrep. induction 1; eauto using mach_step_ok. Qed.

Definition mach_started : MachEngine := mkMachEngine ∅ [] base [].

Lemma mach_started_ok k : mach_ok (mach_view k) k mach_started.
Proof using Type. split; [done|done|by left|by intros a ?%elem_of_nil]. Qed.

(** An address that has been disarmed stays so. *)
Definition mach_disarmed (orig : Z → Z) (a : Z) (st : K * MachEngine) : Prop :=
  mach_ok orig st.1 st.2 ∧ is_Some (me_instructionMap st.2 !! a) ∧ a ∉ me_pendingBreakpoints st.2 ∧
  mach_view st.1 a = orig a.

Lemma mach_disarmed_step orig a st st' :
  in_program a → mach_step st st' → mach_disarmed orig a st → mach_disarmed orig a st'.
Proof using Hbase Hwindow MachLaws0 Hmode Hrep.
  intros Hip Hstep (Hok & Hk & Hp & Hv). split; [by eapply mach_step_ok|].
  destruct Hstep as [k s b n s' Hb E | k s b st1 E]; cbn in *.
  - destruct (mach_register_ok orig k s b Hok Hb) as (n' & s1 & E' & _ & H1 & H2 & H3 & H4).
    rewrite E' in E. simplify_eq. destruct (decide (b = a)) as [->|Hne].
    + by rewrite (H2 Hk).
    + split_and!; [by rewrite H3|intros [|?]%H4; [congruence|done]|done].
  - destruct (mach_continue_ok orig k s Hok) as (b' & k1 & s1 & E' & _ & H1 & H2 & H3).
    rewrite E' in E. simplify_eq. cbn. rewrite H1, H2. split_and!; [done|by intros ?%elem_of_nil|auto].
Qed.

(** C12: On either architecture the program finds at every address its original
    instruction, or the trap at an address that was registered, whatever is
    registered and however it is continued - also when addresses share a word and
    when they lie above 4 GB; and no operation of the engine panics. *)
Theorem mach_transparent (k : K) (st : K * MachEngine) (a : Z) :
  rtc mach_step (k, mach_started) st → in_program a →
  (mach_view st.1 a = mach_view k a ∨
   mach_view st.1 a = trap arch ∧ is_Some (me_instructionMap st.2 !! a)) ∧
  (∃ n s', mach_registerBreakpoint conf a st.1 st.2 = Ok (n, s')) ∧
  ∃ b st', mach_continueExecution arch st.1 st.2 = Ok (b, st').
Proof using Hbase Hwindow MachLaws0 Hmode Hrep.
  intros Hrun Ha. pose proof (mach_steps_ok (mach_view k) _ _ Hrun (mach_started_ok k)) as Hok.
  destruct st as [k1 s1]. cbn [fst snd] in *. split; [by apply (mo_view _ _ _ Hok)|]. split.
  - destruct (mach_register_ok _ _ _ a Hok Ha) as (n & s' & E & _). by exists n, s'.
  - destruct (mach_continue_ok _ _ _ Hok) as (b & k' & s' & E & _). by exists b, (k', s').
Qed.

(** A trap at a registered address is reported there, its original instruction is
    back, the thread is set to it, and the address never traps again. *)
Theorem mach_trap_hit (k k1 k2 k3 : K) (s1 s2 : MachEngine) (ex : MachException) (reg : Z) :
  let pc := (mach_adjustPc arch reg).1 in
  rtc mach_step (k, mach_started) (k1, s1) →
  mach_setupAllBreakpoints arch k1 s1 = Ok (k2, s2) → mach_msg_receive k2 = (Some (Some ex), k3) →
  ex_type ex = EXC_BREAKPOINT → thread_get_pc k3 (ex_thread ex) = Some reg →
  is_Some (me_instructionMap s1 !! pc) →
  ∃ k4 s4, mach_continueExecution arch k1 s1 = Ok (true, (k4, s4)) ∧
    me_events s4 = me_events s1 ++ [mkEvent ev_breakpoint (-1) pc] ∧
    (arch = X86_64 → thread_get_pc k4 (ex_thread ex) = Some pc) ∧
    (∀ b, in_program b → mach_view k4 b =
       if b =? pc then mach_view k pc
       else if bool_decide (b ∈ me_pendingBreakpoints s1) then trap arch else mach_view k1 b) ∧
    ∀ st', rtc mach_step (k4, s4) st' → mach_view st'.1 pc = mach_view k pc.
Proof using Hbase Hwindow MachLaws0 Hmode Hrep.
  intros pc Hrun Hsetup Hmsg Hex Hreg [w Hw].
  pose proof (mach_steps_ok (mach_view k) _ _ Hrun (mach_started_ok k)) as Hok. cbn [fst snd] in Hok.
  destruct (mach_setup_ok _ _ _ Hok) as (k2' & s2' & E & Hok2 & Hm & Hp & Hev & Hv).
  rewrite E in Hsetup. injection Hsetup as -> ->.
  assert (∀ a, mach_view k3 a = mach_view k2 a) as Hr
    by (intros a; unfold mach_view; pose proof (mt_receive (text:=text) (mapped:=mapped) k2) as H;
        rewrite Hmsg in H; cbn [snd] in H; by rewrite H).
  assert (mach_ok (mach_view k) k3 s2) as Hok3 by by apply (mach_ok_frame _ k2 k3 s2 (mkEvent ev_exit 0 0)).
  destruct (mo_saved _ _ _ Hok pc w Hw) as (Hpc & Hwr & Hu).
  set (s4 := onEvent_mach (mkEvent ev_breakpoint (-1) pc) s2).
  destruct (clear_view k3 s4 pc w (mo_base _ _ _ Hok3) Hpc) as (k4 & E4 & V4); [by cbn; rewrite Hm|done|].
  set (k5 := if (mach_adjustPc arch reg).2 then (thread_set_pc k4 (ex_thread ex) pc).1 else k4).
  assert (mach_continueExecution arch k1 s1 = Ok (true, (k5, s4))) as Hc.
  { unfold mach_continueExecution. rewrite E. cbn [mbind res_mbind res_bind]. rewrite Hmsg.
    unfold CatchMachExceptionRaise. rewrite Hex. cbn [Z.eqb andb EXC_BREAKPOINT EXC_SOFTWARE EXC_BAD_ACCESS Pos.eqb].
    rewrite Hreg. unfold k5. revert E4. unfold s4, pc. destruct (mach_adjustPc arch reg) as [pc' dirty]. cbn [fst snd].
    intros E4. rewrite E4. done. }
  assert (∀ b, mach_view k5 b = mach_view k4 b) as Hv5.
  { intros b. unfold k5, mach_view. destruct (_.2); [by rewrite mt_set_pc|done]. }
  assert (∀ b, in_program b → mach_view k5 b = if b =? pc then mach_view k pc
       else if bool_decide (b ∈ me_pendingBreakpoints s1) then trap arch else mach_view k1 b) as Hview.
  { intros b Hb. rewrite Hv5, V4, Hu by done. destruct (b =? pc); [done|]. by rewrite Hr, Hv by done. }
  exists k5, s4. split_and!; [done|cbn; by rewrite Hev| |done|].
  - intros ->. unfold k5. cbn [mach_adjustPc snd]. apply mt_pc.
  - intros st' Hst'. assert (mach_disarmed (mach_view k) pc (k5, s4)) as Hd.
    { split; [apply (mach_steps_ok _ (k1, s1) (k5, s4)); [|done]; by eapply rtc_once, mach_continue|].
      cbn. rewrite Hm, Hp, Hview, Z.eqb_refl by done.
      split_and!; [by eexists|by intros ?%elem_of_nil|done]. }
    enough (mach_disarmed (mach_view k) pc st') as (_ & _ & _ & Hvst) by done.
    clear -Hd Hst' Hpc Hbase Hwindow MachLaws0 Hmode Hrep.
    induction Hst'; [done|]. apply IHHst'. by eapply mach_disarmed_step.
Qed.
End theorems.

(** ** A kernel with these laws, and the properties on it *)

Record DemoMach := mkDemoMach { dm_mem : Z → Z; dm_pc : Z; dm_msgs : list (option MachException) }.
#[export] Instance demo_MachOS : MachOS DemoMach := {|
  vm_read k p := Some (u32 (dm_mem k p));
  vm_protect k p := (k, true);
  vm_write k p v := (mkDemoMach (λ q, if q =? p then v else dm_mem k q) (dm_pc k) (dm_msgs k), true);
  thread_get_pc k t := Some (dm_pc k);
  thread_set_pc k t v := (mkDemoMach (dm_mem k) v (dm_msgs k), true);
  thread_update k t v := k;
  mach_msg_receive k :=
    match dm_msgs k with
    | [] => (None, k)
    | m :: msgs => (Some m, mkDemoMach (dm_mem k) (dm_pc k) msgs)
    end;
|}.
Definition demo_mach_text (k : DemoMach) (p : Z) : Z := u32 (dm_mem k p).

#[export] Instance demo_MachLaws : MachLaws demo_mach_text (λ _, true).
Proof.
  split; try done.
  - intros k p. apply u32_range.
  - intros k p v q _ _ Hv. unfold demo_mach_text. cbn. destruct (q =? p); [by apply uw_small|done].
  - intros k q. cbn. by destruct (dm_msgs k).
Qed.

(** A program at 4 GB whose second instruction byte traps. *)
Definition demo_mach : DemoMach :=
  mkDemoMach (λ _, 0x90909090) (2 ^ 32 + 0x1002) [Some (mkException 7 EXC_BREAKPOINT 0 0)].
Definition demo_mach_conf : Configuration := newConfiguration.

Lemma demo_in_program arch a : 2 ^ 32 ≤ a < 2 ^ 33 → (arch = ARM64 → a mod 4 = 0) →
  in_program (mapped:=λ _, true) arch 0 (2 ^ 32) a.
Proof. intros Ha Hal. by split; [lia| |]. Qed.

Definition demo_mach_addr : Z := 2 ^ 32 + 0x1001.
Definition demo_mach_armed : MachEngine :=
  mkMachEngine {[demo_mach_addr := 0x90909090]} [demo_mach_addr] 0 [].
Definition demo_mach_after : DemoMach * MachEngine :=
  match mach_continueExecution X86_64 demo_mach demo_mach_armed with
  | Ok (_, st) => st
  | _ => (demo_mach, demo_mach_armed)
  end.

Lemma demo_mach_register :
  mach_registerBreakpoint demo_mach_conf demo_mach_addr demo_mach (mach_started 0) = Ok (1, demo_mach_armed).
Proof. vm_compute. reflexivity. Qed.

Lemma demo_mach_runs :
  rtc (mach_step (mapped:=λ _, true) X86_64 0 (2 ^ 32) demo_mach_conf)
    (demo_mach, mach_started 0) demo_mach_after.
Proof.
  eapply rtc_l, rtc_once.
  - apply (mach_register _ _ _ _ _ _ demo_mach_addr 1 demo_mach_armed), demo_mach_register.
    by apply demo_in_program.
  - apply (mach_continue _ _ _ _ _ _ true). vm_compute. reflexivity.
Qed.

(** On x86 an address above 4 GB is registered and the program runs into its trap. *)
Lemma mach_transparent_witness :
  (mach_view (text:=demo_mach_text) X86_64 0 demo_mach_after.1 demo_mach_addr = 0x90 ∨
   mach_view (text:=demo_mach_text) X86_64 0 demo_mach_after.1 demo_mach_addr = 0xcc ∧
     is_Some (me_instructionMap demo_mach_after.2 !! demo_mach_addr)) ∧
  (∃ n s', mach_registerBreakpoint demo_mach_conf demo_mach_addr demo_mach_after.1 demo_mach_after.2 = Ok (n, s')) ∧
  ∃ b st', mach_continueExecution X86_64 demo_mach_after.1 demo_mach_after.2 = Ok (b, st').
Proof.
  apply (mach_transparent X86_64 0 (2 ^ 32) ltac:(done) ltac:(done) demo_mach_conf MODE_COLLECT_AND_REPORT
    ltac:(reflexivity) ltac:(done) demo_mach demo_mach_after demo_mach_addr).
  - exact demo_mach_runs.
  - by apply demo_in_program.
Defined.

Lemma mach_trap_hit_witness :
  ∃ k4 s4, mach_continueExecution X86_64 demo_mach demo_mach_armed = Ok (true, (k4, s4)) ∧
    me_events s4 = [mkEvent ev_breakpoint (-1) demo_mach_addr] ∧
    ∀ st', rtc (mach_step (mapped:=λ _, true) X86_64 0 (2 ^ 32) demo_mach_conf) (k4, s4) st' →
      mach_view (text:=demo_mach_text) X86_64 0 st'.1 demo_mach_addr = 0x90.
Proof.
  destruct (mach_setupAllBreakpoints X86_64 demo_mach demo_mach_armed) as [[k2 s2] | | |] eqn:E;
    [|by vm_compute in E..].
  destruct (mach_trap_hit X86_64 0 (2 ^ 32) ltac:(done) ltac:(done) demo_mach_conf MODE_COLLECT_AND_REPORT
    ltac:(reflexivity) ltac:(done) demo_mach demo_mach k2 (mkDemoMach (dm_mem k2) (dm_pc k2) [])
    demo_mach_armed s2 (mkException 7 EXC_BREAKPOINT 0 0) (2 ^ 32 + 0x1002))
    as (k4 & s4 & Hc & Hev & _ & _ & Hlater).
  - eapply rtc_once, (mach_register _ _ _ _ _ _ demo_mach_addr 1 demo_mach_armed), demo_mach_register.
    by apply demo_in_program.
  - exact E.
  - vm_compute in E. injection E as <- <-. reflexivity.
  - reflexivity.
  - vm_compute in E. injection E as <- <-. reflexivity.
  - vm_compute. by eexists.
  - exists k4, s4. split_and!; [exact Hc|exact Hev|exact Hlater].
Defined.

(** A trap of the program's own: on x86 the thread is set back to it, so it traps
    again at once, for ever; and an exit is always reported with code 0. *)
Theorem mach_slips :
  (∀ (k : DemoMach) s t c0 c1 r k',
     me_instructionMap s !! u64 (dm_pc k - 1) = None →
     CatchMachExceptionRaise X86_64 (mkException t EXC_BREAKPOINT c0 c1) k s = Ok (r, k') →
     dm_pc k'.1 = u64 (dm_pc k - 1) ∧ dm_mem k'.1 = dm_mem k) ∧
  (∀ arch (k : DemoMach) s, me_pendingBreakpoints s = [] → dm_msgs k = [] →
     ∃ st, mach_continueExecution arch k s = Ok (false, st) ∧
       me_events st.2 = me_events s ++ [mkEvent ev_exit 0 0]).
Proof.
  split.
  - intros k s t c0 c1 r [k' s'] Hm E. unfold CatchMachExceptionRaise in E. cbn in E.
    unfold mach_clearBreakpoint_at in E. cbn in E. rewrite Hm in E. cbn in E. by simplify_eq.
  - intros arch k [m p b evs] Hp Hmsg. cbn in Hp. subst p. unfold mach_continueExecution. cbn. rewrite Hmsg.
    by eexists.
Qed.
