(* ===== verification/HtmlWriter.v ===== *)
(** * The HTML report (src/src/writers/html-writer.cc)

    What Writers.v leaves of the HTML writer: the percentages, the index of a
    program and that of all programs, the helper files, and the order in which
    everything is written.  Percentages are C++ doubles: IEEE 754 binary64, as
    the Standard Library's [SpecFloat] defines its operations.  The date, the
    generated data and the directory are arguments. *)
From S2P Require Export Writers.
From S2P Require Import CxxString Utils UtilsFiles Configuration.
From Stdlib Require Import SpecFloat.
From stdpp Require Import options.

(** ** Doubles *)

Definition double_of_Z (z : Z) : spec_float := binary_normalize 53 1024 z 0 false.
Definition double_div : spec_float → spec_float → spec_float := SFdiv 53 1024.
Definition double_mul : spec_float → spec_float → spec_float := SFmul 53 1024.

(** [n / d] to the nearest integer, ties to even. *)
Definition round_half_even (n d : Z) : Z :=
  let q := n / d in
  match Z.compare (2 * (n mod d)) d with
  | Lt => q
  | Gt => q + 1
  | Eq => if Z.even q then q else q + 1
  end.

(** ["%.1f"] of a double that is not negative: tenths of its exact value. *)
Definition tenths (x : spec_float) : Z :=
  match x with
  | S754_finite _ m e =>
      if 0 <=? e then 10 * (Z.pos m * 2 ^ e) else round_half_even (10 * Z.pos m) (2 ^ (- e))
  | _ => 0
  end.
Definition fmt_1f (x : spec_float) : bytes :=
  fmt_u (tenths x / 10) ++ str "." ++ fmt_u (tenths x mod 10).

(** [(executedLines / (double)lines) * 100], or 0 without lines. *)
Definition percent_of (executedLines lines : Z) : spec_float :=
  if negb (lines =? 0)
  then double_mul (double_div (double_of_Z executedLines) (double_of_Z lines)) (double_of_Z 100)
  else S754_zero false.

(** ** The writer *)

(** The generated data of the report. *)
Record HtmlData := mkHtmlData {
  hd_css : bytes;
  hd_icon_amber : bytes;
  hd_icon_glass : bytes;
  hd_source_file_text : bytes;
  hd_index_text : bytes;
  hd_handlebars : bytes;
  hd_kcov : bytes;
  hd_jquery : bytes;
  hd_tablesorter : bytes;
  hd_tablesorter_widgets : bytes;
  hd_tablesorter_theme : bytes;
}.

Inductive HtmlCall :=
  | HtmlFile (path content : bytes)
  | HtmlMkdir (path : bytes).

Record HtmlWriter := mkHtmlWriter {
  hw_outDirectory : bytes;
  hw_indexDirectory : bytes;
  hw_summaryDbFileName : bytes;
  hw_name : bytes;
  hw_includeInTotals : bool;
  hw_maxPossibleHits : PossibleHits;
}.

(** [createHtmlWriter] *)
Definition new_HtmlWriter (hits : PossibleHits) (indexDirectory outDirectory name : bytes)
    (includeInTotals : bool) : HtmlWriter :=
  mkHtmlWriter (outDirectory ++ str "/") (indexDirectory ++ str "/")
    (outDirectory ++ str "/summary.db") name includeInTotals hits.

Section html_writer.
Context (e : endian) (conf : Configuration) (data : HtmlData).
(** [getDateNow], and [curl_easy_escape] of the links. *)
Context (date : bytes) (curl_easy_escape : bytes → option bytes).
Context {R : Type} `{!IReporter R} (rep : R).

Definition colorFromPercent (percent : spec_float) : res bytes :=
  high ← keyAsInt conf (str "high-limit");
  if SFleb (double_of_Z high) percent then Ok (str "lineCov")
  else
    low ← keyAsInt conf (str "low-limit");
    if SFltb (double_of_Z low) percent then Ok (str "linePartCov") else Ok (str "lineNoCov").

Definition getHeader (lines executedLines : Z) : res bytes :=
  low ← keyAsInt conf (str "low-limit");
  high ← keyAsInt conf (str "high-limit");
  command ← keyAsString conf (str "command-name");
  command ← escape_json command;
  Ok (str "var percent_low = " ++ fmt_d low ++ str ";var percent_high = " ++ fmt_d high ++ str ";" ++ [NL]
        ++ txt "var header = { `command` : `" ++ command ++ txt "`, `date` : `" ++ date
        ++ txt "`, `instrumented` : " ++ fmt_d (s32 lines)
        ++ txt ", `covered` : " ++ fmt_d (s32 executedLines) ++ str ",};" ++ [NL]).

(** An entry of an index. *)
Definition getIndexHeader (linkName titleName summaryName : bytes) (lines executedLines : Z)
  : res bytes :=
  let percent := percent_of executedLines lines in
  color ← colorFromPercent percent;
  Ok (txt "{`link`:`" ++ escape_url curl_easy_escape linkName
        ++ txt "`,`title`:`" ++ titleName ++ txt "`,`summary_name`:`" ++ summaryName
        ++ txt "`,`covered_class`:`" ++ color ++ txt "`,`covered`:`" ++ fmt_1f percent
        ++ txt "`,`covered_lines`:`" ++ fmt_d (s32 executedLines)
        ++ txt "`,`uncovered_lines`:`" ++ fmt_d (s32 (u32 (lines - executedLines)))
        ++ txt "`,`total_lines` : `" ++ fmt_d (s32 lines) ++ txt "`}," ++ [NL]).

(** [writeOne] with its two files. *)
Definition html_writeOne (w : HtmlWriter) (file : WFile) : res (list HtmlCall * WFile) :=
  '(out, file) ← writeOne rep (hw_maxPossibleHits w) file;
  header ← (let codes := wf_codeLines file in
            if 1 <? wf_lastLineNr file then getHeader codes (wf_executedLines file) else getHeader 0 0);
  Ok ([HtmlFile (hw_outDirectory w ++ str "/" ++ wf_jsonOutFileName file)
         (out ++ header ++ str "var merged_data = [];" ++ [NL]);
       HtmlFile (hw_outDirectory w ++ str "/" ++ wf_outFileName file)
         (txt "<script type=`text/javascript` src=`" ++ wf_jsonOutFileName file ++ txt "`></script>" ++ [NL]
            ++ hd_source_file_text data)], file).

(** ["path-strip-level"], [None] for [~0U]. *)
Definition strip_level : res (option nat) :=
  level ← keyAsInt conf (str "path-strip-level");
  Ok (if u32 level =? 0xffffffff then None else Some (Z.to_nat (u32 level))).

(** The entry of a file in the index of its program. *)
Definition index_entry (commonPath : bytes) (file : WFile) : res bytes :=
  level ← strip_level;
  name ← listName level commonPath (wf_name file);
  getIndexHeader (wf_outFileName file) (wf_fileName file) name (wf_codeLines file)
    (wf_executedLines file).

Definition writeIndex (w : HtmlWriter) (commonPath : bytes) (files : list WFile)
  : res (list HtmlCall) :=
  entries ← res_foldl (λ out file, entry ← index_entry commonPath file; Ok (out ++ entry)) [] files;
  let '(nTotalCodeLines, nTotalExecutedLines) := index_totals files in
  header ← getHeader nTotalCodeLines nTotalExecutedLines;
  summary ← rep_getExecutionSummary rep;
  let summary := mkSummary (es_lines summary) (es_executedLines summary)
                   (if hw_includeInTotals w then 1 else 0) in
  db ← marshalSummary e summary (hw_name w);
  Ok [HtmlFile (hw_outDirectory w ++ str "index.js")
        (txt "var data = {files:[" ++ [NL] ++ entries ++ str "]};" ++ [NL] ++ header
           ++ str "var merged_data = [];" ++ [NL]);
      HtmlFile (hw_outDirectory w ++ str "index.html") (hd_index_text data);
      HtmlFile (hw_summaryDbFileName w) db].

(** An entry of the index directory: its name, whether it is a link ([None] when
    [lstat] fails), and the content of its summary, if it can be read. *)
Record DirEntry := mkDirEntry { de_name : bytes; de_link : option bool; de_summary : option bytes }.

(** The loop of [writeGlobalIndex]: the text for the programs, the text for the
    merged ones, and the summaries met. *)
Definition global_entry (st : bytes * bytes * list ExecutionSummary) (de : DirEntry)
  : res (bytes * bytes * list ExecutionSummary) :=
  let '(out, merged, summaries) := st in
  match de_link de, de_summary de with
  | Some false, Some db =>
      r ← unMarshalSummary e db;
      match r with
      | None => Ok st
      | Some (summary, name) =>
          datum ← getIndexHeader (de_name de ++ str "/index.html") name name (es_lines summary)
                    (es_executedLines summary);
          merged_name ← keyAsString conf (str "merged-name");
          Ok (if bool_decide (name = merged_name)
              then (out, merged ++ datum, summaries ++ [summary])
              else (out ++ datum, merged, summaries ++ [summary]))
      end
  | _, _ => Ok st
  end.

Definition writeGlobalIndex (w : HtmlWriter) (dir : option (list DirEntry)) : res (list HtmlCall) :=
  match dir with
  | None => Panic
  | Some entries =>
      '(out, merged, summaries) ← res_foldl global_entry ([], [], []) entries;
      let '(nTotalCodeLines, nTotalExecutedLines) := global_totals summaries in
      header ← getHeader nTotalCodeLines nTotalExecutedLines;
      Ok [HtmlFile (hw_indexDirectory w ++ str "index.js")
            (txt "var data = {files:[" ++ [NL] ++ out ++ str "], merged_files:[" ++ merged ++ str "]};"
               ++ [NL] ++ header);
          HtmlFile (hw_indexDirectory w ++ str "index.html") (hd_index_text data)]
  end.

(** [write]: the files in the order of the map; [dir] is the index directory as it
    is when the global index is written. *)
Definition html_write (w : HtmlWriter) (b : WriterBase) (files : list WFile)
    (dir : option (list DirEntry)) : res (list HtmlCall * WriterBase) :=
  '(calls, written) ←
    res_foldl (λ st file,
      let '(calls, written) := st in
      '(c, file) ← html_writeOne w file; Ok (calls ++ c, written ++ [file])) ([], []) files;
  let b := setupCommonPaths (wf_name <$> written) b in
  index ← writeIndex w (wb_commonPath b) written;
  global ← (if hw_includeInTotals w then writeGlobalIndex w dir else Ok []);
  Ok (calls ++ index ++ global, b).

(** [read_file] of the style sheet asked for. *)
Definition writeHelperFiles (read_file : bytes → option bytes) (dir : bytes) : res (list HtmlCall) :=
  cssFileName ← keyAsString conf (str "css-file");
  let css := if bool_decide (cssFileName ≠ []) then default (hd_css data) (read_file cssFileName)
             else hd_css data in
  let file name content := HtmlFile (dir ++ str name) content in
  Ok [file "/amber.png" (hd_icon_amber data); file "/glass.png" (hd_icon_glass data);
      file "/bcov.css" css; HtmlMkdir (dir ++ str "/data"); HtmlMkdir (dir ++ str "/data/js");
      file "/data/amber.png" (hd_icon_amber data); file "/data/glass.png" (hd_icon_glass data);
      file "/data/bcov.css" css; file "/data/js/handlebars.js" (hd_handlebars data);
      file "/data/js/kcov.js" (hd_kcov data); file "/data/js/jquery.min.js" (hd_jquery data);
      file "/data/js/tablesorter.min.js" (hd_tablesorter data);
      file "/data/js/jquery.tablesorter.widgets.min.js" (hd_tablesorter_widgets data);
      file "/data/tablesorter-theme.css" (hd_tablesorter_theme data)].

Definition html_onStartup (read_file : bytes → option bytes) (w : HtmlWriter) : res (list HtmlCall) :=
  a ← writeHelperFiles read_file (hw_indexDirectory w);
  b ← writeHelperFiles read_file (hw_outDirectory w);
  Ok (a ++ b).
End html_writer.

(** ** Properties *)

Lemma path_to_remove_prefix level : ∀ p, path_to_remove level p `prefix_of` p.
Proof.
  induction level as [|level IH]; intros p; [done|]. cbn [path_to_remove]. destruct (str_rfind (str "/") p) as [pos|]; [|done].
  etrans; [apply IH|]. exists (drop pos p). by rewrite take_drop.
Qed.

(** What of a name stands in the index: without its first part, which lies in
    the common path and is replaced by dots. *)
Definition shown_as (common name shown : bytes) : Prop :=
  shown = name ∨
  ∃ removed rest, name = removed ++ rest ∧ removed `prefix_of` common ∧ removed ≠ [] ∧
    shown = str "[...]" ++ rest.

Lemma listName_shown level common name :
  common `prefix_of` name → ∃ shown, listName level common name = Ok shown ∧ shown_as common name shown.
Proof.
  intros Hp. unfold listName. destruct (str_find common name); [|eexists; split; [done|by left]].
  destruct level as [level|]; [|eexists; split; [done|by left]].
  case_bool_decide; [eexists; split; [done|by left]|].
  pose proof (path_to_remove_prefix level common) as Hr. set (removed := path_to_remove level common) in *.
  destruct (transitivity Hr Hp) as [rest Hrest].
  rewrite substr_from_ok by (rewrite Hrest, length_app; lia). cbn [mbind res_mbind res_bind].
  eexists. split; [done|]. rewrite Hrest, drop_app_length. case_bool_decide as E.
  - left. by rewrite E.
  - right. by exists removed, rest.
Qed.

Section report.
Context (e : endian) (conf : Configuration) (data : HtmlData) (date : bytes).
Context (curl_easy_escape : bytes → option bytes).
Context {R : Type} `{!IReporter R} (rep : R) (w : HtmlWriter).
(** The values of the keys that the writer reads. *)
Context (low high level : Z) (command merged : bytes).
Context (Hlow : keyAsInt conf (str "low-limit") = Ok low).
Context (Hhigh : keyAsInt conf (str "high-limit") = Ok high).
Context (Hlevel : keyAsInt conf (str "path-strip-level") = Ok level).
Context (Hcommand : keyAsString conf (str "command-name") = Ok command).
Context (Hmerged : keyAsString conf (str "merged-name") = Ok merged).

Definition color_of (percent : spec_float) : bytes :=
  if SFleb (double_of_Z high) percent then str "lineCov"
  else if SFltb (double_of_Z low) percent then str "linePartCov" else str "lineNoCov".
Definition header_of (lines executed : Z) : bytes :=
  str "var percent_low = " ++ fmt_d low ++ str ";var percent_high = " ++ fmt_d high ++ str ";" ++ [NL]
    ++ txt "var header = { `command` : `" ++ concat (json_char <$> command) ++ txt "`, `date` : `" ++ date
    ++ txt "`, `instrumented` : " ++ fmt_d (s32 lines)
    ++ txt ", `covered` : " ++ fmt_d (s32 executed) ++ str ",};" ++ [NL].
Definition entry_of (link title name : bytes) (lines executed : Z) : bytes :=
  txt "{`link`:`" ++ escape_url curl_easy_escape link
    ++ txt "`,`title`:`" ++ title ++ txt "`,`summary_name`:`" ++ name
    ++ txt "`,`covered_class`:`" ++ color_of (percent_of executed lines)
    ++ txt "`,`covered`:`" ++ fmt_1f (percent_of executed lines)
    ++ txt "`,`covered_lines`:`" ++ fmt_d (s32 executed)
    ++ txt "`,`uncovered_lines`:`" ++ fmt_d (s32 (u32 (lines - executed)))
    ++ txt "`,`total_lines` : `" ++ fmt_d (s32 lines) ++ txt "`}," ++ [NL].

Lemma colorFromPercent_ok p : colorFromPercent conf p = Ok (color_of p).
Proof using Hlow Hhigh.
  unfold colorFromPercent, color_of. rewrite Hhigh, Hlow. cbn [mbind res_mbind res_bind]. by repeat case_match.
Qed.
Lemma getHeader_ok lines executed : getHeader conf date lines executed = Ok (header_of lines executed).
Proof using Hlow Hhigh Hcommand.
  unfold getHeader. rewrite Hlow, Hhigh, Hcommand. cbn [mbind res_mbind res_bind].
  by rewrite escape_json_eq.
Qed.
Lemma getIndexHeader_ok link title name lines executed :
  getIndexHeader conf curl_easy_escape link title name lines executed
    = Ok (entry_of link title name lines executed).
Proof using Hlow Hhigh. unfold getIndexHeader. by rewrite colorFromPercent_ok. Qed.

(** *** The pages and the index of a program *)

Context (code : bytes → Z → bool) (cnt : bytes → Z → LineExecutionCount).

Definition lines_of (file : WFile) : list Z := seqZ 1 (wf_lastLineNr file - 1).
Definition codes_of (file : WFile) : Z := Z.of_nat (count_if (code (wf_name file)) (lines_of file)).
Definition executed_of (file : WFile) : Z :=
  Z.of_nat (count_if (is_executed (code (wf_name file)) (cnt (wf_name file))) (lines_of file)).

(** The two files of a source file. *)
Definition page_calls (file : WFile) : list HtmlCall :=
  [HtmlFile (hw_outDirectory w ++ str "/" ++ wf_jsonOutFileName file)
     (txt "var data = {lines:[" ++ [NL]
        ++ concat (page_line (hw_maxPossibleHits w) (code (wf_name file)) (cnt (wf_name file)) file
             <$> lines_of file)
        ++ txt "]};" ++ [NL] ++ header_of (codes_of file) (executed_of file)
        ++ str "var merged_data = [];" ++ [NL]);
   HtmlFile (hw_outDirectory w ++ str "/" ++ wf_outFileName file)
     (txt "<script type=`text/javascript` src=`" ++ wf_jsonOutFileName file ++ txt "`></script>" ++ [NL]
        ++ hd_source_file_text data)].

(** A file as the writer keeps it, and what the reporter says of its lines. *)
Definition page_ready (file : WFile) : Prop :=
  1 ≤ wf_lastLineNr file < 2 ^ 32 ∧
  (wf_lastLineNr file = 1 → wf_codeLines file = 0 ∧ wf_executedLines file = 0) ∧
  ∀ n, 1 ≤ n < wf_lastLineNr file → rep_lineIsCode rep (wf_name file) n = Ok (code (wf_name file) n) ∧
    (code (wf_name file) n = true →
     rep_getLineExecutionCount rep (wf_name file) n = Ok (cnt (wf_name file) n)).

Lemma html_writeOne_ok file :
  page_ready file →
  ∃ file', html_writeOne conf data date rep w file = Ok (page_calls file, file') ∧
    wf_codeLines file' = codes_of file ∧ wf_executedLines file' = executed_of file ∧
    wf_name file' = wf_name file ∧ wf_fileName file' = wf_fileName file ∧
    wf_outFileName file' = wf_outFileName file.
Proof using Hlow Hhigh Hcommand.
  intros (Hl & H0 & Hq). unfold html_writeOne, writeOne.
  rewrite (write_lines_ok rep (hw_maxPossibleHits w) (code (wf_name file)) (cnt (wf_name file)));
    [|lia..|intros; apply Hq; lia]. cbn [mbind res_mbind res_bind].
  rewrite Z2Nat.id by lia. fold (lines_of file). unfold page_calls, codes_of, executed_of.
  destruct (Z.ltb_spec 1 (wf_lastLineNr file)) as [Hlt | Hle]; cbn [wf_lastLineNr wf_codeLines wf_executedLines].
  - rewrite (proj2 (Z.ltb_lt _ _)) by done. rewrite getHeader_ok. cbn [mbind res_mbind res_bind].
    eexists. split; [by rewrite <-!app_assoc|done].
  - rewrite (proj2 (Z.ltb_ge _ _)) by done. rewrite getHeader_ok. cbn [mbind res_mbind res_bind].
    assert (lines_of file = []) as -> by (unfold lines_of; by replace (wf_lastLineNr file - 1) with 0 by lia).
    destruct H0 as [E1 E2]; [lia|]. exists file.
    split; [by rewrite <-!app_assoc|by rewrite E1, E2].
Qed.

Definition counted (file file' : WFile) : Prop :=
  wf_codeLines file' = codes_of file ∧ wf_executedLines file' = executed_of file ∧
  wf_name file' = wf_name file ∧ wf_fileName file' = wf_fileName file ∧
  wf_outFileName file' = wf_outFileName file.

(** The entry of [file] under the name [shown]. *)
Definition file_entry (file : WFile) (shown : bytes) : bytes :=
  entry_of (wf_outFileName file) (wf_fileName file) shown (codes_of file) (executed_of file).

(** The index shows the files in order, each under a name that [shown_as] allows. *)
Definition index_of (common : bytes) (files : list WFile) (entries : bytes) : Prop :=
  ∃ shown, Forall2 (λ file, shown_as common (wf_name file)) files shown ∧
    entries = concat (zip_with file_entry files shown).

Lemma pages_ok files : ∀ calls written,
  Forall page_ready files →
  ∃ files', res_foldl (λ st file,
      let '(calls, written) := st in
      '(c, file) ← html_writeOne conf data date rep w file; Ok (calls ++ c, written ++ [file]))
      (calls, written) files = Ok (calls ++ concat (page_calls <$> files), written ++ files') ∧
    Forall2 counted files files'.
Proof using Hlow Hhigh Hcommand.
  induction files as [|file files IH]; intros calls written Hf.
  { exists []. cbn. by rewrite !app_nil_r. }
  apply Forall_cons in Hf as [H1 H2].
  destruct (html_writeOne_ok file H1) as (file' & Hone & Hc).
  cbn [res_foldl]. rewrite Hone. cbn [mbind res_mbind res_bind].
  destruct (IH (calls ++ page_calls file) (written ++ [file']) H2) as (files' & Hl & HF).
  exists (file' :: files'). split; [|by constructor].
  rewrite Hl. cbn [fmap list_fmap concat]. by rewrite <-!app_assoc.
Qed.

Lemma index_entry_ok common file file' :
  counted file file' → common `prefix_of` wf_name file →
  ∃ shown, index_entry conf curl_easy_escape common file' = Ok (file_entry file shown) ∧
    shown_as common (wf_name file) shown.
Proof using Hlow Hhigh Hlevel.
  intros (E1 & E2 & E3 & E4 & E5) H1.
  destruct (listName_shown (if u32 level =? 0xffffffff then None else Some (Z.to_nat (u32 level)))
              common (wf_name file) H1) as (shown & Hs & Hsh).
  exists shown. split; [|done].
  unfold index_entry, strip_level. rewrite Hlevel. cbn [mbind res_mbind res_bind].
  rewrite E1, E2, E3, E4, E5, Hs. cbn [mbind res_mbind res_bind]. by rewrite getIndexHeader_ok.
Qed.

Lemma index_entries_ok common files files' : ∀ out,
  Forall2 counted files files' → Forall (λ file, common `prefix_of` wf_name file) files →
  ∃ entries, res_foldl (λ out file,
      entry ← index_entry conf curl_easy_escape common file; Ok (out ++ entry)) out files'
      = Ok (out ++ entries) ∧ index_of common files entries.
Proof using Hlow Hhigh Hlevel.
  intros out HF. revert out.
  induction HF as [|file file' files files' Hc HF IH]; intros out Hp.
  { exists []. split; [by rewrite app_nil_r|]. by exists []. }
  apply Forall_cons in Hp as [H1 H2].
  destruct (index_entry_ok common file file' Hc H1) as (shown & Hs & Hsh).
  cbn [res_foldl]. rewrite Hs. cbn [mbind res_mbind res_bind].
  destruct (IH (out ++ file_entry file shown) H2) as (entries & Hl & names & HN & ->).
  eexists. split; [rewrite Hl, <-app_assoc; done|].
  exists (shown :: names). split; [by constructor|done].
Qed.

Lemma index_totals_counted files files' :
  Forall2 counted files files' →
  index_totals files' = foldl (λ '(c, x) f, (u32 (c + codes_of f), u32 (x + executed_of f))) (0, 0) files.
Proof.
  unfold index_totals. intros HF. generalize (0, 0).
  induction HF as [|file file' files files' (E1 & E2 & _) HF IH]; intros [c x]; [done|].
  cbn [foldl]. by rewrite E1, E2.
Qed.

Definition total (f : WFile → Z) (files : list WFile) : Z := foldr (λ file s, f file + s) 0 files.

Lemma sum_totals files : ∀ c x, 0 ≤ c < 2 ^ 32 → 0 ≤ x < 2 ^ 32 →
  foldl (λ '(c, x) f, (u32 (c + codes_of f), u32 (x + executed_of f))) (c, x) files
    = (u32 (c + total codes_of files), u32 (x + total executed_of files)).
Proof.
  induction files as [|f files IH]; intros c x Hc Hx.
  { cbn. by rewrite !Z.add_0_r, !uw_small. }
  cbn [foldl]. rewrite IH by apply u32_range. unfold uw. cbn [total foldr].
  rewrite !Zplus_mod_idemp_l. by rewrite !Z.add_assoc.
Qed.

(** *** The index of all programs *)

(** What stands for a program in the index directory: a directory that is not a
    link with a summary some run has left there, on a host of either byte order.
    Links, entries without a summary and foreign files stand for nothing. *)
Inductive run_of : DirEntry → option (ExecutionSummary * bytes) → Prop :=
  | run_left de writer s name db :
      de_link de = Some false → de_summary de = Some db → marshalSummary writer s name = Ok db →
      0 ≤ es_lines s < 2 ^ 32 → 0 ≤ es_executedLines s < 2 ^ 32 → 0 ≤ es_includeInTotals s < 2 ^ 32 →
      run_of de (Some (s, take 255 (c_prefix name)))
  | run_link de : de_link de ≠ Some false → run_of de None
  | run_none de : de_summary de = None → run_of de None
  | run_foreign de db : de_summary de = Some db → unMarshalSummary e db = Ok None → run_of de None.

Definition program_entry (de : DirEntry) (s : ExecutionSummary) (name : bytes) : bytes :=
  entry_of (de_name de ++ str "/index.html") name name (es_lines s) (es_executedLines s).

(** The entries of the runs that [keep] accepts, by name, in directory order. *)
Fixpoint programs (keep : bytes → bool) (entries : list DirEntry)
    (runs : list (option (ExecutionSummary * bytes))) : bytes :=
  match entries, runs with
  | de :: entries, Some (s, name) :: runs =>
      (if keep name then program_entry de s name else []) ++ programs keep entries runs
  | _ :: entries, None :: runs => programs keep entries runs
  | _, _ => []
  end.

Definition is_merged (name : bytes) : bool := bool_decide (name = merged).

(** The sum of [f] over the runs that count. *)
Fixpoint included (f : ExecutionSummary → Z) (runs : list (option (ExecutionSummary * bytes))) : Z :=
  match runs with
  | Some (s, _) :: runs => (if es_includeInTotals s =? 0 then 0 else f s) + included f runs
  | None :: runs => included f runs
  | [] => 0
  end.

Definition summaries_of (runs : list (option (ExecutionSummary * bytes))) : list ExecutionSummary :=
  fst <$> omap id runs.

Lemma global_entry_run de s name out m ss :
  run_of de (Some (s, name)) →
  global_entry e conf curl_easy_escape (out, m, ss) de =
    Ok (out ++ (if is_merged name then [] else program_entry de s name),
        m ++ (if is_merged name then program_entry de s name else []), ss ++ [s]).
Proof using Hlow Hhigh Hmerged.
  inversion_clear 1 as [? writer ? name0 db Hl Hs Hdb H1 H2 H3| | |].
  unfold global_entry. rewrite Hl, Hs.
  destruct (summary_roundtrip writer e s name0 H1 H2 H3) as (b & Hb & Hu).
  rewrite Hdb in Hb. injection Hb as <-. rewrite Hu. cbn [mbind res_mbind res_bind].
  rewrite getIndexHeader_ok. cbn [mbind res_mbind res_bind]. rewrite Hmerged. cbn [mbind res_mbind res_bind].
  unfold is_merged. case_bool_decide; by rewrite app_nil_r.
Qed.

Lemma global_entry_other de st : run_of de None → global_entry e conf curl_easy_escape st de = Ok st.
Proof.
  destruct st as [[out m] ss]. intros H. unfold global_entry.
  inversion H as [| ? Hl | ? Hs | ? db Hs Hu]; subst.
  - by destruct (de_link de) as [[]|].
  - rewrite Hs. by destruct (de_link de) as [[]|].
  - rewrite Hs, Hu. by destruct (de_link de) as [[]|].
Qed.

Lemma global_entries_ok entries runs : ∀ out m ss,
  Forall2 run_of entries runs →
  res_foldl (global_entry e conf curl_easy_escape) (out, m, ss) entries =
    Ok (out ++ programs (λ n, negb (is_merged n)) entries runs, m ++ programs is_merged entries runs,
        ss ++ summaries_of runs).
Proof using Hlow Hhigh Hmerged.
  intros out m ss HF. revert out m ss.
  induction HF as [|de [[s name]|] entries runs H1 HF IH]; intros out m ss; cbn [res_foldl programs].
  - unfold summaries_of. cbn. by rewrite !app_nil_r.
  - rewrite (global_entry_run de s name) by done. cbn [mbind res_mbind res_bind]. rewrite IH.
    rewrite <-!app_assoc. unfold summaries_of. destruct (is_merged name); reflexivity.
  - rewrite global_entry_other by done. cbn [mbind res_mbind res_bind]. by rewrite IH.
Qed.

Lemma global_totals_runs runs : ∀ c x, 0 ≤ c < 2 ^ 32 → 0 ≤ x < 2 ^ 32 →
  foldl (λ '(code, executed) s,
      if negb (es_includeInTotals s =? 0)
      then (u32 (code + es_lines s), u32 (executed + es_executedLines s)) else (code, executed))
    (c, x) (summaries_of runs)
  = (u32 (c + included es_lines runs), u32 (x + included es_executedLines runs)).
Proof.
  induction runs as [|[[s n]|] runs IH]; intros c x Hc Hx.
  - cbn. by rewrite !Z.add_0_r, !uw_small.
  - unfold summaries_of in *. cbn [omap list_omap id fmap list_fmap fst foldl included].
    destruct (es_includeInTotals s =? 0); cbn [negb]; [by rewrite IH by done|].
    rewrite IH by apply u32_range. unfold uw. rewrite !Zplus_mod_idemp_l. by rewrite !Z.add_assoc.
  - unfold summaries_of in *. cbn [omap list_omap id included]. by apply IH.
Qed.

(** C38: Whatever else the index directory holds, each program with a summary there
    is shown once, in directory order, with the numbers and the name its run
    stored, merged reports apart from the others, and the totals are the sums over
    the runs that are to be included. *)
Theorem html_global_index (entries : list DirEntry) (runs : list (option (ExecutionSummary * bytes))) :
  Forall2 run_of entries runs →
  writeGlobalIndex e conf data date curl_easy_escape w (Some entries) =
    Ok [HtmlFile (hw_indexDirectory w ++ str "index.js")
          (txt "var data = {files:[" ++ [NL] ++ programs (λ n, negb (is_merged n)) entries runs
             ++ str "], merged_files:[" ++ programs is_merged entries runs ++ str "]};" ++ [NL]
             ++ header_of (u32 (included es_lines runs)) (u32 (included es_executedLines runs)));
        HtmlFile (hw_indexDirectory w ++ str "index.html") (hd_index_text data)].
Proof using Hlow Hhigh Hmerged Hcommand.
  intros HF. unfold writeGlobalIndex. rewrite (global_entries_ok entries runs) by done.
  cbn [mbind res_mbind res_bind app]. unfold global_totals. rewrite global_totals_runs by lia.
  rewrite getHeader_ok. done.
Qed.

(** *** A whole report *)

(** The summary a run leaves, in the index directory. *)
Definition left_in (name db : bytes) : DirEntry := mkDirEntry name (Some false) (Some db).

(** The counts of the reporter in the summary a run leaves. *)
Definition summary_left (s : ExecutionSummary) : ExecutionSummary :=
  mkSummary (es_lines s) (es_executedLines s) (if hw_includeInTotals w then 1 else 0).

Definition index_js (index : bytes) (codes executed : Z) : HtmlCall :=
  HtmlFile (hw_outDirectory w ++ str "index.js")
    (txt "var data = {files:[" ++ [NL] ++ index ++ str "]};" ++ [NL]
       ++ header_of (u32 codes) (u32 executed) ++ str "var merged_data = [];" ++ [NL]).

(** All names start at the root, the reporter gives a summary, and the index directory
    can be listed when it has to be. *)
Definition can_write (b : WriterBase) (files : list WFile) (dir : option (list DirEntry))
    (s : ExecutionSummary) (global : list HtmlCall) : Prop :=
  Forall (λ file, absolute (wf_name file)) files ∧
  (wb_commonPath b = str "not set" ∨ absolute (wb_commonPath b)) ∧
  rep_getExecutionSummary rep = Ok s ∧ 0 ≤ es_lines s < 2 ^ 32 ∧ 0 ≤ es_executedLines s < 2 ^ 32 ∧
  if hw_includeInTotals w
  then writeGlobalIndex e conf data date curl_easy_escape w dir = Ok global else global = [].

Lemma html_write_ok b files dir s global :
  Forall page_ready files → can_write b files dir s global →
  let b' := setupCommonPaths (wf_name <$> files) b in
  ∃ index db,
    html_write e conf data date curl_easy_escape rep w b files dir =
      Ok (concat (page_calls <$> files) ++
          [index_js index (total codes_of files) (total executed_of files);
           HtmlFile (hw_outDirectory w ++ str "index.html") (hd_index_text data);
           HtmlFile (hw_summaryDbFileName w) db] ++ global, b') ∧
    index_of (wb_commonPath b') files index ∧ marshalSummary e (summary_left s) (hw_name w) = Ok db.
Proof using Hlow Hhigh Hlevel Hcommand.
  intros Hf (Ha & Hb & Hs & H1 & H2 & Hg) b'.
  destruct (pages_ok files [] [] Hf) as (files' & Hp & HF).
  assert (Hnames : wf_name <$> files' = wf_name <$> files).
  { clear -HF. induction HF as [|??? ? (_ & _ & E & _) HF IH]; [done|]. cbn. by rewrite E, IH. }
  assert (Hc : Forall (λ file, wb_commonPath b' `prefix_of` wf_name file) files).
  { apply Forall_fmap with (f := wf_name) (P := λ n, wb_commonPath b' `prefix_of` n).
    apply common_path_prefix; [by apply Forall_fmap|done]. }
  destruct (index_entries_ok (wb_commonPath b') files files' [] HF Hc) as (index & Hi & Hindex).
  assert (0 ≤ es_includeInTotals (summary_left s) < 2 ^ 32) as H3 by (cbn; case_match; lia).
  destruct (summary_roundtrip e e (summary_left s) (hw_name w) H1 H2 H3) as (db & Hdb & _).
  exists index, db. split_and!; [|done..].
  unfold html_write. rewrite Hp. cbn [mbind res_mbind res_bind app]. rewrite Hnames. fold b'.
  unfold writeIndex. rewrite Hi. cbn [mbind res_mbind res_bind app].
  rewrite (index_totals_counted files files' HF), sum_totals by lia.
  rewrite getHeader_ok. cbn [mbind res_mbind res_bind]. rewrite Hs. cbn [mbind res_mbind res_bind].
  fold (summary_left s). rewrite Hdb. cbn [mbind res_mbind res_bind]. rewrite !Z.add_0_l.
  destruct (hw_includeInTotals w); [rewrite Hg|rewrite Hg]; cbn [mbind res_mbind res_bind]; done.
Qed.

(** C37: [write] makes the two files of each source file, with each of its lines
    once and its counts; an index that shows each file once under a name that lost
    at most a part of the common path, with the same counts and their totals; and
    a summary from which [unMarshalSummary], on a host of either byte order, reads
    back the numbers of the reporter, whether they are to be included and the name,
    up to its first NUL and 255 characters, so that the global index of any later
    run shows it. *)
Theorem html_report (b : WriterBase) (files : list WFile) (dir : option (list DirEntry))
    (s : ExecutionSummary) (global : list HtmlCall) :
  Forall page_ready files → can_write b files dir s global →
  let b' := setupCommonPaths (wf_name <$> files) b in
  let shown := (summary_left s, take 255 (c_prefix (hw_name w))) in
  ∃ index db,
    html_write e conf data date curl_easy_escape rep w b files dir =
      Ok (concat (page_calls <$> files) ++
          [index_js index (total codes_of files) (total executed_of files);
           HtmlFile (hw_outDirectory w ++ str "index.html") (hd_index_text data);
           HtmlFile (hw_summaryDbFileName w) db] ++ global, b') ∧
    index_of (wb_commonPath b') files index ∧
    (∀ host, unMarshalSummary host db = Ok (Some shown)) ∧
    ∀ name, run_of (left_in name db) (Some shown).
Proof using Hlow Hhigh Hlevel Hcommand.
  intros Hf Hcan b' shown. destruct (html_write_ok b files dir s global Hf Hcan) as (index & db & Hw & Hi & Hdb).
  destruct Hcan as (_ & _ & _ & H1 & H2 & _).
  assert (0 ≤ es_includeInTotals (summary_left s) < 2 ^ 32) as H3 by (cbn; case_match; lia).
  exists index, db. split_and!; [done..| |].
  - intros host. destruct (summary_roundtrip e host (summary_left s) (hw_name w) H1 H2 H3)
      as (db' & Hdb' & Hu). rewrite Hdb in Hdb'. by injection Hdb' as <-.
  - intros name. by eapply (run_left (left_in name db) e (summary_left s) (hw_name w) db).
Qed.
End report.

(** ** Concrete runs *)

(** Percentages go through the double nearest to the quotient.  Of 100 lines, the
    programs with exactly 29, 57 or 58 executed lines stay below a limit of that
    many percent and are shown in the colour below it, with the percentage of the
    limit as text; and 9999 of 10000 lines are shown as ["100.0"]. *)
Theorem html_percentage_slips :
  filter (λ n, color_of 25 n (percent_of n 100) = str "linePartCov") (seqZ 26 75) = [29; 57; 58] ∧
  (λ n, fmt_1f (percent_of n 100)) <$> [29; 57; 58] = [str "29.0"; str "57.0"; str "58.0"] ∧
  fmt_1f (percent_of 9999 10000) = str "100.0".
Proof. split_and!; vm_compute; reflexivity. Qed.

Definition demo_data : HtmlData :=
  mkHtmlData (str "css") [] [] (str "<page>") (str "<index>") [] [] [] [] [] [].
Definition demo_html : HtmlWriter :=
  new_HtmlWriter HITS_UNLIMITED (str "/out/") (str "/out/prog.0001") (str "prog") true.
Definition demo_date : bytes := str "2026-01-01 00:00:00".
Definition demo_escape (s : bytes) : option bytes := Some s.

Definition demo_summary_db (writer : endian) (s : ExecutionSummary) (name : bytes) : bytes :=
  match marshalSummary writer s name with Ok db => db | _ => [] end.

(** Two programs, a merged report that does not count, a link, a plain file and a
    summary cut short. *)
Definition demo_dir : list DirEntry :=
  [mkDirEntry (str "prog.0001") (Some false) (Some (demo_summary_db BigEndian (mkSummary 120 80 1) (str "prog")));
   mkDirEntry (str "prog") (Some true) (Some (demo_summary_db BigEndian (mkSummary 120 80 1) (str "prog")));
   mkDirEntry (str "kcov-merged") (Some false)
     (Some (demo_summary_db LittleEndian (mkSummary 130 85 0) (str "[merged]")));
   mkDirEntry (str "index.html") (Some false) None;
   mkDirEntry (str "tool.0002") (Some false) (Some (demo_summary_db LittleEndian (mkSummary 10 5 1) (str "tool")));
   mkDirEntry (str "bad.0003") (Some false) (Some (str "Emil"))].
Definition demo_runs : list (option (ExecutionSummary * bytes)) :=
  [Some (mkSummary 120 80 1, str "prog"); None; Some (mkSummary 130 85 0, str "[merged]"); None;
   Some (mkSummary 10 5 1, str "tool"); None].

Ltac left_by writer s name :=
  refine (run_left _ _ writer s name (demo_summary_db writer s name) _ _ _ _ _ _);
  [reflexivity|reflexivity|vm_compute; reflexivity|cbn; lia..].

Lemma html_global_index_witness :
  ∃ js html,
    writeGlobalIndex LittleEndian demo_conf demo_data demo_date demo_escape demo_html (Some demo_dir)
      = Ok [HtmlFile (str "/out//index.js") js; HtmlFile (str "/out//index.html") html] ∧
    contains (txt "`link`:`tool.0002/index.html`,`title`:`tool`,`summary_name`:`tool`,`covered_class`:`linePartCov`,`covered`:`50.0`")
      js = true ∧
    contains (txt "`instrumented` : 130, `covered` : 85,};") js = true.
Proof.
  eexists _, _. split.
  - apply (html_global_index LittleEndian demo_conf demo_data demo_date demo_escape demo_html 30 80
      (str "prog") (str "[merged]") eq_refl eq_refl eq_refl eq_refl demo_dir demo_runs).
    unfold demo_dir, demo_runs. constructor.
    { left_by BigEndian (mkSummary 120 80 1) (str "prog"). }
    constructor; [by apply run_link|]. constructor.
    { left_by LittleEndian (mkSummary 130 85 0) (str "[merged]"). }
    constructor; [by apply run_none|]. constructor.
    { left_by LittleEndian (mkSummary 10 5 1) (str "tool"). }
    constructor; [|constructor]. apply (run_foreign _ _ (str "Emil")); vm_compute; reflexivity.
  - split; vm_compute; reflexivity.
Defined.

Definition demo_code (_ : bytes) (n : Z) : bool := n =? 2.
Definition demo_cnt (_ : bytes) (_ : Z) : LineExecutionCount := mkCount 4 1 1.
Definition demo_files : list WFile :=
  [mkWFile (str "/src/lib/a.sh") (str "a.sh") (str "a.sh.1.html") (str "a.sh.1.js") 0
     {[ 1 := str "# x"; 2 := str "echo" ]} 0 0 3;
   mkWFile (str "/src/lib/empty.sh") (str "empty.sh") (str "empty.sh.2.html") (str "empty.sh.2.js") 0 ∅ 0 0 1].

Lemma html_report_witness :
  ∃ calls db, let b' := setupCommonPaths (wf_name <$> demo_files) new_WriterBase in
    @html_write LittleEndian demo_conf demo_data demo_date demo_escape unit demo_reporter tt demo_html
      new_WriterBase demo_files (Some demo_dir) = Ok (calls, b') ∧
    wb_commonPath b' = str "/src/lib" ∧ length calls = 9%nat ∧
    unMarshalSummary BigEndian db = Ok (Some (mkSummary 1 1 1, str "prog")) ∧
    run_of LittleEndian (left_in (str "prog.0001") db) (Some (mkSummary 1 1 1, str "prog")).
Proof.
  destruct (@html_report LittleEndian demo_conf demo_data demo_date demo_escape unit demo_reporter tt
    demo_html 30 80 2 (str "prog") eq_refl eq_refl eq_refl eq_refl demo_code demo_cnt new_WriterBase demo_files
    (Some demo_dir) (mkSummary 1 1 1)
    (match writeGlobalIndex LittleEndian demo_conf demo_data demo_date demo_escape demo_html (Some demo_dir)
     with Ok l => l | _ => [] end))
    as (index & db & H1 & _ & H2 & H3).
  - repeat constructor; cbn; try lia; intros; done.
  - split; [do 2 (apply Forall_cons_2; [right; by eexists|]); apply Forall_nil_2|].
    split; [by left|]. split; [reflexivity|]. split; [cbn; lia|]. split; [cbn; lia|].
    vm_compute. reflexivity.
  - eexists _, db. split; [exact H1|]. split; [vm_compute; reflexivity|].
    split; [|split; [exact (H2 BigEndian)|exact (H3 (str "prog.0001"))]].
    rewrite length_app. reflexivity.
Defined.
