(* ===== verification/Selection.v ===== *)
(** * Choosing engines and parsers, capabilities, output
    (src/src/engine-factory.cc, parser-manager.cc, capabilities.cc,
    output-handler.cc)

    The registered engines and parsers are asked how well they match the first
    bytes of the program; the best one is taken.  What an engine or parser
    answers is an argument; the ones of the Linux build are at the end.  The
    output handler calls the writers in the order they were registered. *)
From S2P Require Import Prelude CxxString Utils Interfaces Configuration.
From S2P Require Import BashEngine PythonEngine Ptrace.
From stdpp Require Import options.

(** ** The first bytes of a file (peek_file of utils.cc) *)

Definition to_read : nat := 512.

(** A block of [to_read] zeroed bytes with the start of the content in it; an
    empty file, a directory or a file that cannot be opened gives NULL. *)
Definition peek_file (is_dir : bytes → option bool) (content : bytes → option bytes) (path : bytes)
  : option bytes :=
  match is_dir path with
  | None | Some true => None
  | Some false =>
      match content path with
      | None | Some [] => None
      | Some c => let d := take to_read c in Some (d ++ zeros (to_read - length d))
      end
  end.

(** ** Matching *)

Section matching.
Context {E : Type}.

(** [IEngineFactory::matchEngine]: [m] is what [matchFile] answers for the
    file; it is called again for the best one. *)
Definition match_round (m : E → res Z) (best : option E) (it : E) : res (option E) :=
  let best := default it best in
  v ← m it;
  b ← m best;
  Ok (if v >? b then Some it else Some best).

Definition matchEngine (engines : list E) (m : E → res Z) : res E :=
  best ← res_foldl (match_round m) None engines;
  or_panic best.

(** [IParserManager::matchParser]: the best parser with its value. *)
Definition parser_round (m : E → res Z) (st : option E * Z) (it : E) : res (option E * Z) :=
  let '(best, preVal) := st in
  myVal ← m it;
  Ok (if myVal =? match_none then st
      else if bool_decide (best = None) || (myVal >? preVal) then (Some it, myVal) else st).

Definition matchParser (parsers : list E) (data : option bytes) (m : E → bytes → res Z)
  : res (option E) :=
  match data with
  | None => Ok None
  | Some d =>
      '(best, _) ← res_foldl (parser_round (λ p, m p d)) (None, u64 (-1)) parsers;
      Ok best
  end.
End matching.

(** ** Capabilities *)

Definition Capabilities : Type := gmap bytes bool.
Definition new_Capabilities : Capabilities := {[ str "handle-solibs" := false ]}.
Definition validateCapability (c : Capabilities) (name : bytes) : res unit :=
  if bool_decide (c !! name = None) then Panic else Ok tt.
Definition addCapability (c : Capabilities) (name : bytes) : res Capabilities :=
  _ ← validateCapability c name; Ok (<[name:=true]> c).
Definition removeCapability (c : Capabilities) (name : bytes) : res Capabilities :=
  _ ← validateCapability c name; Ok (<[name:=false]> c).
Definition hasCapability (c : Capabilities) (name : bytes) : res bool :=
  _ ← validateCapability c name; Ok (default false (c !! name)).

(** ** The output handler *)

(** Calls on [IWriter], of the writer with this number. *)
Inductive WriterCall := OnStartup (w : nat) | OnStop (w : nat) | Write (w : nat).

Record OutputHandler := {
  oh_baseDirectory : bytes;
  oh_outDirectory : bytes;
  oh_summaryDbFileName : bytes;
  oh_writers : list nat;
  oh_outputInterval : Z;
  oh_lastTimestamp : Z;
  oh_calls : list WriterCall;
}.

(** The directories it makes and the link to the readable name, in order. *)
Inductive FsCall := Mkdir (path : bytes) | Unlink (path : bytes) | Symlink (target path : bytes).

(** The constructor, at time [now]. *)
Definition new_OutputHandler (conf : Configuration) (real_path : bytes → bytes) (now : Z)
  : res (OutputHandler * list FsCall) :=
  base ← keyAsString conf (str "out-directory");
  target ← keyAsString conf (str "target-directory");
  interval ← keyAsInt conf (str "output-interval");
  name ← keyAsString conf (str "binary-name");
  only ← keyAsInt conf (str "cobertura-only");
  let out := target ++ str "/" in
  let readableName := base ++ str "/" ++ name in
  Ok ({| oh_baseDirectory := base; oh_outDirectory := out;
         oh_summaryDbFileName := out ++ str "/summary.db"; oh_writers := [];
         oh_outputInterval := u32 interval; oh_lastTimestamp := now; oh_calls := [] |},
      [Mkdir base; Mkdir out]
      ++ if only =? 0 then [Unlink readableName; Symlink (real_path out) readableName] else []).

Definition oh_call (cs : list WriterCall) (h : OutputHandler) : OutputHandler :=
  {| oh_baseDirectory := oh_baseDirectory h; oh_outDirectory := oh_outDirectory h;
     oh_summaryDbFileName := oh_summaryDbFileName h; oh_writers := oh_writers h;
     oh_outputInterval := oh_outputInterval h; oh_lastTimestamp := oh_lastTimestamp h;
     oh_calls := oh_calls h ++ cs |}.
Definition oh_set_timestamp (t : Z) (h : OutputHandler) : OutputHandler :=
  {| oh_baseDirectory := oh_baseDirectory h; oh_outDirectory := oh_outDirectory h;
     oh_summaryDbFileName := oh_summaryDbFileName h; oh_writers := oh_writers h;
     oh_outputInterval := oh_outputInterval h; oh_lastTimestamp := t; oh_calls := oh_calls h |}.

Definition registerWriter (w : nat) (h : OutputHandler) : OutputHandler :=
  {| oh_baseDirectory := oh_baseDirectory h; oh_outDirectory := oh_outDirectory h;
     oh_summaryDbFileName := oh_summaryDbFileName h; oh_writers := oh_writers h ++ [w];
     oh_outputInterval := oh_outputInterval h; oh_lastTimestamp := oh_lastTimestamp h;
     oh_calls := oh_calls h |}.

Definition produce (h : OutputHandler) : OutputHandler := oh_call (Write <$> oh_writers h) h.
Definition oh_start (h : OutputHandler) : OutputHandler := oh_call (OnStartup <$> oh_writers h) h.
Definition oh_stop (h : OutputHandler) : OutputHandler :=
  produce (oh_call (OnStop <$> oh_writers h) h).

(** [onTick], with the two times that [get_ms_timestamp] returns: before the
    decision and after the output. *)
Definition onTick (now after : Z) (h : OutputHandler) : OutputHandler :=
  if oh_outputInterval h =? 0 then h
  else if u64 (now - oh_lastTimestamp h) >=? oh_outputInterval h
       then oh_set_timestamp after (produce h)
       else h.

(** A run: ticks between [start] and [stop]. *)
Definition oh_ticks (ts : list (Z * Z)) (h : OutputHandler) : OutputHandler :=
  foldl (λ h '(now, after), onTick now after h) h ts.
Definition oh_run (ts : list (Z * Z)) (h : OutputHandler) : OutputHandler :=
  oh_stop (oh_ticks ts (oh_start h)).

(** ** The matchers of the Linux build *)

(** [BashEngineCreator::matchFile], which looks at the data as the parser does. *)
Definition bash_matchFile (filename data : bytes) : res Z :=
  s ← buf_read data 0 80;
  sh ← has_suffix (str ".sh") filename;
  Ok (if sh : bool then 200
      else if contains (str "#!/bin/bash") s then 400
      else if contains (str "#!/bin/sh") s then 300
      else if contains (str "bash") s then 100
      else if contains (str "sh") s then 50
      else match_none).

Definition py_matchFile (filename data : bytes) : res Z :=
  s ← buf_read data 0 80;
  py ← has_suffix (str ".py") filename;
  Ok (if py : bool then 200 else if contains (str "python") s then 100 else match_none).

Definition kernel_matchFile (filename : bytes) : Z :=
  if contains (str "vmlinux") filename then match_perfect
  else if contains (str ".ko") filename then match_perfect else match_none.

Definition system_matchFile (conf : Configuration) : res Z :=
  w ← keyAsString conf (str "system-mode-write-file");
  r ← keyAsString conf (str "system-mode-read-results-file");
  Ok (if bool_decide (w ≠ [] ∨ r ≠ []) then match_perfect else match_none).

Definition elf_matchParser (data : bytes) : res Z :=
  ident ← buf_read data 0 4;
  Ok (if bool_decide (ident = byte_of 0x7f :: str "ELF") then match_perfect else match_none).

Inductive EngineId := BashEngineId | PythonEngineId | PtraceEngineId | KernelEngineId | SystemModeEngineId.
#[global] Instance EngineId_eq_dec : EqDecision EngineId.
Proof. solve_decision. Defined.

Definition engine_match (conf : Configuration) (filename data : bytes) (en : EngineId) : res Z :=
  match en with
  | BashEngineId => bash_matchFile filename data
  | PythonEngineId => py_matchFile filename data
  | PtraceEngineId => ptrace_matchFile data
  | KernelEngineId => Ok (kernel_matchFile filename)
  | SystemModeEngineId => system_matchFile conf
  end.

(** ** The best match *)

(** [e] is the first of the list with the highest value. *)
Definition first_best {E} (v : E → Z) (l : list E) (e : E) : Prop :=
  ∃ a b, l = a ++ e :: b ∧ Forall (λ x, v x < v e) a ∧ Forall (λ x, v x ≤ v e) b.

Lemma first_best_snoc {E} (v : E → Z) l e it :
  first_best v l e → first_best v (l ++ [it]) (if v it >? v e then it else e).
Proof.
  intros (a & b & -> & Ha & Hb). destruct (Z.gtb_spec (v it) (v e)).
  - exists (a ++ e :: b), []. split; [done|]. split; [|done].
    apply Forall_app. split; [eapply Forall_impl; [exact Ha|]; cbn; lia|].
    constructor; [lia|]. eapply Forall_impl; [exact Hb|]. cbn; lia.
  - exists a, (b ++ [it]). split; [by rewrite <-app_assoc|]. split; [done|].
    apply Forall_app. split; [done|]. by constructor.
Qed.

Lemma filter_none {E} (v : E → Z) l :
  Forall (λ e, v e = match_none) l → filter (λ e, v e ≠ match_none) l = [].
Proof.
  induction 1 as [|x l Hx _ IH]; [done|]. rewrite filter_cons, decide_False; [done|]. tauto.
Qed.

Section best.
Context {E : Type} (m : E → res Z) (v : E → Z).

(** The loop of [matchEngine], over a list that was extended at its end. *)
Lemma matchEngine_loop l :
  Forall (λ e, m e = Ok (v e)) l → l ≠ [] →
  ∃ e, res_foldl (match_round m) None l = Ok (Some e) ∧ first_best v l e.
Proof using Type.
  induction l as [|it l IH] using rev_ind; [done|].
  intros [Hl [Hit _]%Forall_cons]%Forall_app _. rewrite res_foldl_app.
  destruct (decide (l = [])) as [->|Hne].
  - cbn. unfold match_round. cbn. rewrite Hit. cbn. rewrite Z.gtb_ltb, Z.ltb_irrefl.
    exists it. split; [done|]. by exists [], [].
  - destruct (IH Hl Hne) as (e & -> & Hb). cbn. unfold match_round. cbn.
    rewrite Hit. cbn. destruct Hb as (a & b & Heq & Ha & Hb').
    assert (He : m e = Ok (v e)).
    { rewrite Forall_forall in Hl. apply Hl. rewrite Heq. apply elem_of_app. right. left. }
    rewrite He. cbn. exists (if v it >? v e then it else e). split; [by case_match|].
    apply first_best_snoc. by exists a, b.
Qed.

(** That of [matchParser]: the parsers that do not match are left out. *)
Lemma matchParser_loop l :
  Forall (λ e, m e = Ok (v e) ∧ 0 ≤ v e < 2 ^ 32) l →
  ∃ st, res_foldl (parser_round m) (None, u64 (-1)) l = Ok st ∧
    match st with
    | (None, _) => Forall (λ e, v e = match_none) l
    | (Some e, val) => val = v e ∧ first_best v (filter (λ e, v e ≠ match_none) l) e
    end.
Proof using Type.
  induction l as [|it l IH] using rev_ind; intros Hl.
  { eexists. split; [done|]. by cbn. }
  apply Forall_app in Hl as [Hl [[Hit Hr] _]%Forall_cons].
  destruct (IH Hl) as ([best val] & E1 & Hb). rewrite res_foldl_app, E1. cbn. rewrite Hit. cbn.
  rewrite filter_app, filter_cons, filter_nil.
  destruct (Z.eqb_spec (v it) match_none) as [Hn|Hn].
  - eexists. split; [done|]. destruct best as [e|]; [|by apply Forall_app_2; [|constructor]].
    rewrite decide_False by auto. by rewrite app_nil_r.
  - rewrite decide_True by done. destruct best as [e|].
    + destruct Hb as [-> Hb]. pose proof (first_best_snoc _ _ _ it Hb) as Hs.
      cbn. case_match; eexists; (split; [done|]); by split.
    + cbn. eexists. split; [done|]. split; [done|].
      exists (filter (λ e, v e ≠ match_none) l), []. split; [done|]. split; [|done].
      by rewrite filter_none.
Qed.
End best.

Lemma first_best_elem {E} (v : E → Z) l e : first_best v l e → e ∈ l.
Proof. intros (a & b & -> & _). apply elem_of_app. right. left. Qed.

(** When one element beats all others, it is the best whatever the order. *)
Lemma first_best_unique {E} (v : E → Z) l e e' :
  first_best v l e → e' ∈ l → (∀ x, x ∈ l → x = e' ∨ v x < v e') → e = e'.
Proof.
  intros Hb Hin Hmax. destruct (Hmax e (first_best_elem _ _ _ Hb)) as [|Hlt]; [done|].
  destruct Hb as (a & b & -> & Ha & Hb). rewrite Forall_forall in Ha, Hb.
  apply elem_of_app in Hin as [Hin%Ha|[->|Hin%Hb]%elem_of_cons]; cbn in *; lia.
Qed.

Lemma matchEngine_unique {E} (m : E → res Z) (v : E → Z) (engines : list E) best :
  Forall (λ e, m e = Ok (v e)) engines → best ∈ engines →
  (∀ x, x ∈ engines → x = best ∨ v x < v best) → matchEngine engines m = Ok best.
Proof.
  intros Hm Hin Hmax. unfold matchEngine.
  destruct (matchEngine_loop m v engines Hm) as (e & -> & Hb).
  - intros ->. by apply not_elem_of_nil in Hin.
  - cbn. f_equal. by apply (first_best_unique v engines).
Qed.

(** The engine chosen is the first of those that match best; when one engine
    matches better than all others it is chosen whatever the order in which
    they were registered. *)
Theorem matchEngine_best {E} (m : E → res Z) (v : E → Z) (engines : list E) :
  Forall (λ e, m e = Ok (v e)) engines → engines ≠ [] →
  ∃ e, matchEngine engines m = Ok e ∧ first_best v engines e
    ∧ ∀ best others, best ∈ engines → (∀ x, x ∈ engines → x = best ∨ v x < v best) →
        others ≡ₚ engines → matchEngine others m = Ok best.
Proof.
  intros Hm Hne. unfold matchEngine.
  destruct (matchEngine_loop m v engines Hm Hne) as (e & -> & Hb).
  exists e. split; [done|]. split; [done|]. intros best others Hin Hmax Hp.
  apply matchEngine_unique with v; [by rewrite Hp..|].
  intros x Hx. apply Hmax. by rewrite <-Hp.
Qed.

(** A parser is found exactly when the file can be peeked into and some parser
    matches, and it is the first of those that match best. *)
Theorem matchParser_best {E} (m : E → bytes → res Z) (v : E → Z) (parsers : list E) (data : bytes) :
  Forall (λ p, m p data = Ok (v p) ∧ 0 ≤ v p < 2 ^ 32) parsers →
  matchParser parsers None m = Ok None ∧
  ∃ found, matchParser parsers (Some data) m = Ok found ∧
    match found with
    | Some p => first_best v (filter (λ p, v p ≠ match_none) parsers) p
    | None => Forall (λ p, v p = match_none) parsers
    end.
Proof.
  intros Hm. split; [done|]. cbn.
  destruct (matchParser_loop (λ p, m p data) v parsers Hm) as ([best val] & -> & Hb).
  exists best. split; [done|]. by destruct best as [p|]; [destruct Hb|].
Qed.

(** *** Scripts and their engine *)

Definition linux_engines : list EngineId :=
  [BashEngineId; PythonEngineId; PtraceEngineId; KernelEngineId; SystemModeEngineId].

Lemma peek_block is_dir content path d :
  peek_file is_dir content path = Some d → length d = to_read.
Proof.
  unfold peek_file. destruct (is_dir path) as [[]|]; try done.
  destruct (content path) as [[|c l]|]; try done. generalize (c :: l). intros k <-%(inj Some).
  rewrite length_app, length_take. unfold zeros. rewrite length_replicate. lia.
Qed.

Lemma has_suffix_ok suffix filename : ∃ b, has_suffix suffix filename = Ok b.
Proof.
  unfold has_suffix. case_match eqn:E; [|by eexists]. apply Nat.leb_le in E.
  rewrite substr_ok by lia. by eexists.
Qed.

(** One name does not end in both. *)
Lemma has_suffix_unique a b filename :
  length a = length b → a ≠ b → has_suffix a filename = Ok true → has_suffix b filename = Ok true → False.
Proof.
  intros Hl Hne. unfold has_suffix. rewrite Hl. case_match; [|done].
  destruct (substr _ _ _) as [t| | |]; try done. cbn. intros [= ->%bool_decide_eq_true] [= ?%bool_decide_eq_true].
  done.
Qed.

Lemma buf_read_start b n : (n ≤ length b)%nat → buf_read b 0 n = Ok (take n b).
Proof. intros. unfold buf_read. by rewrite bool_decide_eq_true_2, drop_0 by lia. Qed.

(** Whoever else is registered, a file that starts with the bash interpreter
    line and is no kernel module goes to the bash engine, unless the system mode
    is on. *)
Lemma bash_start_first d : prefixb (str "#!/bin/bash") d = true → length d = to_read →
  ∃ c r, d = "#"%char :: c :: r ∧ contains (str "#!/bin/bash") (take 80 d) = true.
Proof.
  intros [k ->]%prefixb_spec Hl. eexists _, _. split; [reflexivity|].
  apply contains_spec. exists [], (take (80 - 11) k). reflexivity.
Qed.

(** A script with the bash interpreter line is run by the bash engine, in
    whatever order the engines were registered, unless its name is that of a
    kernel image or module or the system mode is on. *)
Theorem bash_script_engine (conf : Configuration) (is_dir : bytes → option bool)
    (content : bytes → option bytes) (filename c d : bytes) (engines : list EngineId) :
  system_matchFile conf = Ok match_none →
  contains (str "vmlinux") filename = false → contains (str ".ko") filename = false →
  content filename = Some c → prefixb (str "#!/bin/bash") c = true →
  peek_file is_dir content filename = Some d → engines ≡ₚ linux_engines →
  matchEngine engines (engine_match conf filename d) = Ok BashEngineId.
Proof.
  intros Hsys Hvm Hko Hc Hpre Hd Hp.
  pose proof (peek_block _ _ _ _ Hd) as Hl.
  assert (Hd' : prefixb (str "#!/bin/bash") d = true).
  { unfold peek_file in Hd. destruct (is_dir filename) as [[]|]; try done.
    rewrite Hc in Hd. apply prefixb_spec in Hpre as [k ->].
    apply (inj Some) in Hd as <-. reflexivity. }
  destruct (bash_start_first d Hd' Hl) as (c1 & r & Hdr & Hbash).
  destruct (has_suffix_ok (str ".sh") filename) as [sh Hsh].
  destruct (has_suffix_ok (str ".py") filename) as [py Hpy].
  set (pv := if py then 200 else if contains (str "python") (take 80 d) then 100 else match_none).
  set (v := λ en, match en with
                  | BashEngineId => if sh then 200 else 400
                  | PythonEngineId => pv
                  | PtraceEngineId => 1
                  | KernelEngineId => match_none
                  | SystemModeEngineId => match_none end).
  assert (Hm : Forall (λ en, engine_match conf filename d en = Ok (v en)) linux_engines).
  { pose proof (buf_read_start d 80 ltac:(rewrite Hl; unfold to_read; lia)) as H80.
    repeat apply Forall_cons_2; [..|apply Forall_nil_2]; cbn [engine_match].
    - unfold bash_matchFile. rewrite H80, Hsh. cbn [res_bind mbind res_mbind]. by rewrite Hbash.
    - unfold py_matchFile. rewrite H80, Hpy. reflexivity.
    - unfold ptrace_matchFile. rewrite (buf_read_start d 4) by (rewrite Hl; unfold to_read; lia).
      rewrite Hdr. reflexivity.
    - unfold kernel_matchFile. by rewrite Hvm, Hko.
    - done. }
  apply matchEngine_unique with v; [by rewrite Hp|rewrite Hp; left|].
  assert (Hsp : sh = true → py = true → False).
  { intros -> ->. by apply (has_suffix_unique (str ".sh") (str ".py") filename). }
  intros x _. unfold v, pv, match_none.
  destruct x, sh, py; auto; try (by destruct Hsp); right; repeat case_match; lia.
Qed.

(** ** Output *)

(** Ticks only write, and nothing but the calls and the timestamp change. *)
Definition same_setup (h h' : OutputHandler) : Prop :=
  oh_writers h' = oh_writers h ∧ oh_outputInterval h' = oh_outputInterval h.

(** The times of the ticks do not go back. *)
Fixpoint times_ordered (t : Z) (ts : list (Z * Z)) : Prop :=
  match ts with
  | [] => True
  | (now, after) :: ts => t ≤ now ≤ after ∧ after < 2 ^ 64 ∧ times_ordered after ts
  end.

Fixpoint last_time (t : Z) (ts : list (Z * Z)) : Z :=
  match ts with [] => t | (_, after) :: ts => last_time after ts end.

Lemma times_ordered_last t ts : times_ordered t ts → t ≤ last_time t ts.
Proof.
  revert t; induction ts as [|[now after] ts IH]; intros t; cbn; [lia|].
  intros (? & ? & ?%IH). lia.
Qed.

Lemma oh_ticks_cons now after ts h :
  oh_ticks ((now, after) :: ts) h = oh_ticks ts (onTick now after h).
Proof. done. Qed.

(** After any ticks the writers have been asked to write, all of them, [k]
    times, at least an interval apart. *)
Lemma oh_ticks_writes ts h t :
  0 ≤ oh_lastTimestamp h ≤ t → times_ordered t ts → 0 ≤ oh_outputInterval h →
  ∃ k, oh_calls (oh_ticks ts h)
       = oh_calls h ++ concat (replicate k (Write <$> oh_writers h))
    ∧ same_setup h (oh_ticks ts h) ∧ (k ≤ length ts)%nat
    ∧ (oh_outputInterval h = 0 → k = O)
    ∧ Z.of_nat k * oh_outputInterval h ≤ last_time t ts - oh_lastTimestamp h.
Proof.
  revert h t; induction ts as [|[now after] ts IH]; intros h t Ht Hts Hi.
  { exists O. cbn. rewrite app_nil_r. split_and!; [done..|lia|done|lia]. }
  destruct Hts as (H1 & H2 & Hts). rewrite oh_ticks_cons.
  unfold onTick. destruct (Z.eqb_spec (oh_outputInterval h) 0) as [E|E].
  - destruct (IH h after) as (k & -> & Hs & Hk & H0 & Hr); [lia|done|done|].
    exists k. split_and!; [done..|cbn; lia|done|]. by cbn.
  - rewrite uw_small by lia.
    destruct (Z.geb_spec (now - oh_lastTimestamp h) (oh_outputInterval h)) as [Hge|Hlt].
    + set (h' := oh_set_timestamp after (produce h)).
      destruct (IH h' after) as (k & -> & Hs & Hk & H0 & Hr); [cbn; lia|done|done|].
      exists (S k). cbn in *. rewrite <-app_assoc. split_and!; [done|by destruct Hs|lia|done|lia].
    + destruct (IH h after) as (k & -> & Hs & Hk & H0 & Hr); [lia|done|done|].
      exists k. split_and!; [done..|cbn; lia|done|]. by cbn.
Qed.

(** In a run every writer is started once, in order, before anything else;
    during it the writers only write, all of them, never more often than the
    output interval allows and not at all when it is 0; and when it ends each is
    stopped once and then writes once more, so that what it adds when stopped is
    written. *)
Theorem output_run (h : OutputHandler) (ts : list (Z * Z)) :
  oh_calls h = [] → times_ordered (oh_lastTimestamp h) ts →
  0 ≤ oh_lastTimestamp h → 0 ≤ oh_outputInterval h →
  ∃ k, oh_calls (oh_run ts h)
       = (OnStartup <$> oh_writers h)
         ++ concat (replicate k (Write <$> oh_writers h))
         ++ (OnStop <$> oh_writers h) ++ (Write <$> oh_writers h)
    ∧ (oh_outputInterval h = 0 → k = O)
    ∧ Z.of_nat k * oh_outputInterval h
      ≤ last_time (oh_lastTimestamp h) ts - oh_lastTimestamp h.
Proof.
  intros Hc Hts Ht Hi. unfold oh_run.
  destruct (oh_ticks_writes ts (oh_start h) (oh_lastTimestamp h))
    as (k & Hcalls & [Hw _] & _ & H0 & Hr); [cbn; lia|done|done|].
  exists k. split; [|done].
  unfold oh_stop, produce. cbn. rewrite Hcalls, Hw. cbn. rewrite Hc. cbn.
  by rewrite <-!app_assoc.
Qed.

(** ** Concrete runs *)

Lemma matchEngine_best_witness :
  matchEngine [3; 7; 7; 2] (λ e : Z, Ok (e * 10)) = Ok 7
  ∧ matchEngine [2; 3; 9; 7] (λ e : Z, Ok e) = Ok 9.
Proof.
  split.
  - destruct (matchEngine_best (λ e : Z, Ok (e * 10)) (λ e, e * 10) [3; 7; 7; 2])
      as (e & -> & (a & b & Hl & Ha & Hb) & _); [by repeat constructor|done|].
    f_equal. by destruct a as [|? [|? [|? [|? [|]]]]]; simplify_eq/=;
      rewrite ?Forall_cons in Ha; rewrite ?Forall_cons in Hb; lia.
  - destruct (matchEngine_best (λ e : Z, Ok e) (λ e, e) [9; 2; 3; 7]) as (_ & _ & _ & H);
      [by repeat constructor|done|].
    apply H; [left| |].
    + intros x. rewrite !elem_of_cons, elem_of_nil. lia.
    + apply (bool_decide_unpack _). by vm_compute.
Defined.

Lemma bash_script_engine_witness :
  matchEngine [SystemModeEngineId; PtraceEngineId; PythonEngineId; KernelEngineId; BashEngineId]
    (engine_match newConfiguration (str "run.py")
       (str "#!/bin/bash -e" ++ zeros 498)) = Ok BashEngineId.
Proof.
  apply (bash_script_engine newConfiguration (λ _, Some false) (λ _, Some (str "#!/bin/bash -e"))
           (str "run.py") (str "#!/bin/bash -e")); try by vm_compute.
  apply (bool_decide_unpack _). by vm_compute.
Defined.

Lemma output_run_witness :
  ∃ h : OutputHandler,
    oh_calls (oh_run [(100, 110); (5200, 5300); (6000, 6000)] h)
    = [OnStartup 0; OnStartup 1; Write 0; Write 1; OnStop 0; OnStop 1; Write 0; Write 1]
    ∧ ∃ k, Z.of_nat k * oh_outputInterval h ≤ 6000.
Proof.
  set (h := {| oh_baseDirectory := str "/tmp/out/"; oh_outDirectory := str "/tmp/out/a/";
               oh_summaryDbFileName := []; oh_writers := [0; 1]%nat; oh_outputInterval := 5000;
               oh_lastTimestamp := 0; oh_calls := [] |}).
  exists h. split; [by vm_compute|].
  destruct (output_run h [(100, 110); (5200, 5300); (6000, 6000)]) as (k & _ & _ & Hk);
    [done|cbn; lia|cbn; lia|cbn; lia|]. exists k. cbn in *. lia.
Defined.
