(* ===== verification/SystemEngine.v ===== *)
(** * The system-mode and kernel engines
    (src/src/engines/system-mode-engine.cc, kernel-engine.cc)

    In system mode a program is not run by the kcov that instruments it: the
    engine of the recording kcov writes a copy of the program with the addresses
    in its trailer, the daemon (Daemon.v) traces the copies, and the engine of
    the reporting kcov turns the indices in the coverage file back into
    addresses.  The kernel engine talks to a module through two files. *)
From S2P Require Export SystemMode.
From S2P Require Import CxxString Utils Scripts Configuration.
From stdpp Require Import options.

(** ** The system-mode engine *)

Inductive sme_mode := mode_unset | mode_write_file | mode_read_file.
#[global] Instance sme_mode_eq_dec : EqDecision sme_mode.
Proof. solve_decision. Defined.

(** What the engine does besides reporting events. *)
Inductive SmeCall :=
  | SmeWriteFile (dst data : bytes)
  | SmeChmod (dst : bytes)
  | SmeSystem (cmd : bytes)
  | SmeEvent (ev : EngineEvent).

Record SystemModeEngine := mkSme {
  sme_kind : sme_mode;
  sme_hasListener : bool;
  sme_breakpointIdx : Z;
  sme_indexToAddress : list Z;
  sme_filename : bytes;
  sme_calls : list SmeCall;
}.

Definition new_SystemModeEngine (mode : sme_mode) : SystemModeEngine := mkSme mode false 0 [] [] [].

Definition sme_emit (l : list SmeCall) (s : SystemModeEngine) : SystemModeEngine :=
  mkSme (sme_kind s) (sme_hasListener s) (sme_breakpointIdx s) (sme_indexToAddress s)
    (sme_filename s) (sme_calls s ++ l).

(** Every address, however often it comes, gets the next index. *)
Definition sme_registerBreakpoint (addr : Z) (s : SystemModeEngine) : Z * SystemModeEngine :=
  let idx := u32 (sme_breakpointIdx s + 1) in
  (s32 (u32 (idx - 1)),
   mkSme (sme_kind s) (sme_hasListener s) idx (sme_indexToAddress s ++ [addr]) (sme_filename s)
     (sme_calls s)).

Definition sme_start (executable : bytes) (s : SystemModeEngine) : bool * SystemModeEngine :=
  (true, mkSme (sme_kind s) true (sme_breakpointIdx s) (sme_indexToAddress s) executable (sme_calls s)).

Definition sme_reportEvent (type : event_type) (data address : Z) (s : SystemModeEngine)
  : SystemModeEngine :=
  if negb (sme_hasListener s) then s else sme_emit [SmeEvent (mkEvent type data address)] s.

(** [out + *it + ","] for each, and the last comma removed. *)
Definition keyListAsString (l : list bytes) : res bytes :=
  match l with
  | [] => Ok []
  | _ =>
      let out := foldl (λ out it, out ++ it ++ str ",") [] l in
      substr out 0 (length out - 1)
  end.

Definition getKcovOptionsString (conf : Configuration) : res bytes :=
  let list_of key := l ← keyAsList conf key; keyListAsString l in
  a ← list_of (str "include-pattern");
  b ← list_of (str "exclude-pattern");
  c ← list_of (str "include-path");
  d ← list_of (str "exclude-path");
  x ← keyAsString conf (str "exclude-line");
  y ← keyAsString conf (str "exclude-region");
  Ok (concat ((λ s, s ++ str " ") <$> [a; b; c; d; x; y])).

Section engine.
Context (e : endian).
(** [read_file]; [stat] of the program succeeds?; [conf] is the singleton. *)
Context (w : World) (stat_ok : bytes → bool) (conf : Configuration).

(** The [addEntry] loop, from index [idx] on. *)
Fixpoint add_entries (idx : Z) (addrs : list Z) (f : SystemModeFile) : SystemModeFile :=
  match addrs with
  | [] => f
  | a :: addrs => add_entries (u32 (idx + 1)) addrs (addEntry idx a f)
  end.

Definition sme_handleWriter (p : bytes) (checksum : Z) (s : SystemModeEngine)
  : res SystemModeEngine :=
  options ← getKcovOptionsString conf;
  if negb (stat_ok (sme_filename s)) then Ok s
  else
    sysFile ← fromRawFile e 0 checksum (sme_filename s) options p;
    match sysFile with
    | None => Ok s
    | Some sysFile =>
        let sysFile := add_entries 0 (sme_indexToAddress s) sysFile in
        dst ← keyAsString conf (str "system-mode-write-file");
        data ← getProcessedData e sysFile;
        patchelf ← keyAsString conf (str "patchelf-command");
        Ok (sme_emit
              [SmeWriteFile dst data; SmeChmod dst;
               SmeSystem (patchelf ++ str " --add-needed libkcov_system.so " ++ dst)] s)
    end.

Definition diskToMemory (src : bytes) : res (option system_mode_memory) :=
  match w_read_file w src with
  | None => Ok None
  | Some p => fileToMemory e p
  end.

(** The loop over the bits: [m_indexToAddress[i]] is looked up for a hit. *)
Fixpoint report_bits (results : system_mode_memory) (idxs : list Z) (s : SystemModeEngine)
  : res SystemModeEngine :=
  match idxs with
  | [] => Ok s
  | i :: idxs =>
      is_hit ← indexIsHit results i;
      s ← (if is_hit : bool then
             addr ← or_fault (sme_indexToAddress s !! Z.to_nat i);
             Ok (sme_reportEvent ev_breakpoint 0 addr s)
           else Ok s);
      report_bits results idxs s
  end.

Definition sme_handleReadFile (s : SystemModeEngine) : res SystemModeEngine :=
  src ← keyAsString conf (str "system-mode-read-results-file");
  results ← diskToMemory src;
  match results with
  | None => Ok s
  | Some results => report_bits results (seqZ 0 (u32 (smm_n_entries results * 32))) s
  end.

Definition sme_continueExecution (s : SystemModeEngine) : res (bool * SystemModeEngine) :=
  match w_read_file w (sme_filename s) with
  | None => Ok (false, s)
  | Some p =>
      let checksum := w_hash_block w p in
      s ← match sme_kind s with
          | mode_write_file => sme_handleWriter p checksum s
          | mode_read_file => sme_handleReadFile s
          | mode_unset => Panic
          end;
      Ok (false, sme_reportEvent ev_exit 0 0 s)
  end.

(** [SystemModeEngineCreator::create] *)
Definition sme_create : res SystemModeEngine :=
  dst ← keyAsString conf (str "system-mode-write-file");
  Ok (new_SystemModeEngine (if bool_decide (dst ≠ []) then mode_write_file else mode_read_file)).
End engine.

Definition sme_register_all (addrs : list Z) (s : SystemModeEngine) : SystemModeEngine :=
  foldl (λ s a, (sme_registerBreakpoint a s).2) s addrs.

(** A run of the engine: start, the breakpoints in order, one round. *)
Definition sme_run (e : endian) (w : World) (stat_ok : bytes → bool) (conf : Configuration)
    (executable : bytes) (addrs : list Z) : res SystemModeEngine :=
  s ← sme_create conf;
  let s := (sme_start executable s).2 in
  let s := sme_register_all addrs s in
  '(_, s) ← sme_continueExecution e w stat_ok conf s;
  Ok s.

(** ** The kernel engine *)

(** [k_control] is what was written to the control file while it is open;
    [k_show] what is still to be read. *)
Record KernelEngine := mkKernel {
  k_control : option bytes;
  k_show : option bytes;
  k_module : bytes;
  k_addresses : gset Z;
  k_events : list EngineEvent;
}.

Definition new_KernelEngine : KernelEngine := mkKernel None None [] ∅ [].

(** [control_ok], [show]: whether the files could be opened, and what the second
    one holds. *)
Definition kernel_start (control_ok : bool) (show : option bytes) (s : KernelEngine)
  : bool * KernelEngine :=
  if control_ok && bool_decide (is_Some show)
  then (true, mkKernel (Some []) show (k_module s) (k_addresses s) (k_events s))
  else (false, mkKernel None None (k_module s) (k_addresses s) (k_events s)).

Definition kernel_registerBreakpoint (addr : Z) (s : KernelEngine) : res (Z * KernelEngine) :=
  if bool_decide (addr ∈ k_addresses s) then Ok (0, s)
  else
    match k_control s with
    | None => Panic
    | Some out =>
        Ok (0, mkKernel (Some (out ++ k_module s ++ str "0x" ++ fmt_x addr ++ ["010"%char]))
                 (k_show s) (k_module s) ({[addr]} ∪ k_addresses s) (k_events s))
    end.

(** [fgets] with room for [n] characters: up to and including a newline. *)
Fixpoint fgets (n : nat) (b : bytes) : bytes * bytes :=
  match n, b with
  | S n, c :: b =>
      if bool_decide (c = "010"%char) then ([c], b)
      else let '(l, r) := fgets n b in (c :: l, r)
  | _, _ => ([], b)
  end.

Lemma fgets_line n l rest :
  (length l < n)%nat → "010"%char ∉ l →
  fgets n (l ++ "010"%char :: rest) = (l ++ ["010"%char], rest).
Proof.
  revert n; induction l as [|c l IH]; intros [|n] Hn Hl; cbn in Hn |- *; try lia; [done|].
  apply not_elem_of_cons in Hl as [Hc Hl]. rewrite bool_decide_eq_false_2 by congruence.
  by rewrite IH by (done || lia).
Qed.

(** The address after the colon, or in the whole line. *)
Definition kernel_parseOneLine (line : bytes) (s : KernelEngine) : res KernelEngine :=
  addr ← match str_find (str ":") line with
         | Some pos => substr_from line (pos + 1)
         | None => Ok line
         end;
  if negb (string_is_integer addr 16) then Ok s
  else
    value ← string_to_integer addr 16;
    Ok (mkKernel (k_control s) (k_show s) (k_module s) (k_addresses s)
          (k_events s ++ [mkEvent ev_breakpoint 0 (u64 value)])).

(** One line of the show file; the last character of what was read is taken
    for the newline. *)
Definition kernel_continueExecution (s : KernelEngine) : res (bool * KernelEngine) :=
  match k_show s with
  | None => Fault
  | Some [] => Ok (false, s)
  | Some b =>
      let '(l, rest) := fgets 254 b in
      let l := c_prefix l in
      if bool_decide (l = []) then Fault
      else
        s ← kernel_parseOneLine (take (length l - 1) l)
              (mkKernel (k_control s) (Some rest) (k_module s) (k_addresses s) (k_events s));
        Ok (true, s)
  end.

(** The control file gets a last command and is closed. *)
Definition kernel_kill (s : KernelEngine) : option bytes * KernelEngine :=
  ((λ out, out ++ str "clear" ++ ["010"%char]) <$> k_control s,
   mkKernel None None (k_module s) (k_addresses s) (k_events s)).
