(* ===== verification/PtraceStart.v ===== *)
(** * Starting the ptrace engine
    (src/src/engines/ptrace.cc, ptrace_linux.cc)

    How [Ptrace::start] gets its stopped process: by forking the program or by
    attaching to a running process and all its threads, and what it reads of them
    under /proc.  The system calls are the class [StartOS]. *)
From S2P Require Export Ptrace.
From S2P Require Import CxxString Utils Configuration SystemEngine.
From stdpp Require Import options.

(** ** Numbers of the C library *)

(** [strtol] and [strtoul] to base 10, with their saturation, as [int]. *)
Definition c_digits (s : bytes) : bool * Z :=
  let '(_, s) := skip_space s in
  let '(neg, _, s) := strip_sign s in
  (neg, (parse_digits 10 0 0 s).1).
Definition strtol_int (s : bytes) : Z :=
  let '(neg, v) := c_digits s in
  s32 (Z.max (- 2 ^ 63) (Z.min (2 ^ 63 - 1) (if neg then - v else v))).
Definition strtoul_int (s : bytes) : Z :=
  let '(neg, v) := c_digits s in
  s32 (if 2 ^ 64 <=? v then 2 ^ 64 - 1 else if neg then u64 (- v) else v).

(** ** /proc/PID/status *)

(** The first of the lines [fgets] gets with a buffer of 100 that [p] accepts. *)
Fixpoint status_line (fuel : nat) (p : bytes → bool) (b : bytes) : option bytes :=
  match fuel, b with
  | S fuel, _ :: _ =>
      let '(line, rest) := fgets 99 b in
      let line := c_prefix line in
      if p line then Some line else status_line fuel p rest
  | _, _ => None
  end.

(** [None] for a file that can not be opened. *)
Definition linux_proc_get_int (status_file : option bytes) (field : bytes) : Z :=
  match status_file with
  | None => -1
  | Some b =>
      match status_line (length b) (prefixb (field ++ str ":")) b with
      | Some line => strtol_int (drop (length field + 1) line)
      | None => -1
      end
  end.

Definition linux_proc_pid_has_state (status_file : option bytes) (state : bytes) : bool :=
  match status_file with
  | None => false
  | Some b =>
      match status_line (length b) (prefixb (str "State:")) b with
      | Some line => contains state line
      | None => false
      end
  end.

Definition linux_proc_pid_is_stopped (status_file : option bytes) : bool :=
  linux_proc_pid_has_state status_file (str "T (stopped)").
Definition linux_proc_get_tgid (status_file : option bytes) : Z :=
  linux_proc_get_int status_file (str "Tgid").

(** ** The system calls *)

(** [os_attach] gives 0 or the error; [os_status] is the content of
    /proc/PID/status; [os_read_task] reads the names in /proc/PID/task once
    through and rewinds; [os_tkill] gives its result and errno; [os_affinity]
    gets the set of processors. *)
Class StartOS (K : Type) := {
  os_attach : K → Z → Z * K;
  os_setoptions : K → Z → Z → Z * K;
  os_status : K → Z → option bytes;
  os_open_task : K → Z → bool;
  os_read_task : K → Z → list bytes * K;
  os_tkill : K → Z → Z → Z * Z * K;
  os_kill : K → Z → Z → Z * K;
  os_detach : K → Z → K;
  os_getcpu : K → Z;
  os_affinity : K → Z → gset Z → Z * K;
  os_access_x : K → bytes → bool;
  os_fork : K → Z * K;
  os_waitpid : K → Z → (Z * Z) * K;
  os_personality : K → Z → Z * K;
  os_traceme : K → Z * K;
  os_execv : K → bytes → Z * K;
  os_getpid : K → Z;
}.

Section start.
Context {K : Type} `{!StartOS K}.
(** Whether the headers define [__NR_tkill]. *)
Context (nr_tkill : bool).

Definition ENOSYS : Z := 38.
(** PTRACE_O_TRACECLONE, PTRACE_O_TRACEFORK and PTRACE_O_TRACEVFORK *)
Definition trace_options : Z := Z.lor 8 (Z.lor 2 4).

(** The flag is the static [tkill_failed]. *)
Definition kill_lwp (lwpid signo : Z) (k : K) (tkill_failed : bool) : Z * (K * bool) :=
  let direct k failed := let '(r, k) := os_kill k lwpid signo in (r, (k, failed)) in
  if nr_tkill && negb tkill_failed then
    let '(ret, errno, k) := os_tkill k lwpid signo in
    if negb (errno =? ENOSYS) then (ret, (k, tkill_failed)) else direct k true
  else direct k tkill_failed.

Definition attachLwp (lwpid : Z) (k : K) (tkill_failed : bool) : Z * (K * bool) :=
  let '(errno, k) := os_attach k lwpid in
  if negb (errno =? 0) then (errno, (k, tkill_failed))
  else
    let '(_, k) := os_setoptions k lwpid trace_options in
    if negb (linux_proc_pid_is_stopped (os_status k lwpid)) then
      (0, (kill_lwp lwpid SIGSTOP k tkill_failed).2)
    else (0, (k, tkill_failed)).

(** The state of [attachAll]: the kernel, the flag and the threads attached to,
    the latest last. *)
Record Attaching := mkAttaching { at_k : K; at_failed : bool; at_threads : list Z }.

(** One name of the directory; the flag is whether it is a new thread. *)
Definition attach_name (st : Attaching * nat) (d_name : bytes) : Attaching * nat :=
  let '(a, new_threads_found) := st in
  let lwp := strtoul_int d_name in
  if negb (lwp =? 0) && negb (bool_decide (lwp ∈ at_threads a)) then
    let '(_, (k, failed)) := attachLwp lwp (at_k a) (at_failed a) in
    (mkAttaching k failed (at_threads a ++ [lwp]), S new_threads_found)
  else st.

Definition attach_pass (pid : Z) (a : Attaching) : Attaching * nat :=
  let '(names, k) := os_read_task (at_k a) pid in
  foldl attach_name (mkAttaching k (at_failed a) (at_threads a), O) names.

(** [while (iterations < 2)]; [None] when the fuel is used up. *)
Fixpoint attach_loop (fuel : nat) (pid : Z) (iterations : nat) (a : Attaching) : option Attaching :=
  if (iterations <? 2)%nat then
    match fuel with
    | O => None
    | S fuel =>
        let '(a, new_threads_found) := attach_pass pid a in
        attach_loop fuel pid (if (new_threads_found =? 0)%nat then S iterations else O) a
    end
  else Some a.

Definition attachAll (fuel : nat) (pid : Z) (k : K) : option (Z * Attaching) :=
  let '(_, (k, failed)) := attachLwp pid k false in
  let a := mkAttaching k failed [pid] in
  if negb (linux_proc_get_tgid (os_status k pid) =? pid) then Some (0, a)
  else if negb (os_open_task k pid) then Some (0, a)
  else a ← attach_loop fuel pid 0 a; Some (0, a).

Definition follow_fork (pid : Z) (k : K) : Z * K := os_setoptions k pid trace_options.

(** [CPU_SET] looks at a set of 1024 processors, however many were allocated. *)
Definition cpu_set_of (cpu : Z) : gset Z := if (0 <=? cpu) && (cpu <? 1024) then {[cpu]} else ∅.
Definition tie_process_to_cpu (pid cpu : Z) (k : K) : res K :=
  let '(r, k) := os_affinity k pid (cpu_set_of cpu) in
  if r <? 0 then Panic else Ok k.

(** [ADDR_NO_RANDOMIZE] *)
Definition disable_aslr (k : K) : bool * K :=
  let '(persona, k) := os_personality k 0xffffffff in
  if persona <? 0 then (false, k)
  else
    let '(r, k) := os_personality k (Z.lor persona 0x0040000) in
    (negb (r <? 0), k).

(** ** Starting *)

(** The child after [fork]: [true] when the program has taken its place. *)
Definition forkChild_child (executable : bytes) (parentCpu : Z) (k : K) : res (bool * K) :=
  let '(ok, k) := disable_aslr k in
  if negb ok then Ok (false, k)
  else
    let '(r, k) := os_traceme k in
    if r <? 0 then Ok (false, k)
    else
      k ← tie_process_to_cpu (os_getpid k) parentCpu k;
      let '(r, k) := os_execv k executable in
      Ok (negb (r <? 0), k).

(** Both wait for the initial stop. *)
Definition initial_stop (pid : Z) (k : K) : bool * K :=
  let '((who, status), k) := os_waitpid k pid in
  (negb (who <? 0) && WIFSTOPPED status, k).

(** The parent. *)
Definition forkChild (parentCpu : Z) (k : K) (s : Ptrace) : res (bool * (K * Ptrace)) :=
  let '(child, k) := os_fork k in
  if child <? 0 then Ok (false, (k, s))
  else
    let s := started child s in
    k ← tie_process_to_cpu child parentCpu k;
    let '(stopped, k) := initial_stop child k in
    if negb stopped then Ok (false, (k, s))
    else Ok (true, ((follow_fork (m_activeChild s) k).2, s)).

Definition attachPid (fuel : nat) (pid parentCpu : Z) (k : K) (s : Ptrace)
  : option (res (bool * (K * Ptrace))) :=
  let s := started pid s in
  '(rv, a) ← attachAll fuel pid k;
  Some
    (if rv <? 0 then Ok (false, (at_k a, s))
     else
       let '(stopped, k) := initial_stop pid (at_k a) in
       if negb stopped then Ok (false, (k, s))
       else k ← tie_process_to_cpu pid parentCpu k; Ok (true, (k, s))).

(** [None] only when the attachment does not end within the fuel. *)
Definition Ptrace_start (fuel : nat) (conf : Configuration) (executable : bytes) (k : K) (s : Ptrace)
  : option (res (bool * (K * Ptrace))) :=
  let parentCpu := os_getcpu k in
  match tie_process_to_cpu (os_getpid k) parentCpu k with
  | Ok k =>
      let s := pt_set_map ∅ s in
      if negb (os_access_x k executable) then Some (Ok (false, (k, s)))
      else
        match keyAsInt conf (str "attach-pid") with
        | Ok pid =>
            if negb (pid =? 0) then attachPid fuel (s32 (u32 pid)) parentCpu k s
            else Some (forkChild parentCpu k s)
        | Panic => Some Panic
        | Throw => Some Throw
        | Fault => Some Fault
        end
  | Panic => Some Panic
  | Throw => Some Throw
  | Fault => Some Fault
  end.

(** [~Ptrace] *)
Definition Ptrace_destroy (k : K) (s : Ptrace) : K * Ptrace :=
  let s := Ptrace_kill 15 s in
  (os_detach k (m_activeChild s), s).

(** ** Attaching to all threads *)

(** The threads a listing of /proc/PID/task names. *)
Definition listed (names : list bytes) : list Z := filter (λ lwp, lwp ≠ 0) (strtoul_int <$> names).

Lemma listed_cons d names :
  listed (d :: names)
    = if bool_decide (strtoul_int d = 0) then listed names else strtoul_int d :: listed names.
Proof.
  unfold listed. cbn [fmap list_fmap]. rewrite filter_cons. case_bool_decide; case_decide; tauto.
Qed.

Lemma attach_name_cases a n d :
  (attach_name (a, n) d = (a, n) ∧ (strtoul_int d = 0 ∨ strtoul_int d ∈ at_threads a)) ∨
  (∃ k failed, attach_name (a, n) d = (mkAttaching k failed (at_threads a ++ [strtoul_int d]), S n) ∧
     strtoul_int d ≠ 0 ∧ strtoul_int d ∉ at_threads a).
Proof using Type.
  unfold attach_name. destruct (Z.eqb_spec (strtoul_int d) 0) as [E0 | E0]; cbn [negb andb]; [by auto|].
  case_bool_decide as E; cbn [negb]; [by auto|].
  destruct (attachLwp _ _ _) as [? [k failed]]. right. by exists k, failed.
Qed.

(** One pass: the new threads are attached to, each once; none new, and nothing
    has happened. *)
Lemma attach_names_spec names a n :
  NoDup (at_threads a) →
  let r := foldl attach_name (a, n) names in
  NoDup (at_threads r.1) ∧
  (∀ lwp, lwp ∈ at_threads r.1 ↔ lwp ∈ at_threads a ∨ lwp ∈ listed names) ∧
  at_threads a `prefix_of` at_threads r.1 ∧
  r.2 = (n + (length (at_threads r.1) - length (at_threads a)))%nat ∧
  (r.2 = n → r = (a, n)).
Proof using Type.
  revert a n; induction names as [|d names IH]; intros a n Hn; cbn [foldl].
  - cbn [fst snd]. split_and!; [done| |done|lia|done]. unfold listed. cbn. intros.
    rewrite elem_of_nil. tauto.
  - cbn zeta in IH. rewrite listed_cons.
    destruct (attach_name_cases a n d) as [[E Hd] | (k & failed & E & H0 & Hd)]; rewrite E.
    + destruct (IH a n Hn) as (H1 & H2 & H3 & H4 & H5). split_and!; [done| |done..].
      intros lwp. rewrite H2. case_bool_decide as Ez; [done|]. rewrite elem_of_cons. naive_solver.
    + destruct (IH (mkAttaching k failed (at_threads a ++ [strtoul_int d])) (S n)) as (H1 & H2 & H3 & H4 & H5).
      { cbn. apply NoDup_app. split_and!; [done| |by apply NoDup_singleton].
        by intros ? ? ->%list_elem_of_singleton. }
      cbn in H2, H3, H4. pose proof (prefix_length _ _ H3) as Hl. rewrite length_app in Hl, H4. cbn in Hl, H4.
      split_and!; [done| |by eapply prefix_app_l|lia|lia].
      intros lwp. rewrite H2. rewrite bool_decide_eq_false_2 by done.
      rewrite elem_of_app, list_elem_of_singleton, elem_of_cons. tauto.
Qed.

(** [pid] and the threads of [T] are all there are. *)
Definition threads_within (pid : Z) (T : gset Z) : Prop :=
  ∀ k : K, Forall (λ lwp, lwp ∈ T) (listed (os_read_task k pid).1).

Lemma attach_loop_ends pid T fuel iterations a :
  threads_within pid T → NoDup (at_threads a) → (∀ t, t ∈ at_threads a → t ∈ T) →
  (iterations ≤ 2)%nat →
  (2 * (size T - length (at_threads a)) + (2 - iterations) ≤ fuel)%nat →
  ((1 ≤ iterations)%nat → ∃ k1 : K, at_k a = (os_read_task k1 pid).2 ∧
     ∀ t, t ∈ listed (os_read_task k1 pid).1 → t ∈ at_threads a) →
  ∃ a', attach_loop fuel pid iterations a = Some a' ∧ NoDup (at_threads a') ∧
    at_threads a `prefix_of` at_threads a' ∧ (∀ t, t ∈ at_threads a' → t ∈ T) ∧
    ∃ k1 : K, at_k a' = (os_read_task k1 pid).2 ∧
      ∀ t, t ∈ listed (os_read_task k1 pid).1 → t ∈ at_threads a'.
Proof using Type.
  intros HT. revert iterations a. induction fuel as [|fuel IH]; intros it a Hn Hs Hit Hf Hl; cbn [attach_loop].
  { assert (it = 2%nat) as -> by lia. cbn. exists a. split_and!; [done..|]. apply Hl. lia. }
  destruct (Nat.ltb_spec it 2).
  2:{ exists a. split_and!; [done..|]. apply Hl. lia. }
  unfold attach_pass. destruct (os_read_task (at_k a) pid) as [names k] eqn:Er.
  destruct (attach_names_spec names (mkAttaching k (at_failed a) (at_threads a)) 0 Hn)
    as (H1 & H2 & H3 & H4 & H5). cbn [at_threads] in H2, H3, H4.
  destruct (foldl attach_name _ names) as [a1 new] eqn:Ef. cbn [fst snd] in *.
  assert (∀ t, t ∈ at_threads a1 → t ∈ T) as Hs1.
  { intros t [? | Ht]%H2; [auto|]. specialize (HT (at_k a)). rewrite Er in HT. cbn in HT.
    rewrite Forall_forall in HT. auto. }
  assert (length (at_threads a1) ≤ size T)%nat as Hle.
  { rewrite <-(size_list_to_set (C := gset Z) (at_threads a1)) by done. apply subseteq_size.
    intros t. rewrite elem_of_list_to_set. auto. }
  pose proof (prefix_length _ _ H3) as Hpl.
  destruct (IH (if (new =? 0)%nat then S it else O) a1) as (a' & E & ? & Hp & ? & ?); [done..| | | |].
  - destruct (Nat.eqb_spec new 0); lia.
  - destruct (Nat.eqb_spec new 0) as [-> | ?]; lia.
  - destruct (Nat.eqb_spec new 0) as [-> | ?]; [|lia]. intros _. exists (at_k a).
    rewrite Er. specialize (H5 eq_refl). injection H5 as ->. cbn. split; [done|].
    intros t Ht. apply H2. by right.
  - exists a'. split_and!; [done|done|by etrans|done|done].
Qed.

(** The processes and threads PTRACE_ATTACH was called for so far, in order: the other
    calls on the way are not it. *)
Class AttachLog (requests : K → list Z) : Prop := {
  log_attach : ∀ k lwp, requests (os_attach k lwp).2 = requests k ++ [lwp];
  log_setoptions : ∀ k lwp o, requests (os_setoptions k lwp o).2 = requests k;
  log_read_task : ∀ k pid, requests (os_read_task k pid).2 = requests k;
  log_tkill : ∀ k lwp sig, requests (os_tkill k lwp sig).2 = requests k;
  log_kill : ∀ k lwp sig, requests (os_kill k lwp sig).2 = requests k;
}.
Context (requests : K → list Z) `{!AttachLog requests}.

Lemma attachLwp_log lwp k failed : requests (attachLwp lwp k failed).2.1 = requests k ++ [lwp].
Proof using AttachLog0.
  unfold attachLwp. pose proof (log_attach k lwp) as Ha. destruct (os_attach k lwp) as [err k1]. cbn in Ha.
  destruct (negb (err =? 0)); [done|].
  pose proof (log_setoptions k1 lwp trace_options) as Ho. destruct (os_setoptions k1 lwp _) as [r k2]. cbn in Ho.
  destruct (negb _); [|cbn; congruence]. cbn [fst snd]. unfold kill_lwp.
  pose proof (log_tkill k2 lwp SIGSTOP) as Ht. destruct (os_tkill k2 lwp SIGSTOP) as [[ret errno] k3]. cbn in Ht.
  pose proof (log_kill k3 lwp SIGSTOP) as Hk3. pose proof (log_kill k2 lwp SIGSTOP) as Hk2.
  destruct (os_kill k3 lwp SIGSTOP), (os_kill k2 lwp SIGSTOP). cbn in Hk2, Hk3.
  repeat case_match; cbn; congruence.
Qed.

(** Each thread on the list was attached to, once, in its order. *)
Definition attached_list (before : list Z) (a : Attaching) : Prop :=
  requests (at_k a) = before ++ at_threads a.

Lemma attach_names_log before names : ∀ a n,
  attached_list before a → attached_list before (foldl attach_name (a, n) names).1.
Proof using AttachLog0.
  induction names as [|d names IH]; intros a n Ha; [done|]. cbn [foldl].
  unfold attach_name at 2. destruct (_ && _); [|by apply IH].
  pose proof (attachLwp_log (strtoul_int d) (at_k a) (at_failed a)) as Hl.
  destruct (attachLwp _ _ _) as [? [k failed]]. apply IH. unfold attached_list in *. cbn in *.
  by rewrite Hl, Ha, app_assoc.
Qed.

Lemma attach_loop_log before pid fuel : ∀ it a a',
  attached_list before a → attach_loop fuel pid it a = Some a' → attached_list before a'.
Proof using AttachLog0.
  induction fuel as [|fuel IH]; intros it a a' Ha; cbn [attach_loop]; destruct (it <? 2)%nat;
    [done|by intros [= <-]| |by intros [= <-]].
  unfold attach_pass. pose proof (log_read_task (at_k a) pid) as Hr.
  destruct (os_read_task (at_k a) pid) as [names k]. cbn in Hr.
  pose proof (attach_names_log before names (mkAttaching k (at_failed a) (at_threads a)) 0) as Hl.
  destruct (foldl attach_name _ names) as [a1 new]. apply IH, Hl. unfold attached_list. cbn. by rewrite Hr.
Qed.

(** C17: attaching to a process with threads ends - after at most twice as many passes
    over /proc/PID/task as there ever are threads - and PTRACE_ATTACH was called for
    the process first and then for each thread, once; and it does not end before a
    whole pass has shown no thread it was not called for.  The result does not say
    whether any attachment succeeded: it is always 0. *)
Theorem attachAll_complete pid T fuel k :
  threads_within pid T → pid ∈ T → (2 * size T ≤ fuel)%nat →
  ∃ a, attachAll fuel pid k = Some (0, a) ∧
    requests (at_k a) = requests k ++ at_threads a ∧
    NoDup (at_threads a) ∧ head (at_threads a) = Some pid ∧
    (∀ t, t ∈ at_threads a → t ∈ T) ∧
    (linux_proc_get_tgid (os_status (attachLwp pid k false).2.1 pid) = pid →
     os_open_task (attachLwp pid k false).2.1 pid = true →
     ∃ k1 : K, at_k a = (os_read_task k1 pid).2 ∧
       ∀ t, t ∈ listed (os_read_task k1 pid).1 → t ∈ at_threads a).
Proof using AttachLog0.
  intros HT Hp Hf. unfold attachAll. pose proof (attachLwp_log pid k false) as Hl0.
  destruct (attachLwp pid k false) as [err [k1 failed]]. cbn [fst snd] in *.
  assert (∀ t, t ∈ [pid] → t ∈ T) as Hs by (by intros t ->%list_elem_of_singleton).
  destruct (Z.eqb_spec (linux_proc_get_tgid (os_status k1 pid)) pid) as [Et | Et]; cbn [negb].
  2:{ eexists. split_and!; [done|done|by apply NoDup_singleton|done|done|done]. }
  destruct (os_open_task k1 pid) eqn:Eo; cbn [negb].
  2:{ eexists. split_and!; [done|done|by apply NoDup_singleton|done|done|done]. }
  assert (1 ≤ size T)%nat.
  { destruct (decide (size T = O)) as [E0%size_empty_inv | ?]; [set_solver|lia]. }
  destruct (attach_loop_ends pid T fuel 0 (mkAttaching k1 failed [pid]) HT) as (a & E & Hn & Hpre & Hs' & Hl).
  - apply NoDup_singleton.
  - done.
  - lia.
  - cbn [at_threads length]. lia.
  - lia.
  - pose proof (attach_loop_log (requests k) pid fuel 0 (mkAttaching k1 failed [pid]) a Hl0 E) as Hlog.
    rewrite E. exists a. split_and!; [done|exact Hlog|done| |done|done].
    destruct Hpre as [l Hpre]. cbn in Hpre. by rewrite Hpre.
Qed.

(** ** Starting *)

(** The process [Ptrace_start] gets: the one asked for, or the one forked. *)
Definition start_pid (conf : Configuration) (pid : Z) : Prop :=
  ∃ p, keyAsInt conf (str "attach-pid") = Ok p ∧
    ((p ≠ 0 ∧ pid = s32 (u32 p)) ∨ (p = 0 ∧ ∃ k : K, (os_fork k).1 = pid ∧ 0 ≤ pid)).

(** When the engine has started, its process is the one asked for with the
    attach option or the child it forked, that process has been seen to stop, and
    the engine is in the state in which it has no breakpoints yet: the one from
    which [breakpoints_transparent] and [trap_hit] speak. *)
Theorem ptrace_start_ready fuel conf executable k k' s' :
  Ptrace_start fuel conf executable k new_Ptrace = Some (Ok (true, (k', s'))) →
  ∃ pid, start_pid conf pid ∧ s' = started pid new_Ptrace ∧
    ∃ k1 : K, 0 ≤ (os_waitpid k1 pid).1.1 ∧ WIFSTOPPED (os_waitpid k1 pid).1.2 = true.
Proof using Type.
  unfold Ptrace_start, tie_process_to_cpu. destruct (os_affinity _ _ _) as [r k1].
  destruct (r <? 0); [done|]. destruct (os_access_x k1 executable); cbn [negb]; [|done].
  destruct (keyAsInt conf (str "attach-pid")) as [p| | |] eqn:Ep; try done.
  assert (∀ pid (k2 : K), (initial_stop pid k2).1 = true →
            0 ≤ (os_waitpid k2 pid).1.1 ∧ WIFSTOPPED (os_waitpid k2 pid).1.2 = true) as Hstop.
  { intros pid k2. unfold initial_stop. destruct (os_waitpid k2 pid) as [[who status] k3]. cbn.
    intros [H1%negb_true_iff%Z.ltb_ge H2]%andb_true_iff. done. }
  destruct (Z.eqb_spec p 0) as [E0 | E0]; cbn [negb].
  - intros [= H]. unfold forkChild, tie_process_to_cpu in H.
    destruct (os_fork k1) as [child k2] eqn:Ef. destruct (Z.ltb_spec child 0); [done|].
    destruct (os_affinity k2 _ _) as [r2 k3]. destruct (r2 <? 0); [done|]. cbn [mbind res_mbind res_bind] in H.
    specialize (Hstop child k3). destruct (initial_stop child k3) as [[] k4]; [|done].
    cbn [negb] in H. injection H as _ <-. exists child. split_and!; [|done|by exists k3; apply Hstop].
    exists p. split; [done|]. right. split; [done|]. exists k1. by rewrite Ef.
  - unfold attachPid. destruct (attachAll fuel _ k1) as [[rv a]|]; [|done]. cbn [mbind option_bind].
    intros [= H]. destruct (rv <? 0); [done|].
    specialize (Hstop (s32 (u32 p)) (at_k a)).
    destruct (initial_stop _ (at_k a)) as [[] k4]; [|done]. cbn [negb] in H.
    unfold tie_process_to_cpu in H. destruct (os_affinity k4 _ _) as [r2 k3]. destruct (r2 <? 0); [done|].
    injection H as _ <-. exists (s32 (u32 p)). split_and!; [|done|by exists (at_k a); apply Hstop].
    exists p. split; [done|]. by left.
Qed.
End start.

(** ** Reading the status file *)

Lemma status_line_app fuel p pre l rest :
  Forall (λ l, "010"%char ∉ l ∧ no_nul l ∧ (length l < 99)%nat ∧ p (l ++ ["010"%char]) = false) pre →
  "010"%char ∉ l → no_nul l → (length l < 99)%nat → p (l ++ ["010"%char]) = true →
  (length (concat ((λ l, l ++ ["010"%char]) <$> pre)) < fuel)%nat →
  status_line fuel p (concat ((λ l, l ++ ["010"%char]) <$> pre) ++ l ++ "010"%char :: rest)
    = Some (l ++ ["010"%char]).
Proof.
  intros Hpre Hl Hz Hlen Hp. revert fuel. induction Hpre as [|x pre (Hx & Hxz & Hxl & Hxp) _ IH]; intros fuel Hf.
  - destruct fuel as [|fuel]; [cbn in Hf; lia|]. cbn [fmap list_fmap concat app status_line].
    destruct (l ++ "010"%char :: rest) as [|c0 l0] eqn:E0; [by destruct l|]. rewrite <-E0. clear c0 l0 E0.
    rewrite fgets_line by done. rewrite c_prefix_no_nul; [by rewrite Hp|].
    unfold no_nul in *. rewrite elem_of_app. set_solver.
  - cbn [fmap list_fmap concat] in *. rewrite !length_app in Hf. cbn in Hf.
    destruct fuel as [|fuel]; [lia|]. cbn [status_line].
    rewrite <-!app_assoc. cbn [app]. set (r := concat _ ++ l ++ _).
    destruct (x ++ "010"%char :: r) as [|c0 l0] eqn:E0; [by destruct x|]. rewrite <-E0. clear c0 l0 E0.
    rewrite fgets_line by done. rewrite c_prefix_no_nul; [rewrite Hxp; apply IH; lia|].
    unfold no_nul in *. rewrite elem_of_app. set_solver.
Qed.

Lemma digits_acc base n z acc : digits base n z acc = digits base n z [] ++ acc.
Proof.
  revert z acc; induction n as [|n IH]; intros z acc; cbn [digits]; [done|].
  destruct (z / base =? 0); [done|]. rewrite IH, (IH _ [_]), <-app_assoc. done.
Qed.

(** A number after blanks, before anything that is no digit. *)
Lemma c_digits_fmt_u blanks z rest :
  0 ≤ z < 2 ^ 64 → Forall (λ c, isspace c = true) blanks →
  (∀ c, head rest = Some c → digit_in 10 c = None) →
  c_digits (blanks ++ fmt_u z ++ rest) = (false, z).
Proof.
  intros Hz Hb Hr. unfold c_digits, fmt_u.
  rewrite <-digits_acc.
  destruct (digits_shape 10 63 z rest ltac:(lia) ltac:(lia)) as (c & D & E & HF & _ & Hp).
  change 64%nat with (S 63). rewrite E in *.
  apply Forall_cons in HF as [(d & Hd & ->) _].
  assert (isspace (digit_char d) = false) as Hs.
  { destruct (isspace (digit_char d)) eqn:Hs; [|done]. exfalso.
    apply (digit_char_not_special d (digit_char d)); [lia|by left|done]. }
  assert (∃ n, skip_space (blanks ++ digit_char d :: D ++ rest) = (n, digit_char d :: D ++ rest))
    as [n ->].
  { clear -Hb Hs. induction Hb as [|b blanks Hb _ [n IH]]; cbn [app skip_space].
    - exists O. by rewrite Hs.
    - rewrite Hb, IH. by eexists. }
  cbn [strip_sign].
  rewrite !bool_decide_eq_false_2 by (apply digit_char_not_special; [lia|right; clear; set_solver]).
  rewrite Hp by lia. f_equal.
  assert (∀ a n, parse_digits 10 a n rest = (a, n)) as Hstop.
  { intros a m. destruct rest as [|c rest]; [done|]. cbn [parse_digits]. by rewrite (Hr c). }
  rewrite Hstop. cbn [fst]. lia.
Qed.

Lemma strtoul_int_fmt_u z : 0 ≤ z < 2 ^ 31 → strtoul_int (fmt_u z) = z.
Proof.
  intros Hz. unfold strtoul_int.
  pose proof (c_digits_fmt_u [] z [] ltac:(lia) ltac:(constructor) ltac:(done)) as E.
  cbn [app] in E. rewrite app_nil_r in E. rewrite E.
  rewrite (proj2 (Z.leb_gt (2 ^ 64) z)) by lia. apply s32_small. lia.
Qed.

(** The names of the threads in the directory, with its two links. *)
Lemma listed_task tids :
  Forall (λ t, 0 < t < 2 ^ 31) tids → listed (str "." :: str ".." :: (fmt_u <$> tids)) = tids.
Proof.
  intros H. rewrite !listed_cons. rewrite !bool_decide_eq_true_2 by done.
  induction H as [|t tids Ht _ IH]; [done|]. cbn [fmap list_fmap]. rewrite listed_cons.
  rewrite strtoul_int_fmt_u by lia. rewrite bool_decide_eq_false_2 by lia. by rewrite IH.
Qed.

(** A field of /proc/PID/status is found and read, wherever it is in the file:
    after any lines that fit the buffer and do not start with its name and a
    colon. *)
Theorem linux_proc_get_int_reads field pre n rest :
  Forall (λ l, "010"%char ∉ l ∧ no_nul l ∧ (length l < 99)%nat ∧
               prefixb (field ++ str ":") (l ++ ["010"%char]) = false) pre →
  "010"%char ∉ field → no_nul field → 0 ≤ n < 2 ^ 31 →
  (length (field ++ str ":" ++ ["009"%char] ++ fmt_u n) < 99)%nat →
  linux_proc_get_int
    (Some (concat ((λ l, l ++ ["010"%char]) <$> pre)
             ++ (field ++ str ":" ++ ["009"%char] ++ fmt_u n) ++ "010"%char :: rest)) field = n.
Proof.
  intros Hpre Hnl Hz Hn Hlen. unfold linux_proc_get_int.
  assert (∀ c, c ∈ fmt_u n → c ≠ "010"%char ∧ c ≠ NUL) as Hc.
  { intros c Hc. unfold fmt_u in Hc.
    destruct (digits_shape 10 63 n [] ltac:(lia) ltac:(lia)) as (c0 & D & E & HF & _).
    change 64%nat with (S 63) in Hc. rewrite E, app_nil_r in Hc. rewrite Forall_forall in HF.
    destruct (HF c Hc) as (d & Hd & ->).
    assert (Forall (λ d, digit_char d ≠ "010"%char ∧ digit_char d ≠ NUL) (seqZ 0 10)) as H.
    { apply (bool_decide_unpack (Forall _ _)). by vm_compute. }
    rewrite Forall_forall in H. apply H, elem_of_seqZ. lia. }
  assert (prefixb (field ++ str ":") ((field ++ str ":" ++ ["009"%char] ++ fmt_u n) ++ ["010"%char]) = true)
    as Hpb.
  { rewrite (app_assoc field), <-app_assoc. apply prefixb_app. }
  rewrite status_line_app; [|done| | |done|done|].
  - replace (drop (length field + 1) _) with (["009"%char] ++ fmt_u n ++ ["010"%char]).
    2:{ rewrite <-!app_assoc. rewrite (app_assoc field).
        replace (length field + 1)%nat with (length (field ++ str ":")) by (rewrite length_app; done).
        by rewrite drop_app_length. }
    unfold strtol_int. rewrite c_digits_fmt_u; [|lia|by repeat constructor|by intros c [= <-]].
    rewrite s32_small; lia.
  - rewrite !elem_of_app. intros [? | [Hi | [Hi | Hi]]]; [done| | |by apply Hc in Hi as [? _]].
    + revert Hi. clear. set_solver.
    + revert Hi. clear. set_solver.
  - unfold no_nul in *. rewrite !elem_of_app. intros [? | [Hi | [Hi | Hi]]]; [done| | |by apply Hc in Hi as [_ ?]].
    + revert Hi. clear. set_solver.
    + revert Hi. clear. set_solver.
  - rewrite !length_app. cbn. lia.
Qed.

(** ** A kernel for concrete runs *)

(** Process 100 has a second thread, and starts a third after the first look at
    the directory; the state counts the looks and lists the attachments. *)
Definition demo_status : bytes :=
  concat ((λ l, l ++ ["010"%char]) <$> [str "Name: demo"; str "State: t (tracing stop)"])
    ++ (str "Tgid" ++ str ":" ++ ["009"%char] ++ fmt_u 100) ++ "010"%char :: str "Ngid: 0".

#[global] Instance Start_OS_demo : StartOS (nat * list Z) := {
  os_attach k lwp := (0, (k.1, k.2 ++ [lwp]));
  os_setoptions k _ _ := (0, k);
  os_status _ _ := Some demo_status;
  os_open_task _ _ := true;
  os_read_task k _ :=
    (str "." :: str ".." :: (fmt_u <$> (if (k.1 =? 0)%nat then [100; 101] else [100; 101; 102])), (S k.1, k.2));
  os_tkill k _ _ := (0, 0, k);
  os_kill k _ _ := (0, k);
  os_detach k _ := k;
  os_getcpu _ := 3;
  os_affinity k _ s := (if bool_decide (s = ∅) then -1 else 0, k);
  os_access_x _ _ := true;
  os_fork k := (100, k);
  os_waitpid k pid := ((pid, 0x137f), k);
  os_personality k _ := (0, k);
  os_traceme k := (0, k);
  os_execv k _ := (0, k);
  os_getpid _ := 1;
}.

#[global] Instance Demo_log : AttachLog (K := nat * list Z) snd.
Proof. by split. Qed.

Lemma demo_threads : threads_within 100 {[100; 101; 102]}.
Proof. intros [[|k] l]; apply (bool_decide_unpack (Forall _ _)); by vm_compute. Qed.

Lemma linux_proc_get_int_reads_witness : linux_proc_get_int (Some demo_status) (str "Tgid") = 100.
Proof.
  apply linux_proc_get_int_reads; [|apply (bool_decide_unpack (_ ∉ _)); by vm_compute
    |apply (bool_decide_unpack (no_nul _)); by vm_compute|lia|vm_compute; lia].
  apply (bool_decide_unpack (Forall _ _)). by vm_compute.
Defined.

Lemma attachAll_complete_witness :
  ∃ a : Attaching, attachAll true 6 100 (0%nat, []) = Some (0, a) ∧ at_threads a = [100; 101; 102] ∧
    (at_k a).2 = [100; 101; 102].
Proof.
  destruct (attachAll_complete true snd 100 {[100; 101; 102]} 6 (0%nat, []) demo_threads) as (a & E & El & _).
  - set_solver.
  - vm_compute. lia.
  - exists a. split; [exact E|].
    assert (attachAll true 6 100 (0%nat, []) = Some (0, mkAttaching (4%nat, [100; 101; 102]) false [100; 101; 102])) as E'
      by (vm_compute; reflexivity).
    rewrite E in E'. injection E' as Ea. split; [by rewrite Ea|]. rewrite El, Ea. reflexivity.
Defined.

(** The defaults ask for no process; the child 100 is forked. *)
Lemma ptrace_start_ready_witness :
  ∃ pid, start_pid (K := nat * list Z) newConfiguration pid ∧ started 100 new_Ptrace = started pid new_Ptrace.
Proof.
  destruct (ptrace_start_ready true 6 newConfiguration (str "/bin/demo") (0%nat, []) (0%nat, [])
              (started 100 new_Ptrace)) as (pid & Hp & Es & _).
  - vm_compute. reflexivity.
  - exists pid. split; [exact Hp|exact Es].
Defined.

(** On a processor past the first 1024 the set given to the kernel is empty, and
    the engine panics. *)
Lemma tie_to_high_cpu (k : nat * list Z) : tie_process_to_cpu 1 1024 k = Panic.
Proof. reflexivity. Qed.
