(* ===== verification/Launch.v ===== *)
(** * Starting the interpreters (src/src/engines/bash-engine.cc, python-engine.cc,
    bash-execve-redirector.c, bash-tracefd-cloexec.c)

    How the bash and the python engine start the program under coverage: the pipes
    and descriptors of parent and child, the child's environment and arguments, and
    the two libraries that are preloaded into it.  The results of the system calls
    are arguments. *)
From S2P Require Export BashEngine PythonEngine.
From S2P Require Import CxxString Utils Configuration UtilsFiles SystemEngine PtraceStart.
From stdpp Require Import options.

(** ** Descriptors, environment and argument vectors *)

Inductive FdObject :=
  | FdRead (pipe : nat)
  | FdWrite (pipe : nat)
  | FdOther (file : nat).
#[global] Instance FdObject_eq_dec : EqDecision FdObject.
Proof. solve_decision. Defined.

(** The descriptors of a process. *)
Notation Fds := (gmap Z FdObject).

Definition os_close (fd : Z) (t : Fds) : Fds := delete fd t.
(** [dup2] under the limit on descriptors; [None] when it fails. *)
Definition os_dup2 (limit oldfd newfd : Z) (t : Fds) : option Fds :=
  match t !! oldfd with
  | Some o => if (0 <=? newfd) && (newfd <? limit) then Some (<[newfd := o]> t) else None
  | None => None
  end.

(** The environment by name. *)
Notation Environ := (gmap bytes bytes).
Definition putenv (s : bytes) (env : Environ) : Environ :=
  match str_find (str "=") s with
  | Some i => <[take i s := drop (S i) s]> env
  | None => delete s env
  end.
Definition doSetenv (val : bytes) (env : Environ) : Environ := putenv (c_prefix val) env.

(** A vector of strings, [NULL] at first. *)
Definition vec_set (i : nat) (s : bytes) (vec : list (option bytes)) : res (list (option bytes)) :=
  if bool_decide (i < length vec)%nat then Ok (<[i := Some s]> vec) else Fault.
(** What [execvp] finds in it, up to the first [NULL]. *)
Fixpoint vec_args (vec : list (option bytes)) : res (list bytes) :=
  match vec with
  | [] => Fault
  | None :: _ => Ok []
  | Some s :: vec => l ← vec_args vec; Ok (s :: l)
  end.

(** [front], then the [argc] arguments of the program, in a vector of [argc + 3]. *)
Definition exec_vector (front : list bytes) (argv : list bytes) (argc : nat) : res (list bytes) :=
  let vec := replicate (argc + 3) None in
  vec ← res_foldl (λ vec '(i, s), vec_set i s vec) vec (imap pair front);
  vec ← res_foldl (λ vec i, arg ← or_fault (argv !! i); vec_set (length front + i) arg vec) vec (seq 0 argc);
  vec_args vec.

(** What becomes of the child: the program that [execvp] starts, or a [false] that
    goes back to the caller - in the child. *)
Inductive Child :=
  | Exec (env : Environ) (fds : Fds) (argv : list bytes)
  | ChildReturns (env : Environ) (fds : Fds).

(** ** The bash engine *)

Record BashPaths := mkBashPaths {
  bp_helper : bytes;
  bp_helperDebugTrap : bytes;
  bp_redirector : bytes;
  bp_cloexec : bytes;
}.
Definition bash_paths (base : bytes) : BashPaths :=
  mkBashPaths (base ++ str "bash-helper.sh") (base ++ str "bash-helper-debug-trap.sh")
    (base ++ str "libbash_execve_redirector.so") (base ++ str "libbash_tracefd_cloexec.so").

Section bash.
Context (W : World) (use_basic : bool) (conf : Configuration).
Context (paths : BashPaths) (command : bytes) (m_bashSupportsXtraceFd : bool).

(** The quarter of the limit on descriptors, as an [int]; 2 without the support of
    the shell. *)
Definition xtrace_fd (rlim_cur : Z) (usePS4 : Z) : Z :=
  let xtraceFd := s32 (u64 rlim_cur / 4) in
  if negb (usePS4 =? 0) && negb m_bashSupportsXtraceFd then 2 else xtraceFd.

Definition bash_preload (handle_sh tracefd : Z) (env : Environ) : Environ :=
  if negb (handle_sh =? 0) || negb (tracefd =? 0) then
    let preloadStr := if negb (handle_sh =? 0) then bp_redirector paths else [] in
    let preloadStr :=
      if negb (tracefd =? 0)
      then preloadStr ++ (if negb (bool_decide (length preloadStr = 0%nat)) then str ":" else []) ++ bp_cloexec paths
      else preloadStr in
    doSetenv (str "LD_PRELOAD=" ++ preloadStr) env
  else env.

Definition bash_environment (xtraceFd usePS4 handle_sh tracefd : Z) (env : Environ) : Environ :=
  let env := doSetenv (str "KCOV_BASH_XTRACEFD=" ++ fmt_d xtraceFd) env in
  let env := doSetenv (str "KCOV_BASH_COMMAND=" ++ command) env in
  let env :=
    if negb (usePS4 =? 0) then
      let env := doSetenv (str "BASH_ENV=" ++ bp_helper paths) env in
      if m_bashSupportsXtraceFd then doSetenv (str "BASH_XTRACEFD=" ++ fmt_d xtraceFd) env else env
    else
      let env := doSetenv (str "BASH_ENV=" ++ bp_helperDebugTrap paths) env in
      doSetenv (str "KCOV_BASH_USE_DEBUG_TRAP=1") env in
  bash_preload handle_sh tracefd env.

(** The child: [rlimit] is the soft limit if [getrlimit] gives it, [execs] whether
    [execvp] succeeds. *)
Definition bash_child (rlimit : option Z) (execs : bool) (stderrPipe stdoutPipe : Z * Z)
    (env : Environ) (t : Fds) : res Child :=
  argv ← or_fault (m_programArgs conf);
  match rlimit with
  | None => Ok (ChildReturns env t)
  | Some rlim_cur =>
      usePS4 ← keyAsInt conf (str "bash-use-ps4");
      let xtraceFd := xtrace_fd rlim_cur usePS4 in
      match os_dup2 rlim_cur stderrPipe.2 xtraceFd t with
      | None => Ok (ChildReturns env t)
      | Some t =>
          match os_dup2 rlim_cur stdoutPipe.2 1 t with
          | None => Ok (ChildReturns env t)
          | Some t =>
              let t := os_close stdoutPipe.2 (os_close stderrPipe.2 t) in
              let t := os_close stdoutPipe.1 (os_close stderrPipe.1 t) in
              handle_sh ← keyAsInt conf (str "bash-handle-sh-invocation");
              tracefd ← keyAsInt conf (str "bash-tracefd-cloexec");
              let env := bash_environment xtraceFd usePS4 handle_sh tracefd env in
              vec ← exec_vector [command] argv (Z.to_nat (u32 (m_argc conf)));
              Ok (if (execs : bool) then Exec env t vec else ChildReturns env t)
          end
      end
  end.

(** The parent's ends of the pipes: [m_stderr], [m_stdout] and whether the latter
    does not block. *)
Record BashChannels := mkBashChannels { bc_stderr : Z; bc_stdout : Z; bc_nonblocking : bool }.

Definition bash_parent (stderrPipe stdoutPipe : Z * Z) (fdopen_stderr fdopen_stdout : bool) (t : Fds)
  : option BashChannels * Fds :=
  let t := os_close stdoutPipe.2 (os_close stderrPipe.2 t) in
  if negb fdopen_stderr then (None, t)
  else if negb fdopen_stdout then (None, os_close stderrPipe.1 t)
  else (Some (mkBashChannels stderrPipe.1 stdoutPipe.1 m_bashSupportsXtraceFd), t).

(** The scripts that are parsed beforehand; [listing] shows the directories. *)
Definition bash_parse_first (listing : bytes → option (list dirent)) (executable : bytes) (s : ScriptEngine)
  : res ScriptEngine :=
  dirsToParse ← keyAsList conf (str "bash-parse-file-dir");
  s ← res_foldl (λ s d, parseDirectoryForFiles W use_basic d (listing d) s) s dirsToParse;
  binary_dir ← keyAsInt conf (str "bash-parse-binary-dir");
  s ← (if negb (binary_dir =? 0) then
         path ← keyAsString conf (str "binary-path");
         parseDirectoryForFiles W use_basic path (listing path) s
       else Ok s);
  bash_parseFile W use_basic executable s.
End bash.

(** What the system answers [BashEngine::start]: the two pipes, whether the shell
    is found and the helper files can be written, [fork], and what follows it. *)
Record BashAnswers := mkBashAnswers {
  ba_stderrPipe : option (Z * Z);
  ba_stdoutPipe : option (Z * Z);
  ba_exists : bytes → res bool;
  ba_version : option (Z * Z);
  ba_write : bytes → Z;
  ba_fork : Z;
  ba_fdopen : bool * bool;
  ba_rlimit : option Z;
  ba_execs : bool;
  ba_listing : bytes → option (list dirent);
}.

Inductive BashStart :=
  | BashFails (fds : Fds)
  | BashChild (child : Child)
  | BashStarted (m_child : Z) (channels : BashChannels) (fds : Fds) (base : ScriptEngine).

(** [BashEngine::start]: [t0] has the descriptors before the pipes, [t1] with the
    first and [t2] with both. *)
Definition bash_start (W : World) (use_basic : bool) (conf : Configuration) (base : bytes) (a : BashAnswers)
    (executable : bytes) (t0 t1 t2 : Fds) (env : Environ) (s : ScriptEngine) : res BashStart :=
  match ba_stderrPipe a with
  | None => Ok (BashFails t0)
  | Some stderrPipe =>
      match ba_stdoutPipe a with
      | None => Ok (BashFails (os_close stderrPipe.2 (os_close stderrPipe.1 t1)))
      | Some stdoutPipe =>
          command ← keyAsString conf (str "bash-command");
          found ← ba_exists a command;
          if negb (found : bool) then Ok (BashFails t2)
          else
            force ← keyAsInt conf (str "bash-force-stderr-input");
            let support := bashCanHandleXtraceFd (negb (force =? 0)) (ba_version a) in
            let paths := bash_paths base in
            if (ba_write a (bp_helper paths) <? 0) || (ba_write a (bp_helperDebugTrap paths) <? 0)
               || (ba_write a (bp_redirector paths) <? 0) || (ba_write a (bp_cloexec paths) <? 0)
            then Ok (BashFails t2)
            else if ba_fork a =? 0 then
              c ← bash_child conf paths command support (ba_rlimit a) (ba_execs a) stderrPipe stdoutPipe env t2;
              Ok (BashChild c)
            else if ba_fork a <? 0 then Ok (BashFails t2)
            else
              match bash_parent support stderrPipe stdoutPipe (ba_fdopen a).1 (ba_fdopen a).2 t2 with
              | (None, t) => Ok (BashFails t)
              | (Some channels, t) =>
                  s ← bash_parse_first W use_basic conf (ba_listing a) executable s;
                  Ok (BashStarted (ba_fork a) channels t s)
              end
      end
  end.

(** [kill], of either engine: nothing before the start. *)
Definition engine_kill (m_child signal : Z) : option (Z * Z) :=
  if m_child =? 0 then None else Some (m_child, signal).

(** The loop of [handleStdout] over what the pipe holds: the state of the stream
    and the next piece before each read. *)
Record StdoutRead := mkStdoutRead { sr_feof : bool; sr_ferror : bool; sr_readable : bool; sr_data : bytes }.
Fixpoint drain_stdout (reads : list StdoutRead) (out : bytes) : bytes :=
  match reads with
  | [] => out
  | r :: reads =>
      if negb (sr_feof r) && negb (sr_ferror r) && sr_readable r
      then drain_stdout reads (out ++ sr_data r) else out
  end.

(** ** The python engine *)

Record PythonAnswers := mkPythonAnswers {
  pa_exists : bytes → res bool;
  pa_write : bytes → Z;
  pa_mkfifo : Z;
  pa_fork : Z;
  pa_execs : bool;
  pa_fopen : bool;
}.

Inductive PythonStart :=
  | PythonFails (env : Environ)
  | PythonChild (child : Child)
  | PythonStarted (m_child : Z) (pipe : bytes) (env : Environ).

(** [PythonEngine::start]: the output directory holds the fifo, the base directory
    the helper. *)
Definition python_start (conf : Configuration) (outDirectory base : bytes) (a : PythonAnswers)
    (env : Environ) (t : Fds) : res PythonStart :=
  command ← keyAsString conf (str "python-command");
  let kcov_python_pipe_path := outDirectory ++ str "kcov-python.pipe" in
  let kcov_python_path := base ++ str "python-helper.py" in
  found ← pa_exists a command;
  if negb (found : bool) then Ok (PythonFails env)
  else if pa_write a kcov_python_path <? 0 then Ok (PythonFails env)
  else if pa_mkfifo a <? 0 then Ok (PythonFails env)
  else
    let env := doSetenv (str "KCOV_PYTHON_PIPE_PATH=" ++ kcov_python_pipe_path) env in
    if pa_fork a =? 0 then
      argv ← or_fault (m_programArgs conf);
      vec ← exec_vector [command; kcov_python_path] argv (Z.to_nat (u32 (m_argc conf)));
      Ok (PythonChild (if pa_execs a then Exec env t vec else ChildReturns env t))
    else if pa_fork a <? 0 then Ok (PythonFails env)
    else if negb (pa_fopen a) then Panic
    else Ok (PythonStarted (pa_fork a) kcov_python_pipe_path env).

(** ** The library that redirects shells *)

(** [kcovBash] and [kcovUseDebugTrap], as its constructor sets them. *)
Definition kcov_bash_execve_at_startup (env : Environ) : option bytes * bool :=
  (env !! str "KCOV_BASH_COMMAND", bool_decide (is_Some (env !! str "KCOV_BASH_USE_DEBUG_TRAP"))).

Definition sizeof_startBytes : nat := 128.

(** [peek_file]: the bytes written into the buffer, [None] when the file can not be
    opened. *)
Definition execve_peek_file (content : option bytes) (bufSize : nat) : option bytes := take bufSize <$> content.

(** The text at the start of the file; [garbage] is what the buffer held before. *)
Definition start_bytes (garbage : bytes) (content : option bytes) : res (Z * bytes) :=
  let terminate i b := zwrite i [NUL] b in
  match execve_peek_file content sizeof_startBytes with
  | None => b ← terminate 127 garbage; Ok (-1, c_prefix b)
  | Some read =>
      b ← zwrite 0 read garbage;
      b ← terminate 127 b;
      b ← terminate (Z.of_nat (length read)) b;
      Ok (Z.of_nat (length read), c_prefix b)
  end.

Definition is_shell_script (startBytes : bytes) : bool :=
  contains (str "/bin/sh") startBytes || contains (str "/bin/bash") startBytes
  || contains (str "/bin/ash") startBytes || contains (str "/bin/dash") startBytes.

(** [execve]: the file and the arguments that go to the original. *)
Definition execve_redirect (kcovBash : option bytes) (kcovUseDebugTrap : bool) (garbage : bytes)
    (content : option bytes) (filename : bytes) (argv : list bytes) : res (bytes * list bytes) :=
  '(sizeRead, startBytes) ← start_bytes garbage content;
  if bool_decide (is_Some kcovBash) && (6 <=? sizeRead) && is_shell_script startBytes then
    let bashExec := str "/bin/bash" in
    Ok (bashExec, [bashExec] ++ (if negb kcovUseDebugTrap then [str "-x"] else []) ++ [filename] ++ argv)
  else Ok (filename, argv).

(** ** The library that closes the trace descriptor *)

(** [strtol] to base 10: the number, and what follows it. *)
Definition strtol (s : bytes) : Z * bytes :=
  let '(_, r) := skip_space s in
  let '(_, _, r) := strip_sign r in
  let '(_, n) := parse_digits 10 0 0 r in
  (strtol_int s, if (n =? 0)%nat then s else drop n r).

(** The descriptor that gets FD_CLOEXEC: [flags] is what F_GETFD answers. *)
Definition tracefd_cloexec (env : Environ) (flags : Z → Z) : option (Z * Z) :=
  let fdStr := if bool_decide (is_Some (env !! str "KCOV_BASH_USE_DEBUG_TRAP"))
               then env !! str "KCOV_BASH_XTRACEFD" else env !! str "BASH_XTRACEFD" in
  match fdStr with
  | None => None
  | Some fdStr =>
      let '(xtraceFd, endStr) := strtol fdStr in
      if bool_decide (endStr = []) then
        if negb (flags xtraceFd =? -1) then Some (xtraceFd, Z.lor (flags xtraceFd) 1) else None
      else None
  end.

(** ** Properties *)

Lemma find_char (c : ascii) a b : c ∉ a → str_find [c] (a ++ c :: b) = Some (length a).
Proof.
  induction a as [|x a IH]; intros Ha; [apply find_prefix; cbn; by rewrite bool_decide_eq_true_2|].
  apply not_elem_of_cons in Ha as [? ?]. cbn. rewrite bool_decide_eq_false_2 by done. cbn. by rewrite IH.
Qed.

(** *** The environment *)

Lemma setenv_eq s name v env :
  s = name ++ "="%char :: v → "="%char ∉ name → no_nul name → no_nul v → doSetenv s env = <[name := v]> env.
Proof.
  intros -> Hn Hnul Hv. unfold doSetenv, putenv.
  rewrite c_prefix_no_nul by (apply no_nul_app; [done|by apply no_nul_cons]).
  change (str "=") with ["="%char]. rewrite find_char by done. rewrite take_app_length.
  replace (S (length name)) with (length name + 1)%nat by lia.
  rewrite drop_app_ge by lia. by replace (length name + 1 - length name)%nat with 1%nat by lia.
Qed.

Lemma fmt_u_no_nul z : 0 ≤ z → no_nul (fmt_u z).
Proof.
  intros Hz. unfold fmt_u. change 64%nat with (S 63).
  destruct (digits_shape 10 63 z [] ltac:(lia) Hz) as (c & D & -> & HF & _).
  rewrite app_nil_r. intros Hin. rewrite Forall_forall in HF. apply HF in Hin as (d & Hd & Hc).
  assert (d ∈ seqZ 0 16) as Hs by (apply elem_of_seqZ; lia).
  assert (Forall (λ d, digit_char d ≠ NUL) (seqZ 0 16)) as Hall by (apply (bool_decide_unpack _); by vm_compute).
  rewrite Forall_forall in Hall. by apply (Hall d).
Qed.

(** A number that was formatted is read back up to its end. *)
Lemma strtol_fmt_u z : 0 ≤ z < 2 ^ 31 → strtol (fmt_u z) = (z, []).
Proof.
  intros Hz. unfold strtol.
  assert (strtol_int (fmt_u z) = z) as ->.
  { unfold strtol_int. pose proof (c_digits_fmt_u [] z [] ltac:(lia) ltac:(constructor) ltac:(done)) as E.
    cbn [app] in E. rewrite app_nil_r in E. rewrite E. rewrite s32_small; lia. }
  unfold fmt_u. change 64%nat with (S 63).
  destruct (digits_shape 10 63 z [] ltac:(lia) ltac:(lia)) as (c & D & -> & HF & _ & Hp).
  apply Forall_cons in HF as [(d & Hd & ->) _].
  assert (isspace (digit_char d) = false) as Hs.
  { destruct (isspace (digit_char d)) eqn:Hs; [|done]. exfalso.
    apply (digit_char_not_special d (digit_char d)); [lia|by left|done]. }
  cbn [skip_space]. rewrite Hs. cbn [strip_sign].
  rewrite !bool_decide_eq_false_2 by (apply digit_char_not_special; [lia|right; clear; set_solver]).
  rewrite Hp by lia. cbn [parse_digits]. rewrite app_nil_r. cbn [Nat.add Nat.eqb].
  f_equal. apply drop_ge. done.
Qed.

(** *** The arguments *)

Definition filled (l : list bytes) (n : nat) : list (option bytes) := (Some <$> l) ++ replicate n None.

Lemma vec_set_next l s n : vec_set (length l) s (filled l (S n)) = Ok (filled (l ++ [s]) n).
Proof.
  unfold vec_set, filled. rewrite bool_decide_eq_true_2.
  - rewrite <-(length_fmap Some l) at 1. rewrite <-(Nat.add_0_r (length (Some <$> l))), insert_app_r.
    cbn. by rewrite fmap_app, <-app_assoc.
  - rewrite length_app, length_fmap, length_replicate. lia.
Qed.

Lemma vec_front front n : ∀ l,
  res_foldl (λ vec '(i, s), vec_set i s vec) (filled l (length front + n))
    (imap (λ i s, ((length l + i)%nat, s)) front) = Ok (filled (l ++ front) n).
Proof.
  induction front as [|s front IH]; intros l; [by rewrite app_nil_r|].
  cbn [length imap res_foldl]. rewrite Nat.add_0_r. cbn [Nat.add]. rewrite vec_set_next.
  cbn [mbind res_mbind res_bind]. specialize (IH (l ++ [s])). rewrite <-app_assoc in IH. cbn [app] in IH.
  rewrite <-IH. f_equal. apply imap_ext. intros i x _. rewrite length_app. cbn. f_equal. lia.
Qed.

Lemma vec_rest (argv : list bytes) front n : ∀ rest pre,
  argv = pre ++ rest →
  res_foldl (λ vec i, arg ← or_fault (argv !! i); vec_set (length front + i) arg vec)
    (filled (front ++ pre) (length rest + n)) (seq (length pre) (length rest))
  = Ok (filled (front ++ argv) n).
Proof.
  induction rest as [|a rest IH]; intros pre E; [by rewrite E, app_nil_r|].
  cbn [length seq res_foldl]. rewrite E at 1. rewrite list_lookup_middle by done.
  cbn [or_fault mbind res_mbind res_bind Nat.add]. rewrite <-length_app, vec_set_next.
  cbn [mbind res_mbind res_bind]. specialize (IH (pre ++ [a])).
  rewrite length_app in IH. cbn [length] in IH. rewrite Nat.add_1_r, app_assoc in IH. apply IH.
  by rewrite E, <-app_assoc.
Qed.

Lemma vec_args_filled l n : vec_args (filled l (S n)) = Ok l.
Proof. unfold filled. induction l as [|s l IH]; [done|]. cbn [fmap list_fmap app vec_args]. by rewrite IH. Qed.

(** The vector holds the interpreter's arguments and then the program's, and is
    large enough for the [NULL] after them. *)
Lemma exec_vector_ok front argv :
  (length front ≤ 2)%nat → exec_vector front argv (length argv) = Ok (front ++ argv).
Proof.
  intros Hf. unfold exec_vector.
  pose proof (vec_front front (length argv + (3 - length front)) []) as H1.
  unfold filled at 1 in H1. cbn [fmap list_fmap app length Nat.add] in H1.
  replace (length front + (length argv + (3 - length front)))%nat with (length argv + 3)%nat in H1 by lia.
  assert (imap pair front = imap (λ i s, (i, s)) front) as -> by done. rewrite H1.
  cbn [mbind res_mbind res_bind].
  pose proof (vec_rest argv front (3 - length front) argv [] eq_refl) as H2.
  rewrite app_nil_r in H2. cbn [length] in H2. rewrite H2. cbn [mbind res_mbind res_bind].
  replace (3 - length front)%nat with (S (2 - length front)) by lia. apply vec_args_filled.
Qed.

(** *** The channels between kcov and the shell *)

(** The descriptors before [fork]: those of the two pipes, and no others of these. *)
Definition pipe_end (o : FdObject) : Prop := o ∈ [FdRead 1; FdWrite 1; FdRead 2; FdWrite 2].
Definition piped (t : Fds) (r1 w1 r2 w2 : Z) : Prop :=
  t !! r1 = Some (FdRead 1) ∧ t !! w1 = Some (FdWrite 1) ∧ t !! r2 = Some (FdRead 2) ∧
  t !! w2 = Some (FdWrite 2) ∧ ∀ fd o, t !! fd = Some o → pipe_end o → fd ∈ [r1; w1; r2; w2].

(** The child's descriptors: the trace and its standard output are the ends the
    parent reads, and it holds no other end of the pipes. *)
Lemma bash_child_fds limit t r1 w1 r2 w2 x :
  piped t r1 w1 r2 w2 → NoDup [r1; w1; r2; w2; x; 1] → 0 ≤ x < limit → 1 < limit →
  ∃ t1 t2, os_dup2 limit w1 x t = Some t1 ∧ os_dup2 limit w2 1 t1 = Some t2 ∧
    let t' := os_close r2 (os_close r1 (os_close w2 (os_close w1 t2))) in
    t' !! x = Some (FdWrite 1) ∧ t' !! 1 = Some (FdWrite 2) ∧
    ∀ fd o, t' !! fd = Some o → pipe_end o → fd = x ∨ fd = 1.
Proof.
  intros (H1 & H2 & H3 & H4 & Hothers) Hd Hx Hl.
  rewrite !NoDup_cons, !not_elem_of_cons in Hd. destruct_and? Hd.
  exists (<[x := FdWrite 1]> t), (<[1 := FdWrite 2]> (<[x := FdWrite 1]> t)).
  unfold os_dup2, os_close. rewrite H2, (proj2 (Z.leb_le 0 x)), (proj2 (Z.ltb_lt x limit)) by lia. cbn [andb].
  rewrite lookup_insert_ne by congruence. rewrite H4, (proj2 (Z.ltb_lt 1 limit)) by lia.
  split_and!; [done|done|..].
  - rewrite !lookup_delete_ne by congruence. rewrite lookup_insert_ne, lookup_insert_eq by congruence. done.
  - rewrite !lookup_delete_ne by congruence. by rewrite lookup_insert_eq.
  - intros fd o. rewrite !lookup_delete_Some, !lookup_insert_Some.
    intros (N1 & N2 & N3 & N4 & [[<- _] | (_ & [[<- _] | (_ & Ho)])]) Hp; [by right|by left|].
    exfalso. apply (Hothers fd o) in Ho; [|done]. revert Ho. rewrite !elem_of_cons, elem_of_nil. naive_solver.
Qed.

Section channels.
Context (conf : Configuration) (paths : BashPaths) (command : bytes) (args : list bytes).
Context (ps4 handle_sh tracefd limit : Z).
Context (Hps4 : keyAsInt conf (str "bash-use-ps4") = Ok ps4).
Context (Hsh : keyAsInt conf (str "bash-handle-sh-invocation") = Ok handle_sh).
Context (Htf : keyAsInt conf (str "bash-tracefd-cloexec") = Ok tracefd).
Context (Hargs : m_programArgs conf = Some args).
Context (Hargc : m_argc conf = Z.of_nat (length args)).
Context (Hlen : Z.of_nat (length args) < 2 ^ 32).
Context (Hpaths : Forall no_nul [command; bp_helper paths; bp_helperDebugTrap paths; bp_redirector paths; bp_cloexec paths]).

Lemma no_nul_closed l : forallb (λ c, negb (bool_decide (c = NUL))) l = true → no_nul l.
Proof using Type.
  rewrite forallb_forall. intros H Hin%list_elem_of_In. apply H in Hin. by case_bool_decide.
Qed.

Ltac setenv s name v :=
  rewrite (setenv_eq s (str name) v);
  [|reflexivity|by apply (bool_decide_unpack _); vm_compute|by apply no_nul_closed; vm_compute
   |assumption || (by apply no_nul_closed; vm_compute)].

(** The environment of the shell, variable by variable. *)
Lemma bash_environment_vars support x env :
  0 ≤ x →
  let env' := bash_environment paths command support x ps4 handle_sh tracefd env in
  env' !! str "KCOV_BASH_XTRACEFD" = Some (fmt_d x) ∧ env' !! str "KCOV_BASH_COMMAND" = Some command ∧
  env' !! str "BASH_ENV" = Some (if ps4 =? 0 then bp_helperDebugTrap paths else bp_helper paths) ∧
  env' !! str "BASH_XTRACEFD" =
    (if negb (ps4 =? 0) && support then Some (fmt_d x) else env !! str "BASH_XTRACEFD") ∧
  env' !! str "KCOV_BASH_USE_DEBUG_TRAP" =
    (if ps4 =? 0 then Some (str "1") else env !! str "KCOV_BASH_USE_DEBUG_TRAP").
Proof using Hpaths.
  intros Hx. repeat apply Forall_cons in Hpaths as [? Hpaths].
  assert (no_nul (fmt_d x)) as Hfx.
  { unfold fmt_d. rewrite (proj2 (Z.ltb_ge _ _)) by done. by apply fmt_u_no_nul. }
  cbn zeta. unfold bash_environment.
  setenv (str "KCOV_BASH_XTRACEFD=" ++ (fmt_d x)) "KCOV_BASH_XTRACEFD" (fmt_d x). setenv (str "KCOV_BASH_COMMAND=" ++ command) "KCOV_BASH_COMMAND" command.
  assert (∀ env, ∃ v, bash_preload paths handle_sh tracefd env = <[str "LD_PRELOAD" := v]> env ∨
                      bash_preload paths handle_sh tracefd env = env) as Hpre.
  { intros env0. unfold bash_preload. destruct (_ || _); [|exists []; by right].
    eexists. left. apply setenv_eq; [reflexivity|by apply (bool_decide_unpack _); vm_compute|
      by apply no_nul_closed; vm_compute|].
    assert (no_nul [] ∧ no_nul (str ":")) as [? ?] by (split; by apply no_nul_closed).
    repeat (case_match || apply no_nul_app); assumption. }
  match goal with |- context [bash_preload _ _ _ ?e0] =>
    destruct (Hpre e0) as [v [E | E]]; rewrite E; clear E end;
  (destruct (ps4 =? 0); cbn [negb andb];
    [setenv (str "BASH_ENV=" ++ (bp_helperDebugTrap paths)) "BASH_ENV" (bp_helperDebugTrap paths); setenv (str "KCOV_BASH_USE_DEBUG_TRAP=1") "KCOV_BASH_USE_DEBUG_TRAP" (str "1")
    |setenv (str "BASH_ENV=" ++ (bp_helper paths)) "BASH_ENV" (bp_helper paths); destruct support; [setenv (str "BASH_XTRACEFD=" ++ (fmt_d x)) "BASH_XTRACEFD" (fmt_d x)|]]);
  split_and!; repeat (rewrite lookup_insert_eq ||
    (rewrite lookup_insert_ne; [|apply (bool_decide_unpack _); vm_compute; exact I])); done.
Qed.

End channels.

(** *** Redirecting shells *)

Lemma c_prefix_terminated c b : c_prefix (c ++ NUL :: b) = c_prefix c.
Proof. induction c as [|x c IH]; [done|]. cbn. case_bool_decide; [done|]. by rewrite IH. Qed.

Lemma start_bytes_short garbage c :
  length garbage = sizeof_startBytes → (length c < sizeof_startBytes)%nat →
  start_bytes garbage (Some c) = Ok (Z.of_nat (length c), c_prefix c).
Proof.
  unfold sizeof_startBytes. intros Hg Hc. unfold start_bytes, execve_peek_file, sizeof_startBytes. cbn [fmap option_fmap option_map].
  rewrite take_ge by lia.
  assert (∃ g1 g2, garbage = g1 ++ g2 ∧ length g1 = length c ∧ (length g2 = 128 - length c)%nat) as (g1 & g2 & -> & L1 & L2).
  { exists (take (length c) garbage), (drop (length c) garbage). rewrite take_drop, length_take, length_drop. split_and!; [done|lia|lia]. }
  rewrite zwrite_here by done. cbn [mbind res_mbind res_bind].
  assert (∃ g3 y, g2 = g3 ++ [y] ∧ (length g3 = 127 - length c)%nat) as (g3 & y & -> & L3).
  { destruct (exists_last (l := g2)) as (g3 & y & ->); [by destruct g2; cbn in L2; [lia|]|].
    exists g3, y. split; [done|]. rewrite length_app in L2. cbn in L2. lia. }
  rewrite app_assoc, zwrite_skip by (rewrite length_app; lia).
  rewrite length_app, L3. rewrite <-(app_nil_r [y]) at 1. rewrite zwrite_here by (cbn; lia).
  cbn [mbind res_mbind res_bind]. rewrite app_nil_r, <-app_assoc, zwrite_skip by lia.
  replace (Z.of_nat (length c) - Z.of_nat (length c)) with 0 by lia.
  assert (∃ z g4, g3 ++ [NUL] = [z] ++ g4) as (z & g4 & ->) by (destruct g3; by eexists _, _).
  rewrite zwrite_here by done. cbn [mbind res_mbind res_bind].
  do 2 f_equal. apply c_prefix_terminated.
Qed.

(** A file that fills the buffer is terminated behind it. *)
Lemma start_bytes_long garbage c :
  length garbage = sizeof_startBytes → (sizeof_startBytes ≤ length c)%nat →
  start_bytes garbage (Some c) = Fault.
Proof.
  unfold sizeof_startBytes. intros Hg Hc. unfold start_bytes, execve_peek_file, sizeof_startBytes. cbn [fmap option_fmap option_map].
  set (r := take 128 c). assert (length r = 128%nat) as Hr by (unfold r; rewrite length_take; lia).
  rewrite <-(app_nil_r garbage), zwrite_here by lia. cbn [mbind res_mbind res_bind]. rewrite app_nil_r.
  destruct (exists_last (l := r)) as (r1 & y & E); [by destruct r|]. rewrite E in *.
  rewrite length_app in Hr. cbn in Hr.
  rewrite zwrite_skip by lia. replace (127 - Z.of_nat (length r1)) with 0 by lia.
  rewrite <-(app_nil_r [y]) at 1. rewrite zwrite_here by done. cbn [mbind res_mbind res_bind].
  unfold zwrite, buf_write. rewrite !length_app. cbn [length].
  replace (length r1) with 127%nat by lia. done.
Qed.

(** What the preloaded library makes of a file it can judge: shell scripts of at
    least 6 bytes are run by bash, traced unless the DEBUG trap is used; everything
    else, and everything outside kcov, goes to the original as it is. *)
Theorem execve_redirects (kcovBash : option bytes) (debugTrap : bool) (garbage c filename : bytes) (argv : list bytes) :
  length garbage = sizeof_startBytes → (length c < sizeof_startBytes)%nat →
  execve_redirect kcovBash debugTrap garbage (Some c) filename argv =
    Ok (if bool_decide (is_Some kcovBash) && (6 <=? Z.of_nat (length c)) && is_shell_script (c_prefix c)
        then (str "/bin/bash",
              [str "/bin/bash"] ++ (if debugTrap then [] else [str "-x"]) ++ [filename] ++ argv)
        else (filename, argv)).
Proof.
  intros Hg Hc. unfold execve_redirect. rewrite start_bytes_short by done. cbn [mbind res_mbind res_bind].
  destruct (_ && _); [|done]. by destruct debugTrap.
Qed.

(** ** Concrete runs *)

Definition demo_launch_conf : Configuration :=
  set_program [str "./script.sh"; str "arg"] 2 newConfiguration.
Definition demo_paths : BashPaths := bash_paths (str "/tmp/out/").
Definition demo_fds : Fds :=
  {[0 := FdOther 0; 1 := FdOther 1; 2 := FdOther 2; 3 := FdRead 1; 4 := FdWrite 1; 5 := FdRead 2; 6 := FdWrite 2]}.

Lemma demo_piped : piped demo_fds 3 4 5 6.
Proof.
  split_and!; [reflexivity..|]. intros fd o H Ho. unfold demo_fds in H.
  rewrite !lookup_insert_Some, lookup_singleton_Some in H. unfold pipe_end in Ho.
  rewrite !elem_of_cons, elem_of_nil in Ho. rewrite !elem_of_cons, elem_of_nil. naive_solver.
Qed.


Lemma execve_redirects_witness :
  execve_redirect (Some (str "bash")) false (replicate 128 "x"%char) (Some (str "#!/bin/sh" ++ ["010"%char]))
    (str "./s") [str "./s"; str "a"]
  = Ok (str "/bin/bash", [str "/bin/bash"; str "-x"; str "./s"; str "./s"; str "a"]).
Proof. apply execve_redirects; [reflexivity|apply Nat.ltb_lt; reflexivity]. Defined.

(** A low limit on descriptors makes the trace descriptor one of the pipes', which
    is then closed; with a limit that is no [int] there is no trace descriptor, and
    the child goes back into kcov; and every script of at least 128 bytes makes the
    preloaded library write behind its buffer. *)
Theorem launch_slips :
  (∃ env t, bash_child demo_launch_conf demo_paths (str "/bin/bash") true (Some 16) true (3, 4) (5, 6) ∅ demo_fds
     = Ok (Exec env t [str "/bin/bash"; str "./script.sh"; str "arg"]) ∧
     env !! str "BASH_XTRACEFD" = Some (str "4") ∧ t !! 4 = None) ∧
  (∃ env t, bash_child demo_launch_conf demo_paths (str "/bin/bash") true (Some (2 ^ 63 - 1)) true (3, 4) (5, 6) ∅ demo_fds
     = Ok (ChildReturns env t)) ∧
  ∀ kcovBash debugTrap filename argv garbage c,
    length garbage = sizeof_startBytes → (sizeof_startBytes ≤ length c)%nat →
    execve_redirect kcovBash debugTrap garbage (Some c) filename argv = Fault.
Proof.
  split_and!.
  - eexists _, _. split; [vm_compute; reflexivity|]. split; vm_compute; reflexivity.
  - eexists _, _. vm_compute. reflexivity.
  - intros kcovBash debugTrap filename argv garbage c Hg Hc. unfold execve_redirect.
    by rewrite start_bytes_long.
Qed.
