(* ===== verification/Daemon.v ===== *)
(** * The system-mode daemon (src/src/main-system-daemon.cc)

    For every process that registers, the daemon attaches an engine with the
    addresses of the instrumented binary and turns the breakpoints it reports
    into indices of a coverage memory, one for each binary, shared by all
    processes that run it ([ProcessHandler]).  A thread writes the memories that
    changed to files ([outputThread]).  The thread runs while processes report:
    it is modelled both as one round over all memories and as a machine that
    takes its memory accesses one by one, interleaved with those of
    [reportIndex]. *)
From S2P Require Export SystemMode Collector.
From S2P Require Import CxxString Utils Scripts Configuration.
From stdpp Require Import options.

(** ** The process handler *)

Section handler.
Context {E : Type} `{!IEngine E}.

Record ProcessHandler := mkHandler {
  ph_engine : E;
  ph_indexByAddress : gmap Z Z;
  ph_id : Z;
}.

(** The constructor tells the engine which process to attach to. *)
Definition handler_conf (conf : Configuration) (pid : Z) : Configuration :=
  setKey conf (str "attach-pid") (VInt pid).

(** [onEvent]: only breakpoints count, and only those of known addresses. *)
Definition ph_onEvent (idx : gmap Z Z) (output : system_mode_memory) (ev : EngineEvent)
  : res system_mode_memory :=
  match ev_type ev with
  | ev_breakpoint =>
      match idx !! ev_addr ev with
      | Some i => reportIndex i output
      | None => Ok output
      end
  | _ => Ok output
  end.

(** The loop over the entries, from [index] on: a later entry with the same
    address replaces the earlier one. *)
Fixpoint attach_entries (index : Z) (entries : list Z) (h : ProcessHandler) : ProcessHandler :=
  match entries with
  | [] => h
  | a :: entries =>
      attach_entries (u32 (index + 1)) entries
        (mkHandler (eng_registerBreakpoint a (ph_engine h)) (<[a := index]> (ph_indexByAddress h))
           (ph_id h))
  end.

(** [attach], with the engine that was matched and created; the events of its
    start find no address yet. *)
Definition attach (filename : bytes) (sysFile : SystemModeFile) (eng : E) (output : system_mode_memory)
  : res (bool * ProcessHandler * system_mode_memory) :=
  let '(evs, ok, eng) := eng_start filename eng in
  output ← res_foldl (ph_onEvent ∅) output evs;
  if negb ok then Ok (false, mkHandler eng ∅ 0, output)
  else
    Ok (true, attach_entries 0 (sm_entries sysFile) (mkHandler eng ∅ (sm_id sysFile)), output).

(** [continueExecution], with the events the engine reports meanwhile. *)
Definition ph_continueExecution (h : ProcessHandler) (output : system_mode_memory)
  : res (bool * ProcessHandler * system_mode_memory) :=
  let '(evs, rv, eng) := eng_continueExecution (ph_engine h) in
  output ← res_foldl (ph_onEvent (ph_indexByAddress h)) output evs;
  Ok (rv, mkHandler eng (ph_indexByAddress h) (ph_id h), output).

(** [run]; [None] when the engine has not ended after [fuel] rounds. *)
Fixpoint ph_run (fuel : nat) (h : ProcessHandler) (output : system_mode_memory)
  : option (res system_mode_memory) :=
  match fuel with
  | O => None
  | S fuel =>
      match ph_continueExecution h output with
      | Ok (true, h, output) => ph_run fuel h output
      | Ok (false, _, output) => Some (Ok output)
      | Panic => Some Panic
      | Throw => Some Throw
      | Fault => Some Fault
      end
  end.

(** What the child of [processOne] does with the memory: it attaches, continues
    once to let the process go, and runs to the end. *)
Definition child_process (fuel : nat) (filename : bytes) (sysFile : SystemModeFile) (eng : E)
    (output : system_mode_memory) : option (res system_mode_memory) :=
  match attach filename sysFile eng output with
  | Ok (true, h, output) =>
      match ph_continueExecution h output with
      | Ok (_, h, output) => ph_run fuel h output
      | Panic => Some Panic
      | Throw => Some Throw
      | Fault => Some Fault
      end
  | Ok (false, _, output) => Some (Ok output)
  | Panic => Some Panic
  | Throw => Some Throw
  | Fault => Some Fault
  end.
End handler.

(** ** The daemon's process *)

Section daemon.
Context (e : endian) (w : World).

Definition getSystemModeFileFromFilename (base : Z) (filename : bytes) : res (option SystemModeFile) :=
  match w_read_file w filename with
  | None => Ok None
  | Some p => fromProcessedFile e base p
  end.

(** The memory of a binary, made when its first process comes: a word of 32
    bits for every address. *)
Definition output_of (outputFiles : gmap Z system_mode_memory) (f : SystemModeFile)
  : system_mode_memory * gmap Z system_mode_memory :=
  match outputFiles !! sm_id f with
  | Some output => (output, outputFiles)
  | None =>
      let output := new_system_mode_memory (sm_filename f) (sm_options f)
                      (u32 (Z.of_nat (length (sm_entries f)))) in
      (output, <[sm_id f := output]> outputFiles)
  end.

(** What a message on the pipe asks for: [r] bytes were read into a zeroed
    buffer of 4096. *)
Inductive DaemonRequest := Stop | Ignore | StartProcess (pid : Z) (filename : bytes).

Definition daemon_request (msg : bytes) : res DaemonRequest :=
  let r := Z.of_nat (length msg) in
  let buf := msg ++ zeros (4096 - length msg) in
  if r <=? 0 then Ok Ignore
  else if (r >=? 6) && prefixb (str "STOPME") buf then Ok Stop
  else if r <? sizeof_new_process_entry then Ok Ignore
  else
    p ← parseProcessEntry e buf;
    Ok (match p with Some (pid, filename) => StartProcess pid filename | None => Ignore end).

(** ** The output thread *)

Definition output_name (destinationDir : bytes) (id : Z) : bytes :=
  destinationDir ++ str "/" ++ fmt_08x id.

(** The body of the loop over [toProcess]: the file that is written, if any. *)
Definition output_one (destinationDir : bytes) (id : Z) (cur : system_mode_memory)
  : res (option (bytes * bytes) * system_mode_memory) :=
  if negb (isDirty cur) then Ok (None, cur)
  else
    let cur := markClean cur in
    dst ← memoryToFile e cur;
    Ok (Some (output_name destinationDir id, dst), cur).

Fixpoint output_round (destinationDir : bytes) (toProcess : list (Z * system_mode_memory))
  : res (list (bytes * bytes) * list (Z * system_mode_memory)) :=
  match toProcess with
  | [] => Ok ([], [])
  | (id, cur) :: rest =>
      '(f, cur) ← output_one destinationDir id cur;
      '(fs, rest) ← output_round destinationDir rest;
      Ok (option_list f ++ fs, (id, cur) :: rest)
  end.

(** A wake-up of the thread: when the daemon is to exit it does nothing more. *)
Definition output_wakeup (doExit : bool) (destinationDir : bytes)
    (toProcess : list (Z * system_mode_memory))
  : res (list (bytes * bytes) * list (Z * system_mode_memory)) :=
  if doExit then Ok ([], toProcess) else output_round destinationDir toProcess.
End daemon.

(** *** Access by access, for one memory *)

(** Where the thread is: asleep, after it woke up and was not told to exit, after
    it found the memory dirty, copying, with the words copied so far, or out of its
    loop. *)
Inductive Output := OIdle | OWoken | OMark | OCopy (copied : list Z) | OExited.

(** The thread's next access to [doExit] or to the memory and, with the last word
    copied, the data part of the file it writes. *)
Definition output_access (doExit : bool) (o : Output) (m : system_mode_memory) (file : list Z)
  : Output * system_mode_memory * list Z :=
  match o with
  | OIdle => (if doExit then OExited else OWoken, m, file)
  | OWoken => (if isDirty m then OMark else OIdle, m, file)
  | OMark => (OCopy [], markClean m, file)
  | OCopy ws =>
      match smm_data m !! length ws with
      | Some v => (OCopy (ws ++ [v]), m, file)
      | None => (OIdle, m, ws)
      end
  | OExited => (OExited, m, file)
  end.

(** [doExit], reporting processes, memory, thread, file.  A signal or the message
    STOPME sets [doExit]. *)
Definition daemon_state : Type := bool * list Reporting * system_mode_memory * Output * list Z.

Inductive daemon_step : daemon_state → daemon_state → Prop :=
  | step_report x rs m o file rs' m' :
      report_step (rs, m) (rs', m') → daemon_step (x, rs, m, o, file) (x, rs', m', o, file)
  | step_output x rs m o file o' m' file' :
      output_access x o m file = (o', m', file') → daemon_step (x, rs, m, o, file) (x, rs, m', o', file')
  | step_onExitSignal x rs m o file : daemon_step (x, rs, m, o, file) (true, rs, m, o, file).

(** ** The files and the memory *)

(** The bit of an index in a table of words. *)
Definition bit_of (ws : list Z) (j : Z) : bool :=
  match ws !! Z.to_nat (j / 32) with Some w => Z.testbit w (j mod 32) | None => false end.

Lemma hit_bit_of m j : smm_wf m → 0 ≤ j → hit m j = bit_of (smm_data m) j.
Proof.
  intros Hwf Hj. unfold bit_of. pose proof (Z.div_pos j 32). destruct (in_range m j) eqn:Hr.
  - destruct (word_at_ok m j Hwf Hj Hr) as (w & Hw & _). rewrite Hw. by apply hit_word.
  - rewrite hit_out by done. destruct Hwf as [Hl _]. unfold in_range in Hr.
    rewrite lookup_ge_None_2 by lia. done.
Qed.

Lemma bit_of_app ws v j : 0 ≤ j →
  bit_of (ws ++ [v]) j =
  if (j / 32 =? Z.of_nat (length ws)) then Z.testbit v (j mod 32) else bit_of ws j.
Proof.
  intros Hj. unfold bit_of. pose proof (Z.div_pos j 32).
  destruct (Z.eqb_spec (j / 32) (Z.of_nat (length ws))) as [E|E].
  - by rewrite lookup_app_r, E, Nat2Z.id, Nat.sub_diag by lia.
  - destruct (decide (Z.to_nat (j / 32) < length ws)%nat).
    + by rewrite lookup_app_l by done.
    + rewrite (lookup_ge_None_2 ws), lookup_ge_None_2; [done|rewrite length_app; cbn; lia|lia].
Qed.

(** The words a file or a copy has, as far as it goes: nothing that the memory
    does not have. *)
Definition sound (ws : list Z) (m : system_mode_memory) : Prop :=
  ∀ j, 0 ≤ j → bit_of ws j = true → hit m j = true.
(** All that the memory has in its first [n] words. *)
Definition complete (n : nat) (ws : list Z) (m : system_mode_memory) : Prop :=
  ∀ j, 0 ≤ j → j / 32 < Z.of_nat n → hit m j = true → bit_of ws j = true.

(** A change that the thread has still to see: counted and not marked clean, or
    made and not yet counted. *)
Definition pending (c c' : nat) (rs : list Reporting) : Prop :=
  (c' < c)%nat ∨ (0 < count_if is_counting rs)%nat.

Record daemon_ok (m0 : system_mode_memory) (indices : list Z) (st : daemon_state) : Prop := {
  dk_wf : smm_wf st.1.1.2;
  dk_size : smm_n_entries st.1.1.2 = smm_n_entries m0;
  dk_calls : Forall (rep_ok st.1.1.2) st.1.1.1.2;
  dk_indices : rep_index <$> st.1.1.1.2 = indices;
  dk_keeps j : 0 ≤ j → hit m0 j = true → hit st.1.1.2 j = true;
  dk_only j : 0 ≤ j → hit st.1.1.2 j = true → hit m0 j = true ∨ j ∈ indices;
  dk_file : sound st.2 st.1.1.2;
  dk_output : ∃ c c' : nat,
    smm_dirtyCount st.1.1.2 = u32 (smm_dirtyCount m0 + Z.of_nat c) ∧
    smm_cleanCount st.1.1.2 = u32 (smm_dirtyCount m0 + Z.of_nat c') ∧
    (c' ≤ c)%nat ∧
    (c + count_if is_counting st.1.1.1.2 + count_if is_unswapped st.1.1.1.2 ≤ length indices)%nat ∧
    match st.1.2 with
    | OCopy ws =>
        (length ws ≤ length (smm_data st.1.1.2))%nat ∧ sound ws st.1.1.2 ∧
        (complete (length ws) ws st.1.1.2 ∨ pending c c' st.1.1.1.2)
    | _ => complete (length (smm_data st.1.1.2)) st.2 st.1.1.2 ∨ pending c c' st.1.1.1.2
    end;
}.

(** Fewer than 2^32 calls: the counters differ when something was counted. *)
Lemma dirty_counts m0 m (c c' n : nat) :
  smm_dirtyCount m = u32 (smm_dirtyCount m0 + Z.of_nat c) →
  smm_cleanCount m = u32 (smm_dirtyCount m0 + Z.of_nat c') →
  (c' ≤ c)%nat → (c ≤ n)%nat → Z.of_nat n < 2 ^ 32 →
  isDirty m = bool_decide (c' < c)%nat.
Proof.
  intros Hd Hc Hle Hn Hn'. unfold isDirty. rewrite Hd, Hc. unfold uw.
  case_bool_decide as H.
  - apply negb_true_iff, Z.eqb_neq. intros E.
    apply Z.cong_iff_0 in E. replace (_ - _) with (Z.of_nat (c - c')) in E by lia.
    rewrite Z.mod_small in E by lia. lia.
  - replace c' with c by lia. by rewrite Z.eqb_refl.
Qed.

Lemma sound_mono ws m m' :
  (∀ j, 0 ≤ j → hit m j = true → hit m' j = true) → sound ws m → sound ws m'.
Proof. intros H Hs j Hj Hb. auto. Qed.

Lemma complete_mono n ws m m' :
  (∀ j, 0 ≤ j → hit m' j = true → hit m j = true) → complete n ws m → complete n ws m'.
Proof. intros H Hc j Hj Hn Hh. auto. Qed.

(** *** Every access keeps what is known *)

Lemma daemon_report_step m0 indices x rs m o file rs' m' :
  daemon_ok m0 indices (x, rs, m, o, file) → report_step (rs, m) (rs', m') →
  daemon_ok m0 indices (x, rs', m', o, file).
Proof.
  intros [Hwf Hsize Hcalls Hidx Hkeeps Honly Hfile Hout] Hstep. cbn in *.
  inversion Hstep as [? ? i r r' ? Hi Hacc]; subst; clear Hstep.
  pose proof (Forall_lookup_1 _ _ _ _ Hcalls Hi) as Hr.
  pose proof (report_access_effect m r r' m' Hwf Hr Hacc) as He.
  destruct (access_calls m m' r r' rs i He Hi Hcalls) as [Hcalls' Hidx'].
  pose proof (count_if_update is_counting rs i r r' Hi) as E1.
  pose proof (count_if_update is_unswapped rs i r r' Hi) as E2.
  destruct He as [_ Hpos Hwf' Hsize' Hclean Hhit _ Hcases].
  assert (Hmono : ∀ k, 0 ≤ k → hit m k = true → hit m' k = true)
    by (intros k Hk Hh; by rewrite Hhit, Hh).
  assert (Hlen : length (smm_data m') = length (smm_data m)).
  { destruct Hwf as [? _], Hwf' as [? _]. lia. }
  destruct Hout as (c & c' & Hd & Hc & Hle & Hsum & Ho).
  split; cbn; [done|congruence|done|congruence|auto| |by eapply sound_mono|].
  { intros k Hk. rewrite Hhit by done.
    intros [Hh|[->%Z.eqb_eq _]%andb_true_iff]%orb_true_iff; [by apply Honly|].
    right. apply list_elem_of_fmap. exists r. split; [done|]. by eapply list_elem_of_lookup_2. }
  assert (∃ d : nat, smm_dirtyCount m' = u32 (smm_dirtyCount m0 + Z.of_nat d) ∧ (c ≤ d)%nat ∧
    (d + count_if is_counting (<[i:=r']> rs) + count_if is_unswapped (<[i:=r']> rs)
      ≤ length (rep_index <$> rs))%nat ∧
    (m' = m ∧ d = c ∧ count_if is_counting (<[i:=r']> rs) = count_if is_counting rs
     ∨ pending d c' (<[i:=r']> rs))) as (d & Hd' & Hcd & Hsum' & Hcase).
  { destruct Hcases as [(-> & Ec & Ec' & Hu)|[(Eu & Ec & Ec' & Eu' & Hd')|(Ec & Eu & Ec' & Eu' & _ & Hd')]];
      rewrite Ec, Ec' in E1; rewrite ?Eu, ?Eu' in E2.
    - exists c. split_and!; [done|done| |left; split_and!; [done|done|lia]].
      destruct (is_unswapped r'), (is_unswapped r); lia.
    - exists c. rewrite Hd'. split_and!; [done|done|lia|right; right; lia].
    - exists (S c). rewrite Hd', Hd, uw_add_l. split_and!; [f_equal; lia|lia|lia|right; left; lia]. }
  exists d, c'. split_and!; [done|congruence|lia|done|].
  destruct Hcase as [(-> & -> & Ecnt)|Hp].
  - unfold pending in *. by rewrite Ecnt.
  - rewrite Hlen. destruct o as [| | |ws|]; try by right.
    destruct Ho as (Hl & Hs & _). split_and!; [done|by eapply sound_mono|by right].
Qed.

Lemma daemon_output_step m0 indices x rs m o file :
  Z.of_nat (length indices) < 2 ^ 32 → daemon_ok m0 indices (x, rs, m, o, file) →
  let '(o', m', file') := output_access x o m file in
  daemon_ok m0 indices (x, rs, m', o', file').
Proof.
  intros Hn [Hwf Hsize Hcalls Hidx Hkeeps Honly Hfile (c & c' & Hd & Hc & Hle & Hsum & Ho)]. cbn in *.
  destruct o as [| | |ws|]; cbn.
  - split; cbn; try done. exists c, c'. split_and!; try done. by destruct x.
  - split; cbn; try done. exists c, c'. split_and!; try done. by destruct (isDirty m).
  - split; cbn; try done. exists c, c. split_and!; try done; [lia|].
    left. intros j Hj Hj'. pose proof (Z.div_pos j 32). cbn in Hj'. lia.
  - destruct Ho as (Hl & Hs & Hc').
    destruct (smm_data m !! length ws) as [v|] eqn:Ev.
    + assert (Hv : ∀ j, 0 ≤ j → j / 32 = Z.of_nat (length ws) → hit m j = Z.testbit v (j mod 32)).
      { intros j Hj E. rewrite hit_bit_of by done. unfold bit_of. by rewrite E, Nat2Z.id, Ev. }
      split; cbn; try done. exists c, c'. split_and!; try done.
      * rewrite length_app. cbn. apply lookup_lt_Some in Ev. lia.
      * intros j Hj. rewrite bit_of_app by done.
        destruct (Z.eqb_spec (j / 32) (Z.of_nat (length ws))) as [E|E]; [by rewrite Hv|by apply Hs].
      * destruct Hc' as [Hc'|]; [left|by right]. intros j Hj Hlt Hh. rewrite bit_of_app by done.
        rewrite length_app in Hlt. cbn in Hlt.
        destruct (Z.eqb_spec (j / 32) (Z.of_nat (length ws))) as [E|E]; [by rewrite <-Hv|].
        apply Hc'; [done|lia|done].
    + split; cbn; try done. exists c, c'. split_and!; try done.
      apply lookup_ge_None in Ev. by replace (length (smm_data m)) with (length ws) by lia.
  - split; cbn; try done. by exists c, c'.
Qed.

Lemma daemon_signal m0 indices x y rs m o file :
  daemon_ok m0 indices (x, rs, m, o, file) → daemon_ok m0 indices (y, rs, m, o, file).
Proof. by intros []. Qed.

(** How a run starts: a memory that is clean, with a file that has its bits. *)
Record daemon_start (m0 : system_mode_memory) (file0 : list Z) (indices : list Z) : Prop := {
  ds_wf : smm_wf m0;
  ds_clean : smm_cleanCount m0 = smm_dirtyCount m0;
  ds_file j : 0 ≤ j → bit_of file0 j = hit m0 j;
  ds_indices : Forall (Z.le 0) indices;
  ds_number : Z.of_nat (length indices) < 2 ^ 32;
}.

Lemma daemon_ok_start m0 file0 indices :
  daemon_start m0 file0 indices → daemon_ok m0 indices (false, RStart <$> indices, m0, OIdle, file0).
Proof.
  intros [Hwf Hclean Hfile Hpos Hn].
  destruct (machine_start m0 indices Hwf Hpos) as [H1 H2 H2c H3 H4 H5 H6 _].
  split; cbn; try done; [intros j Hj; by rewrite Hfile|].
  assert (Hzero : smm_dirtyCount m0 = u32 (smm_dirtyCount m0 + Z.of_nat 0))
    by (rewrite Z.add_0_r, uw_small; [done|apply Hwf]).
  exists O, O. split_and!; [done|by rewrite Hclean|lia| |].
  - assert (count_if is_counting (RStart <$> indices) = O) as ->
      by (clear; induction indices; cbn; auto).
    etransitivity; [apply count_if_le|]. by rewrite length_fmap.
  - left. intros j Hj _. by rewrite Hfile.
Qed.

Lemma daemon_reach m0 file0 indices st :
  daemon_start m0 file0 indices →
  rtc daemon_step (false, RStart <$> indices, m0, OIdle, file0) st → daemon_ok m0 indices st.
Proof.
  intros Hstart Hsteps. pose proof (ds_number _ _ _ Hstart) as Hn.
  apply (rtc_ind_r (daemon_ok m0 indices) (false, RStart <$> indices, m0, OIdle, file0)) in Hsteps;
    [done|by eapply daemon_ok_start|].
  intros st1 st2 _ Hstep IH. destruct Hstep as [x rs m o file rs' m' Hr|x rs m o file o' m' file' Ho|].
  - by eapply daemon_report_step.
  - pose proof (daemon_output_step _ _ _ _ _ _ _ Hn IH) as H. by rewrite Ho in H.
  - by eapply daemon_signal.
Qed.

(** The thread ends only when it is told to. *)
Lemma exited_told rs0 m0 file0 st :
  rtc daemon_step (false, rs0, m0, OIdle, file0) st → st.1.2 = OExited → st.1.1.1.1 = true.
Proof.
  revert st. refine (rtc_ind_r (λ st : daemon_state, st.1.2 = OExited → st.1.1.1.1 = true) _ _ _); [done|].
  intros st1 st2 _ Hstep IH. destruct Hstep as [|x rs m o file o' m' file' Ho|]; cbn in *; [done| |done].
  intros ->. destruct o as [| | |ws|]; cbn in Ho; try (by apply IH); repeat case_match; by simplify_eq.
Qed.

(** ** When the reports have ended *)

Lemma all_done_counts rs : forallb is_done rs = true → count_if is_counting rs = O.
Proof.
  induction rs as [|r rs IH]; [done|]. cbn. intros [Hr H]%andb_true_iff. rewrite IH by done.
  by destruct r.
Qed.

Lemma all_done_hits m0 indices x rs m o file :
  daemon_ok m0 indices (x, rs, m, o, file) → forallb is_done rs = true →
  ∀ j, 0 ≤ j → hit m j = hit m0 j || (bool_decide (j ∈ indices) && in_range m0 j).
Proof.
  intros [Hwf Hsize Hcalls Hidx Hkeeps Honly _ _] Hdone j Hj. cbn in *.
  assert (Hr : in_range m j = in_range m0 j) by (unfold in_range; by rewrite Hsize).
  destruct (hit m j) eqn:Hh.
  - symmetry. destruct (Honly j Hj Hh) as [->|Hin]; [done|].
    rewrite (bool_decide_eq_true_2 _ Hin), <-Hr. apply orb_true_iff. right. cbn.
    destruct (in_range m j) eqn:E; [done|]. by rewrite hit_out in Hh.
  - symmetry. apply orb_false_iff. split.
    + destruct (hit m0 j) eqn:H0; [|done]. by rewrite Hkeeps in Hh.
    + apply andb_false_iff. case_bool_decide as Hin; [right|by left].
      rewrite <-Hidx in Hin. apply list_elem_of_fmap in Hin as (r & -> & Hin).
      rewrite forallb_forall in Hdone. specialize (Hdone r). rewrite <-list_elem_of_In in Hdone.
      rewrite Forall_forall in Hcalls. destruct (Hcalls r Hin) as [_ Hok].
      specialize (Hdone Hin). destruct r; try done. cbn in Hok, Hh.
      rewrite <-Hr. cbn. destruct (in_range m index); [|done]. by rewrite Hok in Hh.
Qed.

(** The thread is between its rounds, or ended. *)
Definition between_rounds (o : Output) : Prop := o = OIdle ∨ o = OWoken ∨ o = OExited.

(** Between the rounds and before a clean memory the file is complete. *)
Lemma quiet_file m0 indices x rs m o file :
  Z.of_nat (length indices) < 2 ^ 32 → between_rounds o →
  daemon_ok m0 indices (x, rs, m, o, file) → forallb is_done rs = true → isDirty m = false →
  ∀ j, 0 ≤ j → bit_of file j = hit m j.
Proof.
  intros Hn Hbr [Hwf Hsize _ _ _ _ Hfile (c & c' & Hd & Hc & Hle & Hsum & Ho)] Hdone Hclean j Hj.
  cbn in *. rewrite (dirty_counts m0 m c c' (length indices)) in Hclean by (done || lia).
  apply bool_decide_eq_false in Hclean.
  assert (complete (length (smm_data m)) file m) as Hcomplete.
  { assert (complete (length (smm_data m)) file m ∨ pending c c' rs) as [?|[?|Hp]]
      by by destruct Hbr as [-> | [-> | ->]].
    - done.
    - lia.
    - rewrite all_done_counts in Hp by done. lia. }
  destruct (hit m j) eqn:Hh.
  - apply Hcomplete; [done| |done]. destruct (in_range m j) eqn:E; [|by rewrite hit_out in Hh].
    destruct Hwf as [? _]. unfold in_range in E. lia.
  - destruct (bit_of file j) eqn:E; [|done]. by rewrite (Hfile j Hj E) in Hh.
Qed.

(** Accesses of the thread alone. *)
Definition output_state (doExit : bool) (st : Output * system_mode_memory * list Z) :=
  let '(o, m, file) := st in output_access doExit o m file.

Lemma copy_run x m k ws file :
  (length ws + k = length (smm_data m))%nat →
  Nat.iter (S k) (output_state x) (OCopy ws, m, file)
  = (OIdle, m, ws ++ drop (length ws) (smm_data m)).
Proof.
  revert ws; induction k as [|k IH]; intros ws Hk.
  - cbn. rewrite lookup_ge_None_2, drop_ge, app_nil_r by lia. done.
  - rewrite Nat.iter_succ_r. cbn [output_state output_access].
    destruct (lookup_lt_is_Some_2 (smm_data m) (length ws)) as [v Hv]; [lia|]. rewrite Hv.
    rewrite IH by (rewrite length_app; cbn; lia). f_equal. rewrite length_app. cbn.
    rewrite <-app_assoc. f_equal. rewrite (drop_S _ v (length ws)) by done. by rewrite Nat.add_1_r.
Qed.

Lemma markClean_clean m : isDirty (markClean m) = false.
Proof. unfold isDirty. cbn. by rewrite Z.eqb_refl. Qed.

(** What is left: the thread sleeps and wakes up before a clean memory, or ended. *)
Definition settled (x : bool) (o : Output) (m : system_mode_memory) : Prop :=
  if x then o = OExited else (o = OIdle ∨ o = OWoken) ∧ isDirty m = false.

Lemma settled_stays x k o m file : settled x o m →
  ∃ o', Nat.iter k (output_state x) (o, m, file) = (o', m, file) ∧ settled x o' m.
Proof.
  intros H. induction k as [|k (o' & IH & Ho')]; [by exists o|].
  rewrite Nat.iter_succ, IH. unfold settled in *. destruct x; [by rewrite Ho'; exists OExited|].
  destruct Ho' as [[-> | ->] Hd]; cbn; [by exists OWoken; auto|]. rewrite Hd. by exists OIdle; auto.
Qed.

(** [k] accesses lead to rest, at most [n] of them. *)
Definition settles_within (x : bool) (n : nat) (st : Output * system_mode_memory * list Z) : Prop :=
  ∃ k o' m' file', (k ≤ n)%nat ∧ Nat.iter k (output_state x) st = (o', m', file') ∧ settled x o' m'.

Lemma settles_after x j n st st' :
  Nat.iter j (output_state x) st = st' → settles_within x n st' → settles_within x (j + n) st.
Proof.
  intros <- (k & o' & m' & f & Hk & E & H). exists (k + j)%nat, o', m', f.
  split; [lia|]. by rewrite Nat.iter_add.
Qed.

Lemma settle_clean x m file : isDirty m = false → settles_within x 1 (OIdle, m, file).
Proof.
  intros Hd. destruct x.
  - by exists 1%nat, OExited, m, file.
  - exists O, OIdle, m, file. split; [lia|]. by repeat split; auto.
Qed.

Lemma settle_mark x m file : settles_within x (length (smm_data m) + 3) (OMark, m, file).
Proof.
  replace (length (smm_data m) + 3)%nat with (1 + (S (length (smm_data m)) + 1))%nat by lia.
  eapply settles_after; [reflexivity|]. cbn [Nat.iter nat_rect output_state output_access].
  eapply settles_after; [by apply (copy_run x (markClean m) _ [])|]. apply settle_clean, markClean_clean.
Qed.

Lemma settle_woken x m file : settles_within x (length (smm_data m) + 4) (OWoken, m, file).
Proof.
  replace (length (smm_data m) + 4)%nat with (1 + (length (smm_data m) + 3))%nat by lia.
  eapply settles_after; [reflexivity|]. cbn. destruct (isDirty m) eqn:Hd; [apply settle_mark|].
  destruct (settle_clean x m file Hd) as (k & o' & m' & f & Hk & E & H).
  exists k, o', m', f. split; [lia|done].
Qed.

Lemma settle_idle x m file : settles_within x (length (smm_data m) + 5) (OIdle, m, file).
Proof.
  replace (length (smm_data m) + 5)%nat with (1 + (length (smm_data m) + 4))%nat by lia.
  eapply settles_after; [reflexivity|]. cbn. destruct x; [|apply settle_woken].
  exists O, OExited, m, file. split; [lia|done].
Qed.

(** From a copy that has begun, the rest of it comes before. *)
Lemma settle_any x o m file :
  match o with OCopy ws => (length ws ≤ length (smm_data m))%nat | OExited => x = true | _ => True end →
  settles_within x (2 * length (smm_data m) + 6) (o, m, file).
Proof.
  assert (∀ n st, (n ≤ 2 * length (smm_data m) + 6)%nat → settles_within x n st →
    settles_within x (2 * length (smm_data m) + 6) st) as Hle.
  { intros n st Hn (k & o' & m' & f & Hk & H). exists k, o', m', f. split; [lia|done]. }
  intros Ho. destruct o as [| | |ws|].
  - eapply Hle; [|apply settle_idle]. lia.
  - eapply Hle; [|apply settle_woken]. lia.
  - eapply Hle; [|apply settle_mark]. lia.
  - apply (Hle (S (length (smm_data m) - length ws) + (length (smm_data m) + 5))%nat); [lia|].
    eapply settles_after; [by apply copy_run; lia|]. apply settle_idle.
  - subst x. exists O, OExited, m, file. split; [lia|done].
Qed.

Lemma daemon_ok_iter m0 indices x rs k st :
  Z.of_nat (length indices) < 2 ^ 32 →
  daemon_ok m0 indices (x, rs, st.1.2, st.1.1, st.2) →
  let st' := Nat.iter k (output_state x) st in daemon_ok m0 indices (x, rs, st'.1.2, st'.1.1, st'.2).
Proof.
  intros Hn Hok. induction k as [|k IH]; [done|].
  cbn zeta in *. rewrite Nat.iter_succ. destruct (Nat.iter k (output_state x) st) as [[o m] file]. cbn in *.
  pose proof (daemon_output_step _ _ _ _ _ _ _ Hn IH) as H.
  by destruct (output_access x o m file) as [[o' m'] file'].
Qed.


(** C34: When the processes have ended their reports, at most [2 * n + 6] accesses
    of the output thread, for a memory of [n] words and from wherever it is, settle
    it.  As long as it is not told to exit it then sleeps and wakes up before a
    memory that is not dirty, and the file shows exactly the indices that were hit
    before or reported.  Told to exit, it completes the round it is in and ends: no
    round follows, and the file is known to show all of them only if the memory is
    not dirty then ([exit_loses_reports] shows one that is). *)
Theorem daemon_settles m0 file0 indices x rs m o file k :
  daemon_start m0 file0 indices →
  rtc daemon_step (false, RStart <$> indices, m0, OIdle, file0) (x, rs, m, o, file) →
  forallb is_done rs = true → (2 * length (smm_data m) + 6 ≤ k)%nat →
  ∃ o' m' file', Nat.iter k (output_state x) (o, m, file) = (o', m', file') ∧
    (if x then o' = OExited else (o' = OIdle ∨ o' = OWoken) ∧ isDirty m' = false) ∧
    (∀ j, 0 ≤ j → bit_of file' j = true → hit m0 j = true ∨ j ∈ indices) ∧
    (isDirty m' = false →
     ∀ j, 0 ≤ j → bit_of file' j = hit m0 j || (bool_decide (j ∈ indices) && in_range m0 j)).
Proof.
  intros Hstart Hsteps Hdone Hk. pose proof (daemon_reach _ _ _ _ Hstart Hsteps) as Hok.
  pose proof (ds_number _ _ _ Hstart) as Hn.
  destruct (settle_any x o m file) as (k0 & o0 & m' & file' & Hk0 & E & Hset).
  { destruct Hok as [_ _ _ _ _ _ _ (c & c' & _ & _ & _ & _ & Ho)]. cbn in Ho.
    destruct o as [| | |ws|]; [done..|apply Ho|]. by apply (exited_told _ _ _ _ Hsteps). }
  destruct (settled_stays x (k - k0) o0 m' file' Hset) as (o' & E' & Hset').
  assert (Nat.iter k (output_state x) (o, m, file) = (o', m', file')) as Ek
    by (replace k with (k - k0 + k0)%nat by lia; by rewrite Nat.iter_add, E).
  pose proof (daemon_ok_iter _ _ _ _ k (o, m, file) Hn Hok) as Hok'. rewrite Ek in Hok'. cbn in Hok'.
  exists o', m', file'. split_and!; [done|done| |].
  - intros j Hj Hb. destruct Hok' as [_ _ _ _ _ Honly Hfile _]. cbn in *. auto.
  - intros Hd j Hj. rewrite (quiet_file m0 indices x rs m' o' file'); try done.
    + by eapply all_done_hits.
    + unfold between_rounds, settled in *. destruct x; [by auto|]. by destruct Hset' as [[-> | ->] _]; auto.
Qed.

(** ** One process *)

Abbreviation words_ok := (Forall (λ w, 0 ≤ w < 2 ^ 32)).

Section process.
Context {E : Type} `{!IEngine E}.

(** The addresses at which breakpoints were reported. *)
Definition breakpoints (evs : list EngineEvent) : list Z :=
  ev_addr <$> filter (λ ev, ev_type ev = ev_breakpoint) evs.

(** The map that [attach] builds leads back to the entries, and knows all of
    them. *)
Lemma attach_entries_map entries index (h : ProcessHandler (E := E)) :
  0 ≤ index → index + Z.of_nat (length entries) < 2 ^ 32 →
  let h' := attach_entries index entries h in
  ph_engine h' = foldl (λ eng a, eng_registerBreakpoint a eng) (ph_engine h) entries ∧
  (∀ a i, ph_indexByAddress h' !! a = Some i →
    ph_indexByAddress h !! a = Some i ∨
    index ≤ i ∧ entries !! Z.to_nat (i - index) = Some a) ∧
  (∀ a, a ∈ entries ∨ is_Some (ph_indexByAddress h !! a) → is_Some (ph_indexByAddress h' !! a)).
Proof.
  revert index h; induction entries as [|x entries IH]; intros index h Hi Hn; cbn [attach_entries].
  { split; [done|]. split; [by left|]. by intros a [?%not_elem_of_nil|]. }
  cbn in Hn. rewrite uw_small by lia.
  destruct (IH (index + 1) (mkHandler (eng_registerBreakpoint x (ph_engine h))
    (<[x:=index]> (ph_indexByAddress h)) (ph_id h))) as (H1 & H2 & H3); [lia..|].
  split; [done|]. split.
  - intros a i [Hl|[Hle Hl]]%H2; cbn in Hl.
    + destruct (decide (a = x)) as [->|].
      * rewrite lookup_insert_eq in Hl. injection Hl as <-. right. split; [lia|].
        by rewrite Z.sub_diag.
      * rewrite lookup_insert_ne in Hl by done. by left.
    + right. split; [lia|]. replace (i - index) with (1 + (i - (index + 1))) by lia.
      rewrite Z2Nat.inj_add by lia. done.
  - intros a Ha. apply H3. cbn. destruct (decide (a = x)) as [->|].
    + right. rewrite lookup_insert_eq. by eexists.
    + rewrite lookup_insert_ne by done. destruct Ha as [Ha|]; [left|by right].
      by apply elem_of_cons in Ha as [|].
Qed.

(** What stays of a memory while it is reported to. *)
Definition same_memory (m m' : system_mode_memory) : Prop :=
  smm_n_entries m' = smm_n_entries m ∧ smm_filename m' = smm_filename m ∧
  smm_options m' = smm_options m.

Lemma lor_mask_range v index : 0 ≤ v < 2 ^ 32 → 0 ≤ Z.lor v (bit_mask (index mod 32)) < 2 ^ 32.
Proof.
  intros Hv. pose proof (u32_range (Z.shiftl 1 (index mod 32))) as Hb. unfold bit_mask.
  split; [apply Z.lor_nonneg; lia|].
  apply Z.log2_lt_cancel. rewrite Z.log2_lor, Z.log2_pow2 by lia.
  pose proof (Z.log2_nonneg v). 
  apply Z.max_lub_lt.
  - destruct (decide (v = 0)) as [->|]; [done|]. apply Z.log2_lt_pow2; lia.
  - set (b := u32 _) in *. destruct (decide (b = 0)) as [->|]; [done|]. apply Z.log2_lt_pow2; lia.
Qed.

Lemma reportIndex_frame index m m' :
  words_ok (smm_data m) → reportIndex index m = Ok m' →
  same_memory m m' ∧ words_ok (smm_data m').
Proof.
  intros Hw. unfold reportIndex. case_match; [by intros [= <-]|].
  intros (cur & Hcur & Hb)%bind_Ok. revert Hb. case_match; [by intros [= <-]|].
  rewrite Hcur. cbn. intros [= <-]. split; [done|]. cbn.
  apply Forall_insert; [done|]. apply lor_mask_range.
  unfold word_at, or_fault in Hcur. destruct (smm_data m !! _) eqn:Ew; [|done].
  injection Hcur as ->. by eapply Forall_lookup_1 in Hw.
Qed.

Lemma breakpoints_cons ev evs a :
  a ∈ breakpoints (ev :: evs) ↔
  (ev_type ev = ev_breakpoint ∧ a = ev_addr ev) ∨ a ∈ breakpoints evs.
Proof.
  unfold breakpoints. rewrite filter_cons. case_decide; rewrite ?fmap_cons, ?elem_of_cons; naive_solver.
Qed.

(** Events of known addresses set their bits. *)
Lemma onEvents_hits idx evs m :
  smm_wf m → words_ok (smm_data m) → (∀ a i, idx !! a = Some i → 0 ≤ i) →
  ∃ m', res_foldl (ph_onEvent idx) m evs = Ok m' ∧ smm_wf m' ∧ words_ok (smm_data m') ∧
    same_memory m m' ∧
    ∀ j, 0 ≤ j → (hit m' j = true ↔
      hit m j = true ∨ (in_range m j = true ∧ ∃ a, a ∈ breakpoints evs ∧ idx !! a = Some j)).
Proof.
  intros Hwf Hw Hidx. revert m Hwf Hw. induction evs as [|ev evs IH]; intros m Hwf Hw.
  { exists m. split_and!; try done. intros j Hj. split; [by left|].
    intros [?|(_ & a & Ha & _)]; [done|]. by apply not_elem_of_nil in Ha. }
  assert (∃ m1, ph_onEvent idx m ev = Ok m1 ∧ smm_wf m1 ∧ words_ok (smm_data m1) ∧ same_memory m m1 ∧
    ∀ j, 0 ≤ j → (hit m1 j = true ↔ hit m j = true ∨
      (in_range m j = true ∧ ev_type ev = ev_breakpoint ∧ idx !! ev_addr ev = Some j)))
    as (m1 & E1 & Hwf1 & Hw1 & Hs1 & Hh1).
  { unfold ph_onEvent. destruct (ev_type ev);
      try (exists m; split_and!; try done; intros j Hj; naive_solver).
    destruct (idx !! ev_addr ev) as [i|] eqn:Ei;
      [|exists m; split_and!; try done; intros j Hj; naive_solver].
    destruct (reportIndex_hit m i Hwf (Hidx _ _ Ei)) as (m1 & E1 & Hwf1 & Hh).
    destruct (reportIndex_frame i m m1 Hw E1). exists m1. split_and!; try done.
    intros j Hj. rewrite Hh by done. rewrite orb_true_iff, andb_true_iff, Z.eqb_eq. naive_solver. }
  destruct (IH m1 Hwf1 Hw1) as (m' & Em & Hwf' & Hw' & Hs' & Hh').
  exists m'. cbn -[breakpoints]. rewrite E1. cbn -[breakpoints]. unfold same_memory in *.
  split_and!; [done|done|done|naive_solver congruence..|].
  assert (Hr : ∀ j, in_range m1 j = in_range m j)
    by (intros j; unfold in_range; by destruct Hs1 as (-> & _)).
  intros j Hj. rewrite Hh', Hh1, Hr by done.
  split.
  - intros [[Hm | (Hr1 & Ht & Hx)] | (Hr1 & a & Ha & Hx)]; [by left|right..]; (split; [done|]).
    + exists (ev_addr ev). rewrite breakpoints_cons. auto.
    + exists a. rewrite breakpoints_cons. auto.
  - intros [Hm | (Hr1 & a & Ha & Hx)]; [by left; left|]. apply breakpoints_cons in Ha as [[Ht ->] | Ha];
      [left; right|right]; eauto.
Qed.

(** The rounds of an engine are its events one after the other. *)
Lemma ph_run_runs eng rounds eng' : engine_runs eng rounds eng' → ∀ fuel h m m',
  ph_engine h = eng → (length rounds ≤ fuel)%nat →
  res_foldl (ph_onEvent (ph_indexByAddress h)) m (concat rounds) = Ok m' →
  ph_run fuel h m = Some (Ok m').
Proof using Type.
  induction 1 as [eng evs eng' Heng|eng evs eng1 rounds eng' Heng Hruns IH];
    intros [|fuel] h m m' <- Hf H; cbn in Hf; try lia; cbn [ph_run concat] in *;
    rewrite res_foldl_app in H; apply bind_Ok in H as (m1 & H1 & H2);
    unfold ph_continueExecution; rewrite Heng; cbn -[ph_onEvent]; rewrite H1; cbn -[ph_onEvent].
  - by injection H2 as <-.
  - by apply IH; [|lia|].
Qed.

(** A traced process that runs for at least two rounds: the events of all of
    them are reported. *)
Lemma child_process_runs fuel filename f eng eng0 rounds eng' m m' :
  eng_start filename eng = ([], true, eng0) →
  engine_runs (foldl (λ eng a, eng_registerBreakpoint a eng) eng0 (sm_entries f)) rounds eng' →
  (2 ≤ length rounds ≤ fuel)%nat → Z.of_nat (length (sm_entries f)) < 2 ^ 32 →
  res_foldl (ph_onEvent (ph_indexByAddress
    (attach_entries 0 (sm_entries f) (mkHandler eng0 ∅ (sm_id f))))) m (concat rounds) = Ok m' →
  child_process fuel filename f eng m = Some (Ok m').
Proof using Type.
  intros Hstart Hruns Hr Hn Hm. unfold child_process, attach. rewrite Hstart. cbn.
  set (h := attach_entries _ _ _) in *.
  destruct (attach_entries_map (sm_entries f) 0 (mkHandler eng0 ∅ (sm_id f))) as (He & _ & _); [lia..|].
  fold h in He. cbn in He. rewrite <-He in Hruns.
  unfold ph_continueExecution.
  inversion Hruns as [? evs ? Heng|? evs eng1 rounds' ? Heng Hruns']; subst; [cbn in Hr; lia|].
  rewrite Heng. cbn -[ph_onEvent] in Hm |- *. rewrite res_foldl_app in Hm.
  apply bind_Ok in Hm as (m1 & -> & Hm). cbn -[ph_onEvent].
  eapply ph_run_runs; [exact Hruns'|done|cbn in Hr; lia|done].
Qed.
End process.

(** ** A concrete schedule *)

(** Two processes report indices 0 and 33 of a memory of two words; the thread
    finds the first one counted, marks the memory clean and copies the first
    word while the second process swaps, counts after the copy. *)
Definition demo_daemon : daemon_state :=
  (false, RStart <$> [0; 33], new_system_mode_memory (str "/bin/ls") [] 2, OIdle, [0; 0]).

(** The next access of the process with this number, or of the thread. *)
Definition daemon_move (x : option nat) (st : daemon_state) : option daemon_state :=
  let '(doExit, rs, m, o, file) := st in
  match x with
  | None => let '(o, m, file) := output_access doExit o m file in Some (doExit, rs, m, o, file)
  | Some i =>
      match rs !! i with
      | Some r =>
          match report_access r m with
          | Some (Ok (r', m')) => Some (doExit, <[i := r']> rs, m', o, file)
          | _ => None
          end
      | None => None
      end
  end.

Fixpoint run_daemon (l : list (option nat)) (st : daemon_state) : option daemon_state :=
  match l with
  | [] => Some st
  | x :: l => match daemon_move x st with Some st => run_daemon l st | None => None end
  end.

Lemma daemon_move_step x st st' : daemon_move x st = Some st' → daemon_step st st'.
Proof.
  destruct st as [[[[doExit rs] m] o] file], x as [i|]; cbn.
  - destruct (rs !! i) as [r|] eqn:Hi; [|done].
    destruct (report_access r m) as [[[r' m']| | |]|] eqn:Hr; try done.
    intros [= <-]. constructor. by econstructor.
  - destruct (output_access doExit o m file) as [[o' m'] file'] eqn:Ho. intros [= <-]. by constructor.
Qed.

Lemma run_daemon_steps l st st' : run_daemon l st = Some st' → rtc daemon_step st st'.
Proof.
  revert st; induction l as [|x l IH]; intros st; cbn; [by intros [= <-]|].
  destruct (daemon_move x st) as [st1|] eqn:Hm; [|done].
  intros H. eapply rtc_l; [by eapply daemon_move_step|by apply IH].
Qed.

Definition demo_schedule1 : list (option nat) :=
  (Some <$> [0; 0; 0; 0; 1; 1]%nat) ++ [None; None; None; None] ++ (Some <$> [1]%nat) ++ [None; None]
  ++ (Some <$> [1]%nat).

Definition demo_after : daemon_state :=
  default demo_daemon (run_daemon demo_schedule1 demo_daemon).

Lemma demo_daemon_start : daemon_start (new_system_mode_memory (str "/bin/ls") [] 2) [0; 0] [0; 33].
Proof.
  split; [by split|done| |by repeat constructor|done].
  intros j Hj. by rewrite hit_bit_of by (by split || done).
Qed.

Lemma daemon_demo_reached :
  ∃ rs m, demo_after = (false, rs, m, OIdle, [1; 2]) ∧ forallb is_done rs = true ∧ isDirty m = true
          ∧ length (smm_data m) = 2%nat ∧ rtc daemon_step demo_daemon demo_after.
Proof.
  eexists _, _. split; [reflexivity|]. split; [reflexivity|]. split; [reflexivity|].
  split; [reflexivity|]. apply (run_daemon_steps demo_schedule1). reflexivity.
Qed.


Lemma daemon_settles_witness :
  ∃ rs m o' m' file', demo_after = (false, rs, m, OIdle, [1; 2]) ∧
    Nat.iter 10 (output_state false) (OIdle, m, [1; 2]) = (o', m', file') ∧
    (o' = OIdle ∨ o' = OWoken) ∧ isDirty m' = false ∧
    bit_of file' 33 = true ∧ bit_of file' 1 = false.
Proof.
  destruct daemon_demo_reached as (rs & m & E & Hdone & _ & Hl & Hsteps). rewrite E in Hsteps.
  destruct (daemon_settles _ _ _ _ _ _ _ _ 10 demo_daemon_start Hsteps Hdone)
    as (o' & m' & f & H1 & [H2 H3] & _ & H4); [rewrite Hl; lia|].
  exists rs, m, o', m', f. split; [done|]. split; [done|]. split; [done|]. split; [done|].
  split; rewrite (H4 H3) by lia; reflexivity.
Defined.

(** When the daemon is told to exit, the thread leaves without a last round:
    what was reported since it last wrote is in no file, however long it is
    waited for. *)
Theorem exit_loses_reports :
  let m0 := new_system_mode_memory (str "/bin/ls") [] 1 in
  ∃ m, reportIndex 3 m0 = Ok m ∧ hit m 3 = true ∧ isDirty m = true ∧
    output_wakeup LittleEndian true (str "/tmp/kcov-data") [(7, m)] = Ok ([], [(7, m)]) ∧
    (∃ data m', output_wakeup LittleEndian false (str "/tmp/kcov-data") [(7, m)]
             = Ok ([(str "/tmp/kcov-data/00000007", data)], [(7, m')])) ∧
    ∀ k, Nat.iter (S k) (output_state true) (OIdle, m, [0]) = (OExited, m, [0]).
Proof.
  eexists. split; [reflexivity|]. split; [reflexivity|]. split; [reflexivity|].
  split; [reflexivity|]. split; [eexists _, _; by vm_compute|].
  intros k. induction k as [|k IH]; [done|]. by rewrite Nat.iter_succ, IH.
Qed.
