(* ===== verification/Handshake.v ===== *)
(** * Registering with the daemon (src/src/engines/system-mode-binary-lib.cc,
    src/src/main-system-daemon.cc)

    A process with the library of the system mode registers at the daemon's pipe
    and waits at a pipe of its own until the daemon has attached to it and writes a
    character there ([connectToDaemon], the loop of [main], [processOne]).  First
    both programs, with the results of the system calls as arguments; then their
    meeting, as a machine of interleaved moves. *)
From S2P Require Export Daemon.
From S2P Require Import CxxString Utils UtilsFiles Configuration SystemProofs.
From stdpp Require Import options.

(** ** The library *)

(** The two paths, from the environment or by default. *)
Definition connect_paths (getenv : bytes → option bytes) : bytes * bytes :=
  (default (str "/tmp/kcov-system.pipe") (getenv (str "KCOV_SYSTEM_PIPE")),
   default (str "/tmp/kcov-data/") (getenv (str "KCOV_SYSTEM_DESTINATION_DIR"))).

Inductive LibCall :=
  | LibMkfifo (path : bytes)
  | LibWrite (path content : bytes)
  | LibOpen (path : bytes)
  | LibRead
  | LibClose
  | LibUnlink (path : bytes).

Record LibAnswers := mkLibAnswers {
  la_pipe_exists : bool;
  la_readlink : option bytes;
  la_mkfifo : Z;
  la_write : Z;
  la_open : Z;
}.

Section library.
Context (e : endian).

(** The entry, and the part of it that is written: as much as its size field says. *)
Definition registration (pid : Z) (filename : bytes) : res bytes :=
  pe ← createProcessEntry e pid filename;
  entry_size ← load e 2 pe 8;
  zread pe 0 (Z.to_nat entry_size).

Definition connectToDaemon (getenv : bytes → option bytes) (a : LibAnswers) (pid : Z) : res (list LibCall) :=
  let '(destinationPipe, outputDir) := connect_paths getenv in
  if negb (la_pipe_exists a) then Ok []
  else
    match la_readlink a with
    | None => Ok []
    | Some link =>
        let filename := c_prefix (take 4095 link) in
        let readbackPipe := outputDir ++ str "/" ++ fmt_d pid in
        if la_mkfifo a <? 0 then Ok [LibMkfifo readbackPipe]
        else
          content ← registration pid filename;
          let written := [LibMkfifo readbackPipe; LibWrite destinationPipe content] in
          if la_write a >=? 0 then
            if la_open a <? 0 then Ok (written ++ [LibOpen readbackPipe; LibUnlink readbackPipe])
            else Ok (written ++ [LibOpen readbackPipe; LibRead; LibClose; LibUnlink readbackPipe])
          else Ok written
    end.
End library.

(** ** The daemon *)

(** [waitCond]: the deadline, for the time of day in seconds and microseconds. *)
Definition waitCond (now : Z * Z) (secs : Z) : Z * Z := (now.1 + secs, now.2).

(** [processOne]: the binary and its memory for the child that is forked, if there
    is one, and the memories known. *)
Definition processOne (e : endian) (w : World) (base : Z) (filename : bytes) (fork : Z)
    (outputFiles : gmap Z system_mode_memory)
  : res (option (SystemModeFile * system_mode_memory) * gmap Z system_mode_memory) :=
  sysFile ← getSystemModeFileFromFilename e w base filename;
  match sysFile with
  | None => Ok (None, outputFiles)
  | Some sysFile =>
      let '(output, outputFiles) := output_of outputFiles sysFile in
      Ok (if fork <? 0 then None else Some (sysFile, output), outputFiles)
  end.

(** [daemonize]: the results of the two [fork]s and of [setsid]; the exit code of a
    process that ends there, the descriptors the daemon closes. *)
Inductive Daemonized := DaemonPanics | DaemonExits (code : Z) | DaemonRuns (closed : list Z).
Definition daemonize (fork1 setsid fork2 : Z) : Daemonized :=
  if fork1 <? 0 then DaemonPanics
  else if fork1 >? 0 then DaemonExits 0
  else if setsid <? 0 then DaemonExits 1
  else if fork2 <? 0 then DaemonPanics
  else if fork2 >? 0 then DaemonExits 0
  else DaemonRuns [0; 2; 1].

(** The start of [main]: the destination, or the exit code; [open_fd] is the
    descriptor of the fifo. *)
Inductive DaemonCall :=
  | DWritePid (path content : bytes)
  | DMkdir (path : bytes)
  | DMkfifo (path : bytes)
  | DUnlink (path : bytes).
Definition daemon_main_start (pid_file_exists : bool) (getenv : bytes → option bytes) (argv : list bytes)
    (daemonized : Daemonized) (getpid open_fd : Z) : res (list DaemonCall * (Z + bytes)) :=
  let pidFile := str "/tmp/kcov-system.pid" in
  if pid_file_exists then Ok ([], inl 1)
  else
    let continues :=
      match argv with
      | [_; o] => if bool_decide (o = str "-d") then Some daemonized else None
      | _ => None
      end in
    match continues with
    | Some DaemonPanics => Panic
    | Some (DaemonExits code) => Ok ([], inl code)
    | _ =>
        let destinationDir := default (str "/tmp/kcov-data") (getenv (str "KCOV_SYSTEM_DESTINATION_DIR")) in
        let pipePath := str "/tmp/kcov-system.pipe" in
        let calls := [DWritePid pidFile (fmt_d getpid ++ [NUL]); DMkdir destinationDir; DMkfifo pipePath] in
        if open_fd <? 0 then Ok (calls ++ [DUnlink pidFile], inl 1) else Ok (calls, inr destinationDir)
    end.
Definition daemon_main_end : list DaemonCall :=
  [DUnlink (str "/tmp/kcov-system.pipe"); DUnlink (str "/tmp/kcov-system.pid")].

(** Where the daemon answers a process. *)
Definition release_path (destinationDir : bytes) (pid : Z) : bytes :=
  write_file_path (destinationDir ++ str "/" ++ fmt_d pid).

(** ** The meeting *)

(** A process: before it registers, after that, waiting in [open] of its pipe, and
    let go. *)
Inductive LibState := LStart | LRegistered | LOpening | LRunning.
#[global] Instance LibState_eq_dec : EqDecision LibState.
Proof. solve_decision. Defined.

Record Process := mkProcess { pr_pid : Z; pr_name : bytes; pr_state : LibState }.

(** The loop of the daemon: at [read], in [processOne], and in [write_file], which
    opens the pipe of the process once more when nobody reads it. *)
Inductive DaemonState := DReading | DWorking (pid : Z) (filename : bytes) | DReleasing (pid : Z) (again : bool) | DStopped.

Record Handshake := mkHandshake {
  hs_pipe : bytes;
  hs_procs : list Process;
  hs_daemon : DaemonState;
  hs_handled : list (Z * bytes);
  hs_lost : list Z;               (* pids whose answer reached nobody *)
}.

Inductive Move := Register (i : nat) | Open (i : nat) | Read | Work | Release.

Section machine.
Context (e : endian).

Definition set_state (s : LibState) (p : Process) : Process := mkProcess (pr_pid p) (pr_name p) s.

(** A process whose pipe has that number. *)
Definition waiting_at (pid : Z) (p : Process) : bool :=
  (pr_pid p =? pid) && bool_decide (pr_state p = LRegistered ∨ pr_state p = LOpening).
Fixpoint find_waiting (pid : Z) (i : nat) (ps : list Process) : option (nat * Process) :=
  match ps with
  | [] => None
  | p :: ps => if waiting_at pid p then Some (i, p) else find_waiting pid (S i) ps
  end.

Definition hs_move (m : Move) (st : Handshake) : option Handshake :=
  let '(mkHandshake pipe procs daemon handled lost) := st in
  match m, daemon with
  | Register i, _ =>
      p ← procs !! i;
      if bool_decide (pr_state p = LStart) then
        match registration e (pr_pid p) (pr_name p) with
        | Ok entry =>
            Some (mkHandshake (pipe ++ entry) (<[i := set_state LRegistered p]> procs) daemon handled lost)
        | _ => None
        end
      else None
  | Open i, _ =>
      p ← procs !! i;
      if bool_decide (pr_state p = LRegistered)
      then Some (mkHandshake pipe (<[i := set_state LOpening p]> procs) daemon handled lost) else None
  | Read, DReading =>
      if bool_decide (pipe = []) then None
      else
        match daemon_request e (take 4096 pipe) with
        | Ok r =>
            let daemon := match r with
                          | Stop => DStopped
                          | Ignore => DReading
                          | StartProcess pid filename => DWorking pid filename
                          end in
            Some (mkHandshake (drop 4096 pipe) procs daemon handled lost)
        | _ => None
        end
  | Work, DWorking pid filename =>
      Some (mkHandshake pipe procs (DReleasing pid false) (handled ++ [(pid, filename)]) lost)
  | Release, DReleasing pid again =>
      match find_waiting pid 0 procs with
      | Some (i, p) =>
          if bool_decide (pr_state p = LOpening)
          then Some (mkHandshake pipe (<[i := set_state LRunning p]> procs) DReading handled lost)
          else if again then Some (mkHandshake pipe procs DReading handled (lost ++ [pid]))
          else Some (mkHandshake pipe procs (DReleasing pid true) handled lost)
      | None => Some (mkHandshake pipe procs DReading handled (lost ++ [pid]))
      end
  | _, _ => None
  end.

Fixpoint hs_run (ms : list Move) (st : Handshake) : option Handshake :=
  match ms with
  | [] => Some st
  | m :: ms => st ← hs_move m st; hs_run ms st
  end.
End machine.

(** ** Properties *)

(** The deadline of the output thread's wait, in nanoseconds from now: the
    microseconds of the clock are taken for nanoseconds, so that it comes up to a
    second early, but never late. *)
Lemma waitCond_early now secs :
  0 ≤ now.2 < 1000000 →
  let deadline := waitCond now secs in
  let ns := (deadline.1 * 1000000000 + deadline.2) - (now.1 * 1000000000 + now.2 * 1000) in
  (secs - 1) * 1000000000 < ns ≤ secs * 1000000000.
Proof. destruct now as [s us]. cbn. lia. Qed.

Section proofs.
Context (e : endian).

(** A process whose number and name fit an entry. *)
Definition registers (p : Process) : Prop :=
  0 ≤ pr_pid p < 2 ^ 16 ∧ no_nul (pr_name p) ∧ (length (pr_name p) + 13 ≤ 4096)%nat.

Lemma length_process_entry pid name : length (process_entry_block e pid name) = (13 + length name)%nat.
Proof. unfold process_entry_block. rewrite !length_app, !length_native_bytes. cbn. lia. Qed.

Lemma registration_ok p :
  registers p → registration e (pr_pid p) (pr_name p) = Ok (process_entry_block e (pr_pid p) (pr_name p)).
Proof.
  intros (Hpid & Hn & Hlen). unfold registration. rewrite createProcessEntry_ok by lia.
  cbn [mbind res_mbind res_bind]. set (b := process_entry_block e (pr_pid p) (pr_name p)).
  assert (load e 2 b 8 = Ok (13 + Z.of_nat (length (pr_name p)))) as ->
    by (unfold b, process_entry_block; load_field).
  cbn [mbind res_mbind res_bind]. rewrite <-(app_nil_r b) at 1. apply zread_here; [done|].
  unfold b. rewrite length_process_entry. lia.
Qed.

(** What the daemon makes of one entry in its pipe. *)
Lemma request_entry p :
  registers p →
  daemon_request e (take 4096 (process_entry_block e (pr_pid p) (pr_name p)))
    = Ok (StartProcess (pr_pid p) (pr_name p)).
Proof.
  intros (Hpid & Hn & Hlen). rewrite take_ge by (rewrite length_process_entry; lia).
  set (b := process_entry_block e (pr_pid p) (pr_name p)). unfold daemon_request.
  assert (length b = (13 + length (pr_name p))%nat) as Hb by apply length_process_entry.
  rewrite (proj2 (Z.leb_gt _ _)) by lia.
  assert (prefixb (str "STOPME") (b ++ zeros (4096 - length b)) = false) as ->.
  { unfold b, process_entry_block. by destruct e. }
  rewrite andb_false_r. unfold sizeof_new_process_entry. rewrite (proj2 (Z.ltb_ge _ _)) by lia.
  unfold b. rewrite parseProcessEntry_block by (done || lia). done.
Qed.

(** A schedule in which one process registers at a time and has opened its pipe
    when the daemon answers. *)
Definition waits (p : Process) : bool := bool_decide (pr_state p = LRegistered ∨ pr_state p = LOpening).
Definition calm (m : Move) (st : Handshake) : Prop :=
  match m with
  | Register _ => hs_daemon st = DReading ∧ Forall (λ p, waits p = false) (hs_procs st)
  | Release => Forall (λ p, pr_state p ≠ LRegistered) (hs_procs st)
  | _ => True
  end.
Inductive calm_step : Handshake → Handshake → Prop :=
  | calm_move m st st' : calm m st → hs_move e m st = Some st' → calm_step st st'.

(** At rest, or with one process under way. *)
Definition at_rest (p : Process) : Prop := pr_state p = LStart ∨ pr_state p = LRunning.
Definition identity (p : Process) : Z * bytes := (pr_pid p, pr_name p).
Definition is_running (p : Process) : bool := bool_decide (pr_state p = LRunning).
Definition running (ps : list Process) : list (Z * bytes) := identity <$> filter (λ p, is_running p = true) ps.

#[local] Arguments running : simpl never.

Inductive phase (st : Handshake) : Prop :=
  | phase_rest :
      hs_daemon st = DReading → hs_pipe st = [] → Forall at_rest (hs_procs st) →
      hs_handled st ≡ₚ running (hs_procs st) → phase st
  | phase_busy a p b :
      hs_procs st = a ++ p :: b → Forall at_rest (a ++ b) → waits p = true →
      (hs_daemon st = DReading ∧ hs_pipe st = process_entry_block e (pr_pid p) (pr_name p) ∧
         hs_handled st ≡ₚ running (a ++ b)
       ∨ hs_daemon st = DWorking (pr_pid p) (pr_name p) ∧ hs_pipe st = [] ∧ hs_handled st ≡ₚ running (a ++ b)
       ∨ hs_daemon st = DReleasing (pr_pid p) false ∧ hs_pipe st = [] ∧
         hs_handled st ≡ₚ running (a ++ b) ++ [identity p]) → phase st.

Record calm_ok (ids : list (Z * bytes)) (st : Handshake) : Prop := {
  co_ids : identity <$> hs_procs st = ids;
  co_phase : phase st;
  co_lost : hs_lost st = [];
}.

(** The moves that are left: five for every process. *)
Definition cost (p : Process) : nat :=
  match pr_state p with LStart => 5 | LRegistered => 1 | LOpening | LRunning => 0 end.
Definition daemon_cost (st : Handshake) : nat :=
  match hs_daemon st with
  | DReading => if bool_decide (hs_pipe st = []) then 0 else 3
  | DWorking _ _ => 2
  | DReleasing _ _ => 1
  | DStopped => 0
  end.
Definition moves_left (st : Handshake) : nat := sum_list_with cost (hs_procs st) + daemon_cost st.

Lemma lookup_split (ps : list Process) i p :
  ps !! i = Some p → ∃ a b, ps = a ++ p :: b ∧ ∀ q, <[i := q]> ps = a ++ q :: b.
Proof.
  intros H. exists (take i ps), (drop (S i) ps). split; [by rewrite take_drop_middle|].
  intros q. rewrite insert_take_drop; [done|]. by apply lookup_lt_Some in H.
Qed.

Lemma rest_waits p : at_rest p → waits p = false.
Proof. unfold waits. intros [-> | ->]; done. Qed.

(** The process that is under way is the one that is found. *)
Lemma the_waiting a b a' b' p q :
  a ++ p :: b = a' ++ q :: b' → Forall at_rest (a ++ b) → waits p = true → waits q = true →
  a = a' ∧ p = q ∧ b = b'.
Proof.
  revert a'. induction a as [|x a IH]; intros [|x' a'] E Hr Hp Hq; cbn in E, Hr; simplify_eq; [done|..].
  - exfalso. apply Forall_app in Hr as [_ Hr]. apply Forall_cons in Hr as [Hr%rest_waits _]. congruence.
  - exfalso. apply Forall_cons in Hr as [Hr%rest_waits _]. congruence.
  - apply Forall_cons in Hr as [_ Hr]. destruct (IH a' ltac:(done) Hr Hp Hq) as (-> & -> & ->). done.
Qed.

Lemma find_waiting_mid a p b : ∀ i,
  Forall at_rest a → waits p = true → find_waiting (pr_pid p) i (a ++ p :: b) = Some (i + length a, p)%nat.
Proof.
  induction a as [|x a IH]; intros i Ha Hp; cbn [app find_waiting length].
  - unfold waiting_at. unfold waits in Hp. rewrite Z.eqb_refl, Hp. cbn. by rewrite Nat.add_0_r.
  - apply Forall_cons in Ha as [Hx Ha]. unfold waiting_at. pose proof (rest_waits x Hx) as Hw.
    unfold waits in Hw. rewrite Hw, andb_false_r, IH by done. do 2 f_equal. lia.
Qed.

Lemma running_mid a p b : waits p = true ∨ pr_state p = LStart → running (a ++ p :: b) = running (a ++ b).
Proof.
  intros Hp. unfold running. rewrite !filter_app, filter_cons. case_decide as E; [|done].
  exfalso. unfold is_running in E. apply bool_decide_eq_true in E. unfold waits in Hp. rewrite E in Hp.
  by destruct Hp.
Qed.
Lemma running_add a p b :
  pr_state p = LRunning → running (a ++ p :: b) ≡ₚ running (a ++ b) ++ [identity p].
Proof.
  intros Hp. unfold running. rewrite !filter_app, filter_cons.
  rewrite decide_True by (unfold is_running; by apply bool_decide_eq_true).
  rewrite !fmap_app. cbn [fmap list_fmap]. rewrite <-app_assoc. apply Permutation_app_head.
  by rewrite Permutation_app_comm.
Qed.

Lemma at_rest_not_busy a p b : Forall (λ p, waits p = false) (a ++ p :: b) → waits p = true → False.
Proof. intros H Hp. apply Forall_app in H as [_ H]. apply Forall_cons in H as [H _]. congruence. Qed.

Lemma cost_mid a p b :
  sum_list_with cost (a ++ p :: b) = (sum_list_with cost a + cost p + sum_list_with cost b)%nat.
Proof. rewrite sum_list_with_app. cbn. lia. Qed.

(** *** The moves of a calm schedule *)

Definition good_id (id : Z * bytes) : Prop :=
  0 ≤ id.1 < 2 ^ 16 ∧ no_nul id.2 ∧ (length id.2 + 13 ≤ 4096)%nat.
Context (ids : list (Z * bytes)) (Hids : Forall good_id ids).

Definition steps_to (st st' : Handshake) : Prop := calm_ok ids st' ∧ moves_left st = S (moves_left st').

Lemma all_register ps p : identity <$> ps = ids → p ∈ ps → registers p.
Proof using Hids.
  intros E Hp. assert (identity p ∈ ids) as Hin by (rewrite <-E; by apply list_elem_of_fmap_2).
  by apply (proj1 (Forall_forall _ _) Hids) in Hin.
Qed.

Lemma calm_register i st st' :
  calm_ok ids st → calm (Register i) st → hs_move e (Register i) st = Some st' → steps_to st st'.
Proof using Hids.
  destruct st as [pipe procs daemon handled lost]. intros [Hid Hph Hl] [Hd Hw] Hm.
  cbn in Hid, Hl, Hd, Hw, Hm. subst lost daemon.
  destruct (procs !! i) as [p|] eqn:Hi; [|done]. cbn in Hm. case_bool_decide as Hs; [|done].
  destruct (lookup_split procs i p Hi) as (a & b & E & Hins). rewrite Hins in Hm. subst procs.
  rewrite registration_ok in Hm by (eapply all_register; [done|]; set_solver).
  destruct Hph as [_ Hp Hr Hh | a' q b' E' _ Hq _].
  2:{ exfalso. cbn in E'. rewrite E' in Hw. by eapply at_rest_not_busy. }
  cbn in Hp, Hr, Hh. subst pipe. injection Hm as <-. split.
  - constructor; cbn; [|eapply (phase_busy _ a (set_state LRegistered p) b); [done| |done|left]|done].
    + rewrite <-Hid. by rewrite !fmap_app.
    + apply Forall_app in Hr as [Ha Hb]. apply Forall_cons in Hb as [_ Hb]. by apply Forall_app.
    + cbn. split_and!; [done|done|]. rewrite Hh. by rewrite running_mid by auto.
  - unfold moves_left, daemon_cost. cbn [hs_procs hs_daemon hs_pipe app]. rewrite !cost_mid.
    unfold cost at 2 5. cbn [pr_state set_state]. rewrite Hs. rewrite bool_decide_eq_true_2 by done.
    rewrite bool_decide_eq_false_2; [lia|]. unfold process_entry_block. by destruct e.
Qed.

Lemma calm_open i st st' :
  calm_ok ids st → hs_move e (Open i) st = Some st' → steps_to st st'.
Proof using Hids.
  destruct st as [pipe procs daemon handled lost]. intros [Hid Hph Hl] Hm.
  cbn in Hid, Hl, Hm. subst lost.
  destruct (procs !! i) as [p|] eqn:Hi; [|done]. cbn in Hm. case_bool_decide as Hs; [|done].
  destruct (lookup_split procs i p Hi) as (a & b & E & Hins). rewrite Hins in Hm. subst procs.
  assert (waits p = true) as Hw by (unfold waits; rewrite Hs; done).
  injection Hm as <-.
  destruct Hph as [_ Hp Hr Hh | a' q b' E' Hr Hq Hcase]; cbn in *.
  - exfalso. apply Forall_app in Hr as [_ Hr]. apply Forall_cons in Hr as [Hr%rest_waits _]. congruence.
  - symmetry in E'. destruct (the_waiting a' b' a b q p E' Hr Hq Hw) as (-> & -> & ->). split.
    + constructor; cbn; [|eapply (phase_busy _ a (set_state LOpening p) b); [done|done|done|exact Hcase]|done].
      rewrite <-Hid. by rewrite !fmap_app.
    + unfold moves_left, daemon_cost. cbn [hs_procs hs_daemon hs_pipe]. rewrite !cost_mid.
      unfold cost at 2 5. cbn [pr_state set_state]. rewrite Hs. lia.
Qed.

Lemma calm_read st st' : calm_ok ids st → hs_move e Read st = Some st' → steps_to st st'.
Proof using Hids.
  destruct st as [pipe procs daemon handled lost]. intros [Hid Hph Hl] Hm. cbn in Hid, Hl, Hm. subst lost.
  destruct daemon; [|done..]. case_bool_decide as He; [done|].
  destruct Hph as [_ Hp _ _ | a p b E Hr Hq Hcase]; cbn in *; [done|]. subst procs.
  destruct Hcase as [(_ & -> & Hh) | [(? & _) | (? & _)]]; [|done..].
  rewrite request_entry in Hm by (eapply all_register; [done|]; set_solver). injection Hm as <-. split.
  - constructor; cbn; [done| |done]. eapply (phase_busy _ a p b); [done|done|done|]. right. left. cbn.
    split_and!; [done| |done]. apply drop_ge. rewrite length_process_entry.
    assert (registers p) as (_ & _ & ?) by (eapply all_register; [done|]; set_solver). lia.
  - unfold moves_left, daemon_cost. cbn [hs_procs hs_daemon hs_pipe]. rewrite bool_decide_eq_false_2 by done. lia.
Qed.

Lemma calm_work st st' : calm_ok ids st → hs_move e Work st = Some st' → steps_to st st'.
Proof using Type.
  destruct st as [pipe procs daemon handled lost]. intros [Hid Hph Hl] Hm. cbn in Hid, Hl, Hm. subst lost.
  destruct daemon as [|pid name| |]; [done| |done..]. injection Hm as <-.
  destruct Hph as [? | a p b E Hr Hq Hcase]; cbn in *; [done|]. subst procs.
  destruct Hcase as [(? & _) | [(Hd & -> & Hh) | (? & _)]]; [done| |done]. injection Hd as -> ->. split.
  - constructor; cbn; [done| |done]. eapply (phase_busy _ a p b); [done|done|done|]. right. right. cbn.
    split_and!; [done|done|]. by rewrite Hh.
  - unfold moves_left, daemon_cost. cbn [hs_procs hs_daemon hs_pipe]. lia.
Qed.

Lemma calm_release st st' :
  calm_ok ids st → calm Release st → hs_move e Release st = Some st' → steps_to st st'.
Proof using Type.
  destruct st as [pipe procs daemon handled lost]. intros [Hid Hph Hl] Hcalm Hm.
  cbn in Hid, Hl, Hcalm, Hm. subst lost. destruct daemon as [| |pid again|]; [done|done| |done].
  destruct Hph as [? | a p b E Hr Hq Hcase]; cbn in *; [done|]. subst procs.
  destruct Hcase as [(? & _) | [(? & _) | (Hd & -> & Hh)]]; [done|done|]. injection Hd as -> ->.
  apply Forall_app in Hr as Hr'. destruct Hr' as [Ha Hb].
  rewrite find_waiting_mid in Hm by done. cbn [Nat.add] in Hm.
  assert (pr_state p = LOpening) as Hs.
  { apply Forall_app in Hcalm as [_ Hcalm]. apply Forall_cons in Hcalm as [Hcalm _].
    unfold waits in Hq. apply bool_decide_eq_true in Hq. by destruct Hq. }
  rewrite bool_decide_eq_true_2 in Hm by done. rewrite insert_app_r_alt in Hm by lia.
  rewrite Nat.sub_diag in Hm. cbn in Hm. injection Hm as <-. split.
  - constructor; cbn; [by rewrite <-Hid, !fmap_app| |done]. apply phase_rest; cbn; [done|done|..].
    + apply Forall_app. split; [done|]. constructor; [by right|done].
    + rewrite Hh. by rewrite (running_add a (set_state LRunning p) b).
  - unfold moves_left, daemon_cost. cbn [hs_procs hs_daemon hs_pipe]. rewrite !cost_mid.
    unfold cost at 2 5. cbn [pr_state set_state]. rewrite Hs, bool_decide_eq_true_2 by done. lia.
Qed.

Lemma calm_steps st st' : calm_ok ids st → calm_step st st' → steps_to st st'.
Proof using Hids.
  intros Hok Hs. revert Hok. destruct Hs as [m s s' Hc Hm]. intros Hok. destruct m as [i|i| | |].
  - by eapply calm_register.
  - by eapply (calm_open i).
  - by apply calm_read.
  - by apply calm_work.
  - by apply calm_release.
Qed.

(** While moves are left there is one. *)
Lemma calm_progress st : calm_ok ids st → moves_left st ≠ 0%nat → ∃ st', calm_step st st'.
Proof using Hids.
  destruct st as [pipe procs daemon handled lost]. intros [Hid Hph Hl] Hleft. cbn in Hid, Hl. subst lost.
  destruct Hph as [Hd Hp Hr _ | a p b E Hr Hq Hcase]; cbn in *; [subst daemon pipe|subst procs].
  - assert (∃ i p, procs !! i = Some p ∧ pr_state p = LStart) as (i & p & Hi & Hs).
    { unfold moves_left, daemon_cost in Hleft. cbn in Hleft. rewrite Nat.add_0_r in Hleft. clear -Hr Hleft.
      induction Hr as [|p procs Hp Hr IH]; [done|]. destruct Hp as [Hp | Hp]; [by exists 0%nat, p|].
      destruct IH as (i & q & Hi & Hs); [|by exists (S i), q].
      cbn in Hleft. unfold cost at 1 in Hleft. by rewrite Hp in Hleft. }
    eexists. apply (calm_move (Register i)).
    + split; [done|]. eapply Forall_impl; [exact Hr|]. apply rest_waits.
    + cbn. rewrite Hi. cbn. rewrite bool_decide_eq_true_2 by done.
      rewrite registration_ok; [done|]. eapply all_register; [done|]. by eapply list_elem_of_lookup_2.
  - destruct Hcase as [(-> & -> & _) | [(-> & -> & _) | (-> & -> & _)]].
    + eexists. apply (calm_move Read); [done|]. cbn [hs_move]. rewrite bool_decide_eq_false_2.
      * rewrite request_entry; [done|]. eapply all_register; [done|]. set_solver.
      * unfold process_entry_block. by destruct e.
    + eexists. by apply (calm_move Work).
    + apply Forall_app in Hr as [Ha Hb]. unfold waits in Hq. pose proof Hq as Hs. apply bool_decide_eq_true in Hs.
      destruct Hs as [Hs | Hs].
      * eexists. apply (calm_move (Open (length a))); [done|]. cbn.
        rewrite list_lookup_middle by done. cbn. by rewrite bool_decide_eq_true_2.
      * eexists. apply (calm_move Release).
        { apply Forall_app. assert (∀ x, at_rest x → pr_state x ≠ LRegistered) as Hne by (intros x [-> | ->]; done).
          split; [by eapply Forall_impl|]. constructor; [by rewrite Hs|by eapply Forall_impl]. }
        cbn. rewrite find_waiting_mid by done. by rewrite bool_decide_eq_true_2.
Qed.

Definition handshake_start (ids : list (Z * bytes)) : Handshake :=
  mkHandshake [] ((λ id, mkProcess id.1 id.2 LStart) <$> ids) DReading [] [].

Lemma start_ok : calm_ok ids (handshake_start ids) ∧ moves_left (handshake_start ids) = (5 * length ids)%nat.
Proof using Type.
  clear Hids. split.
  - constructor; [| |done].
    + cbn. rewrite <-list_fmap_compose. rewrite (list_fmap_ext _ id); [by rewrite list_fmap_id|by intros ? [] ?].
    + apply phase_rest; [done|done|..]; cbn.
      * apply Forall_fmap, Forall_true. by left.
      * induction ids as [|id l IH]; [done|]. rewrite fmap_cons.
        pose proof (running_mid [] (mkProcess id.1 id.2 LStart) ((λ id, mkProcess id.1 id.2 LStart) <$> l)) as E.
        cbn [app] in E. rewrite E by by right. exact IH.
  - unfold moves_left, daemon_cost. cbn. rewrite Nat.add_0_r. induction ids as [|id l IH]; [done|]. cbn in *. lia.
Qed.

Lemma calm_run k st : nsteps calm_step k (handshake_start ids) st →
  calm_ok ids st ∧ (5 * length ids = k + moves_left st)%nat.
Proof using Hids.
  destruct start_ok as [Hok Hleft]. rewrite <-Hleft. clear Hleft. revert Hok. generalize (handshake_start ids).
  induction k as [|k IH]; intros s Hok Hs; inversion Hs as [|? ? s1 ? H1 H2]; subst; [done|].
  apply calm_steps in H1 as [Hok1 Hm]; [|done]. destruct (IH s1 Hok1 H2) as [? ?]. split; [done|lia].
Qed.

(** C11: Processes with numbers below 65536, which is what the daemon keeps of them,
    and names of at most 4083 bytes without NUL ([good_id]), in a calm schedule - one
    registers at a time, and has opened its pipe when the daemon answers: no answer
    is lost and the daemon works on exactly the processes that registered, each under
    its own number and name.  Every such schedule ends after five moves for each
    process, and when it can go no further every process has been let go and was
    worked on once.  ([handshake_slips] has the other schedules, and a larger
    number.) *)
Theorem handshake_calm (k : nat) (st : Handshake) :
  nsteps calm_step k (handshake_start ids) st →
  (k ≤ 5 * length ids)%nat ∧ hs_lost st = [] ∧ (∀ id, id ∈ hs_handled st → id ∈ ids) ∧
  ((∀ st', ¬ calm_step st st') →
     k = (5 * length ids)%nat ∧ Forall (λ p, pr_state p = LRunning) (hs_procs st) ∧ hs_handled st ≡ₚ ids).
Proof using Hids.
  intros Hrun. destruct (calm_run k st Hrun) as [Hok Hk]. split_and!; [lia|by destruct Hok|..].
  - intros id Hin. destruct Hok as [Hid Hph _]. rewrite <-Hid.
    assert (∀ ps, id ∈ running ps → id ∈ identity <$> ps) as Hsub.
    { intros ps (p & -> & Hp)%list_elem_of_fmap. apply list_elem_of_filter in Hp as [_ Hp]. by apply list_elem_of_fmap_2. }
    destruct Hph as [_ _ _ Hh | a p b E _ _ Hcase].
    + rewrite Hh in Hin. by apply Hsub.
    + rewrite E, fmap_app, fmap_cons.
      assert (id ∈ running (a ++ b) ++ [identity p]) as Hin'.
      { destruct Hcase as [(_ & _ & Hh) | [(_ & _ & Hh) | (_ & _ & Hh)]]; rewrite Hh in Hin; [| |done];
          by apply elem_of_app; left. }
      apply elem_of_app in Hin' as [Hin'%Hsub | Hin'].
      * rewrite fmap_app in Hin'. set_solver.
      * set_solver.
  - intros Hstuck. assert (moves_left st = 0%nat) as H0.
    { destruct (decide (moves_left st = 0%nat)) as [|Hne]; [done|]. exfalso.
      destruct (calm_progress st Hok Hne) as [st' Hs]. by apply (Hstuck st'). }
    split; [lia|]. destruct Hok as [Hid Hph _]. unfold moves_left, daemon_cost in H0.
    destruct Hph as [Hd Hp Hr Hh | a p b E Hr Hq Hcase].
    + assert (Forall (λ p, pr_state p = LRunning) (hs_procs st)) as Hall.
      { assert (sum_list_with cost (hs_procs st) = 0%nat) as Hz by lia. clear -Hr Hz.
        induction Hr as [|p ps Hp Hr IH]; [done|]. cbn in Hz. constructor; [|apply IH; lia].
        destruct Hp as [Hp | Hp]; [|done]. unfold cost in Hz. rewrite Hp in Hz. lia. }
      split; [done|]. rewrite Hh, <-Hid. clear -Hall. unfold running.
      induction Hall as [|p ps Hp Hall IH]; [done|]. rewrite filter_cons_True, !fmap_cons; [by rewrite IH|].
      unfold is_running. by apply bool_decide_eq_true.
    + exfalso. destruct Hcase as [(Hd & Hp & _) | [(Hd & _) | (Hd & _)]]; rewrite Hd in H0; [|lia..].
      rewrite Hp, bool_decide_eq_false_2 in H0; [lia|]. unfold process_entry_block. by destruct e.
Qed.
End proofs.

(** ** Concrete runs *)

Definition demo_ids : list (Z * bytes) := [(100, str "/bin/sh"); (200, str "/bin/ls")].

Ltac calm_go m :=
  eapply nsteps_l; [apply (calm_move LittleEndian m); [cbn|vm_compute; reflexivity]|].

Lemma handshake_calm_witness :
  ∃ st, nsteps (calm_step LittleEndian) 10 (handshake_start demo_ids) st ∧ hs_lost st = [] ∧
    hs_handled st = rev demo_ids ∧ Forall (λ p, pr_state p = LRunning) (hs_procs st).
Proof.
  assert (∃ st, nsteps (calm_step LittleEndian) 10 (handshake_start demo_ids) st ∧ hs_handled st = rev demo_ids ∧
    hs_procs st = [mkProcess 100 (str "/bin/sh") LRunning; mkProcess 200 (str "/bin/ls") LRunning])
    as (st & Hrun & Hh & Hp).
  { eexists. split; [|split].
    - calm_go (Register 1). { split; [reflexivity|repeat constructor]. }
      calm_go Read. { exact I. }
      calm_go (Open 1). { exact I. }
      calm_go Work. { exact I. }
      calm_go Release. { repeat constructor; discriminate. }
      calm_go (Register 0). { split; [reflexivity|repeat constructor]. }
      calm_go (Open 0). { exact I. }
      calm_go Read. { exact I. }
      calm_go Work. { exact I. }
      calm_go Release. { repeat constructor; discriminate. }
      apply nsteps_O.
    - vm_compute. reflexivity.
    - vm_compute. reflexivity. }
  destruct (handshake_calm LittleEndian demo_ids) with (k := 10%nat) (st := st) as (_ & Hl & _ & _).
  - repeat (apply Forall_cons_2; [split_and!; [cbn; lia|cbn; lia|by apply (bool_decide_unpack _); vm_compute|cbn; lia]|]).
    apply Forall_nil_2.
  - exact Hrun.
  - exists st. rewrite Hp. split; [exact Hrun|]. split; [exact Hl|]. split; [exact Hh|]. repeat constructor.
Defined.

(** Outside calm schedules processes wait for ever: when two entries are in the pipe
    at one [read] the second is dropped; when the process has not opened its pipe
    when the daemon answers, both attempts of [write_file] fail and are ignored; and
    a process number of more than 16 bits is cut, so that the daemon attaches to and
    answers another process. *)
Theorem handshake_slips :
  (∃ st, hs_run LittleEndian [Register 0; Register 1; Open 0; Open 1; Read; Work; Release] (handshake_start demo_ids)
     = Some st ∧ hs_daemon st = DReading ∧ hs_pipe st = [] ∧ hs_handled st = [(100, str "/bin/sh")] ∧
     pr_state <$> hs_procs st = [LRunning; LOpening]) ∧
  (∃ st, hs_run LittleEndian [Register 0; Read; Work; Release; Release; Open 0] (handshake_start [(100, str "/bin/sh")])
     = Some st ∧ hs_daemon st = DReading ∧ hs_pipe st = [] ∧ hs_lost st = [100] ∧
     pr_state <$> hs_procs st = [LOpening]) ∧
  (∃ st, hs_run LittleEndian [Register 0; Open 0; Read; Work; Release] (handshake_start [(70000, str "/bin/sh")])
     = Some st ∧ hs_daemon st = DReading ∧ hs_pipe st = [] ∧ hs_handled st = [(4464, str "/bin/sh")] ∧
     hs_lost st = [4464] ∧ pr_state <$> hs_procs st = [LOpening]).
Proof. split_and!; eexists; (split; [vm_compute; reflexivity|]); split_and!; vm_compute; reflexivity. Qed.
