(* ===== verification/KernelModule.v ===== *)
(** * The kernel module (src/src/kernel/kprobe-coverage.c)

    The module behind the kernel engine: addresses written to its control file
    become kprobes, a probe that fires moves its entry to the hit list, and the
    show file reports the entries of that list.  Entries are memory: they are
    allocated and freed, and may sit on one of three lists, in the hands of a
    writer or of a reader, and in the work queue; an access to a freed entry, or
    the removal of one that is on no list, is [Fault], a failed [BUG_ON] is
    [Panic].  The handlers are first given one by one, as the code has them;
    [kexec] is the module as a machine whose steps are the critical sections, in
    whatever order processes, probes and the worker come to them. *)
From S2P Require Export Interfaces.
From S2P Require Import CxxString Utils.
From stdpp Require Import options.

(** ** State *)

(** [struct kprobe_coverage_entry]; [ke_addr] is [kp.addr]. *)
Record kprobe_coverage_entry := mkKpcEntry {
  ke_name_index : Z;
  ke_base_addr : Z;
  ke_addr : Z;
}.

(** [struct kprobe_coverage], with what belongs to the kernel: [kpc_heap] the
    entries allocated and not freed, [kpc_fresh] the next one, [kpc_probes] the
    registered kprobes, [kpc_workqueue] the work of [workqueue] that waits. *)
Record kprobe_coverage := mkKpc {
  kpc_deferred_list : list nat;
  kpc_pending_list : list nat;
  kpc_hit_list : list nat;
  kpc_module_names : list (option bytes);
  kpc_name_count : Z;
  kpc_lock : bool;
  kpc_heap : gmap nat kprobe_coverage_entry;
  kpc_fresh : nat;
  kpc_probes : gset nat;
  kpc_workqueue : list nat;
}.

(** What the module asks of the kernel: where a loaded module is, whether a probe
    can be registered at an address, what [unregister_kprobe] leaves as the
    address of a probe that is not registered, whether memory could be had, and
    [simple_strtoul] to base 16 with the number of characters it consumed. *)
Record Kernel := {
  k_find_module : bytes → option Z;
  k_register_kprobe : Z → bool;
  k_unregister_twice : Z → Z;
  k_kzalloc : bool;
  k_kstrdup : bool;
  k_simple_strtoul : bytes → Z * nat;
}.

Definition kpc_lists (d p h : list nat) (s : kprobe_coverage) : kprobe_coverage :=
  mkKpc d p h (kpc_module_names s) (kpc_name_count s) (kpc_lock s) (kpc_heap s) (kpc_fresh s)
    (kpc_probes s) (kpc_workqueue s).
Definition kpc_names (names : list (option bytes)) (n : Z) (s : kprobe_coverage) : kprobe_coverage :=
  mkKpc (kpc_deferred_list s) (kpc_pending_list s) (kpc_hit_list s) names n (kpc_lock s)
    (kpc_heap s) (kpc_fresh s) (kpc_probes s) (kpc_workqueue s).
Definition kpc_locked (b : bool) (s : kprobe_coverage) : kprobe_coverage :=
  mkKpc (kpc_deferred_list s) (kpc_pending_list s) (kpc_hit_list s) (kpc_module_names s)
    (kpc_name_count s) b (kpc_heap s) (kpc_fresh s) (kpc_probes s) (kpc_workqueue s).
Definition kpc_memory (heap : gmap nat kprobe_coverage_entry) (fresh : nat) (s : kprobe_coverage)
  : kprobe_coverage :=
  mkKpc (kpc_deferred_list s) (kpc_pending_list s) (kpc_hit_list s) (kpc_module_names s)
    (kpc_name_count s) (kpc_lock s) heap fresh (kpc_probes s) (kpc_workqueue s).
Definition kpc_kernel (probes : gset nat) (work : list nat) (s : kprobe_coverage)
  : kprobe_coverage :=
  mkKpc (kpc_deferred_list s) (kpc_pending_list s) (kpc_hit_list s) (kpc_module_names s)
    (kpc_name_count s) (kpc_lock s) (kpc_heap s) (kpc_fresh s) probes work.

(** What [kzalloc] and [kpc_init] leave. *)
Definition kpc_initial : kprobe_coverage :=
  mkKpc [] [] [] (replicate 32 None) 1 false ∅ 0 ∅ [].

(** ** Lists, memory and locks *)

Definition kpc_entry (id : nat) (s : kprobe_coverage) : res kprobe_coverage_entry :=
  or_fault (kpc_heap s !! id).

(** [list_del] unlinks an entry from the list it is on; the links of an entry on
    no list are poison. *)
Definition list_without (id : nat) (l : list nat) : list nat := filter (λ i, i ≠ id) l.
Arguments list_without : simpl never.
Definition on_list (s : kprobe_coverage) : list nat :=
  kpc_deferred_list s ++ kpc_pending_list s ++ kpc_hit_list s.
Definition list_del (id : nat) (s : kprobe_coverage) : res kprobe_coverage :=
  _ ← kpc_entry id s;
  if bool_decide (id ∈ on_list s) then
    Ok (kpc_lists (list_without id (kpc_deferred_list s)) (list_without id (kpc_pending_list s))
          (list_without id (kpc_hit_list s)) s)
  else Fault.

Definition free_entry (id : nat) (s : kprobe_coverage) : res kprobe_coverage :=
  _ ← kpc_entry id s;
  Ok (kpc_memory (delete id (kpc_heap s)) (kpc_fresh s) s).

(** Taking the mutex twice would wait forever. *)
Definition mutex_lock (s : kprobe_coverage) : res kprobe_coverage :=
  if kpc_lock s then Fault else Ok (kpc_locked true s).
Definition mutex_unlock (s : kprobe_coverage) : kprobe_coverage := kpc_locked false s.
Definition BUG_ON_unlocked (s : kprobe_coverage) : res unit :=
  if kpc_lock s then Ok tt else Panic.

Section kernel.
Context (k : Kernel).

Definition register_kprobe (id : nat) (s : kprobe_coverage) : res (bool * kprobe_coverage) :=
  e ← kpc_entry id s;
  if k_register_kprobe k (ke_addr e)
  then Ok (true, kpc_kernel ({[id]} ∪ kpc_probes s) (kpc_workqueue s) s)
  else Ok (false, s).

Definition unregister_kprobe (id : nat) (s : kprobe_coverage) : res kprobe_coverage :=
  e ← kpc_entry id s;
  if bool_decide (id ∈ kpc_probes s)
  then Ok (kpc_kernel (kpc_probes s ∖ {[id]}) (kpc_workqueue s) s)
  else
    Ok (kpc_memory
          (<[id := mkKpcEntry (ke_name_index e) (ke_base_addr e) (k_unregister_twice k (ke_addr e))]>
             (kpc_heap s)) (kpc_fresh s) s).

(** ** Module names *)

(** The loop from [i] on, over the names from there. *)
Fixpoint name_search (names : list (option bytes)) (i : Z) (name : bytes) : res Z :=
  match names with
  | [] => Ok (-1)
  | n :: names =>
      n ← or_fault n;
      if bool_decide (n = name) then Ok i else name_search names (i + 1) name
  end.

Definition module_name_to_index (module_name : option bytes) (s : kprobe_coverage) : res Z :=
  _ ← BUG_ON_unlocked s;
  match module_name with
  | None => Ok 0
  | Some name => name_search (take (Z.to_nat (kpc_name_count s) - 1) (drop 1 (kpc_module_names s))) 1 name
  end.

Definition kpc_allocate_module_name_index (module_name : option bytes) (s : kprobe_coverage)
  : res (Z * kprobe_coverage) :=
  s ← mutex_lock s;
  index ← module_name_to_index module_name s;
  let '(index, s) :=
    if (index <? 0) && (kpc_name_count s <? 32) then
      let index := kpc_name_count s in
      (index,
       kpc_names (<[Z.to_nat index := if k_kstrdup k then module_name else None]> (kpc_module_names s))
         (kpc_name_count s + 1) s)
    else (index, s) in
  Ok (index, mutex_unlock s).

(** ** Probes *)

(** [kpc_pre_handler]: work that already waits is not queued again. *)
Definition kpc_pre_handler (id : nat) (s : kprobe_coverage) : res kprobe_coverage :=
  _ ← kpc_entry id s;
  if bool_decide (id ∈ kpc_workqueue s) then Ok s
  else Ok (kpc_kernel (kpc_probes s) (kpc_workqueue s ++ [id]) s).

(** The part of [kpc_probe_work] under the lock. *)
Definition probe_work_move (id : nat) (s : kprobe_coverage) : res kprobe_coverage :=
  s ← mutex_lock s;
  s ← list_del id s;
  Ok (mutex_unlock
        (kpc_lists (kpc_deferred_list s) (kpc_pending_list s) (kpc_hit_list s ++ [id]) s)).

Definition kpc_probe_work (id : nat) (s : kprobe_coverage) : res kprobe_coverage :=
  s ← unregister_kprobe id s;
  probe_work_move id s.

(** [None] for memory that could not be had. *)
Definition new_entry (module_name : option bytes) (module : option Z) (where_ : Z) (s : kprobe_coverage)
  : res (option nat * kprobe_coverage) :=
  if negb (k_kzalloc k) then Ok (None, s)
  else
    let base_addr := default 0 module in
    '(index, s) ← kpc_allocate_module_name_index module_name s;
    let id := kpc_fresh s in
    Ok (Some id,
        kpc_memory (<[id := mkKpcEntry index base_addr (u64 (base_addr + where_))]> (kpc_heap s))
          (S id) s).

Definition enable_probe (id : nat) (s : kprobe_coverage) : res (bool * kprobe_coverage) :=
  _ ← BUG_ON_unlocked s;
  _ ← kpc_entry id s;
  let s := kpc_lists (kpc_deferred_list s) (id :: kpc_pending_list s) (kpc_hit_list s) s in
  '(ok, s) ← register_kprobe id s;
  if ok : bool then Ok (true, s)
  else s ← list_del id s; Ok (false, s).

Definition defer_probe (id : nat) (s : kprobe_coverage) : res kprobe_coverage :=
  _ ← kpc_entry id s;
  Ok (kpc_lists (id :: kpc_deferred_list s) (kpc_pending_list s) (kpc_hit_list s) s).

(** [kpc_add_probe] up to the second critical section: the entry, and whether it
    is to be deferred. *)
Definition add_probe_prepare (module_name : option bytes) (where_ : Z) (s : kprobe_coverage)
  : res (option nat * bool * kprobe_coverage) :=
  let module := name ← module_name; k_find_module k name in
  '(entry, s) ← new_entry module_name module where_ s;
  Ok (entry, bool_decide (is_Some module_name ∧ module = None), s).

(** The rest: the entry, which nothing checked, is used. *)
Definition add_probe_insert (entry : option nat) (defer : bool) (s : kprobe_coverage)
  : res kprobe_coverage :=
  s ← mutex_lock s;
  id ← or_fault entry;
  '(ok, s) ← (if defer then s ← defer_probe id s; Ok (true, s) else enable_probe id s);
  let s := mutex_unlock s in
  if ok : bool then Ok s else free_entry id s.

Definition kpc_add_probe (module_name : option bytes) (where_ : Z) (s : kprobe_coverage)
  : res kprobe_coverage :=
  '(entry, defer, s) ← add_probe_prepare module_name where_ s;
  add_probe_insert entry defer s.

(** ** Clearing *)

Definition clear_entry (do_unregister : bool) (s : kprobe_coverage) (id : nat)
  : res kprobe_coverage :=
  s ← (if do_unregister then unregister_kprobe id s else Ok s);
  s ← list_del id s;
  free_entry id s.

Definition clear_list (l : kprobe_coverage → list nat) (do_unregister : bool) (s : kprobe_coverage)
  : res kprobe_coverage :=
  _ ← BUG_ON_unlocked s;
  res_foldl (clear_entry do_unregister) s (l s).

(** The names below [n] are freed and forgotten. *)
Definition clear_names (n : nat) (names : list (option bytes)) : list (option bytes) :=
  foldl (λ names i, <[i := None]> names) names (seq 0 n).

Definition kpc_clear (s : kprobe_coverage) : res kprobe_coverage :=
  s ← mutex_lock s;
  s ← clear_list kpc_deferred_list false s;
  s ← clear_list kpc_hit_list true s;
  s ← clear_list kpc_pending_list true s;
  let s := kpc_lists [] [] [] s in
  let s := kpc_names (clear_names (Z.to_nat (kpc_name_count s)) (kpc_module_names s)) 1 s in
  Ok (mutex_unlock s).

(** ** The show file *)

Definition kpc_unlink_next (s : kprobe_coverage) : res (option nat * kprobe_coverage) :=
  s ← mutex_lock s;
  '(entry, s) ← match kpc_hit_list s with
                | [] => Ok (None, s)
                | id :: _ => s ← list_del id s; Ok (Some id, s)
                end;
  Ok (entry, mutex_unlock s).

(** [kpc_seq_start] waits for the hit list; [None] is that it still waits, unless
    a signal ends the wait. *)
Definition kpc_seq_start (signal : bool) (s : kprobe_coverage)
  : option (res (option nat * kprobe_coverage)) :=
  match kpc_hit_list s with
  | [] => if signal then Some (Ok (None, s)) else None
  | _ => Some (kpc_unlink_next s)
  end.

Definition kpc_seq_next (s : kprobe_coverage) : res (option nat * kprobe_coverage) :=
  kpc_unlink_next s.

(** ["%s%s0x%016lx\n"] *)
Definition kpc_line (module_name : option bytes) (addr : Z) : bytes :=
  match module_name with Some n => n ++ str ":" | None => [] end
    ++ str "0x" ++ pad_left "0"%char 16 (fmt_x addr) ++ ["010"%char].

(** [module_names[i]] of the 32 *)
Definition name_at (i : Z) (names : list (option bytes)) : res (option bytes) :=
  if 0 <=? i then or_fault (names !! Z.to_nat i) else Fault.

Definition kpc_seq_show (id : nat) (s : kprobe_coverage) : res (bytes * kprobe_coverage) :=
  e ← kpc_entry id s;
  module_name ← name_at (ke_name_index e) (kpc_module_names s);
  let addr := u64 (ke_addr e - ke_base_addr e) in
  s ← free_entry id s;
  Ok (kpc_line module_name addr, s).

(** ** The control file *)

(** [strsep(&p, "\r\n")]: the line up to a delimiter, and what is after it;
    nothing when there was none. *)
Definition is_line_end (c : ascii) : bool := bool_decide (c = "013"%char ∨ c = "010"%char).
Fixpoint split_line (s : bytes) : bytes * option bytes :=
  match s with
  | [] => ([], None)
  | c :: s => if is_line_end c then ([], Some s) else let '(l, p) := split_line s in (c :: l, p)
  end.

Definition control_split (line : bytes) : option bytes * bytes :=
  match str_find (str ":") line with
  | Some i => (Some (take i line), drop (i + 1) line)
  | None => (None, line)
  end.

(** The loop of [kpc_control_write]: what was consumed, and the new state. *)
Fixpoint control_lines (fuel : nat) (p : option bytes) (out : Z) (s : kprobe_coverage)
  : res (Z * kprobe_coverage) :=
  match fuel, p with
  | S fuel, Some p =>
      match split_line p with
      | ([], _) | (_, None) => Ok (out, s)
      | (line, Some p) =>
          let out := out + Z.of_nat (length line) + 1 in
          if bool_decide (line = str "clear") then s ← kpc_clear s; Ok (out, s)
          else
            let '(module, addr_p) := control_split line in
            let '(addr, n) := k_simple_strtoul k addr_p in
            if bool_decide (n = 0%nat ∨ n ≠ length addr_p) then control_lines fuel (Some p) out s
            else s ← kpc_add_probe module addr s; control_lines fuel (Some p) out s
      end
  | _, _ => Ok (out, s)
  end.

(** The results that are errors: [E2BIG], [ENOMEM], [EFAULT]. *)
Inductive write_result := Written (n : Z) | WriteError (errno : Z).

Definition kpc_control_write (copy_ok : bool) (user_buf : bytes) (s : kprobe_coverage)
  : res (write_result * kprobe_coverage) :=
  if 4096 <? Z.of_nat (length user_buf) then Ok (WriteError 7, s)
  else if negb (k_kzalloc k) then Ok (WriteError 12, s)
  else if negb copy_ok then Ok (WriteError 14, s)
  else
    '(out, s) ← control_lines (S (length user_buf)) (Some (c_prefix user_buf)) 0 s;
    Ok (Written out, s).

(** ** Modules that come and go *)

Definition coming_entry (mod_name : bytes) (module_core : Z) (s : kprobe_coverage) (id : nat)
  : res kprobe_coverage :=
  e ← kpc_entry id s;
  index ← module_name_to_index (Some mod_name) s;
  if bool_decide (index ≠ ke_name_index e) then Ok s
  else
    s ← list_del id s;
    let e := mkKpcEntry (ke_name_index e) module_core (u64 (ke_addr e + module_core)) in
    let s := kpc_memory (<[id := e]> (kpc_heap s)) (kpc_fresh s) s in
    '(ok, s) ← enable_probe id s;
    if ok : bool then Ok s else free_entry id s.

Definition kpc_handle_coming_module (mod_name : bytes) (module_core : Z) (s : kprobe_coverage)
  : res kprobe_coverage :=
  s ← mutex_lock s;
  s ← res_foldl (coming_entry mod_name module_core) s (kpc_deferred_list s);
  Ok (mutex_unlock s).

Definition going_entry (mod_name : bytes) (s : kprobe_coverage) (id : nat) : res kprobe_coverage :=
  e ← kpc_entry id s;
  index ← module_name_to_index (Some mod_name) s;
  if bool_decide (index ≠ ke_name_index e) then Ok s
  else
    s ← unregister_kprobe id s;
    s ← list_del id s;
    free_entry id s.

Definition kpc_handle_going_module (mod_name : bytes) (s : kprobe_coverage) : res kprobe_coverage :=
  s ← mutex_lock s;
  s ← res_foldl (going_entry mod_name) s (kpc_pending_list s);
  Ok (mutex_unlock s).

Inductive module_event := MODULE_STATE_COMING | MODULE_STATE_GOING | module_state_other.

Definition kpc_module_notifier (event : module_event) (mod_name : bytes) (module_core : Z)
    (s : kprobe_coverage) : res kprobe_coverage :=
  match event with
  | MODULE_STATE_COMING => kpc_handle_coming_module mod_name module_core s
  | MODULE_STATE_GOING => kpc_handle_going_module mod_name s
  | module_state_other => Ok s
  end.
End kernel.

(** ** Loading and unloading *)

(** What the kernel grants at initialisation. *)
Record kpc_grants := mkGrants {
  g_memory : bool;
  g_workqueue : bool;
  g_debugfs_dir : bool;
  g_control : bool;
  g_show : bool;
  g_notifier : bool;
}.

Inductive kpc_resource := kr_workqueue | kr_debugfs | kr_notifier | kr_global_kpc.
#[global] Instance kpc_resource_eq_dec : EqDecision kpc_resource.
Proof. solve_decision. Defined.

(** The result and the resources held afterwards; the labels [out_files] and
    [out_workqueue] give them back. *)
Definition out_workqueue (held : list kpc_resource) : Z * list kpc_resource :=
  (-22, filter (λ r, r ≠ kr_workqueue) held).
Definition out_files (held : list kpc_resource) : Z * list kpc_resource :=
  out_workqueue (filter (λ r, r ≠ kr_debugfs) held).

Definition kpc_init (g : kpc_grants) (held : list kpc_resource) : Z * list kpc_resource :=
  if negb (g_workqueue g) then (-19, held)
  else
    let held := kr_workqueue :: held in
    if negb (g_debugfs_dir g) then out_workqueue held
    else
      let held := kr_debugfs :: held in
      if negb (g_control g) then out_files held
      else if negb (g_show g) then out_files held
      else if negb (g_notifier g) then out_files held
      else (0, kr_notifier :: held).

Definition kpc_init_module (g : kpc_grants) : Z * list kpc_resource :=
  if negb (g_memory g) then (-12, [])
  else
    let '(out, held) := kpc_init g [kr_global_kpc] in
    if out <? 0 then (out, filter (λ r, r ≠ kr_global_kpc) held) else (out, held).

(** [kpc_exit_module]: the entries are freed, then the rest in this order. *)
Definition kpc_exit_module (k : Kernel) (s : kprobe_coverage) (held : list kpc_resource)
  : res (kprobe_coverage * list kpc_resource) :=
  s ← kpc_clear k s;
  Ok (s, foldl (λ held r, filter (λ x, x ≠ r) held) held
           [kr_debugfs; kr_notifier; kr_workqueue; kr_global_kpc]).

(** ** The module as a machine *)

(** Besides the shared state: the writers between the two parts of
    [kpc_add_probe], the work item the worker runs (and whether its probe is
    already unregistered), the entries readers took from the hit list and have
    not shown.  The histories: the probes that fired, in the order in which they
    first did, without those a clear dropped; the entries taken; what was shown. *)
Record ksystem := mkKsystem {
  sys_kpc : kprobe_coverage;
  sys_adding : list (option nat * bool);
  sys_working : option (nat * bool);
  sys_showing : list nat;
  sys_fired : list nat;
  sys_taken : list nat;
  sys_output : bytes;
}.

Definition ksys_initial : ksystem := mkKsystem kpc_initial [] None [] [] [] [].

Inductive kevent :=
  | EvPrepare (module_name : option bytes) (where_ : Z)
  | EvInsert (i : nat)
  | EvClear
  | EvComing (mod_name : bytes) (module_core : Z)
  | EvGoing (mod_name : bytes)
  | EvHit (id : nat)
  | EvDequeue
  | EvUnregister
  | EvMove
  | EvTake
  | EvShow (id : nat).

Definition with_kpc (σ : ksystem) (s : kprobe_coverage) : ksystem :=
  mkKsystem s (sys_adding σ) (sys_working σ) (sys_showing σ) (sys_fired σ) (sys_taken σ)
    (sys_output σ).

(** A step; [None] is an event that cannot happen now.  A probe fires while it is
    registered; the worker takes one item at a time. *)
Definition kexec (k : Kernel) (e : kevent) (σ : ksystem) : option (res ksystem) :=
  let s := sys_kpc σ in
  match e with
  | EvPrepare name where_ =>
      Some ('(entry, defer, s) ← add_probe_prepare k name where_ s;
            Ok (mkKsystem s (sys_adding σ ++ [(entry, defer)]) (sys_working σ) (sys_showing σ)
                  (sys_fired σ) (sys_taken σ) (sys_output σ)))
  | EvInsert i =>
      match sys_adding σ !! i with
      | None => None
      | Some (entry, defer) =>
          Some (s ← add_probe_insert k entry defer s;
                Ok (mkKsystem s (delete i (sys_adding σ)) (sys_working σ) (sys_showing σ)
                      (sys_fired σ) (sys_taken σ) (sys_output σ)))
      end
  | EvClear =>
      Some (s ← kpc_clear k s;
            Ok (mkKsystem s (sys_adding σ) (sys_working σ) (sys_showing σ) (sys_taken σ)
                  (sys_taken σ) (sys_output σ)))
  | EvComing name core =>
      Some (with_kpc σ <$> kpc_module_notifier k MODULE_STATE_COMING name core s)
  | EvGoing name => Some (with_kpc σ <$> kpc_module_notifier k MODULE_STATE_GOING name 0 s)
  | EvHit id =>
      if bool_decide (id ∈ kpc_probes s) then
        Some (s ← kpc_pre_handler id s;
              Ok (mkKsystem s (sys_adding σ) (sys_working σ) (sys_showing σ)
                    (if bool_decide (id ∈ sys_fired σ) then sys_fired σ else sys_fired σ ++ [id])
                    (sys_taken σ) (sys_output σ)))
      else None
  | EvDequeue =>
      match sys_working σ, kpc_workqueue s with
      | None, id :: rest =>
          Some (Ok (mkKsystem (kpc_kernel (kpc_probes s) rest s) (sys_adding σ) (Some (id, false))
                      (sys_showing σ) (sys_fired σ) (sys_taken σ) (sys_output σ)))
      | _, _ => None
      end
  | EvUnregister =>
      match sys_working σ with
      | Some (id, false) =>
          Some (s ← unregister_kprobe k id s;
                Ok (mkKsystem s (sys_adding σ) (Some (id, true)) (sys_showing σ) (sys_fired σ)
                      (sys_taken σ) (sys_output σ)))
      | _ => None
      end
  | EvMove =>
      match sys_working σ with
      | Some (id, true) =>
          Some (s ← probe_work_move id s;
                Ok (mkKsystem s (sys_adding σ) None (sys_showing σ) (sys_fired σ) (sys_taken σ)
                      (sys_output σ)))
      | _ => None
      end
  | EvTake =>
      match kpc_seq_start false s with
      | None => None
      | Some r =>
          Some ('(entry, s) ← r;
                Ok (mkKsystem s (sys_adding σ) (sys_working σ) (sys_showing σ ++ option_list entry)
                      (sys_fired σ) (sys_taken σ ++ option_list entry) (sys_output σ)))
      end
  | EvShow id =>
      if bool_decide (id ∈ sys_showing σ) then
        Some ('(line, s) ← kpc_seq_show id s;
              Ok (mkKsystem s (sys_adding σ) (sys_working σ) (list_without id (sys_showing σ))
                    (sys_fired σ) (sys_taken σ) (sys_output σ ++ line)))
      else None
  end.

(** [kexec] as a relation, for some answers of the kernel; and from the state
    after loading on. *)
Inductive kstep : ksystem → ksystem → Prop :=
  | KStep k e σ σ' : kexec k e σ = Some (Ok σ') → kstep σ σ'.

Definition kreachable (σ : ksystem) : Prop := rtc kstep ksys_initial σ.

(** A given schedule. *)
Fixpoint krun (evs : list (Kernel * kevent)) (σ : ksystem) : option (res ksystem) :=
  match evs with
  | [] => Some (Ok σ)
  | (k, e) :: evs =>
      match kexec k e σ with
      | Some (Ok σ) => krun evs σ
      | r => r
      end
  end.

(** The schedules in which nothing goes wrong: memory can be had, the name table
    has room, nothing is freed while there is work for it, and a probe does not
    fire again while the worker is at it. *)
Definition work_of (σ : ksystem) : list nat :=
  option_list (fst <$> sys_working σ) ++ kpc_workqueue (sys_kpc σ).

Definition calm (k : Kernel) (e : kevent) (σ : ksystem) : Prop :=
  let s := sys_kpc σ in
  match e with
  | EvPrepare name _ =>
      k_kzalloc k = true ∧ k_kstrdup k = true ∧
      (kpc_name_count s < 32 ∨ name ∈ take (Z.to_nat (kpc_name_count s)) (kpc_module_names s))
  | EvClear => work_of σ = []
  | EvGoing name =>
      ∀ id e, id ∈ work_of σ → kpc_heap s !! id = Some e →
        kpc_module_names s !! Z.to_nat (ke_name_index e) ≠ Some (Some name)
  | EvHit id => id ∉ option_list (fst <$> sys_working σ)
  | _ => True
  end.

Inductive calm_step : ksystem → ksystem → Prop :=
  | CalmStep k e σ σ' : calm k e σ → kexec k e σ = Some (Ok σ') → calm_step σ σ'.
