(* ===== verification/KernelProofs.v ===== *)
(** * The kernel module: proofs

    Who owns the entries, in every state the machine of KernelModule.v reaches;
    that calm schedules fault nowhere and report every probe that fires once, in
    order; and the composition with the kernel engine. *)
From S2P Require Export KernelModule SystemEngine.
From S2P Require Import CxxString Utils.
From stdpp Require Import options.

(** ** What a handler may do

    [outcome F P m]: [m] returns a value in [P]; it faults only if [F]. *)
Definition outcome {A} (F : Prop) (P : A → Prop) (m : res A) : Prop :=
  match m with Ok a => P a | Fault => F | _ => False end.

Lemma holds_bind {A B} F (P : B → Prop) (m : res A) (f : A → res B) :
  outcome F (λ a, outcome F P (f a)) m → outcome F P (a ← m; f a).
Proof. by destruct m. Qed.

Lemma outcome_mono {A} (F F' : Prop) (P Q : A → Prop) m :
  outcome F P m → (F → F') → (∀ a, P a → Q a) → outcome F' Q m.
Proof. destruct m; cbn; auto. Qed.

Lemma outcome_seq {A B} F (Q : A → Prop) (P : B → Prop) (m : res A) (f : A → res B) :
  outcome F Q m → (∀ a, Q a → outcome F P (f a)) → outcome F P (a ← m; f a).
Proof. intros. apply holds_bind. by eapply outcome_mono. Qed.

Lemma outcome_fault {A} F (P : A → Prop) o :
  (o = None → F) → (∀ a, o = Some a → P a) → outcome F P (or_fault o).
Proof. destruct o; cbn; auto. Qed.

(** Through a loop, with what has been seen. *)
Lemma outcome_foldl {A S} F (P : list A → S → Prop) (f : S → A → res S) l s :
  P [] s →
  (∀ pre x post s, l = pre ++ x :: post → P pre s → outcome F (P (pre ++ [x])) (f s x)) →
  outcome F (P l) (res_foldl f s l).
Proof.
  intros H0 Hf.
  assert (∀ post pre s, l = pre ++ post → P pre s → outcome F (P l) (res_foldl f s post)) as H.
  { induction post as [|x post IH]; intros pre s1 E HP; cbn; [by rewrite E, app_nil_r|].
    eapply outcome_seq; [by eapply Hf|]. intros s2 H2.
    apply (IH (pre ++ [x])); [|done]. by rewrite <-app_assoc. }
  by apply (H l []).
Qed.

(** ** Ownership *)

(** The entries of [l] are those in memory, each once. *)
Definition owns (l : list nat) (heap : gmap nat kprobe_coverage_entry) : Prop :=
  NoDup l ∧ ∀ id, id ∈ l ↔ is_Some (heap !! id).

#[global] Instance owns_proper : Proper ((≡ₚ) ==> (=) ==> iff) owns.
Proof.
  intros l l' E h h' ->. unfold owns. rewrite E. by setoid_rewrite E.
Qed.

Lemma list_without_elem id i l : i ∈ list_without id l ↔ i ≠ id ∧ i ∈ l.
Proof. unfold list_without. by rewrite list_elem_of_filter. Qed.
#[global] Instance set_unfold_list_without i id l P :
  SetUnfoldElemOf i l P → SetUnfoldElemOf i (list_without id l) (i ≠ id ∧ P).
Proof. constructor. by rewrite list_without_elem, (set_unfold_elem_of i l P). Qed.
Lemma list_without_app id l k : list_without id (l ++ k) = list_without id l ++ list_without id k.
Proof. apply filter_app. Qed.
Lemma list_without_not id l : id ∉ l → list_without id l = l.
Proof.
  unfold list_without. induction l as [|i l IH]; intros H; [done|].
  apply not_elem_of_cons in H as [H1 H2]. rewrite filter_cons_True by done. by rewrite IH.
Qed.
Lemma list_without_cons id l : list_without id (id :: l) = list_without id l.
Proof. unfold list_without. by rewrite filter_cons_False by naive_solver. Qed.
Lemma list_without_perm id l : NoDup l → id ∈ l → l ≡ₚ id :: list_without id l.
Proof.
  intros Hn Hi. apply NoDup_Permutation; [done| |].
  - constructor; [rewrite list_without_elem; naive_solver|]. by apply NoDup_filter.
  - intros i. rewrite elem_of_cons, list_without_elem. destruct (decide (i = id)); naive_solver.
Qed.

Lemma owns_delete id l h : owns l h → owns (list_without id l) (delete id h).
Proof.
  intros [Hn Hl]. split; [by apply NoDup_filter|]. intros i.
  rewrite list_without_elem, Hl, lookup_delete_is_Some. naive_solver.
Qed.
Lemma owns_alloc id e l h : owns l h → h !! id = None → owns (id :: l) (<[id := e]> h).
Proof.
  intros [Hn Hl] Hi. split.
  - constructor; [|done]. rewrite Hl, Hi. by intros [? ?].
  - intros i. rewrite elem_of_cons, Hl, lookup_insert_is_Some. destruct (decide (i = id)); naive_solver.
Qed.
Lemma owns_update id e l h : owns l h → id ∈ l → owns l (<[id := e]> h).
Proof.
  intros [Hn Hl] Hi. split; [done|]. intros i. rewrite Hl, lookup_insert_is_Some.
  destruct (decide (i = id)) as [->|]; [|naive_solver]. rewrite <-Hl. naive_solver.
Qed.
Lemma owns_live id l h : owns l h → id ∈ l → ∃ e, h !! id = Some e.
Proof. intros [_ Hl] Hi. by apply Hl in Hi. Qed.

(** ** The invariant of the shared state

    [out] are the entries in the hands of writers and readers.  [strict] is for
    schedules in which memory can be had and the name table has room: then every
    entry has a name, and every name was copied. *)
Record kpc_inv (strict lock : bool) (out : list nat) (s : kprobe_coverage) : Prop := {
  ki_owns : owns (on_list s ++ out) (kpc_heap s);
  ki_fresh : ∀ id, is_Some (kpc_heap s !! id) → (id < kpc_fresh s)%nat;
  ki_probes : ∀ id, id ∈ kpc_probes s → id ∈ kpc_pending_list s;
  ki_count : 1 ≤ kpc_name_count s ≤ 32;
  ki_names : length (kpc_module_names s) = 32%nat;
  ki_kernel : kpc_module_names s !! 0%nat = Some None;
  ki_index : ∀ id e, kpc_heap s !! id = Some e →
    (if strict then 0 else -1) ≤ ke_name_index e < 32;
  ki_named : strict = true → ∀ i, (1 ≤ i < Z.to_nat (kpc_name_count s))%nat →
    ∃ n, kpc_module_names s !! i = Some (Some n);
  ki_lock : kpc_lock s = lock;
}.

(** What a handler that works on the entries [out] leaves as it was. *)
Record kpc_frame (keep : nat → Prop) (out : list nat) (s s' : kprobe_coverage) : Prop := {
  kf_work : kpc_workqueue s' = kpc_workqueue s;
  kf_fresh : (kpc_fresh s ≤ kpc_fresh s')%nat;
  kf_deferred : ∀ id, id ∈ kpc_deferred_list s' → id ∈ kpc_deferred_list s ∨ id ∈ out;
  kf_probes : ∀ id, id ∈ kpc_probes s' → id ∈ kpc_probes s ∨ id ∈ kpc_deferred_list s ∨ id ∈ out;
  kf_lists : ∀ id, id ∈ on_list s' → id ∈ on_list s ∨ id ∈ out;
  kf_pending : ∀ id, keep id → id ∈ kpc_pending_list s → id ∈ kpc_pending_list s';
  kf_hit : kpc_hit_list s' = kpc_hit_list s;
  kf_heap : ∀ id e', (id < kpc_fresh s)%nat → kpc_heap s' !! id = Some e' →
    ∃ e, kpc_heap s !! id = Some e ∧ ke_name_index e' = ke_name_index e;
  kf_names : kpc_module_names s' = kpc_module_names s;
}.

Lemma kpc_frame_refl keep out s : kpc_frame keep out s s.
Proof. constructor; eauto. Qed.

Lemma kpc_frame_trans keep out s1 s2 s3 :
  kpc_frame keep out s1 s2 → kpc_frame keep out s2 s3 → kpc_frame keep out s1 s3.
Proof.
  intros [] []. constructor; try congruence; try lia; [naive_solver..|].
  intros id e' Hlt (e & He & ->)%kf_heap1; [|lia]. naive_solver.
Qed.

#[export] Hint Resolve kpc_frame_refl : kcov.

Lemma on_list_lists d p h s : on_list (kpc_lists d p h s) = d ++ p ++ h.
Proof. done. Qed.

Lemma inv_locked strict b b' out s :
  kpc_inv strict b out s → kpc_inv strict b' out (kpc_locked b' s).
Proof. intros []. by constructor. Qed.

(** Relinking. *)
Lemma inv_lists strict b out out' d p h s :
  kpc_inv strict b out s → d ++ p ++ h ++ out' ≡ₚ on_list s ++ out →
  (∀ id, id ∈ kpc_probes s → id ∈ p) → kpc_inv strict b out' (kpc_lists d p h s).
Proof.
  intros [] E Hp. constructor; try done.
  by rewrite on_list_lists, <-!app_assoc, E.
Qed.

Lemma inv_perm strict b out out' s : out ≡ₚ out' → kpc_inv strict b out s → kpc_inv strict b out' s.
Proof. intros E []. constructor; try done. by rewrite <-E. Qed.

#[global] Instance kpc_inv_proper strict b : Proper ((≡ₚ) ==> (=) ==> iff) (kpc_inv strict b).
Proof. intros l l' E s s' ->. split; apply inv_perm; by rewrite E. Qed.

Lemma inv_live strict b out s id :
  kpc_inv strict b out s → id ∈ on_list s ++ out → ∃ e, kpc_heap s !! id = Some e.
Proof. intros H. eapply owns_live, ki_owns, H. Qed.

(** An entry out of the lists is not registered. *)
Lemma inv_out_probe strict b out s id :
  kpc_inv strict b out s → id ∈ out → id ∉ kpc_probes s ∧ id ∉ on_list s.
Proof.
  intros H Hi. destruct (ki_owns _ _ _ _ H) as [(_ & Hd & _)%NoDup_app _].
  assert (id ∉ on_list s) as Hn by (intros ?; by eapply Hd).
  split; [|done]. intros Hp%(ki_probes _ _ _ _ H). apply Hn. unfold on_list. set_solver.
Qed.

(** ** Handlers on one entry *)

Lemma link_perm (a b c out : list nat) id :
  a ++ (id :: b) ++ c ++ out ≡ₚ (a ++ b ++ c) ++ id :: out.
Proof.
  change ((id :: b) ++ c ++ out) with (id :: b ++ c ++ out).
  by rewrite <-!Permutation_middle, <-!app_assoc.
Qed.

Definition unlinked (id : nat) (s : kprobe_coverage) : kprobe_coverage :=
  kpc_lists (list_without id (kpc_deferred_list s)) (list_without id (kpc_pending_list s))
    (list_without id (kpc_hit_list s)) s.
Definition freed (id : nat) (s : kprobe_coverage) : kprobe_coverage :=
  kpc_memory (delete id (kpc_heap s)) (kpc_fresh s) s.

Lemma on_list_unlinked id s : on_list (unlinked id s) = list_without id (on_list s).
Proof. unfold on_list. cbn. by rewrite !list_without_app. Qed.

Lemma list_del_ok strict b out s id :
  kpc_inv strict b out s → id ∈ on_list s → id ∉ kpc_probes s →
  list_del id s = Ok (unlinked id s) ∧ kpc_inv strict b (id :: out) (unlinked id s).
Proof.
  intros H Hi Hp. unfold list_del, kpc_entry.
  destruct (inv_live _ _ _ _ id H) as [e ->]; [set_solver|]. cbn.
  rewrite bool_decide_eq_true_2 by done. split; [done|].
  eapply inv_lists; [done| |].
  - rewrite !app_assoc, <-Permutation_middle, <-!list_without_app, <-app_assoc. fold (on_list s).
    rewrite (list_without_perm id (on_list s)) at 2; [done| |done].
    by destruct (ki_owns _ _ _ _ H) as [[Hn _]%NoDup_app _].
  - intros i Hi'. rewrite list_without_elem. split; [by intros ->|]. by eapply ki_probes.
Qed.

Lemma free_entry_ok strict b out s id :
  kpc_inv strict b (id :: out) s →
  free_entry id s = Ok (freed id s) ∧ kpc_inv strict b out (freed id s).
Proof.
  intros H. unfold free_entry, kpc_entry.
  destruct (inv_live _ _ _ _ id H) as [e ->]; [set_solver|]. cbn. split; [done|].
  assert (id ∉ on_list s ∧ id ∉ out) as [Hn Ho].
  { destruct (ki_owns _ _ _ _ H) as [(_ & Hd & [Ho _]%NoDup_cons)%NoDup_app _].
    split; [|done]. intros ?. eapply Hd; [done|]. by left. }
  destruct H. constructor; try done; cbn -[on_list].
  - change (owns (on_list s ++ out) (delete id (kpc_heap s))).
    replace (on_list s ++ out) with (list_without id (on_list s ++ id :: out)); [by apply owns_delete|].
    rewrite list_without_app, list_without_cons. by rewrite !list_without_not.
  - intros i (? & Hi)%lookup_delete_is_Some. auto.
  - intros i e' [_ Hi]%lookup_delete_Some. eauto.
Qed.

Lemma unregister_kprobe_ok strict b out k s id :
  kpc_inv strict b out s → id ∈ on_list s ++ out →
  ∃ s', unregister_kprobe k id s = Ok s' ∧ kpc_inv strict b out s' ∧
    kpc_probes s' = kpc_probes s ∖ {[id]} ∧
    (kpc_deferred_list s', kpc_pending_list s', kpc_hit_list s')
      = (kpc_deferred_list s, kpc_pending_list s, kpc_hit_list s) ∧
    (∀ keep out', kpc_frame keep out' s s').
Proof.
  intros H Hi. unfold unregister_kprobe, kpc_entry.
  destruct (inv_live _ _ _ _ id H Hi) as [e He]. rewrite He. cbn [or_fault mbind res_mbind res_bind].
  destruct H. case_bool_decide as Hp; eexists; (split; [done|]).
  - split_and!; [|done..|].
    + constructor; try done. cbn. intros i Hi'. apply ki_probes0. set_solver.
    + intros. constructor; cbn; eauto. set_solver.
  - split_and!; [|cbn; set_solver|done|].
    + constructor; try done; cbn.
      * by apply owns_update.
      * intros i [-> | ?]%lookup_insert_is_Some; [|naive_solver]. eauto.
      * intros i e' [[-> <-] | [? ?]]%lookup_insert_Some; cbn; eauto.
    + intros. constructor; cbn; eauto. intros i e' _ [[-> <-] | [? ?]]%lookup_insert_Some; cbn; eauto.
Qed.

(** ** Names *)

(** What the search for a name finds. *)
Definition name_found (name : bytes) (i r : Z) (names : list (option bytes)) : Prop :=
  (r = -1 ∧ Some name ∉ names) ∨ ∃ j, r = i + Z.of_nat j ∧ names !! j = Some (Some name).

Lemma name_search_ok names i name :
  outcome (None ∈ names) (λ r, name_found name i r names) (name_search names i name).
Proof.
  revert i; induction names as [|[n|] names IH]; intros i; cbn.
  - left. split; [done|]. apply not_elem_of_nil.
  - case_bool_decide as E.
    + right. exists 0%nat. cbn. subst. split; [lia|done].
    + eapply outcome_mono; [apply IH|by right|].
      intros r [[-> Hn] | (j & -> & Hj)]; [left | right; exists (S j); split; [lia|done]].
      split; [done|]. apply not_elem_of_cons. split; [congruence|done].
  - by left.
Qed.

Definition index_found (module_name : option bytes) (s : kprobe_coverage) (r : Z) : Prop :=
  (r = -1 ∧ module_name ∉ take (Z.to_nat (kpc_name_count s)) (kpc_module_names s)) ∨
  (0 ≤ r < kpc_name_count s ∧ kpc_module_names s !! Z.to_nat r = Some module_name).

(** The copied names: an invariant of the table. *)
Lemma names_split strict b out s :
  kpc_inv strict b out s →
  take (Z.to_nat (kpc_name_count s)) (kpc_module_names s) =
    None :: take (Z.to_nat (kpc_name_count s) - 1) (drop 1 (kpc_module_names s)).
Proof.
  intros []. destruct (kpc_module_names s) as [|n names]; [done|]. injection ki_kernel0 as ->.
  destruct (Z.to_nat (kpc_name_count s)) as [|n] eqn:E; [lia|].
  cbn. by rewrite Nat.sub_0_r, drop_0.
Qed.

Lemma module_name_to_index_ok strict out s name :
  kpc_inv strict true out s →
  outcome (strict = false) (index_found name s) (module_name_to_index name s).
Proof.
  intros H. unfold module_name_to_index, BUG_ON_unlocked.
  rewrite (ki_lock _ _ _ _ H). cbn [mbind res_mbind res_bind].
  pose proof (ki_count _ _ _ _ H). destruct name as [name|]; cbn [outcome].
  - eapply outcome_mono; [apply name_search_ok|..].
    + intros (i & Hi)%list_elem_of_lookup. destruct strict; [|done]. exfalso.
      apply lookup_take_Some in Hi as [Hi Hlt]. rewrite lookup_drop in Hi.
      destruct (ki_named _ _ _ _ H eq_refl (1 + i)) as [n Hn]; [lia|]. congruence.
    + unfold index_found. rewrite (names_split _ _ _ _ H).
      intros r [[-> Hn] | (j & -> & Hj)]; [left | right].
      * split; [done|]. apply not_elem_of_cons. done.
      * apply lookup_take_Some in Hj as [Hj Hlt]. rewrite lookup_drop in Hj.
        split; [lia|]. rewrite <-Hj. f_equal. lia.
  - right. split; [lia|]. by apply (ki_kernel _ _ _ _ H).
Qed.

(** The name table only grows. *)
Lemma inv_names strict b out s name :
  kpc_inv strict b out s → kpc_name_count s < 32 → (strict = true → is_Some name) →
  kpc_inv strict b out
    (kpc_names (<[Z.to_nat (kpc_name_count s) := name]> (kpc_module_names s))
       (kpc_name_count s + 1) s).
Proof.
  intros [] Hlt Hn. constructor; try done; cbn.
  - lia.
  - by rewrite length_insert.
  - rewrite list_lookup_insert_ne by lia. done.
  - intros -> i Hi. destruct (decide (i = Z.to_nat (kpc_name_count s))) as [-> | Hne].
    + destruct (Hn eq_refl) as [n ->]. exists n. by rewrite list_lookup_insert_eq by lia.
    + rewrite list_lookup_insert_ne by done. apply ki_named0; [done|]. lia.
Qed.

(** The condition of [calm] on a name. *)
Definition has_room (name : option bytes) (s : kprobe_coverage) : Prop :=
  kpc_name_count s < 32 ∨ name ∈ take (Z.to_nat (kpc_name_count s)) (kpc_module_names s).

Lemma allocate_ok strict out k s name :
  kpc_inv strict false out s →
  (strict = true → k_kstrdup k = true ∧ has_room name s) →
  outcome (strict = false)
    (λ r, kpc_inv strict false out r.2 ∧ (if strict then 0 else -1) ≤ r.1 < 32 ∧
       ∃ names n, r.2 = mutex_unlock (kpc_names names n s))
    (kpc_allocate_module_name_index k name s).
Proof.
  intros H Hok. unfold kpc_allocate_module_name_index, mutex_lock.
  rewrite (ki_lock _ _ _ _ H). cbn [mbind res_mbind res_bind].
  apply (inv_locked _ _ true) in H.
  eapply outcome_seq; [by eapply module_name_to_index_ok|].
  intros r Hr. unfold index_found in Hr. cbn [kpc_locked kpc_name_count kpc_module_names] in Hr.
  pose proof (ki_count _ _ _ _ H) as Hc. cbn in Hc.
  destruct ((r <? 0) && (kpc_name_count (kpc_locked true s) <? 32)) eqn:E; cbn in E |- *.
  - apply andb_true_iff in E as [E1%Z.ltb_lt E2%Z.ltb_lt].
    destruct Hr as [[-> Hn] | [? _]]; [|lia].
    split_and!; [|destruct strict; lia|lia|].
    + apply (inv_locked _ true), (inv_names _ _ _ _ _ H); [done|].
      intros ->. destruct (Hok eq_refl) as [-> _]. destruct name; [done|].
      exfalso. apply Hn. pose proof (names_split _ _ _ _ H) as Es; cbn in Es; rewrite Es; by left.
    + by eexists _, _.
  - assert ((if strict then 0 else -1) ≤ r < 32).
    { destruct Hr as [[-> Hn] | [? _]]; [|destruct strict; lia]. cbn in E.
      destruct strict; [|lia]. destruct (Hok eq_refl) as [_ [? | ?]]; [|done].
      apply Z.ltb_ge in E. lia. }
    split_and!; [|lia..|]; [by apply (inv_locked _ true)|].
    by exists (kpc_module_names s), (kpc_name_count s).
Qed.

(** ** Adding probes *)

Abbreviation any := (λ _ : nat, True).

Lemma add_probe_prepare_ok strict out k s name where_ :
  kpc_inv strict false out s →
  (strict = true → k_kzalloc k = true ∧ k_kstrdup k = true ∧ has_room name s) →
  outcome (strict = false)
    (λ r, let '(entry, defer, s') := r in
       kpc_inv strict false (option_list entry ++ out) s' ∧ 
       (∃ names n, ∀ l, kpc_frame any l (kpc_names names n s) s') ∧
       on_list s' = on_list s ∧
       (strict = true → is_Some entry) ∧ (∀ id, entry = Some id → id = kpc_fresh s))
    (add_probe_prepare k name where_ s).
Proof.
  intros H Hok. unfold add_probe_prepare, new_entry.
  destruct (k_kzalloc k) eqn:Ea; cbn -[kpc_allocate_module_name_index].
  2:{ split_and!; try done; [by exists (kpc_module_names s), (kpc_name_count s); intros l; constructor; cbn; eauto|].
      intros ->. by destruct (Hok eq_refl). }
  do 2 apply holds_bind.
  eapply outcome_mono; [apply (allocate_ok _ _ k s name H)|done|].
  { intros ->. naive_solver. }
  intros [index s1] (H1 & Hi & names & n & E). cbn in H1, Hi, E. subst s1.
  cbn -[mutex_unlock kpc_names].
  assert (kpc_heap s !! kpc_fresh s = None) as Hf.
  { apply eq_None_not_Some. intros Hs%(ki_fresh _ _ _ _ H). lia. }
  split_and!; [| |done|done|by intros ? [= <-]];
    [|exists names, n; intros l; constructor; cbn; eauto].
  { destruct H1. constructor; try done; cbn.
    - eapply owns_proper; [symmetry; apply Permutation_middle|done|]. by apply owns_alloc.
    - intros i [-> | [_ Hs]]%lookup_insert_is_Some; [lia|]. specialize (ki_fresh0 i Hs). cbn in *. lia.
    - intros i e [[<- <-] | [_ Hs]]%lookup_insert_Some; cbn; [done|eauto]. }
  intros i e' Hlt [[<- <-] | [_ Hs]]%lookup_insert_Some; [lia|]. eauto.
Qed.

Lemma inv_register strict b out s id :
  kpc_inv strict b out s → id ∈ kpc_pending_list s →
  kpc_inv strict b out (kpc_kernel ({[id]} ∪ kpc_probes s) (kpc_workqueue s) s).
Proof. intros [] Hi. constructor; try done. cbn. set_solver. Qed.

Lemma enable_probe_ok strict out k s id :
  kpc_inv strict true (id :: out) s →
  ∃ ok s', enable_probe k id s = Ok (ok, s') ∧
    kpc_inv strict true (if ok : bool then out else id :: out) s' ∧ kpc_frame any [id] s s' ∧
    ∀ i, i ≠ id → i ∈ kpc_deferred_list s → i ∈ kpc_deferred_list s'.
Proof.
  intros H. destruct (inv_out_probe _ _ _ _ id H) as [Hp Hl]; [by left|].
  unfold enable_probe, BUG_ON_unlocked, register_kprobe, kpc_entry.
  rewrite (ki_lock _ _ _ _ H). cbn -[on_list list_del].
  destruct (inv_live _ _ _ _ id H) as [e He]; [set_solver|]. rewrite He. cbn -[on_list list_del].
  set (s1 := kpc_lists _ _ _ s).
  assert (kpc_inv strict true out s1) as H1.
  { eapply inv_lists; [done| |].
    - apply (link_perm (kpc_deferred_list s)).
    - intros i Hi%(ki_probes _ _ _ _ H). by right. }
  destruct (k_register_kprobe k (ke_addr e)); cbn -[on_list list_del].
  - eexists _, _. split; [done|]. split; [by apply (inv_register _ _ _ s1); [done|left]|].
    split; [|done]. constructor; cbn; eauto; set_solver.
  - destruct (list_del_ok _ _ _ _ id H1) as [-> H2]; [unfold on_list; cbn; set_solver|done|].
    eexists _, _. split; [done|]. split; [done|].
    assert (id ∉ kpc_hit_list s) by (unfold on_list in Hl; set_solver).
    unfold on_list in Hl. split; [|cbn; set_solver].
    constructor; cbn; eauto; unfold on_list; cbn; [set_solver..|by apply list_without_not].
Qed.

Lemma add_probe_insert_ok strict out k s id defer :
  kpc_inv strict false (id :: out) s →
  ∃ s', add_probe_insert k (Some id) defer s = Ok s' ∧ kpc_inv strict false out s' ∧
    kpc_frame any [id] s s'.
Proof.
  intros H. destruct (inv_out_probe _ _ _ _ id H) as [Hp Hl]; [by left|].
  unfold add_probe_insert, mutex_lock.
  rewrite (ki_lock _ _ _ _ H). cbn -[on_list enable_probe defer_probe free_entry].
  apply (inv_locked _ _ true) in H. destruct defer.
  - unfold defer_probe, kpc_entry.
    destruct (inv_live _ _ _ _ id H) as [e ->]; [set_solver|]. cbn -[on_list].
    eexists. split; [done|]. split; [|constructor; cbn; eauto; set_solver].
    apply (inv_locked _ true). eapply inv_lists; [done| |].
    + rewrite (app_assoc (kpc_pending_list _)). apply (link_perm []).
    + intros i Hi. apply (ki_probes _ _ _ _ H). done.
  - destruct (enable_probe_ok _ _ k _ _ H) as ([|] & s1 & -> & H1 & F1 & _); cbn -[free_entry].
    + eexists. split; [done|]. split; [by apply (inv_locked _ true)|]. by destruct F1.
    + apply (inv_locked _ _ false) in H1. destruct (free_entry_ok _ _ _ _ _ H1) as [E H2].
      unfold mutex_unlock. rewrite E. eexists. split; [done|]. split; [done|].
      destruct F1. constructor; try done. cbn.
      intros i e' Hlt [_ Hs]%lookup_delete_Some. eauto.
Qed.

(** ** Modules that come and go *)

Lemma frame_freed keep out s id s' :
  kpc_frame keep out s s' → kpc_frame keep out s (freed id s').
Proof.
  intros []. constructor; try done. cbn. intros i e' Hlt [_ Hs]%lookup_delete_Some. eauto.
Qed.

Lemma coming_entry_ok strict out k s name core id :
  kpc_inv strict true out s → id ∈ kpc_deferred_list s →
  outcome (strict = false)
    (λ s', kpc_inv strict true out s' ∧ kpc_frame any [] s s' ∧
       ∀ i, i ≠ id → i ∈ kpc_deferred_list s → i ∈ kpc_deferred_list s')
    (coming_entry k name core s id).
Proof.
  intros H Hi. unfold coming_entry, kpc_entry.
  assert (id ∈ on_list s) as Ho by (unfold on_list; set_solver).
  assert (id ∉ kpc_pending_list s ∧ id ∉ kpc_hit_list s) as [Hnp Hnh].
  { destruct (ki_owns _ _ _ _ H) as [(Hn & _)%NoDup_app _].
    apply NoDup_app in Hn as (_ & Hd & _). specialize (Hd id Hi). set_solver. }
  assert (id ∉ kpc_probes s) as Hpr by (intros Hp%(ki_probes _ _ _ _ H); done).
  destruct (inv_live _ _ _ _ id H) as [e He]; [set_solver|]. rewrite He. cbn -[on_list list_del].
  eapply outcome_seq; [by eapply module_name_to_index_ok|]. intros index _.
  case_bool_decide; [cbn; by eauto with kcov|].
  destruct (list_del_ok _ _ _ _ id H) as [-> H1]; [done..|].
  cbn -[enable_probe free_entry].
  set (s1 := kpc_memory _ _ _).
  assert (kpc_inv strict true (id :: out) s1) as H2.
  { destruct H1. constructor; try done; cbn.
    - apply owns_update; [done|]. set_solver.
    - intros i [<- | [_ ?]]%lookup_insert_is_Some; eauto.
    - intros i e' [[<- <-] | [_ ?]]%lookup_insert_Some; cbn; eauto. }
  assert (∀ s', kpc_frame any [id] s1 s' → kpc_frame any [] s s') as HF.
  { intros s' []. constructor; try done; cbn in *.
    - intros i [? | ?]%kf_deferred0; set_solver.
    - intros i [? | [? | ?]]%kf_probes0; set_solver.
    - intros i [? | ?]%kf_lists0; unfold on_list in *; cbn in *; set_solver.
    - intros i _ ?. apply kf_pending0; [done|]. set_solver.
    - rewrite kf_hit0. by apply list_without_not.
    - intros i e' Hlt (e1 & He1 & Ee1)%kf_heap0; [|done].
      apply lookup_insert_Some in He1 as [[<- <-] | [_ ?]]; eauto. }
  destruct (enable_probe_ok _ _ k _ _ H2) as ([|] & s2 & -> & H3 & F & D); cbn -[free_entry].
  - split_and!; [done|by apply HF|]. cbn in D. set_solver.
  - destruct (free_entry_ok _ _ _ _ _ H3) as [-> H4]. cbn -[freed].
    split_and!; [done|by apply frame_freed, HF|]. cbn in D |- *. set_solver.
Qed.

(** A loop over a list [l] of the state, as it was when the loop began. *)
Lemma list_loop strict out (keep : nat → Prop) (l : kprobe_coverage → list nat)
    (f : kprobe_coverage → nat → res kprobe_coverage) s :
  kpc_inv strict true out s → NoDup (l s) →
  (∀ s' id, kpc_inv strict true out s' → kpc_frame keep [] s s' → id ∈ l s → id ∈ l s' →
     outcome (strict = false)
       (λ s'', kpc_inv strict true out s'' ∧ kpc_frame keep [] s' s'' ∧
          ∀ i, i ≠ id → i ∈ l s' → i ∈ l s'') (f s' id)) →
  outcome (strict = false) (λ s', kpc_inv strict true out s' ∧ kpc_frame keep [] s s')
    (res_foldl f s (l s)).
Proof.
  intros H Hn Hf.
  eapply outcome_mono; [|done|].
  { apply (outcome_foldl _ (λ pre s', (kpc_inv strict true out s' ∧ kpc_frame keep [] s s') ∧
             ∀ i, i ∉ pre → i ∈ l s → i ∈ l s')); [by eauto with kcov|].
    intros pre x post s1 E [[H1 F1] D1].
    assert (x ∉ pre) as Hx.
    { rewrite E in Hn. apply NoDup_app in Hn as (_ & Hd & _). intros ?. eapply Hd; [done|by left]. }
    assert (x ∈ l s) by (rewrite E; set_solver).
    eapply outcome_mono; [apply (Hf s1 x); auto|done|].
    intros s2 (H2 & F2 & D2). split; [split; [done|by eapply kpc_frame_trans]|]. set_solver. }
  by intros s1 [? _].
Qed.

Lemma lists_nodup strict b out s :
  kpc_inv strict b out s →
  NoDup (kpc_deferred_list s) ∧ NoDup (kpc_pending_list s) ∧ NoDup (kpc_hit_list s) ∧
  (∀ id, id ∈ kpc_pending_list s → id ∉ kpc_deferred_list s ∧ id ∉ kpc_hit_list s).
Proof.
  intros H. destruct (ki_owns _ _ _ _ H) as [(Hn & _)%NoDup_app _].
  apply NoDup_app in Hn as (? & Hd & (? & Hh & ?)%NoDup_app). set_solver.
Qed.

Lemma coming_module_ok strict out k s name core :
  kpc_inv strict false out s →
  outcome (strict = false) (λ s', kpc_inv strict false out s' ∧ kpc_frame any [] s s')
    (kpc_handle_coming_module k name core s).
Proof.
  intros H. unfold kpc_handle_coming_module, mutex_lock.
  rewrite (ki_lock _ _ _ _ H). cbn [mbind res_mbind res_bind].
  apply (inv_locked _ _ true) in H.
  eapply outcome_seq.
  - apply (list_loop _ out any kpc_deferred_list _ (kpc_locked true s)); [done|by eapply lists_nodup|].
    intros s' id H' _ _ Hi. by apply coming_entry_ok.
  - intros s' [H' []]. split; [by apply (inv_locked _ true)|]. by constructor.
Qed.

(** Entries with work outstanding that a module's going leaves alone. *)
Definition spared (name : bytes) (s : kprobe_coverage) (id : nat) : Prop :=
  ∀ e, kpc_heap s !! id = Some e →
    kpc_module_names s !! Z.to_nat (ke_name_index e) ≠ Some (Some name).

Lemma going_entry_ok strict out k s0 s name id :
  kpc_inv strict true out s → kpc_inv strict true out s0 →
  kpc_frame (λ i, strict = true ∧ spared name s0 i) [] s0 s → id ∈ kpc_pending_list s0 →
  id ∈ kpc_pending_list s →
  outcome (strict = false)
    (λ s', kpc_inv strict true out s' ∧
       kpc_frame (λ i, strict = true ∧ spared name s0 i) [] s s' ∧
       ∀ i, i ≠ id → i ∈ kpc_pending_list s → i ∈ kpc_pending_list s')
    (going_entry k name s id).
Proof.
  intros H H0 F Hi0 Hi. unfold going_entry, kpc_entry.
  assert (id ∈ on_list s) as Ho by (unfold on_list; set_solver).
  destruct (lists_nodup _ _ _ _ H) as (_ & _ & _ & Hd). destruct (Hd id Hi) as [Hnd Hnh].
  destruct (inv_live _ _ _ _ id H) as [e He]; [set_solver|]. rewrite He.
  cbn -[on_list list_del unregister_kprobe].
  eapply outcome_seq; [by eapply module_name_to_index_ok|]. intros index Hx.
  case_bool_decide as Hne; [cbn; by eauto with kcov|]. rewrite Hne in Hx. clear Hne.
  assert (strict = true → spared name s0 id → False) as Hs.
  { intros -> Hsp. destruct (inv_live _ _ _ _ id H0) as [e0 He0]; [unfold on_list; set_solver|].
    destruct (kf_heap _ _ _ _ F id e) as (e1 & He1 & E); [|done|].
    { eapply (ki_fresh _ _ _ _ H0). eauto. }
    simplify_eq. destruct Hx as [[E1 _] | [_ Hn]].
    - pose proof (ki_index _ _ _ _ H _ _ He). cbn in *. lia.
    - apply (Hsp _ He0). by rewrite <-E, <-(kf_names _ _ _ _ F). }
  destruct (unregister_kprobe_ok _ _ _ k _ id H) as (s1 & -> & H1 & Ep & El & F1); [set_solver|].
  injection El as E1 E2 E3. cbn -[on_list list_del free_entry].
  destruct (list_del_ok _ _ _ _ id H1) as [-> H2]; [unfold on_list; rewrite E1, E2, E3; done|set_solver|].
  cbn -[free_entry]. destruct (free_entry_ok _ _ _ _ _ H2) as [-> H3]. cbn -[freed].
  split_and!; [done| |cbn; rewrite E2; set_solver].
  apply frame_freed. destruct (F1 any []). constructor; try done; cbn.
  - set_solver.
  - unfold on_list. cbn. rewrite E1, E2, E3. set_solver.
  - rewrite E2. intros i [Hst Hsp] Hip. apply list_without_elem. split; [|done].
    intros ->. by apply Hs.
  - rewrite E3. by apply list_without_not.
Qed.

Lemma going_module_ok strict out k s name :
  kpc_inv strict false out s →
  outcome (strict = false)
    (λ s', kpc_inv strict false out s' ∧ kpc_frame (λ i, strict = true ∧ spared name s i) [] s s')
    (kpc_handle_going_module k name s).
Proof.
  intros H. unfold kpc_handle_going_module, mutex_lock.
  rewrite (ki_lock _ _ _ _ H). cbn [mbind res_mbind res_bind].
  apply (inv_locked _ _ true) in H.
  eapply outcome_seq.
  - apply (list_loop _ out (λ i, strict = true ∧ spared name s i) kpc_pending_list _
             (kpc_locked true s) H); [by apply (lists_nodup _ _ _ _ H)|].
    intros s' id H' F Hi0 Hi. by apply (going_entry_ok _ _ _ (kpc_locked true s)).
  - intros s' [H' []]. split; [by apply (inv_locked _ true)|]. by constructor.
Qed.

(** ** Clearing *)

(** The lists without the entries of [pre]; nothing else of interest changes. *)
Record cleared (pre : list nat) (s s' : kprobe_coverage) : Prop := {
  cl_deferred : ∀ i, i ∈ kpc_deferred_list s' ↔ i ∈ kpc_deferred_list s ∧ i ∉ pre;
  cl_pending : ∀ i, i ∈ kpc_pending_list s' ↔ i ∈ kpc_pending_list s ∧ i ∉ pre;
  cl_hit : ∀ i, i ∈ kpc_hit_list s' ↔ i ∈ kpc_hit_list s ∧ i ∉ pre;
  cl_probes : ∀ i, i ∈ kpc_probes s' → i ∈ kpc_probes s;
  cl_fresh : (kpc_fresh s ≤ kpc_fresh s')%nat;
  cl_work : kpc_workqueue s' = kpc_workqueue s;
}.

Lemma cleared_trans l1 l2 s1 s2 s3 :
  cleared l1 s1 s2 → cleared l2 s2 s3 → cleared (l1 ++ l2) s1 s3.
Proof. intros [] []. constructor; try congruence; try lia; set_solver. Qed.

Lemma cleared_nil s s' :
  kpc_deferred_list s' = kpc_deferred_list s → kpc_pending_list s' = kpc_pending_list s →
  kpc_hit_list s' = kpc_hit_list s → kpc_probes s' ⊆ kpc_probes s →
  (kpc_fresh s ≤ kpc_fresh s')%nat → kpc_workqueue s' = kpc_workqueue s → cleared [] s s'.
Proof. intros E1 E2 E3 ???. constructor; rewrite ?E1, ?E2, ?E3; try done; set_solver. Qed.

Lemma cleared_freed s id : cleared [id] s (freed id (unlinked id s)).
Proof. constructor; cbn; try done; set_solver. Qed.

Lemma clear_entry_ok strict out k (un : bool) s id :
  kpc_inv strict true out s → id ∈ on_list s → (un = false → id ∉ kpc_pending_list s) →
  ∃ s', clear_entry k un s id = Ok s' ∧ kpc_inv strict true out s' ∧ cleared [id] s s'.
Proof.
  intros H Hi Hp. unfold clear_entry.
  assert (∃ s1, (if un then unregister_kprobe k id s else Ok s) = Ok s1 ∧ kpc_inv strict true out s1 ∧
            id ∉ kpc_probes s1 ∧ on_list s1 = on_list s ∧ cleared [] s s1)
    as (s1 & -> & H1 & Hp1 & El & Hc).
  { destruct un.
    - destruct (unregister_kprobe_ok _ _ _ k _ id H) as (s1 & -> & H1 & Ep & El & F1); [set_solver|].
      injection El as E1 E2 E3. destruct (F1 any []).
      exists s1. unfold on_list. rewrite E1, E2, E3. split_and!; [done|done| |done|].
      + rewrite Ep. clear. set_solver.
      + apply cleared_nil; try done. rewrite Ep. clear. set_solver.
    - exists s. split_and!; try done; [|by apply cleared_nil].
      intros Hpr%(ki_probes _ _ _ _ H). by apply Hp. }
  cbn -[list_del free_entry].
  destruct (list_del_ok _ _ _ _ id H1) as [-> H2]; [by rewrite El|done|].
  cbn -[free_entry]. destruct (free_entry_ok _ _ _ _ _ H2) as [-> H3].
  eexists. split_and!; [done..|].
  apply (cleared_trans [] [id] _ s1); [done|]. apply cleared_freed.
Qed.

Lemma clear_list_ok strict out k un (l : kprobe_coverage → list nat) s :
  kpc_inv strict true out s → NoDup (l s) → (∀ i, i ∈ l s → i ∈ on_list s) →
  (un = false → ∀ i, i ∈ l s → i ∉ kpc_pending_list s) →
  ∃ s', clear_list k l un s = Ok s' ∧ kpc_inv strict true out s' ∧ cleared (l s) s s'.
Proof.
  intros H Hn Hl Hp. unfold clear_list, BUG_ON_unlocked. rewrite (ki_lock _ _ _ _ H).
  cbn [mbind res_mbind res_bind].
  apply (res_foldl_prefix (λ pre s', kpc_inv strict true out s' ∧ cleared pre s s'));
    [by split; [|apply cleared_nil]|].
  intros pre x post s1 E [H1 C1].
  assert (x ∉ pre) as Hx.
  { rewrite E in Hn. apply NoDup_app in Hn as (_ & Hd & _). intros ?. eapply Hd; [done|by left]. }
  assert (x ∈ l s) as Hxl by (rewrite E; set_solver).
  destruct (clear_entry_ok _ _ k un _ x H1) as (s2 & -> & H2 & C2).
  - specialize (Hl x Hxl). unfold on_list in *. destruct C1. set_solver.
  - intros Hun. rewrite (cl_pending _ _ _ C1). intros [? _]. by eapply Hp.
  - eexists. split; [done|]. split; [done|]. by eapply cleared_trans.
Qed.

Lemma clear_names_lookup n (names : list (option bytes)) i :
  clear_names n names !! i = if decide (i < n)%nat then const None <$> names !! i else names !! i.
Proof.
  unfold clear_names.
  assert (∀ m a (names : list (option bytes)), foldl (λ names i, <[i := None]> names) names (seq a m) !! i
            = if decide (a ≤ i < a + m)%nat then const None <$> names !! i else names !! i) as Hg.
  { intros m. induction m as [|m IH]; intros a names1; cbn.
    - destruct (decide _); [lia|done].
    - rewrite IH. destruct (decide (i = a)) as [-> | Hne].
      + destruct (decide _); [lia|]. destruct (decide _); [|lia].
        rewrite list_lookup_insert. destruct (names1 !! a) eqn:E.
        * rewrite decide_True; [done|]. by apply lookup_lt_Some in E.
        * rewrite decide_False; [done|]. intros [_ ?%lookup_lt_is_Some]. by rewrite E in *; destruct H.
      + rewrite list_lookup_insert_ne by done.
        destruct (decide (S a ≤ i < S a + m)%nat), (decide (a ≤ i < a + S m)%nat); done || lia. }
  rewrite Hg. destruct (decide _), (decide _); done || lia.
Qed.

Lemma length_clear_names n (names : list (option bytes)) : length (clear_names n names) = length names.
Proof.
  unfold clear_names. generalize (seq 0 n). intros l. revert names.
  induction l as [|i l IH]; intros names; cbn; [done|]. by rewrite IH, length_insert.
Qed.

(** After a clear nothing is left but what writers and readers hold. *)
Lemma kpc_clear_ok strict out k s :
  kpc_inv strict false out s →
  ∃ s', kpc_clear k s = Ok s' ∧ kpc_inv strict false out s' ∧ on_list s' = [] ∧
    kpc_probes s' = ∅ ∧ (kpc_fresh s ≤ kpc_fresh s')%nat ∧ kpc_workqueue s' = kpc_workqueue s.
Proof.
  intros H. unfold kpc_clear, mutex_lock.
  rewrite (ki_lock _ _ _ _ H). cbn [mbind res_mbind res_bind].
  apply (inv_locked _ _ true) in H. set (s0 := kpc_locked true s) in *.
  change (kpc_fresh s) with (kpc_fresh s0). change (kpc_workqueue s) with (kpc_workqueue s0).
  assert (∀ s l i, l s ⊆ on_list s → i ∈ l s → i ∈ on_list s) as Hsub by set_solver.
  destruct (clear_list_ok _ _ k false kpc_deferred_list _ H) as (s1 & -> & H1 & C1);
    [apply (lists_nodup _ _ _ _ H)|unfold on_list; set_solver| |].
  { intros _ i Hi Hp. by apply (lists_nodup _ _ _ _ H) in Hp as [? _]. }
  cbn [mbind res_mbind res_bind].
  destruct (clear_list_ok _ _ k true kpc_hit_list _ H1) as (s2 & -> & H2 & C2);
    [apply (lists_nodup _ _ _ _ H1)|unfold on_list; set_solver|done|].
  cbn [mbind res_mbind res_bind].
  destruct (clear_list_ok _ _ k true kpc_pending_list _ H2) as (s3 & -> & H3 & C3);
    [apply (lists_nodup _ _ _ _ H2)|unfold on_list; set_solver|done|].
  cbn [mbind res_mbind res_bind]. eexists. split; [done|].
  assert (kpc_deferred_list s3 = [] ∧ kpc_pending_list s3 = [] ∧ kpc_hit_list s3 = []) as (E1 & E2 & E3).
  { destruct C1, C2, C3.
    split_and!; apply elem_of_nil_inv; intros i Hi.
    - apply cl_deferred2, proj1, cl_deferred1, proj1, cl_deferred0 in Hi. by destruct Hi.
    - apply cl_pending2 in Hi. by destruct Hi.
    - apply cl_hit2, proj1, cl_hit1 in Hi. by destruct Hi. }
  assert (kpc_probes s3 = ∅) as Ep.
  { apply elem_of_equiv_empty_L. intros i Hi%(ki_probes _ _ _ _ H3). rewrite E2 in Hi. set_solver. }
  split_and!; [|done|done| |].
  - assert (owns out (kpc_heap s3)) as Ho.
    { pose proof (ki_owns _ _ _ _ H3) as Ho. unfold on_list in Ho. by rewrite E1, E2, E3 in Ho. }
    destruct H3. constructor; try done; cbn -[clear_names].
    + rewrite Ep. set_solver.
    + by rewrite length_clear_names.
    + rewrite clear_names_lookup, ki_kernel0. by destruct (decide _).
    + intros. lia.
  - destruct C1, C2, C3. cbn in *. lia.
  - destruct C1, C2, C3. cbn in *. congruence.
Qed.

(** ** The hit list *)

Lemma unlink_next_ok strict out s :
  kpc_inv strict false out s →
  (kpc_hit_list s = [] ∧ ∃ s', kpc_unlink_next s = Ok (None, s') ∧ kpc_inv strict false out s' ∧
     s' = mutex_unlock (kpc_locked true s)) ∨
  ∃ id rest s', kpc_hit_list s = id :: rest ∧ kpc_unlink_next s = Ok (Some id, s') ∧
    kpc_inv strict false (id :: out) s' ∧
    s' = mutex_unlock (kpc_lists (kpc_deferred_list s) (kpc_pending_list s) rest (kpc_locked true s)).
Proof.
  intros H. unfold kpc_unlink_next, mutex_lock.
  rewrite (ki_lock _ _ _ _ H). cbn -[list_del].
  apply (inv_locked _ _ true) in H.
  destruct (kpc_hit_list s) as [|id rest] eqn:E; [left | right].
  - split; [done|]. eexists. split; [done|]. split; [by apply (inv_locked _ true)|done].
  - destruct (lists_nodup _ _ _ _ H) as (Hd & Hp & Hh & Hx). cbn in Hd, Hp, Hh, Hx. rewrite E in Hh, Hx.
    assert (id ∉ kpc_deferred_list s) as Hnd.
    { destruct (ki_owns _ _ _ _ H) as [(Hn & _)%NoDup_app _]. unfold on_list in Hn. cbn in Hn.
      rewrite E in Hn. apply NoDup_app in Hn as (_ & Hn & _). intros Hi. eapply Hn; [done|]. set_solver. }
    assert (id ∉ kpc_pending_list s) as Hnp by (intros Hi; destruct (Hx id Hi) as [_ Hi2]; set_solver).
    destruct (list_del_ok _ _ _ _ id H) as [-> H1].
    + unfold on_list. cbn. rewrite E. set_solver.
    + intros Hpr%(ki_probes _ _ _ _ H). done.
    + exists id, rest. eexists. split; [done|]. split; [done|].
      assert (unlinked id (kpc_locked true s)
                = kpc_lists (kpc_deferred_list s) (kpc_pending_list s) rest (kpc_locked true s)) as Eu.
      { unfold unlinked. cbn. rewrite E, list_without_cons, !list_without_not; [done|..|done|done].
        by apply NoDup_cons in Hh as [? _]. }
      split; [by apply (inv_locked _ true)|]. by rewrite Eu.
Qed.

Lemma probe_work_move_ok strict out s id :
  kpc_inv strict false out s → id ∉ kpc_probes s →
  outcome (id ∉ on_list s)
    (λ s', kpc_inv strict false out s' ∧ id ∈ on_list s ∧
       s' = mutex_unlock (kpc_lists (list_without id (kpc_deferred_list s))
         (list_without id (kpc_pending_list s)) (list_without id (kpc_hit_list s) ++ [id])
         (kpc_locked true s)))
    (probe_work_move id s).
Proof.
  intros H Hp. unfold probe_work_move, mutex_lock.
  rewrite (ki_lock _ _ _ _ H). cbn -[list_del on_list].
  apply (inv_locked _ _ true) in H.
  destruct (decide (id ∈ on_list s)) as [Hi | Hi].
  - destruct (list_del_ok _ _ _ _ id H) as [-> H1]; [done..|]. cbn -[on_list].
    split; [|done]. apply (inv_locked _ true).
    eapply inv_lists; [done| |apply (ki_probes _ _ _ _ H1)].
    unfold on_list. cbn. rewrite <-!app_assoc. cbn. done.
  - unfold list_del. rewrite bool_decide_eq_false_2 by done. unfold kpc_entry.
    by destruct (kpc_heap _ !! id).
Qed.

Lemma kpc_seq_show_ok strict out s id :
  kpc_inv strict false (id :: out) s →
  outcome (strict = false)
    (λ r, kpc_inv strict false out r.2 ∧ r.2 = freed id s ∧ ∃ e name, kpc_heap s !! id = Some e ∧
       kpc_module_names s !! Z.to_nat (ke_name_index e) = Some name ∧
       r.1 = kpc_line name (u64 (ke_addr e - ke_base_addr e)))
    (kpc_seq_show id s).
Proof.
  intros H. unfold kpc_seq_show, kpc_entry.
  destruct (inv_live _ _ _ _ id H) as [e He]; [set_solver|]. rewrite He.
  cbn -[name_at free_entry kpc_line].
  pose proof (ki_index _ _ _ _ H _ _ He) as Hi. unfold name_at.
  destruct (Z.leb_spec 0 (ke_name_index e)); [|destruct strict; [lia|done]].
  destruct (lookup_lt_is_Some_2 (kpc_module_names s) (Z.to_nat (ke_name_index e))) as [name En].
  { rewrite (ki_names _ _ _ _ H). lia. }
  rewrite En. cbn -[free_entry kpc_line].
  destruct (free_entry_ok _ _ _ _ _ H) as [-> H1]. cbn -[kpc_line freed]. eauto 10.
Qed.

(** ** The machine *)

Definition adding_ids (σ : ksystem) : list nat := omap fst (sys_adding σ).
Definition holders (σ : ksystem) : list nat := adding_ids σ ++ sys_showing σ.

Record work_inv (σ : ksystem) : Prop := {
  si_work : ∀ id, id ∈ work_of σ →
    (id < kpc_fresh (sys_kpc σ))%nat ∧ id ∉ kpc_deferred_list (sys_kpc σ) ∧ id ∉ adding_ids σ;
  si_working : ∀ id, sys_working σ = Some (id, true) → id ∉ kpc_probes (sys_kpc σ);
}.

(** In calm schedules the probes with work outstanding are pending, and a probe
    that fired was taken, is on the hit list, or has work outstanding. *)
Record calm_inv (σ : ksystem) : Prop := {
  ci_adding : ∀ x, x ∈ sys_adding σ → is_Some x.1;
  ci_nodup : NoDup (work_of σ);
  ci_pending : ∀ id, id ∈ work_of σ → id ∈ kpc_pending_list (sys_kpc σ);
  ci_fired : sys_fired σ = sys_taken σ ++ kpc_hit_list (sys_kpc σ) ++ work_of σ;
  ci_taken : ∀ id, id ∈ sys_taken σ →
    (id < kpc_fresh (sys_kpc σ))%nat ∧ id ∉ on_list (sys_kpc σ) ∧ id ∉ adding_ids σ;
}.

Record sys_inv (strict : bool) (σ : ksystem) : Prop := {
  si_kpc : kpc_inv strict false (holders σ) (sys_kpc σ);
  si_works : work_inv σ;
  si_calm : strict = true → calm_inv σ;
}.

Lemma kpc_initial_inv strict : kpc_inv strict false [] kpc_initial.
Proof.
  constructor; try done; cbn; try lia; try set_solver.
  - split; [by constructor|]. intros id. rewrite lookup_empty, is_Some_alt. set_solver.
  - intros id [? ?]. by rewrite lookup_empty in *.
Qed.

Lemma sys_initial_inv strict : sys_inv strict ksys_initial.
Proof.
  constructor; [apply kpc_initial_inv|constructor; [cbn; set_solver|done]|].
  constructor; try done; [set_solver|constructor|cbn; set_solver..].
Qed.

(** Steps that leave the work alone. *)
Lemma work_inv_frame keep l σ σ' :
  work_inv σ →
  kpc_frame keep l (sys_kpc σ) (sys_kpc σ') → (∀ i, i ∈ l → i ∈ adding_ids σ) →
  (∀ i, i ∈ adding_ids σ' → i ∈ adding_ids σ ∨ i = kpc_fresh (sys_kpc σ)) →
  sys_working σ' = sys_working σ → work_inv σ'.
Proof.
  intros [] [] Hl Ha Ew. constructor.
  - unfold work_of in *. rewrite Ew, kf_work0. intros id Hi.
    destruct (si_work0 id Hi) as (? & Hd & Hn). split_and!; [lia|..].
    + intros [? | ?]%kf_deferred0; [done|]. auto.
    + intros [? | ->]%Ha; [done|lia].
  - rewrite Ew. intros id Ei [Hp | [Hd | Hd]]%kf_probes0; [by eapply si_working0|..].
    + destruct (si_work0 id) as (_ & Hn & _); [unfold work_of; rewrite Ei; by left|done].
    + destruct (si_work0 id) as (_ & _ & Hn); [unfold work_of; rewrite Ei; by left|auto].
Qed.

Lemma calm_inv_frame keep l σ σ' :
  calm_inv σ → kpc_frame keep l (sys_kpc σ) (sys_kpc σ') →
  (∀ i, i ∈ work_of σ → keep i) → (∀ i, i ∈ l → i ∈ adding_ids σ) →
  (∀ i, i ∈ adding_ids σ' → i ∈ adding_ids σ ∨ i = kpc_fresh (sys_kpc σ)) →
  (∀ x, x ∈ sys_adding σ' → is_Some x.1) →
  (sys_working σ', sys_fired σ', sys_taken σ') = (sys_working σ, sys_fired σ, sys_taken σ) →
  calm_inv σ'.
Proof.
  intros [] [] Hk Hl Ha Hs [= Ew Ef Et].
  assert (work_of σ' = work_of σ) as E by (unfold work_of in *; by rewrite Ew, kf_work0).
  constructor; rewrite ?E, ?Ef, ?Et, ?kf_hit0; auto.
  intros id Hi. destruct (ci_taken0 id Hi) as (? & Hn & Hd). split_and!; [lia|..].
  - intros [? | ?]%kf_lists0; [done|]. auto.
  - intros [? | ->]%Ha; [done|lia].
Qed.

Lemma adding_ids_delete σ i entry defer :
  sys_adding σ !! i = Some (entry, defer) →
  adding_ids σ ≡ₚ option_list entry ++ omap fst (delete i (sys_adding σ)).
Proof.
  intros Hi. unfold adding_ids.
  rewrite (delete_Permutation _ _ _ Hi) at 1. cbn. by destruct entry.
Qed.

(** ** One lemma per kind of step *)

Section step.
Context (strict : bool) (k : Kernel) (σ : ksystem).
Context (Hσ : sys_inv strict σ).

Definition good_step (e : kevent) : Prop :=
  (strict = true → calm k e σ) →
  ∀ r, kexec k e σ = Some r → outcome (strict = false) (sys_inv strict) r.

Lemma step_prepare name where_ : good_step (EvPrepare name where_).
Proof using Hσ.
  intros Hc r [= <-]. destruct Hσ as [H W C]. eapply outcome_seq.
  { by apply (add_probe_prepare_ok _ _ k _ name where_ H). }
  intros [[entry defer] s'] (H1 & (names & n & F) & _ & Hs & Hf). cbn.
  set (σ0 := with_kpc σ (kpc_names names n (sys_kpc σ))).
  set (σ' := mkKsystem _ _ _ _ _ _ _).
  assert (adding_ids σ' = adding_ids σ ++ option_list entry) as Ea.
  { unfold adding_ids. cbn. rewrite omap_app. cbn. by destruct entry. }
  assert (∀ i, i ∈ adding_ids σ' → i ∈ adding_ids σ0 ∨ i = kpc_fresh (sys_kpc σ0)) as Ha.
  { rewrite Ea. intros i [? | Hi]%elem_of_app; [by left|right].
    destruct entry as [id|]; [|set_solver]. apply list_elem_of_singleton in Hi as ->. by apply Hf. }
  constructor.
  - eapply inv_perm; [|done]. unfold holders. rewrite Ea. cbn. by rewrite <-app_assoc, Permutation_app_swap_app.
  - apply (work_inv_frame any [] σ0); [by destruct W; constructor|apply F|set_solver|done|done].
  - intros Est. specialize (C Est).
    apply (calm_inv_frame any [] σ0);
      [by destruct C; constructor|apply F|by intros ? _|set_solver|done| |done].
    intros x [? | ->%list_elem_of_singleton]%elem_of_app; [by eapply ci_adding|]. by apply Hs.
Qed.

Lemma step_insert i : good_step (EvInsert i).
Proof using Hσ.
  intros Hc r. cbn [kexec]. destruct (sys_adding σ !! i) as [[entry defer]|] eqn:Ei; [|done].
  intros [= <-]. destruct Hσ as [H W C]. pose proof (adding_ids_delete _ _ _ _ Ei) as Ea.
  destruct entry as [id|].
  2:{ unfold add_probe_insert, mutex_lock. rewrite (ki_lock _ _ _ _ H). cbn. destruct strict; [|done].
      destruct (ci_adding _ (C eq_refl) (None, defer)) as [? ?]; [|done].
      apply list_elem_of_lookup. eauto. }
  assert (kpc_inv strict false (id :: omap fst (delete i (sys_adding σ)) ++ sys_showing σ) (sys_kpc σ))
    as H1 by (eapply inv_perm; [|exact H]; unfold holders; by rewrite Ea).
  destruct (add_probe_insert_ok _ _ k _ id defer H1) as (s' & -> & H2 & F). cbn.
  assert (∀ j, j ∈ [id] → j ∈ adding_ids σ) as Hl by (intros j; rewrite Ea; set_solver).
  constructor; [done|by eapply (work_inv_frame any [id] σ); try done; intros j; rewrite Ea; set_solver|].
  intros Est. specialize (C Est).
  apply (calm_inv_frame any [id] σ); [done|done|by intros ? _|done|intros j; rewrite Ea; set_solver| |done].
  intros x Hx. apply (ci_adding _ C). cbn in Hx. by rewrite (delete_Permutation _ _ _ Ei); right.
Qed.

(** Steps that only change the shared state, within a frame. *)
Lemma step_shared keep s' :
  kpc_inv strict false (holders σ) s' → kpc_frame keep [] (sys_kpc σ) s' →
  (strict = true → ∀ i, i ∈ work_of σ → keep i) → sys_inv strict (with_kpc σ s').
Proof using Hσ.
  intros H1 F Hk. destruct Hσ as [H W C]. constructor; [done|..].
  - apply (work_inv_frame keep [] σ); [done|done|set_solver|by left|done].
  - intros Est. specialize (C Est). apply (calm_inv_frame keep [] σ); auto; [set_solver|].
    by destruct C.
Qed.

Lemma step_coming name core : good_step (EvComing name core).
Proof using Hσ.
  intros Hc r [= <-]. apply holds_bind. eapply outcome_mono.
  { apply (coming_module_ok strict (holders σ) k (sys_kpc σ) name core), Hσ. }
  { done. }
  intros s' [H' F]. cbn. by apply (step_shared any).
Qed.

Lemma step_going name : good_step (EvGoing name).
Proof using Hσ.
  intros Hc r [= <-]. apply holds_bind. eapply outcome_mono.
  { apply (going_module_ok strict (holders σ) k (sys_kpc σ) name), Hσ. }
  { done. }
  intros s' [H' F]. cbn. apply (step_shared (λ i, strict = true ∧ spared name (sys_kpc σ) i)); [done..|].
  intros Est i Hi. split; [done|]. intros e He. by eapply (Hc Est).
Qed.

Lemma step_clear : good_step EvClear.
Proof using Hσ.
  intros Hc r [= <-]. destruct Hσ as [H W C].
  destruct (kpc_clear_ok _ _ k _ H) as (s' & -> & H1 & El & Ep & Hf & Ew). cbn.
  assert (kpc_deferred_list s' = [] ∧ kpc_pending_list s' = [] ∧ kpc_hit_list s' = []) as (E1 & E2 & E3).
  { unfold on_list in El. apply app_eq_nil in El as [? [? ?]%app_eq_nil]. done. }
  constructor; [done|..].
  - destruct W. constructor; cbn; [|rewrite Ep; set_solver].
    unfold work_of in *. cbn. rewrite Ew, E1. intros id Hi.
    destruct (si_work0 id Hi) as (? & ? & ?). split_and!; [lia|set_solver|done].
  - intros Est. specialize (C Est). assert (work_of σ = []) as Ework by exact (Hc Est).
    destruct C. constructor; cbn; unfold work_of in *; cbn; rewrite ?Ew, ?Ework, ?E3, ?El; try done.
    + constructor.
    + intros ? []%not_elem_of_nil.
    + by rewrite app_nil_r.
    + intros id Hi. destruct (ci_taken0 id Hi) as (? & ? & ?). split_and!; [lia|apply not_elem_of_nil|done].
Qed.

Lemma step_hit id : good_step (EvHit id).
Proof using Hσ.
  intros Hc r. cbn [kexec]. case_bool_decide as Hp; [|done]. intros [= <-].
  destruct Hσ as [H W C]. pose proof (ki_probes _ _ _ _ H _ Hp) as Hpend.
  destruct (inv_live _ _ _ _ id H) as [e He]; [unfold on_list; set_solver|].
  unfold kpc_pre_handler, kpc_entry. rewrite He. cbn [or_fault mbind res_mbind res_bind].
  assert (sys_working σ = Some (id, true) → False) as Hnw by (intros Ew; by eapply si_working).
  assert (id ∉ kpc_deferred_list (sys_kpc σ)) as Hnd by (by apply (lists_nodup _ _ _ _ H)).
  assert (id ∉ kpc_hit_list (sys_kpc σ)) as Hnh by (by apply (lists_nodup _ _ _ _ H)).
  assert (id ∉ adding_ids σ) as Hna.
  { destruct (ki_owns _ _ _ _ H) as [(_ & Hd & _)%NoDup_app _]. intros Hi. apply (Hd id).
    - unfold on_list. set_solver.
    - unfold holders. set_solver. }
  assert (id < kpc_fresh (sys_kpc σ))%nat as Hlt by (eapply (ki_fresh _ _ _ _ H); eauto).
  destruct (decide (id ∈ kpc_workqueue (sys_kpc σ))) as [Hq | Hq].
  - rewrite (bool_decide_eq_true_2 (id ∈ kpc_workqueue _)) by done. cbn.
    constructor; [done|by destruct W; constructor|]. intros Est. specialize (C Est).
    rewrite bool_decide_eq_true_2; [by destruct C; constructor|].
    rewrite (ci_fired _ C). unfold work_of. set_solver.
  - rewrite (bool_decide_eq_false_2 (id ∈ kpc_workqueue _)) by done. cbn.
    constructor; [by destruct H; constructor| |].
    + destruct W. constructor; [|done]. intros i. unfold work_of. cbn. rewrite app_assoc.
      intros [Hi | ->%list_elem_of_singleton]%elem_of_app; [by apply si_work0|done].
    + intros Est. specialize (C Est). pose proof (Hc Est) as Hcalm. cbn in Hcalm.
      assert (id ∉ work_of σ) as Hnwork by (unfold work_of; set_solver).
      rewrite bool_decide_eq_false_2.
      2:{ rewrite (ci_fired _ C). intros [Ht | [? | ?]%elem_of_app]%elem_of_app; [|done..].
          apply (ci_taken _ C) in Ht as (_ & Hn & _). apply Hn. unfold on_list. set_solver. }
      destruct C. constructor; try done; unfold work_of in *; cbn; rewrite ?app_assoc.
      * apply NoDup_app. split_and!; [done| |by apply NoDup_singleton].
        intros i Hi ->%list_elem_of_singleton. done.
      * intros i [Hi | ->%list_elem_of_singleton]%elem_of_app; auto.
      * by rewrite ci_fired0, <-!app_assoc.
Qed.

Lemma step_dequeue : good_step EvDequeue.
Proof using Hσ.
  intros Hc r. cbn [kexec]. destruct (sys_working σ) eqn:Ew; [done|].
  destruct (kpc_workqueue (sys_kpc σ)) as [|id rest] eqn:Eq; [done|]. intros [= <-]. cbn.
  destruct Hσ as [H W C].
  set (σ' := mkKsystem _ _ _ _ _ _ _).
  assert (work_of σ' = work_of σ) as E by (unfold work_of; cbn; by rewrite Ew, Eq).
  constructor; [by destruct H; constructor| |].
  - destruct W. constructor; [by rewrite E|done].
  - intros Est. destruct (C Est). by constructor; rewrite ?E.
Qed.

Lemma step_unregister : good_step EvUnregister.
Proof using Hσ.
  intros Hc r. cbn [kexec]. destruct (sys_working σ) as [[id []]|] eqn:Ew; [done| |done].
  intros [= <-]. destruct Hσ as [H W C].
  destruct (decide (id ∈ on_list (sys_kpc σ) ++ holders σ)) as [Hi | Hi].
  - destruct (unregister_kprobe_ok _ _ _ k _ id H Hi) as (s' & -> & H1 & Ep & El & F). cbn.
    injection El as E1 E2 E3.
    set (σ' := mkKsystem _ _ _ _ _ _ _).
    assert (work_of σ' = work_of σ) as E.
    { unfold work_of. cbn. rewrite Ew, (kf_work _ _ _ _ (F any [])). done. }
    constructor; [done| |].
    + destruct W. constructor.
      * rewrite E. cbn. rewrite E1. intros i Hi'. destruct (si_work0 i Hi') as (? & ? & ?).
        pose proof (kf_fresh _ _ _ _ (F any [])). split_and!; [lia|done|done].
      * intros i [= <-]. cbn. rewrite Ep. clear. set_solver.
    + intros Est. destruct (C Est). constructor; rewrite ?E; try done; cbn; unfold on_list;
        rewrite ?E1, ?E2, ?E3; try done.
      intros i Hi'. destruct (ci_taken0 i Hi') as (? & ? & ?).
      pose proof (kf_fresh _ _ _ _ (F any [])). split_and!; [lia|done|done].
  - unfold unregister_kprobe, kpc_entry. destruct (kpc_heap (sys_kpc σ) !! id) eqn:Eh.
    { exfalso. apply Hi, (ki_owns _ _ _ _ H). eauto. }
    cbn. destruct strict; [|done]. exfalso. specialize (C eq_refl). apply Hi.
    pose proof (ci_pending _ C id) as Hp. unfold work_of in Hp. rewrite Ew in Hp.
    unfold on_list. set_solver.
Qed.

Lemma step_move : good_step EvMove.
Proof using Hσ.
  intros Hc r. cbn [kexec]. destruct (sys_working σ) as [[id []]|] eqn:Ew; [|done|done].
  intros [= <-]. destruct Hσ as [H W C].
  pose proof (si_working _ W _ Ew) as Hp.
  assert (strict = true → id ∈ kpc_pending_list (sys_kpc σ)) as Hpend.
  { intros Est. apply (ci_pending _ (C Est)). unfold work_of. rewrite Ew. by left. }
  assert (∀ i, i ∈ kpc_workqueue (sys_kpc σ) → i ∈ work_of σ) as Hsub.
  { intros i Hi. apply elem_of_app. by right. }
  eapply outcome_seq.
  { eapply outcome_mono; [by apply (probe_work_move_ok _ _ _ id H)| |by intros ? ?].
    intros Hn. destruct strict; [|done]. exfalso. apply Hn. specialize (Hpend eq_refl).
    unfold on_list. set_solver. }
  intros s' (H1 & Hi & E). cbn. subst s'. constructor; [done| |].
  - destruct W. constructor; [|done]. unfold work_of. cbn. intros i Hi'.
    destruct (si_work0 i (Hsub i Hi')) as (? & ? & ?). split_and!; [done| |done].
    rewrite list_without_elem. by intros [_ ?].
  - intros Est. specialize (C Est). specialize (Hpend Est).
    destruct (lists_nodup _ _ _ _ H) as (_ & _ & _ & Hd). destruct (Hd id Hpend) as [_ Hnh].
    destruct C. unfold work_of in *. rewrite Ew in *. cbn in *.
    apply NoDup_cons in ci_nodup0 as [Hnq Hq]. constructor; try done; unfold work_of; cbn.
    + intros i Hi'. apply list_without_elem. split; [by intros ->|]. apply ci_pending0. by right.
    + rewrite (list_without_not id (kpc_hit_list _)) by done. by rewrite ci_fired0, <-!app_assoc.
    + intros i Hi'. destruct (ci_taken0 i Hi') as (? & Hn & ?). split_and!; [done| |done].
      intros Hi2. apply Hn. revert Hi Hi2. unfold on_list. cbn. clear. set_solver.
Qed.

Lemma step_take : good_step EvTake.
Proof using Hσ.
  intros Hc r. cbn [kexec]. unfold kpc_seq_start. destruct Hσ as [H W C].
  destruct (unlink_next_ok _ _ _ H) as [[E _] | (id & rest & s' & E & Eu & H1 & Es)]; rewrite E; [done|].
  intros [= <-]. rewrite Eu. cbn. subst s'.
  destruct (lists_nodup _ _ _ _ H) as (_ & _ & Hh & _). rewrite E in Hh.
  assert (id < kpc_fresh (sys_kpc σ))%nat as Hlt.
  { destruct (inv_live _ _ _ _ id H) as [e He]; [|by eapply (ki_fresh _ _ _ _ H)].
    unfold on_list. rewrite E. set_solver. }
  assert (id ∉ adding_ids σ ∧ id ∉ kpc_deferred_list (sys_kpc σ) ∧ id ∉ kpc_pending_list (sys_kpc σ))
    as (Hna & Hnd & Hnp).
  { destruct (ki_owns _ _ _ _ H) as [(Hn & Hd & _)%NoDup_app _]. split_and!.
    - intros Hi. apply (Hd id); unfold on_list, holders; rewrite ?E; set_solver.
    - unfold on_list in Hn. rewrite E in Hn. apply NoDup_app in Hn as (_ & Hn & _).
      intros Hi. apply (Hn id Hi). set_solver.
    - intros Hi. destruct (lists_nodup _ _ _ _ H) as (_ & _ & _ & Hx). apply Hx in Hi as [_ Hi].
      apply Hi. rewrite E. by left. }
  constructor.
  - eapply inv_perm; [|exact H1]. unfold holders. cbn.
    change (id :: adding_ids σ ++ sys_showing σ ≡ₚ adding_ids σ ++ sys_showing σ ++ [id]).
    rewrite app_assoc. apply Permutation_cons_append.
  - destruct W. by constructor.
  - intros Est. destruct (C Est). constructor; try done; cbn.
    + rewrite ci_fired0, E, <-app_assoc. done.
    + intros i [Hi | ->%list_elem_of_singleton]%elem_of_app.
      * destruct (ci_taken0 i Hi) as (? & Hn & ?). split_and!; [done| |done].
        intros Hi2. apply Hn. revert Hi2. unfold on_list. cbn. rewrite E. clear. set_solver.
      * split_and!; [done| |done]. apply NoDup_cons in Hh as [? _].
        unfold on_list. cbn. rewrite !elem_of_app. tauto.
Qed.

Lemma step_show id : good_step (EvShow id).
Proof using Hσ.
  intros Hc r. cbn [kexec]. case_bool_decide as Hi; [|done]. intros [= <-].
  destruct Hσ as [H W C].
  assert (kpc_inv strict false (id :: adding_ids σ ++ list_without id (sys_showing σ)) (sys_kpc σ)) as H1.
  { eapply inv_perm; [|exact H]. unfold holders.
    rewrite (list_without_perm id (sys_showing σ)) at 1; [by rewrite Permutation_middle| |done].
    destruct (ki_owns _ _ _ _ H) as [(_ & _ & Hn)%NoDup_app _]. by apply NoDup_app in Hn as (_ & _ & ?). }
  eapply outcome_seq; [by apply (kpc_seq_show_ok _ _ _ _ H1)|].
  intros [line s'] (H2 & E & _). cbn in E, H2 |- *. subst s'. constructor; [done| |].
  - destruct W. by constructor.
  - intros Est. destruct (C Est). by constructor.
Qed.
End step.

(** Every step keeps the invariant, and in calm schedules none faults. *)
Lemma sys_step strict k e σ r :
  sys_inv strict σ → (strict = true → calm k e σ) → kexec k e σ = Some r →
  outcome (strict = false) (sys_inv strict) r.
Proof.
  intros Hσ Hc. revert r. revert Hc. fold (good_step strict k σ e).
  destruct e; auto using step_prepare, step_insert, step_clear, step_coming, step_going, step_hit,
    step_dequeue, step_unregister, step_move, step_take, step_show.
Qed.

Lemma kreachable_inv σ : kreachable σ → sys_inv false σ.
Proof.
  unfold kreachable. revert σ. apply rtc_ind_r; [apply sys_initial_inv|].
  intros σ1 σ2 _ [k e σ3 σ4 E] Hi. by apply (sys_step false k e _ _ Hi) in E.
Qed.

Lemma calm_reachable_inv σ : rtc calm_step ksys_initial σ → sys_inv true σ.
Proof.
  revert σ. apply rtc_ind_r; [apply sys_initial_inv|].
  intros σ1 σ2 _ [k e σ3 σ4 Hc E] Hi. by apply (sys_step true k e _ _ Hi (λ _, Hc)) in E.
Qed.

(** ** What the machine guarantees *)

(** C6: "Each coverage entry is on exactly one of these lists": in every state the
    module can reach, however writers, module notifications, probes, the worker
    and readers interleave, the entries in memory are exactly those on one of the
    three lists or in the hands of a writer or a reader, each once; only probes of
    pending entries are registered; the lock is free between steps, and no
    [BUG_ON] fires and no handler takes the lock twice. *)
Theorem kpc_one_owner σ :
  kreachable σ →
  NoDup (on_list (sys_kpc σ) ++ adding_ids σ ++ sys_showing σ) ∧
  (∀ id, id ∈ on_list (sys_kpc σ) ++ adding_ids σ ++ sys_showing σ ↔
     is_Some (kpc_heap (sys_kpc σ) !! id)) ∧
  (∀ id, id ∈ kpc_probes (sys_kpc σ) → id ∈ kpc_pending_list (sys_kpc σ)) ∧
  kpc_lock (sys_kpc σ) = false ∧
  (∀ k e r, kexec k e σ = Some r → r ≠ Panic ∧ r ≠ Throw).
Proof.
  intros Hσ%kreachable_inv. pose proof (si_kpc _ _ Hσ) as H.
  destruct (ki_owns _ _ _ _ H) as [Hn Hl]. split_and!; [done|done|apply H|apply H|].
  intros k e r Hr%(sys_step false); [|done..]. by destruct r.
Qed.

(** C7: in a calm schedule - memory can be had, the name table has room, nothing
    is freed while work for it is outstanding, and no probe fires again on another
    processor while the worker is at it - no step uses freed memory or unlinks an
    entry twice, whatever probes and modules come and go; and the probes that
    fired are, in the order in which they did, those already read, those on the
    hit list and those the worker has still to move: none is lost and none is
    reported twice. *)
Theorem kpc_calm_safe σ :
  rtc calm_step ksys_initial σ →
  (∀ k e r, calm k e σ → kexec k e σ = Some r → ∃ σ', r = Ok σ') ∧
  sys_fired σ = sys_taken σ ++ kpc_hit_list (sys_kpc σ) ++ work_of σ ∧
  NoDup (kpc_hit_list (sys_kpc σ) ++ work_of σ).
Proof.
  intros Hσ%calm_reachable_inv. pose proof (si_calm _ _ Hσ eq_refl) as C.
  split_and!; [|apply C|].
  - intros k e r Hc Hr%(sys_step true); [|done..]. destruct r; try done. eauto.
  - apply NoDup_app. destruct (lists_nodup _ _ _ _ (si_kpc _ _ Hσ)) as (_ & _ & Hh & Hx).
    split_and!; [done| |apply C]. intros id Hi Hw%(ci_pending _ C). by apply Hx in Hw as [_ ?].
Qed.

(** ** The worker and the readers catch up *)

Definition drains (e : kevent) : bool :=
  match e with EvDequeue | EvUnregister | EvMove | EvTake | EvShow _ => true | _ => false end.
Inductive drain_step : ksystem → ksystem → Prop :=
  | DrainStep k e σ σ' : drains e = true → kexec k e σ = Some (Ok σ') → drain_step σ σ'.

(** The steps left. *)
Definition backlog (σ : ksystem) : nat :=
  5 * length (kpc_workqueue (sys_kpc σ)) +
  match sys_working σ with None => 0 | Some (_, false) => 4 | Some (_, true) => 3 end +
  2 * length (kpc_hit_list (sys_kpc σ)) + length (sys_showing σ).

Lemma drain_calm k e σ : drains e = true → calm k e σ.
Proof. by destruct e. Qed.

Lemma length_list_without id l : NoDup l → id ∈ l → length l = S (length (list_without id l)).
Proof. intros Hn Hi. by rewrite (list_without_perm id l) at 1. Qed.

Lemma drain_backlog σ σ' :
  sys_inv true σ → drain_step σ σ' → backlog σ = S (backlog σ') ∧ sys_fired σ' = sys_fired σ.
Proof.
  intros Hσ Hs. destruct Hs as [k e σ σ' Hd E]. destruct Hσ as [H W C]. specialize (C eq_refl).
  destruct (lists_nodup _ _ _ _ H) as (_ & _ & Hh & Hx).
  destruct e; try done; cbn [kexec] in E; clear Hd.
  - destruct (sys_working σ) eqn:Ew; [done|]. destruct (kpc_workqueue (sys_kpc σ)) eqn:Eq; [done|].
    injection E as <-. split; [|done]. unfold backlog. cbn -[Nat.mul Nat.add]. rewrite Ew, Eq.
    cbn -[Nat.mul Nat.add]. lia.
  - destruct (sys_working σ) as [[id []]|] eqn:Ew; [done| |done]. injection E as E.
    apply bind_Ok in E as (s' & E & [= <-]).
    destruct (unregister_kprobe_ok _ _ _ k _ id H) as (s1 & E1 & _ & _ & El & F).
    { apply elem_of_app. left. apply elem_of_app. right. apply elem_of_app. left.
      apply (ci_pending _ C). unfold work_of. rewrite Ew. by left. }
    rewrite E in E1. injection E1 as <-. injection El as E1 E2 E3.
    split; [|done]. unfold backlog. cbn -[Nat.mul Nat.add]. rewrite Ew, (kf_work _ _ _ _ (F any [])), E3. lia.
  - destruct (sys_working σ) as [[id []]|] eqn:Ew; [|done|done]. injection E as E.
    apply bind_Ok in E as (s' & E & [= <-]).
    pose proof (probe_work_move_ok _ _ _ id H (si_working _ W _ Ew)) as Ho. rewrite E in Ho.
    destruct Ho as (_ & _ & ->). split; [|done]. unfold backlog. cbn -[Nat.mul Nat.add]. rewrite Ew.
    rewrite list_without_not, length_app; [cbn -[Nat.mul Nat.add]; lia|].
    apply Hx, (ci_pending _ C). unfold work_of. rewrite Ew. by left.
  - unfold kpc_seq_start in E.
    destruct (unlink_next_ok _ _ _ H) as [[E1 _] | (id & rest & s' & E1 & Eu & _ & ->)];
      rewrite E1 in E; [done|].
    rewrite Eu in E. injection E as <-. split; [|done]. unfold backlog. cbn -[Nat.mul Nat.add]. rewrite E1, length_app. cbn -[Nat.mul Nat.add]. lia.
  - case_bool_decide as Hi; [|done]. injection E as E. apply bind_Ok in E as ([line s'] & E & [= <-]).
    unfold kpc_seq_show, free_entry in E. apply bind_Ok in E as (e & _ & E).
    apply bind_Ok in E as (name & _ & E). apply bind_Ok in E as (s1 & E & E').
    apply bind_Ok in E as (e1 & _ & E). simplify_eq. split; [|done]. unfold backlog. cbn -[Nat.mul Nat.add].
    rewrite (length_list_without id (sys_showing _)); [lia| |done].
    destruct (ki_owns _ _ _ _ H) as [(_ & _ & Hn)%NoDup_app _]. by apply NoDup_app in Hn as (_ & _ & ?).
Qed.

Lemma drain_inv σ σ' : sys_inv true σ → drain_step σ σ' → sys_inv true σ'.
Proof.
  intros Hσ Hs. destruct Hs as [k e σ σ' Hd E]. apply (sys_step true k e _ _ Hσ (λ _, drain_calm k e _ Hd)) in E. done.
Qed.

(** A kernel to step with. *)
Definition plain_kernel : Kernel := {|
  k_find_module := λ _, None;
  k_register_kprobe := λ _, true;
  k_unregister_twice := λ _, 0;
  k_kzalloc := true;
  k_kstrdup := true;
  k_simple_strtoul := λ s,
    let '(b, n, r) := strtoull_base 16 s in
    let '(v, m) := parse_digits b 0 0 r in (v, (n + m)%nat) |}.

Lemma drain_progress σ : sys_inv true σ → backlog σ ≠ O → ∃ σ', drain_step σ σ'.
Proof.
  intros Hσ Hb.
  assert (∃ e r, drains e = true ∧ kexec plain_kernel e σ = Some r) as (e & r & Hd & E).
  { unfold backlog in Hb. destruct (sys_working σ) as [[id [|]]|] eqn:Ew.
    - eexists EvMove, _. cbn. by rewrite Ew.
    - eexists EvUnregister, _. cbn. by rewrite Ew.
    - destruct (kpc_workqueue (sys_kpc σ)) as [|id q] eqn:Eq.
      2:{ eexists EvDequeue, _. cbn. by rewrite Ew, Eq. }
      destruct (kpc_hit_list (sys_kpc σ)) as [|id h] eqn:Eh.
      2:{ eexists EvTake, _. cbn. unfold kpc_seq_start. by rewrite Eh. }
      destruct (sys_showing σ) as [|id l] eqn:Es; [done|].
      eexists (EvShow id), _. cbn. by rewrite bool_decide_eq_true_2 by (rewrite Es; by left). }
  pose proof (sys_step true _ _ _ _ Hσ (λ _, drain_calm _ e _ Hd) E) as Ho.
  destruct r as [σ'| | |]; try done. by exists σ', plain_kernel e.
Qed.

(** C8: the worker and the readers never run forever and never get stuck: from any
    state of a calm schedule their steps, in whatever order, number exactly
    [backlog] until none is left, and then every probe that fired has been taken
    by a reader and shown, in the order of firing. *)
Theorem kpc_drains σ :
  rtc calm_step ksys_initial σ →
  (∀ n σ', nsteps drain_step n σ σ' → (n ≤ backlog σ)%nat) ∧
  (∀ σ', rtc drain_step σ σ' → (∀ σ'', ¬ drain_step σ' σ'') →
     nsteps drain_step (backlog σ) σ σ' ∧
     sys_taken σ' = sys_fired σ ∧ sys_showing σ' = [] ∧ kpc_hit_list (sys_kpc σ') = []) ∧
  (∃ σ', nsteps drain_step (backlog σ) σ σ').
Proof.
  intros Hσ%calm_reachable_inv.
  assert (∀ n σ σ', sys_inv true σ → nsteps drain_step n σ σ' →
            sys_inv true σ' ∧ backlog σ = (n + backlog σ')%nat ∧ sys_fired σ' = sys_fired σ) as Hn.
  { clear. intros n. induction n as [|n IH]; intros σ σ' Hσ Hs; inversion Hs; subst; [done|].
    destruct (drain_backlog _ _ Hσ H0) as [Eb Ef].
    destruct (IH _ _ (drain_inv _ _ Hσ H0) H1) as (? & ? & ?). split_and!; [done|lia|congruence]. }
  split_and!.
  - intros n σ' Hs. apply Hn in Hs as (_ & ? & _); [lia|done].
  - intros σ' [n Hs]%rtc_nsteps Hstop. destruct (Hn _ _ _ Hσ Hs) as (Hσ' & Eb & Ef).
    assert (backlog σ' = O) as E0.
    { destruct (decide (backlog σ' = O)) as [|Hb]; [done|].
      destruct (drain_progress _ Hσ' Hb) as [σ'' ?]. by destruct (Hstop σ''). }
    rewrite E0, Nat.add_0_r in Eb. split; [by rewrite Eb|].
    unfold backlog in E0. rewrite <-Ef.
    destruct (sys_working σ') as [[? []]|] eqn:Ew; [lia..|].
    destruct (kpc_workqueue _) eqn:Eq; [|cbn in E0; lia].
    destruct (kpc_hit_list _) eqn:Eh; [|cbn in E0; lia].
    destruct (sys_showing σ') eqn:Es; [|cbn in E0; lia].
    rewrite (ci_fired _ (si_calm _ _ Hσ' eq_refl)), Eh. unfold work_of. by rewrite Ew, Eq, !app_nil_r.
  - clear -Hσ. remember (backlog σ) as n eqn:E. revert σ Hσ E.
    induction n as [|n IH]; intros σ Hσ E; [exists σ; constructor|].
    destruct (drain_progress σ Hσ) as [σ1 H1]; [lia|]. destruct (drain_backlog _ _ Hσ H1) as [Eb _].
    destruct (IH σ1) as [σ' ?]; [by eapply drain_inv|lia|]. exists σ'. by econstructor.
Qed.

(** ** Concrete runs *)

Lemma krun_reachable evs σ σ' : krun evs σ = Some (Ok σ') → rtc kstep σ σ'.
Proof.
  revert σ; induction evs as [|[k e] evs IH]; intros σ; cbn; [by intros [= <-]|].
  destruct (kexec k e σ) as [[σ1| | |]|] eqn:E; try done. intros H.
  eapply rtc_l; [by econstructor|auto].
Qed.

(** Every event of a schedule, in the state it meets. *)
Fixpoint krun_all (P : kevent → Kernel → ksystem → Prop) (evs : list (Kernel * kevent)) (σ : ksystem)
  : Prop :=
  match evs with
  | [] => True
  | (k, e) :: evs =>
      P e k σ ∧ match kexec k e σ with Some (Ok σ) => krun_all P evs σ | _ => False end
  end.

Lemma krun_all_steps (P : kevent → Kernel → ksystem → Prop) (R : relation ksystem) evs σ σ' :
  (∀ k e σ σ', P e k σ → kexec k e σ = Some (Ok σ') → R σ σ') →
  krun evs σ = Some (Ok σ') → krun_all P evs σ → rtc R σ σ'.
Proof.
  intros HR. revert σ; induction evs as [|[k e] evs IH]; intros σ; cbn; [by intros [= <-]|].
  destruct (kexec k e σ) as [[σ1| | |]|] eqn:E; try done. intros H [Hc Hr].
  eapply rtc_l; [by eapply HR|auto].
Qed.

Definition with_plain : list kevent → list (Kernel * kevent) := fmap (plain_kernel,.).

(** A probe of the kernel and one of a module that is not loaded; the first fires. *)
Definition demo_events : list kevent :=
  [EvPrepare None 0x1000; EvInsert 0; EvPrepare (Some (str "ext4")) 0x20; EvInsert 0; EvHit 0].
Definition demo_state : ksystem :=
  match krun (with_plain demo_events) ksys_initial with Some (Ok σ) => σ | _ => ksys_initial end.

Lemma kernel_demo_run : krun (with_plain demo_events) ksys_initial = Some (Ok demo_state).
Proof. by vm_compute. Qed.

Lemma demo_calm : rtc calm_step ksys_initial demo_state.
Proof.
  apply (krun_all_steps (λ e k, calm k e) _ _ _ _ CalmStep kernel_demo_run). vm_compute.
  repeat split; first [by left | by inversion 1].
Qed.

Lemma kpc_one_owner_witness :
  NoDup (on_list (sys_kpc demo_state) ++ adding_ids demo_state ++ sys_showing demo_state) ∧
  on_list (sys_kpc demo_state) = [1%nat; 0%nat] ∧ kpc_lock (sys_kpc demo_state) = false.
Proof.
  assert (kreachable demo_state) as H by exact (krun_reachable _ _ _ kernel_demo_run).
  destruct (kpc_one_owner demo_state H) as (Hn & _ & _ & Hl & _).
  split; [exact Hn|]. split; [reflexivity|exact Hl].
Defined.

Lemma kpc_calm_safe_witness :
  sys_fired demo_state = [0%nat] ∧
  sys_fired demo_state
    = sys_taken demo_state ++ kpc_hit_list (sys_kpc demo_state) ++ work_of demo_state.
Proof. split; [reflexivity|]. apply (kpc_calm_safe demo_state demo_calm). Defined.

Lemma kpc_drains_witness :
  backlog demo_state = 5%nat ∧ ∃ σ', nsteps drain_step 5 demo_state σ'.
Proof. split; [reflexivity|]. apply (kpc_drains demo_state demo_calm). Defined.
