(* ===== verification/KernelPipeline.v ===== *)
(** * The kernel engine and the kernel module together

    The engine (SystemEngine.v) writes a line per address to the control file, the
    module (KernelModule.v) makes probes of them, and what readers are shown of
    the probes that fired is what the engine reports as breakpoints. *)
From S2P Require Export KernelProofs.
From S2P Require Import CxxString Utils Scripts.
From stdpp Require Import options.

(** ** Addresses as text *)

Lemma hex_digits_parse n z :
  0 ≤ z < 2 ^ 64 →
  let s := replicate n "0"%char ++ fmt_x z in
  Forall (λ c, ∃ d, 0 ≤ d < 16 ∧ c = digit_char d) s ∧ s ≠ [] ∧
  parse_digits 16 0 0 s = (z, length s).
Proof.
  intros Hz. unfold fmt_x.
  destruct (digits_shape 16 63 z [] ltac:(lia) ltac:(lia)) as (c & D & E & HF & _ & Hp).
  change 64%nat with (S 63). rewrite E, app_nil_r in *. cbn zeta. split_and!.
  - apply Forall_app. split; [|done]. apply Forall_replicate. by exists 0.
  - by destruct n.
  - rewrite parse_zeros by lia. rewrite Hp by (change (16 ^ Z.of_nat 64) with (2 ^ 256); lia).
    cbn [parse_digits]. rewrite length_app, length_replicate. cbn [length]. f_equal; lia.
Qed.

Lemma hex_prefix_base n z :
  0 ≤ z < 2 ^ 64 →
  strtoull_base 16 (str "0x" ++ replicate n "0"%char ++ fmt_x z)
    = (16, 2%nat, replicate n "0"%char ++ fmt_x z).
Proof.
  intros Hz. destruct (hex_digits_parse n z Hz) as (HF & Hne & _).
  destruct (replicate n "0"%char ++ fmt_x z) as [|c s]; [done|].
  apply Forall_cons in HF as [(d & Hd & ->) _]. unfold strtoull_base.
  change (has_0x _) with (match digit_in 16 (digit_char d) with Some _ => true | None => false end).
  by rewrite digit_in_char by lia.
Qed.

Lemma hex_prefixed n z :
  0 ≤ z < 2 ^ 64 →
  stoull (str "0x" ++ replicate n "0"%char ++ fmt_x z) 16
    = StoValue z (length (str "0x" ++ replicate n "0"%char ++ fmt_x z)).
Proof.
  intros Hz. destruct (hex_digits_parse n z Hz) as (_ & Hne & Hp).
  pose proof (hex_prefix_base n z Hz) as E.
  destruct (replicate n "0"%char ++ fmt_x z) as [|c s]; [done|].
  unfold stoull. change (str "0x" ++ c :: s) with ("0"%char :: "x"%char :: c :: s) in *.
  change (skip_space _) with (0%nat, "0"%char :: "x"%char :: c :: s). cbn beta iota.
  change (strip_sign _) with (false, 0%nat, "0"%char :: "x"%char :: c :: s). cbn beta iota.
  rewrite E. cbn beta iota. rewrite Hp. cbn [length].
  rewrite (proj2 (Z.leb_gt (2 ^ 64) z)) by lia. done.
Qed.

Lemma hex_line_chars n z c :
  0 ≤ z < 2 ^ 64 → c ∈ str "0x" ++ replicate n "0"%char ++ fmt_x z →
  c ≠ "010"%char ∧ c ≠ "013"%char ∧ c ≠ NUL ∧ c ≠ ":"%char.
Proof.
  intros Hz [Hc | Hc]%elem_of_app.
  - revert Hc. cbn. set_solver.
  - destruct (hex_digits_parse n z Hz) as (HF & _ & _). rewrite Forall_forall in HF.
    destruct (HF c Hc) as (d & Hd & ->).
    assert (Forall (λ d, digit_char d ≠ "010"%char ∧ digit_char d ≠ "013"%char ∧ digit_char d ≠ NUL ∧
                         digit_char d ≠ ":"%char) (seqZ 0 16)) as H.
    { apply (bool_decide_unpack (Forall _ _)). by vm_compute. }
    rewrite Forall_forall in H. apply H, elem_of_seqZ. lia.
Qed.

Lemma find_colon_none s : ":"%char ∉ s → str_find (str ":") s = None.
Proof.
  induction s as [|c s IH]; intros H; [done|]. apply not_elem_of_cons in H as [H1 H2].
  cbn [str_find]. rewrite IH by done.
  assert (prefixb (str ":") (c :: s) = false) as ->; [|done].
  cbn. by rewrite bool_decide_eq_false_2 by congruence.
Qed.

(** ** Lines of the control file *)

Lemma split_line_app l rest :
  Forall (λ c, c ≠ "010"%char ∧ c ≠ "013"%char) l →
  split_line (l ++ "010"%char :: rest) = (l, Some rest).
Proof.
  induction l as [|c l IH]; intros H; [done|]. apply Forall_cons in H as [[H1 H2] H].
  cbn. unfold is_line_end. rewrite bool_decide_eq_false_2 by tauto. by rewrite IH.
Qed.

(** What is known of [simple_strtoul]: hexadecimal numbers with their prefix. *)
Definition strtoul_reads_hex (k : Kernel) : Prop :=
  ∀ z, 0 ≤ z < 2 ^ 64 →
    k_simple_strtoul k (str "0x" ++ fmt_x z) = (z, length (str "0x" ++ fmt_x z)).

(** The line the engine writes for an address of the kernel. *)
Definition control_line (a : Z) : bytes := str "0x" ++ fmt_x a ++ ["010"%char].

Lemma length_digits base n z acc : (length (digits base n z acc) ≤ n + length acc)%nat.
Proof.
  revert z acc; induction n as [|n IH]; intros z acc; cbn [digits]; [lia|].
  destruct (z / base =? 0); cbn [length]; [lia|]. etransitivity; [apply IH|]. cbn. lia.
Qed.

Lemma length_control_line a : (length (control_line a) ≤ 67)%nat.
Proof.
  unfold control_line, fmt_x. rewrite !length_app. pose proof (length_digits 16 64 a []). cbn in *. lia.
Qed.

Lemma control_write_line k a s s' :
  strtoul_reads_hex k → k_kzalloc k = true → 0 ≤ a < 2 ^ 64 →
  kpc_add_probe k None a s = Ok s' →
  kpc_control_write k true (control_line a) s = Ok (Written (Z.of_nat (length (control_line a))), s').
Proof.
  intros Hk Ha Hz E. unfold kpc_control_write.
  rewrite (proj2 (Z.ltb_ge _ _)) by (pose proof (length_control_line a); lia). rewrite Ha. cbn [negb].
  set (l := str "0x" ++ fmt_x a).
  assert (∀ c, c ∈ l → c ≠ "010"%char ∧ c ≠ "013"%char ∧ c ≠ NUL ∧ c ≠ ":"%char) as Hc.
  { intros c. apply (hex_line_chars 0 a c Hz). }
  assert (control_line a = l ++ ["010"%char]) as El by (unfold control_line, l; by rewrite <-app_assoc).
  rewrite El. rewrite c_prefix_no_nul.
  2:{ unfold no_nul. rewrite elem_of_app. intros [Hi | Hi].
      - destruct (Hc NUL Hi) as (_ & _ & Hn & _). done.
      - revert Hi. set_solver. }
  cbn [control_lines]. rewrite split_line_app.
  2:{ apply Forall_forall. intros c Hi. destruct (Hc c Hi) as (? & ? & _). done. }
  assert (∃ l', l = "0"%char :: l') as [l' E0] by (by eexists).
  assert (bool_decide (l = str "clear") = false) as Ec.
  { apply bool_decide_eq_false_2. by rewrite E0. }
  rewrite Ec. unfold control_split. rewrite find_colon_none.
  2:{ intros Hi. destruct (Hc _ Hi) as (_ & _ & _ & Hn). done. }
  unfold l at 2. rewrite Hk by done. fold l.
  rewrite bool_decide_eq_false_2 by (intros [?|?]; [rewrite E0 in *; done|done]).
  rewrite E. cbn [mbind res_mbind res_bind]. rewrite length_app. clearbody l. subst l. cbn [length].
  replace (S (length l') + 1)%nat with (S (S (length l'))) by lia.
  cbn -[Z.of_nat]. do 2 f_equal. f_equal. lia.
Qed.

(** ** The module in the recording of the kernel's own addresses *)

(** The kernels considered: memory, probes everywhere, and [simple_strtoul]. *)
Record good_kernel (k : Kernel) : Prop := {
  gk_kzalloc : k_kzalloc k = true;
  gk_kstrdup : k_kstrdup k = true;
  gk_register : ∀ a, k_register_kprobe k a = true;
  gk_strtoul : strtoul_reads_hex k;
}.

Definition module_state (s : kprobe_coverage) : ksystem := mkKsystem s [] None [] [] [] [].

(** [as] are the addresses in the order of their entries; the output so far are
    the lines of entries taken, all of them but the one being shown. *)
Record recording (addrs : list Z) (σ : ksystem) : Prop := {
  rc_reach : rtc calm_step ksys_initial σ;
  rc_fresh : kpc_fresh (sys_kpc σ) = length addrs;
  rc_entry : ∀ id e, kpc_heap (sys_kpc σ) !! id = Some e →
    ∃ a, addrs !! id = Some a ∧ e = mkKpcEntry 0 0 a;
  rc_probes : ∀ id, id ∈ kpc_workqueue (sys_kpc σ) ∨ sys_working σ = Some (id, false) →
    id ∈ kpc_probes (sys_kpc σ);
  rc_output : ∃ shown as_, sys_taken σ = shown ++ sys_showing σ ∧
    Forall2 (λ id a, addrs !! id = Some a) shown as_ ∧
    sys_output σ = concat (kpc_line None <$> as_);
  rc_one : (length (sys_showing σ) ≤ 1)%nat;
  rc_nodup : NoDup (sys_fired σ);
}.

(** One address from the control file. *)
Definition kpc_with_probe (a : Z) (s : kprobe_coverage) : kprobe_coverage :=
  mkKpc (kpc_deferred_list s) (kpc_fresh s :: kpc_pending_list s) (kpc_hit_list s)
    (kpc_module_names s) (kpc_name_count s) false
    (<[kpc_fresh s := mkKpcEntry 0 0 a]> (kpc_heap s)) (S (kpc_fresh s))
    ({[kpc_fresh s]} ∪ kpc_probes s) (kpc_workqueue s).

Lemma add_kernel_probe k a s :
  good_kernel k → 0 ≤ a < 2 ^ 64 → kpc_lock s = false →
  ∃ s1, add_probe_prepare k None a s = Ok (Some (kpc_fresh s), false, s1) ∧
    add_probe_insert k (Some (kpc_fresh s)) false s1 = Ok (kpc_with_probe a s).
Proof.
  intros [Hz Hd Hr _] Ha Hl. unfold add_probe_prepare, new_entry. rewrite Hz. cbn [negb].
  unfold kpc_allocate_module_name_index, mutex_lock. rewrite Hl.
  rewrite Z.add_0_l, uw_small by done.
  eexists. split; [done|].
  unfold add_probe_insert, mutex_lock, enable_probe, register_kprobe, kpc_entry. cbn -[insert lookup].
  rewrite lookup_insert_eq. cbn -[insert lookup].
  rewrite Hr. cbn -[insert]. done.
Qed.

Lemma recording_initial : recording [] ksys_initial.
Proof.
  constructor; try done; cbn.
  - intros id [?|?]; [set_solver|done].
  - by exists [], [].
  - lia.
  - constructor.
Qed.

Lemma recording_write k addrs a s :
  recording addrs (module_state s) → good_kernel k → 0 ≤ a < 2 ^ 64 →
  kpc_add_probe k None a s = Ok (kpc_with_probe a s) ∧
  recording (addrs ++ [a]) (module_state (kpc_with_probe a s)).
Proof.
  intros R Hk Ha. pose proof (calm_reachable_inv _ (rc_reach _ _ R)) as Hσ.
  pose proof (si_kpc _ _ Hσ) as H. cbn in H.
  destruct (add_kernel_probe k a s Hk Ha (ki_lock _ _ _ _ H)) as (s1 & E1 & E2).
  split; [unfold kpc_add_probe; by rewrite E1|].
  destruct R as [R Rf Re Rp Ro R1 Rn]. cbn in Rf, Re, Rp, Ro, R1.
  constructor; cbn -[insert lookup]; [|rewrite length_app, Rf; cbn; lia| | | |lia|constructor].
  - eapply rtc_r; [eapply rtc_r; [exact R|]|].
    + apply (CalmStep k (EvPrepare None a)); [|cbn; by rewrite E1].
      split_and!; [apply Hk..|]. right. cbn. rewrite (names_split _ _ _ _ H). by left.
    + apply (CalmStep k (EvInsert 0)); [done|]. cbn. by rewrite E2.
  - intros id e [[<- <-] | [Hne He]]%lookup_insert_Some.
    + exists a. split; [|done]. rewrite Rf. by rewrite lookup_app_r, Nat.sub_diag by lia.
    + destruct (Re id e He) as (a' & Hl & ->). exists a'. split; [|done]. by apply lookup_app_l_Some.
  - intros id [Hi | ?]; [|done]. set_solver.
  - destruct Ro as (shown & as_ & Et & Hf & Eo). exists shown, as_. split_and!; [done| |done].
    eapply Forall2_impl; [done|]. intros. by apply lookup_app_l_Some.
Qed.

(** Steps of the recording: probes fire, the worker works, one reader reads an
    entry after the other. *)
Definition recording_event (σ : ksystem) (e : kevent) : Prop :=
  match e with
  | EvHit id => id ∉ option_list (fst <$> sys_working σ)
  | EvTake => sys_showing σ = []
  | EvDequeue | EvUnregister | EvMove | EvShow _ => True
  | _ => False
  end.
Inductive record_step : ksystem → ksystem → Prop :=
  | RecordStep k e σ σ' :
      recording_event σ e → kexec k e σ = Some (Ok σ') → record_step σ σ'.

Lemma recording_calm k e σ : recording_event σ e → calm k e σ.
Proof. by destruct e. Qed.

Lemma rc_lookup addrs σ id a e :
  recording addrs σ → kpc_heap (sys_kpc σ) !! id = Some e → addrs !! id = Some a →
  e = mkKpcEntry 0 0 a.
Proof. intros R He Ha. destruct (rc_entry _ _ R _ _ He) as (a' & ? & ->). by simplify_eq. Qed.

Lemma recording_show addrs k id σ σ' :
  (∀ a, a ∈ addrs → 0 ≤ a < 2 ^ 64) → recording addrs σ →
  kexec k (EvShow id) σ = Some (Ok σ') → rtc calm_step ksys_initial σ' → recording addrs σ'.
Proof.
  intros Haddrs R E R'. pose proof (calm_reachable_inv _ (rc_reach _ _ R)) as [H W C].
  destruct R as [R Rf Re Rp Ro R1 Rn]. cbn [kexec] in E.
  case_bool_decide as Hi; [|done]. injection E as ([line s'] & E & [= <-])%bind_Ok.
  destruct (sys_showing σ) as [|id' [|? ?]] eqn:Es; [set_solver| |cbn in R1; lia].
  apply list_elem_of_singleton in Hi as ->.
  assert (kpc_inv true false (id' :: adding_ids σ) (sys_kpc σ)) as H1.
  { eapply inv_perm; [|exact H]. unfold holders. rewrite Es. symmetry. apply Permutation_cons_append. }
  pose proof (kpc_seq_show_ok _ _ _ _ H1) as Ho. rewrite E in Ho.
  destruct Ho as (_ & Es' & e & name & Hh & Hname & El). cbn in Es', El, Hname. subst s' line.
  destruct (Re _ _ Hh) as (a & Ha & ->). 
  assert (Some name = Some None) as [= ->] by (rewrite <-Hname; apply (ki_kernel _ _ _ _ H)).
  cbn [ke_addr ke_base_addr].
  destruct Ro as (shown & as_ & Et & Hf & Eo).
  constructor; [done|done| |done| | |done]; cbn [sys_kpc sys_working sys_showing sys_taken sys_output];
    rewrite ?list_without_cons; change (list_without id' []) with (@nil nat); [| |cbn; lia].
  + cbn -[delete]. intros i e [_ Hl]%lookup_delete_Some. by apply Re.
  + exists (shown ++ [id']), (as_ ++ [a]). split_and!.
    * by rewrite Et, app_nil_r.
    * apply Forall2_app; [done|]. by constructor.
    * rewrite fmap_app, concat_app, Eo. cbn [fmap list_fmap concat]. rewrite app_nil_r, Z.sub_0_r, uw_small; [done|].
      apply Haddrs, list_elem_of_lookup. eauto.
Qed.

Lemma recording_step addrs σ σ' :
  (∀ a, a ∈ addrs → 0 ≤ a < 2 ^ 64) → recording addrs σ → record_step σ σ' → recording addrs σ'.
Proof.
  intros Haddrs R Hs. destruct Hs as [k e σ σ' He E].
  assert (rtc calm_step ksys_initial σ') as R'.
  { eapply rtc_r; [apply R|]. eapply CalmStep; [by eapply recording_calm|done]. }
  pose proof (calm_reachable_inv _ (rc_reach _ _ R)) as [H W C]. specialize (C eq_refl).
  pose proof R as R0. pose proof E as E0. destruct R as [R Rf Re Rp Ro R1 Rn].
  destruct e; try done; cbn [kexec] in E.
  - case_bool_decide as Hp; [|done]. injection E as (s' & E & [= <-])%bind_Ok.
    unfold kpc_pre_handler in E. apply bind_Ok in E as (e & _ & E).
    assert (NoDup (if bool_decide (id ∈ sys_fired σ) then sys_fired σ else sys_fired σ ++ [id])).
    { case_bool_decide; [done|]. apply NoDup_app. split_and!; [done| |by apply NoDup_singleton].
      by intros i Hi ->%list_elem_of_singleton. }
    destruct (bool_decide (id ∈ kpc_workqueue _)); injection E as <-; constructor; try done. cbn.
    intros i [Hi | Hi]; [|by auto]. apply elem_of_app in Hi as [Hi | ->%list_elem_of_singleton]; auto.
  - destruct (sys_working σ) eqn:Ew; [done|]. destruct (kpc_workqueue _) as [|id q] eqn:Eq; [done|].
    injection E as <-. constructor; try done. cbn. intros i [Hi | [= ->]]; apply Rp; left; [by right|by left].
  - destruct (sys_working σ) as [[id []]|] eqn:Ew; [done| |done].
    injection E as (s' & E & [= <-])%bind_Ok. unfold unregister_kprobe in E.
    apply bind_Ok in E as (e & He' & E). rewrite bool_decide_eq_true_2 in E by (apply Rp; by right).
    injection E as <-. constructor; try done. cbn. intros i [Hi | ?]; [|done].
    apply elem_of_difference. split; [apply Rp; by left|]. intros ->%elem_of_singleton.
    pose proof (ci_nodup _ C) as Hn. unfold work_of in Hn. rewrite Ew in Hn.
    apply NoDup_cons in Hn as [Hn _]. done.
  - destruct (sys_working σ) as [[id []]|] eqn:Ew; [|done|done].
    injection E as (s' & E & [= <-])%bind_Ok.
    pose proof (probe_work_move_ok _ _ _ id H (si_working _ W _ Ew)) as Ho. rewrite E in Ho.
    destruct Ho as (_ & _ & ->). constructor; try done. cbn. intros i [Hi | ?]; [|done]. apply Rp. by left.
  - unfold kpc_seq_start in E.
    destruct (unlink_next_ok _ _ _ H) as [[E1 _] | (id & rest & s' & E1 & Eu & _ & ->)];
      rewrite E1 in E; [done|].
    rewrite Eu in E. injection E as <-. cbn in He. rewrite He in *.
    destruct Ro as (shown & as_ & Et & Hf & Eo). rewrite app_nil_r in Et.
    constructor; try done; cbn. exists shown, as_. by rewrite Et.
  - exact (recording_show addrs k _ σ σ' Haddrs R0 E0 R').
Qed.

(** ** The engine *)

Definition kernel_register_all (addrs : list Z) (s : KernelEngine) : res KernelEngine :=
  res_foldl (λ s a, '(_, s) ← kernel_registerBreakpoint a s; Ok s) s addrs.

(** The loop of the run: [continueExecution] until it is false. *)
Fixpoint kernel_read_all (rounds : nat) (s : KernelEngine) : res KernelEngine :=
  match rounds with
  | O => Ok s
  | S rounds =>
      '(more, s) ← kernel_continueExecution s;
      if more : bool then kernel_read_all rounds s else Ok s
  end.

Definition with_show (b : bytes) (s : KernelEngine) : KernelEngine :=
  mkKernel (k_control s) (Some b) (k_module s) (k_addresses s) (k_events s).

(** The writes of the lines, flushed one by one; each must be taken whole. *)
Definition module_writes (k : Kernel) (s : kprobe_coverage) (lines : list bytes)
  : res kprobe_coverage :=
  res_foldl (λ s l,
    '(r, s) ← kpc_control_write k true l s;
    match r with
    | Written n => if bool_decide (n = Z.of_nat (length l)) then Ok s else Fault
    | WriteError _ => Fault
    end) s lines.

(** Each address once, where it first occurs. *)
Fixpoint firsts (seen : gset Z) (l : list Z) : list Z :=
  match l with
  | [] => []
  | a :: l => if bool_decide (a ∈ seen) then firsts seen l else a :: firsts ({[a]} ∪ seen) l
  end.

Lemma firsts_subset seen l a : a ∈ firsts seen l → a ∈ l.
Proof.
  revert seen; induction l as [|b l IH]; intros seen; cbn; [done|].
  case_bool_decide; rewrite ?elem_of_cons; naive_solver.
Qed.

Lemma kernel_register_all_ok addrs out show A ev :
  kernel_register_all addrs (mkKernel (Some out) show [] A ev)
    = Ok (mkKernel (Some (out ++ concat (control_line <$> firsts A addrs))) show []
            (A ∪ list_to_set addrs) ev).
Proof.
  unfold kernel_register_all. revert out A.
  induction addrs as [|a addrs IH]; intros out A; cbn [res_foldl firsts].
  { cbn [fmap list_fmap concat]. rewrite app_nil_r. do 2 f_equal. set_solver. }
  unfold kernel_registerBreakpoint. cbn [k_addresses k_control k_module k_show k_events].
  destruct (decide (a ∈ A)) as [Ha | Ha].
  - rewrite !bool_decide_eq_true_2 by done. cbn [mbind res_mbind res_bind]. rewrite IH.
    do 2 f_equal. set_solver.
  - rewrite !bool_decide_eq_false_2 by done. cbn [mbind res_mbind res_bind app]. rewrite IH.
    cbn [fmap list_fmap concat]. f_equal. f_equal; [|set_solver].
    f_equal. unfold control_line. by rewrite <-!app_assoc.
Qed.

(** One line of the show file. *)
Lemma kernel_read_line a rest s :
  0 ≤ a < 2 ^ 64 → k_show s = Some (kpc_line None a ++ rest) →
  kernel_continueExecution s
    = Ok (true, mkKernel (k_control s) (Some rest) (k_module s) (k_addresses s)
                  (k_events s ++ [mkEvent ev_breakpoint 0 a])).
Proof.
  intros Ha Es. unfold kernel_continueExecution. rewrite Es.
  set (l := str "0x" ++ replicate (16 - length (fmt_x a)) "0"%char ++ fmt_x a).
  assert (kpc_line None a = l ++ ["010"%char]) as El.
  { unfold kpc_line, pad_left, l. by rewrite <-!app_assoc. }
  assert (∀ c, c ∈ l → c ≠ "010"%char ∧ c ≠ "013"%char ∧ c ≠ NUL ∧ c ≠ ":"%char) as Hc.
  { intros c. by apply hex_line_chars. }
  assert (stoull l 16 = StoValue a (length l)) as Hp by (by apply hex_prefixed).
  assert (length l < 254)%nat as Hl.
  { unfold l, fmt_x. rewrite !length_app, length_replicate.
    pose proof (length_digits 16 64 a []). cbn in *. lia. }
  rewrite El. clearbody l. rewrite <-app_assoc. cbn [app].
  destruct (l ++ "010"%char :: rest) as [|c0 l0] eqn:E0; [by destruct l|]. rewrite <-E0. clear c0 l0 E0.
  rewrite fgets_line; [|done|].
  2:{ intros Hi. by apply Hc in Hi as [? _]. }
  rewrite c_prefix_no_nul.
  2:{ unfold no_nul. rewrite elem_of_app. intros [Hi | Hi]; [by apply Hc in Hi as (_ & _ & ? & _)|].
      revert Hi. set_solver. }
  rewrite bool_decide_eq_false_2 by (by destruct l).
  rewrite length_app, Nat.add_sub, take_app_length.
  unfold kernel_parseOneLine. rewrite find_colon_none.
  2:{ intros Hi. by apply Hc in Hi as (_ & _ & _ & ?). }
  cbn [mbind res_mbind res_bind]. unfold string_is_integer, string_to_integer. rewrite Hp.
  rewrite bool_decide_eq_true_2 by done. cbn [negb mbind res_mbind res_bind].
  cbn [k_control k_show k_module k_addresses k_events]. do 6 f_equal.
  unfold s64. rewrite <-(uw_small 64 a Ha) at 2. unfold uw.
  rewrite Zminus_mod_idemp_l. f_equal. lia.
Qed.

Lemma kernel_read_all_lines as_ s :
  Forall (λ a, 0 ≤ a < 2 ^ 64) as_ → k_show s = Some (concat (kpc_line None <$> as_)) →
  kernel_read_all (S (length as_)) s
    = Ok (mkKernel (k_control s) (Some []) (k_module s) (k_addresses s)
            (k_events s ++ (mkEvent ev_breakpoint 0 <$> as_))).
Proof.
  revert s; induction as_ as [|a as_ IH]; intros s Ha Es.
  - cbn [fmap list_fmap concat] in Es. cbn. unfold kernel_continueExecution. rewrite Es.
    cbn. rewrite app_nil_r. destruct s; cbn in *. by subst.
  - apply Forall_cons in Ha as [Ha Has]. cbn [fmap list_fmap concat] in Es.
    cbn [length]. change (kernel_read_all (S (S (length as_))) s) with
      ('(more, s) ← kernel_continueExecution s;
       if more : bool then kernel_read_all (S (length as_)) s else Ok s).
    rewrite (kernel_read_line a _ s Ha Es). cbn [mbind res_mbind res_bind].
    rewrite IH by done. cbn [k_control k_show k_module k_addresses k_events].
    by rewrite <-app_assoc.
Qed.

Lemma module_writes_ok k addrs as_ s :
  recording addrs (module_state s) → good_kernel k → (∀ a, a ∈ as_ → 0 ≤ a < 2 ^ 64) →
  ∃ s', module_writes k s (control_line <$> as_) = Ok s' ∧ recording (addrs ++ as_) (module_state s') ∧
    ∀ id, id ∈ kpc_probes s ∨ (length addrs ≤ id < length addrs + length as_)%nat → id ∈ kpc_probes s'.
Proof.
  revert addrs s; induction as_ as [|a as_ IH]; intros addrs s R Hk Ha.
  { exists s. rewrite app_nil_r. split_and!; [done..|]. intros id [?|[? Hl]]; [done|cbn in Hl; lia]. }
  destruct (recording_write k addrs a s R Hk) as [E R']; [apply Ha; by left|].
  destruct (IH _ _ R' Hk) as (s' & E' & R2 & Hp); [intros; apply Ha; by right|].
  exists s'. rewrite <-app_assoc in R2. split_and!; [|done|].
  - unfold module_writes. cbn [fmap list_fmap res_foldl].
    rewrite (control_write_line k a s (kpc_with_probe a s)); [|apply Hk|apply Hk|apply Ha; by left|done].
    cbn [mbind res_mbind res_bind]. by rewrite bool_decide_eq_true_2.
  - intros id Hi. apply Hp. rewrite length_app. cbn [length]. cbn.
    pose proof (rc_fresh _ _ R) as Ef. cbn in Ef. rewrite Ef.
    destruct Hi as [? | [Hi1 Hi2]]; [left; set_solver|]. cbn in Hi2.
    destruct (decide (id = length addrs)) as [-> | ?]; [left; set_solver|right; lia].
Qed.

Lemma recording_steps addrs σ σ' :
  (∀ a, a ∈ addrs → 0 ≤ a < 2 ^ 64) → recording addrs σ → rtc record_step σ σ' → recording addrs σ'.
Proof. intros Ha R H. revert R. induction H; eauto using recording_step. Qed.

(** C5: kernel coverage from end to end, in a kernel with memory to give, whose
    register_kprobe and strtoul work ([good_kernel]): the engine writes each address
    of the program once; the module takes every line whole and has a probe
    registered at each address.  And while addresses are only recorded, calmly (no
    probe fires while the worker is at its entry, and one reader takes an entry only
    when it has shown the one before: [recording_event]; outside of that
    [kernel_module_slips] shows memory used after it was freed), once the reader has
    caught up (which it does, [kpc_drains]) the engine turns what it reads into one
    breakpoint event for each probe that fired, with its address, in the order in
    which they first fired. *)
Theorem kernel_coverage_end_to_end k addrs :
  good_kernel k → (∀ a, a ∈ addrs → 0 ≤ a < 2 ^ 64) →
  let as_ := firsts ∅ addrs in
  ∃ eng s,
    kernel_register_all addrs (kernel_start true (Some []) new_KernelEngine).2 = Ok eng ∧
    k_control eng = Some (concat (control_line <$> as_)) ∧
    module_writes k kpc_initial (control_line <$> as_) = Ok s ∧
    (∀ id a, as_ !! id = Some a →
       id ∈ kpc_probes s ∧ kpc_heap s !! id = Some (mkKpcEntry 0 0 a)) ∧
    ∀ σ, rtc record_step (module_state s) σ →
      sys_taken σ = sys_fired σ → sys_showing σ = [] →
      NoDup (sys_fired σ) ∧
      ∃ eng', kernel_read_all (S (length (sys_fired σ))) (with_show (sys_output σ) eng) = Ok eng' ∧
        Forall2 (λ id ev, ∃ a, as_ !! id = Some a ∧ ev = mkEvent ev_breakpoint 0 a)
          (sys_fired σ) (k_events eng').
Proof.
  intros Hk Ha as_.
  assert (∀ a, a ∈ as_ → 0 ≤ a < 2 ^ 64) as Has by (intros a Hi%firsts_subset; auto).
  destruct (module_writes_ok k [] as_ kpc_initial recording_initial Hk Has) as (s & Es & R & Hp).
  cbn [app length] in R, Hp. eexists _, s.
  split; [apply kernel_register_all_ok|]. split; [done|]. split; [done|]. split.
  - intros id a Hl. pose proof (lookup_lt_Some _ _ _ Hl).
    assert (id ∈ kpc_probes s) as Hpr by (apply Hp; right; lia). split; [done|].
    pose proof (si_kpc _ _ (calm_reachable_inv _ (rc_reach _ _ R))) as H'. cbn in H'.
    destruct (inv_live _ _ _ _ id H') as [e He].
    { apply (ki_probes _ _ _ _ H') in Hpr. unfold on_list. set_solver. }
    rewrite He. f_equal. by apply (rc_lookup as_ (module_state s) id).
  - intros σ Hs Et Esh. pose proof (recording_steps _ _ _ Has R Hs) as R'.
    split; [apply R'|].
    destruct (rc_output _ _ R') as (shown & addrs' & E & Hf & Eo).
    rewrite Esh, app_nil_r, Et in E. rewrite <-E in Hf.
    rewrite (Forall2_length _ _ _ Hf). eexists. split.
    + apply kernel_read_all_lines; [|by rewrite <-Eo].
      apply Forall_forall. intros a Hi. apply list_elem_of_lookup in Hi as [i Hi].
      destruct (Forall2_lookup_r _ _ _ _ _ Hf Hi) as (id & _ & Hl).
      apply Has, list_elem_of_lookup. eauto.
    + cbn [k_events app]. apply Forall2_fmap_r. eapply Forall2_impl; [done|]. cbn. eauto.
Qed.

(** ** A concrete run *)

Lemma plain_kernel_good : good_kernel plain_kernel.
Proof.
  constructor; [done..|]. intros z Hz. cbn [k_simple_strtoul plain_kernel].
  pose proof (hex_prefix_base 0 z Hz) as E. cbn [replicate app] in E. rewrite E.
  destruct (hex_digits_parse 0 z Hz) as (_ & _ & Hp). cbn [replicate app] in Hp. by rewrite Hp.
Qed.

(** Two addresses, one of them given twice; the second fires first. *)
Definition demo_addresses : list Z := [0x1000; 0x20; 0x1000].
Definition demo_module : kprobe_coverage :=
  match module_writes plain_kernel kpc_initial (control_line <$> firsts ∅ demo_addresses) with
  | Ok s => s
  | _ => kpc_initial
  end.
Definition demo_recording : list (Kernel * kevent) :=
  with_plain [EvHit 1; EvHit 0; EvDequeue; EvUnregister; EvMove; EvHit 0; EvTake; EvShow 1;
              EvDequeue; EvUnregister; EvMove; EvTake; EvShow 0].
Definition demo_recorded : ksystem :=
  match krun demo_recording (module_state demo_module) with Some (Ok σ) => σ | _ => ksys_initial end.

Lemma demo_recorded_run : rtc record_step (module_state demo_module) demo_recorded.
Proof.
  apply (krun_all_steps (λ e _ σ, recording_event σ e) _ demo_recording _ _ RecordStep); [by vm_compute|].
  vm_compute. repeat split; by inversion 1.
Qed.

Lemma kernel_coverage_end_to_end_witness :
  ∃ eng eng',
    kernel_register_all demo_addresses (kernel_start true (Some []) new_KernelEngine).2 = Ok eng ∧
    kernel_read_all 3 (with_show (sys_output demo_recorded) eng) = Ok eng' ∧
    k_events eng' = [mkEvent ev_breakpoint 0 0x20; mkEvent ev_breakpoint 0 0x1000].
Proof.
  assert (∀ a, a ∈ demo_addresses → 0 ≤ a < 2 ^ 64) as Ha.
  { intros a Hi. repeat (apply elem_of_cons in Hi as [-> | Hi]; [lia|]). by apply elem_of_nil in Hi. }
  destruct (kernel_coverage_end_to_end plain_kernel demo_addresses plain_kernel_good Ha)
    as (eng & s & E & _ & Es & _ & H).
  assert (s = demo_module) as -> by (unfold demo_module; rewrite Es; reflexivity).
  destruct (H _ demo_recorded_run) as (_ & eng' & E' & Hf); [reflexivity|reflexivity|].
  exists eng, eng'. split; [exact E|]. split; [exact E'|].
  change (sys_fired demo_recorded) with [1%nat; 0%nat] in Hf.
  apply Forall2_cons_inv_l in Hf as (ev1 & l1 & (a1 & H1 & ->) & Hf & ->).
  apply Forall2_cons_inv_l in Hf as (ev2 & l2 & (a2 & H2 & ->) & Hf & ->).
  apply Forall2_nil_inv_l in Hf as ->.
  vm_compute in H1, H2. congruence.
Defined.

(** ** The control file's loop ends *)

Lemma split_line_length p l p' : split_line p = (l, Some p') → length p = S (length l + length p').
Proof.
  revert l; induction p as [|c p IH]; intros l; cbn; [done|].
  destruct (is_line_end c); [by intros [= <- <-]|].
  destruct (split_line p) as [l1 q] eqn:E. intros [= <- ->]. cbn. by rewrite (IH l1).
Qed.

(** The fuel [kpc_control_write] starts with is enough: more gives the same. *)
Lemma control_lines_fuel k n m p out s :
  (length p < n)%nat → (length p < m)%nat →
  control_lines k n (Some p) out s = control_lines k m (Some p) out s.
Proof.
  revert m p out s; induction n as [|n IH]; intros m p out s Hn Hm; [lia|].
  destruct m as [|m]; [lia|]. cbn [control_lines].
  destruct (split_line p) as [l [p'|]] eqn:E; [|by destruct l].
  apply split_line_length in E. destruct l as [|c l]; [done|]. cbn in E.
  destruct (bool_decide _); [done|].
  destruct (control_split (c :: l)) as [module addr_p].
  destruct (k_simple_strtoul k addr_p) as [addr r].
  destruct (bool_decide _); [apply IH; lia|].
  destruct (kpc_add_probe k module addr s); [|done..]. apply IH; lia.
Qed.

(** ** Loading *)

(** Loading gets everything or leaves nothing behind. *)
Lemma kpc_init_all_or_nothing g :
  let '(out, held) := kpc_init_module g in
  (out = 0 ∧ held = [kr_notifier; kr_debugfs; kr_workqueue; kr_global_kpc]) ∨ (out < 0 ∧ held = []).
Proof. by destruct g as [[] [] [] [] [] []]; vm_compute; auto. Qed.

Lemma kpc_exit_releases k s s' held :
  kpc_exit_module k s [kr_notifier; kr_debugfs; kr_workqueue; kr_global_kpc] = Ok (s', held) → held = [].
Proof. unfold kpc_exit_module. destruct (kpc_clear k s); by intros [= _ <-]. Qed.

(** ** Where the module goes wrong *)

Definition kernel_without (kzalloc kstrdup : bool) : Kernel := {|
  k_find_module := λ _, None;
  k_register_kprobe := λ _, true;
  k_unregister_twice := λ _, 0;
  k_kzalloc := kzalloc;
  k_kstrdup := kstrdup;
  k_simple_strtoul := k_simple_strtoul plain_kernel |}.

Definition kfaults (evs : list kevent) : Prop := krun (with_plain evs) ksys_initial = Some Fault.

Definition one_probe : list kevent := [EvPrepare None 0x1000; EvInsert 0].
Definition module_probe (name : bytes) (a : Z) : list kevent := [EvPrepare (Some name) a; EvInsert 0].

(** Probes for 31 modules fill the table of names. *)
Definition full_table : list kevent :=
  mjoin ((λ i, module_probe (str "m" ++ fmt_u i) 0) <$> seqZ 0 31).

(** Outside calm schedules the module does what it must not.  A clear, or a
    module's going, frees an entry whose work is queued: the worker then uses freed
    memory.  A probe that fires again on another processor while the worker is at
    it is queued a second time, and the worker meets an entry that was read and
    freed.  Memory that could not be had is used, at the next line of the control
    file or at the next name.  The 32nd module gets index -1: its entry is enabled
    when any unknown module comes, and the show file reads before the table.  A
    module that comes between the look-up and the insertion leaves its entry
    deferred for good.  An entry taken before a clear and shown after it loses its
    module.  And a control file with CRLF line ends is not read past its first
    line. *)
Theorem kernel_module_slips :
  kfaults (one_probe ++ [EvHit 0; EvClear; EvDequeue; EvUnregister]) ∧
  kfaults (one_probe ++ [EvHit 0; EvDequeue; EvHit 0; EvUnregister; EvMove; EvTake; EvShow 0;
                         EvDequeue; EvUnregister]) ∧
  kfaults (module_probe (str "m") 0x10 ++
           [EvComing (str "m") 0x1000; EvHit 0; EvGoing (str "m"); EvDequeue; EvUnregister]) ∧
  krun ((kernel_without false true,.) <$> one_probe) ksys_initial = Some Fault ∧
  krun ((kernel_without true false,.) <$> module_probe (str "m") 0 ++ module_probe (str "n") 0)
    ksys_initial = Some Fault ∧
  kfaults (full_table ++ module_probe (str "late") 0x10 ++
           [EvComing (str "stranger") 0x1000; EvHit 31; EvDequeue; EvUnregister; EvMove; EvTake;
            EvShow 31]) ∧
  (∃ σ, krun (with_plain [EvPrepare (Some (str "m")) 0x10; EvComing (str "m") 0x1000; EvInsert 0])
          ksys_initial = Some (Ok σ) ∧
        kpc_deferred_list (sys_kpc σ) = [0%nat] ∧ kpc_probes (sys_kpc σ) = ∅) ∧
  (∃ σ, krun (with_plain (module_probe (str "m") 0x10 ++ [EvComing (str "m") 0x1000; EvHit 0;
                EvDequeue; EvUnregister; EvMove; EvTake; EvClear; EvShow 0])) ksys_initial = Some (Ok σ) ∧
        sys_output σ = kpc_line None 0x10) ∧
  (∃ s, kpc_control_write plain_kernel true (str "0x10" ++ ["013"; "010"]%char ++ str "0x20" ++ ["010"]%char)
          kpc_initial = Ok (Written 5, s) ∧
        kpc_pending_list s = [0%nat] ∧
        kpc_control_write plain_kernel true (["010"]%char ++ str "0x20" ++ ["010"]%char) s = Ok (Written 0, s)).
Proof.
  split_and!; [by vm_compute..| | |]; eexists; split_and!; by vm_compute.
Qed.
