(* ===== verification/SystemPipeline.v ===== *)
(** * System mode from end to end

    The recording engine (SystemEngine.v), the daemon (Daemon.v) and the
    reporting engine together do what a traced run does: what the formats of
    SystemMode.v carry between them is put together here.  The last part is
    about the options that travel with the binaries. *)
From S2P Require Export SystemEngine Daemon SystemProofs.
From S2P Require Import Configuration.
From stdpp Require Import options.

(** ** The recording engine *)

Lemma register_all addrs s :
  let s' := sme_register_all addrs s in
  sme_indexToAddress s' = sme_indexToAddress s ++ addrs ∧ sme_kind s' = sme_kind s ∧
  sme_hasListener s' = sme_hasListener s ∧ sme_filename s' = sme_filename s ∧
  sme_calls s' = sme_calls s.
Proof.
  unfold sme_register_all. revert s; induction addrs as [|a addrs IH]; intros s; cbn.
  { by rewrite app_nil_r. }
  destruct (IH (sme_registerBreakpoint a s).2) as (H1 & H2 & H3 & H4 & H5). cbn in *.
  by rewrite H1, H2, H3, H4, H5, <-app_assoc.
Qed.

(** Entries added one after the other are the entries. *)
Lemma add_entries_all addrs f :
  Z.of_nat (length (sm_entries f) + length addrs) < 2 ^ 32 →
  add_entries (Z.of_nat (length (sm_entries f))) addrs f
  = mkSystemModeFile (sm_id f) (sm_filename f) (sm_options f) (sm_data f) (sm_entries f ++ addrs).
Proof.
  revert f; induction addrs as [|a addrs IH]; intros f Hn; cbn [add_entries].
  { rewrite app_nil_r. by destruct f. }
  cbn in Hn. rewrite uw_small by lia.
  set (f' := addEntry _ a f).
  assert (Hf : f' = mkSystemModeFile (sm_id f) (sm_filename f) (sm_options f) (sm_data f)
                      (sm_entries f ++ [a])).
  { unfold f', addEntry. rewrite Nat2Z.id.
    replace (S (length (sm_entries f)) - length (sm_entries f))%nat with 1%nat by lia.
    f_equal. rewrite insert_app_r_alt, Nat.sub_diag by lia. done. }
  clearbody f'. subst f'.
  replace (Z.of_nat (length (sm_entries f)) + 1)
    with (Z.of_nat (length (sm_entries f ++ [a]))) by (rewrite length_app; cbn; lia).
  match goal with |- add_entries _ _ ?g = _ => pose proof (IH g) as Hg end.
  cbn [sm_id sm_filename sm_options sm_data sm_entries] in Hg. rewrite Hg.
  - by rewrite <-app_assoc.
  - rewrite length_app. cbn. lia.
Qed.

Lemma add_entries_new id fn opts data addrs :
  Z.of_nat (length addrs) < 2 ^ 32 →
  add_entries 0 addrs (mkSystemModeFile id fn opts data [])
  = mkSystemModeFile id fn opts data addrs.
Proof. apply (add_entries_all addrs (mkSystemModeFile id fn opts data [])). Qed.

(** ** The reporting engine *)

(** The addresses of the indices that are hit. *)
Definition hit_addresses (m : system_mode_memory) (idxs addrs : list Z) : list Z :=
  omap (λ i, if hit m i then addrs !! Z.to_nat i else None) idxs.

Definition break_event (a : Z) : SmeCall := SmeEvent (mkEvent ev_breakpoint 0 a).

Lemma report_bits_ok m idxs s :
  smm_wf m → sme_hasListener s = true → Forall (Z.le 0) idxs →
  (∀ i, i ∈ idxs → hit m i = true → is_Some (sme_indexToAddress s !! Z.to_nat i)) →
  report_bits m idxs s
  = Ok (sme_emit (break_event <$> hit_addresses m idxs (sme_indexToAddress s)) s).
Proof.
  intros Hwf. revert s; induction idxs as [|i idxs IH]; intros s Hl Hpos Hdef; cbn [report_bits].
  { unfold sme_emit. cbn. rewrite app_nil_r. by destruct s. }
  apply Forall_cons in Hpos as [Hi Hpos].
  assert (∃ b, indexIsHit m i = Ok b ∧ hit m i = b) as (b & E & Hb).
  { unfold hit, indexIsHit. case_match eqn:Hr; [by eexists|].
    destruct (word_at_ok m i Hwf Hi) as (w & _ & ->); [unfold in_range; lia|]. cbn. by eexists. }
  rewrite E. cbn [mbind res_mbind res_bind]. unfold hit_addresses. cbn [omap list_omap].
  rewrite Hb. destruct b.
  - destruct (Hdef i) as [a Ha]; [left|done|]. rewrite Ha. cbn [mbind res_mbind res_bind or_fault].
    unfold sme_reportEvent. rewrite Hl. cbn [negb].
    rewrite IH; [|done|done|intros; apply Hdef; [by right|done]].
    unfold sme_emit. cbn. by rewrite <-app_assoc.
  - cbn [mbind res_mbind res_bind]. apply IH; [done..|]. intros; apply Hdef; [by right|done].
Qed.

(** Different indices that are hit have different addresses. *)
Lemma hit_addresses_NoDup m idxs addrs :
  NoDup idxs →
  (∀ i j a, i ∈ idxs → j ∈ idxs → hit m i = true → hit m j = true →
    addrs !! Z.to_nat i = Some a → addrs !! Z.to_nat j = Some a → i = j) →
  NoDup (hit_addresses m idxs addrs).
Proof.
  induction 1 as [|i idxs Hi Hnd IH]; intros Hinj; [constructor|].
  unfold hit_addresses. cbn [omap list_omap].
  assert (NoDup (hit_addresses m idxs addrs)) as IH'.
  { apply IH. intros; eapply Hinj; eauto; by right. }
  destruct (hit m i) eqn:Hh; [|exact IH'].
  destruct (addrs !! Z.to_nat i) as [a|] eqn:Ha; [|exact IH'].
  constructor; [|exact IH'].
  intros (j & Hj & Ej)%list_elem_of_omap. destruct (hit m j) eqn:Hhj; [|done].
  assert (i = j) as -> by (eapply Hinj; eauto; [by left|by right]). done.
Qed.

Lemma new_memory_wf fn opts n : 0 ≤ n → smm_wf (new_system_mode_memory fn opts n).
Proof. intros. split; cbn; [rewrite length_replicate|]; lia. Qed.

Lemma new_memory_hits fn opts n j : 0 ≤ j → 0 ≤ n → hit (new_system_mode_memory fn opts n) j = false.
Proof.
  intros Hj Hn. destruct (in_range (new_system_mode_memory fn opts n) j) eqn:Hr;
    [|by apply hit_out].
  pose proof (Z.div_pos j 32). unfold in_range in Hr. cbn in Hr.
  rewrite (hit_word _ j 0); [by rewrite Z.bits_0|done|done|].
  cbn. apply lookup_replicate_2. lia.
Qed.

(** ** The two runs of kcov *)

Section runs.
Context (e : endian) (w : World) (stat_ok : bytes → bool) (conf : Configuration).
Context (exe p : bytes) (addrs : list Z).
Hypothesis Hread : w_read_file w exe = Some p.

(** What the recording run writes: the program with its addresses. *)
Lemma sme_run_write dst opts patchelf :
  let f := mkSystemModeFile (w_hash_block w p) exe opts p addrs in
  keyAsString conf (str "system-mode-write-file") = Ok dst → dst ≠ [] →
  getKcovOptionsString conf = Ok opts →
  keyAsString conf (str "patchelf-command") = Ok patchelf →
  p ≠ [] → stat_ok exe = true → fits f →
  name_size f ≤ opts_size f + entries_size f + 32 →
  ∃ s, sme_run e w stat_ok conf exe addrs = Ok s ∧
    SmeWriteFile dst (body3 e f ++ trailer_block e f) ∈ sme_calls s.
Proof using Hread.
  intros f Hdst Hne Hopts Hpatch Hp Hstat Hfits Hname.
  unfold sme_run, sme_create. rewrite Hdst. cbn [mbind res_mbind res_bind].
  rewrite bool_decide_eq_true_2 by done.
  set (s0 := (sme_start exe (new_SystemModeEngine mode_write_file)).2).
  destruct (register_all addrs s0) as (H1 & H2 & H3 & H4 & H5).
  set (s1 := sme_register_all addrs s0) in *. clearbody s1. cbn in H1, H2, H3, H4, H5. unfold sme_continueExecution. rewrite H4, Hread, H2.
  unfold sme_handleWriter. rewrite Hopts. cbn [mbind res_mbind res_bind]. rewrite H4, Hstat.
  cbn [negb]. unfold fromRawFile, SystemModeFile_parse.
  destruct (Z.eqb_spec (Z.of_nat (length p)) 0) as [E|_].
  { destruct p; [done|cbn in E; lia]. }
  cbn [mbind res_mbind res_bind sm_data sm_entries]. rewrite H1.
  rewrite add_entries_new by (destruct Hfits as [Hn _ _ _ _ _]; cbn in *; lia). fold f. rewrite Hdst.
  cbn [mbind res_mbind res_bind]. rewrite getProcessedData_ok by done.
  cbn [mbind res_mbind res_bind]. rewrite Hpatch. cbn [mbind res_mbind res_bind].
  eexists. split; [done|].
  unfold sme_reportEvent. cbn [sme_hasListener sme_emit]. rewrite H3. cbn [negb sme_emit sme_calls].
  rewrite H5. left.
Qed.

(** What the reporting run reports: the addresses of the indices that are hit in
    the file. *)
Lemma sme_run_read src m :
  keyAsString conf (str "system-mode-write-file") = Ok [] →
  keyAsString conf (str "system-mode-read-results-file") = Ok src →
  w_read_file w src = Some (memory_block e m) →
  smm_wf m → words_ok (smm_data m) → memory_size m < 2 ^ 32 → smm_n_entries m * 32 < 2 ^ 32 →
  no_nul (smm_filename m) → no_nul (smm_options m) →
  (∀ i, 0 ≤ i → hit m i = true → is_Some (addrs !! Z.to_nat i)) →
  ∃ s, sme_run e w stat_ok conf exe addrs = Ok s ∧
    sme_calls s = (break_event <$> hit_addresses m (seqZ 0 (smm_n_entries m * 32)) addrs)
                  ++ [SmeEvent (mkEvent ev_exit 0 0)].
Proof using Hread.
  intros Hdst Hsrc Hfile Hwf Hw Hsize Hn Hf Ho Hdef.
  unfold sme_run, sme_create. rewrite Hdst. cbn [mbind res_mbind res_bind].
  rewrite bool_decide_eq_false_2 by (intros H; by apply H).
  set (s0 := (sme_start exe (new_SystemModeEngine mode_read_file)).2).
  destruct (register_all addrs s0) as (H1 & H2 & H3 & H4 & H5).
  set (s1 := sme_register_all addrs s0) in *. clearbody s1. cbn in H1, H2, H3, H4, H5. unfold sme_continueExecution. rewrite H4, Hread, H2.
  unfold sme_handleReadFile. rewrite Hsrc. cbn [mbind res_mbind res_bind].
  unfold diskToMemory. rewrite Hfile, fileToMemory_ok by done. cbn [mbind res_mbind res_bind].
  set (m1 := mkMemory _ _ _ _ 0 0). destruct Hwf as [Hlen Hdirty].
  assert (Hwf1 : smm_wf m1) by (split; [exact Hlen|cbn; lia]).
  change (smm_n_entries m1) with (smm_n_entries m). rewrite uw_small by lia.
  rewrite report_bits_ok; [|done|done| |].
  - cbn [mbind res_mbind res_bind]. eexists. split; [done|].
    unfold sme_reportEvent. cbn [sme_hasListener sme_emit]. rewrite H3. cbn [negb sme_emit sme_calls].
    rewrite H5, H1. done.
  - apply Forall_forall. intros i ?%elem_of_seqZ. lia.
  - intros i Hi%elem_of_seqZ Hh. rewrite H1. apply Hdef; [lia|done].
Qed.
End runs.

(** ** Together *)

(** The memory after a traced process, and which of its indices are hit. *)
Lemma traced_memory {E : Type} `{!IEngine E} fuel filename f (eng eng0 : E) rounds eng' :
  eng_start filename eng = ([], true, eng0) →
  engine_runs (foldl (λ eng a, eng_registerBreakpoint a eng) eng0 (sm_entries f)) rounds eng' →
  (2 ≤ length rounds ≤ fuel)%nat → Z.of_nat (length (sm_entries f)) < 2 ^ 32 →
  ∃ (m : system_mode_memory) (idx : gmap Z Z),
    child_process fuel filename f eng (output_of ∅ f).1 = Some (Ok m) ∧
    smm_wf m ∧ words_ok (smm_data m) ∧ smm_n_entries m = Z.of_nat (length (sm_entries f)) ∧
    smm_filename m = sm_filename f ∧ smm_options m = sm_options f ∧
    (∀ a i, idx !! a = Some i → 0 ≤ i ∧ sm_entries f !! Z.to_nat i = Some a) ∧
    (∀ a, a ∈ sm_entries f → is_Some (idx !! a)) ∧
    ∀ j, 0 ≤ j → (hit m j = true ↔ ∃ a, a ∈ breakpoints (concat rounds) ∧ idx !! a = Some j).
Proof.
  intros Hstart Hruns Hr Hn. set (A := sm_entries f) in *.
  set (h := attach_entries 0 A (mkHandler eng0 ∅ (sm_id f))).
  destruct (attach_entries_map A 0 (mkHandler eng0 ∅ (sm_id f))) as (_ & H1 & H2); [lia..|].
  fold h in H1, H2. cbn in H1, H2.
  assert (Hidx : ∀ a i, ph_indexByAddress h !! a = Some i → 0 ≤ i ∧ A !! Z.to_nat i = Some a).
  { intros a i [?|Hi]%H1; [done|]. by rewrite Z.sub_0_r in Hi. }
  unfold output_of. rewrite lookup_empty. cbn [fst].
  fold A. rewrite (uw_small 32) by lia.
  set (m0 := new_system_mode_memory _ _ _).
  assert (Hwf0 : smm_wf m0) by (apply new_memory_wf; lia).
  destruct (onEvents_hits (ph_indexByAddress h) (concat rounds) m0)
    as (m & Hm & Hwf & Hw & (Hs1 & Hs2 & Hs3) & Hh); [done| | |].
  { apply Forall_replicate. lia. }
  { intros a i Hi%Hidx. lia. }
  exists m, (ph_indexByAddress h). split_and!; try done.
  - by eapply child_process_runs.
  - intros a Ha. apply H2. by left.
  - intros j Hj. rewrite Hh by done. unfold m0. rewrite new_memory_hits by lia.
    split; [by intros [?|[_ ?]]|]. intros (a & Ha & Hi). right. split; [|by exists a].
    destruct (Hidx a j Hi) as [_ Hlk%lookup_lt_Some]. unfold in_range. cbn.
    apply Z.ltb_lt. assert (j / 32 ≤ j) by (apply Z.div_le_upper_bound; lia). lia.
Qed.

(** C19: System mode refines direct tracing, where the trailer can hold the program
    ([fits]: between one and 65535 addresses; and a padded file name no longer than
    options, addresses and trailer together - beyond, [long_name_overflows]). Such a
    program is instrumented by one run of kcov with the addresses of its lines, in
    whatever order they are announced and with repetitions; the daemon reads the
    instrumented binary, mapped at a multiple of 8, attaches an engine to a process
    that runs it, for at least two and at most [fuel] rounds, [fuel] being any
    number, and writes its memory; a later run of kcov that announces the same
    addresses reports, once each, exactly the addresses at which the engine of the
    traced process reported a breakpoint. *)
Theorem system_mode_refines {E : Type} `{!IEngine E} (e : endian) (w : World)
    (stat_ok : bytes → bool) (conf : Configuration) (exe p dst opts patchelf : bytes)
    (addrs : list Z) (base : Z) (fuel : nat) (eng eng0 eng' : E) (rounds : list (list EngineEvent)) :
  let f := mkSystemModeFile (w_hash_block w p) exe opts p addrs in
  (* the recording run *)
  w_read_file w exe = Some p → p ≠ [] → stat_ok exe = true →
  keyAsString conf (str "system-mode-write-file") = Ok dst → dst ≠ [] →
  getKcovOptionsString conf = Ok opts →
  keyAsString conf (str "patchelf-command") = Ok patchelf →
  fits f → name_size f ≤ opts_size f + entries_size f + 32 →
  (* the traced process *)
  base mod 8 = 0 →
  eng_start dst eng = ([], true, eng0) →
  engine_runs (foldl (λ eng a, eng_registerBreakpoint a eng) eng0 addrs) rounds eng' →
  (2 ≤ length rounds ≤ fuel)%nat →
  26 + Z.of_nat (length addrs) * 4 + Z.of_nat (length exe) + Z.of_nat (length opts) < 2 ^ 32 →
  ∃ s data g m file L,
    sme_run e w stat_ok conf exe addrs = Ok s ∧ SmeWriteFile dst data ∈ sme_calls s ∧
    fromProcessedFile e base data = Ok (Some g) ∧
    child_process fuel dst g eng (output_of ∅ g).1 = Some (Ok m) ∧
    memoryToFile e m = Ok file ∧
    (* the reporting run *)
    (∀ w' conf' p' src,
     w_read_file w' exe = Some p' → w_read_file w' src = Some file →
     keyAsString conf' (str "system-mode-write-file") = Ok [] →
     keyAsString conf' (str "system-mode-read-results-file") = Ok src →
     ∃ s', sme_run e w' stat_ok conf' exe addrs = Ok s' ∧
       sme_calls s' = (break_event <$> L) ++ [SmeEvent (mkEvent ev_exit 0 0)]) ∧
    NoDup L ∧ ∀ a, a ∈ L ↔ a ∈ addrs ∧ a ∈ breakpoints (concat rounds).
Proof.
  intros f Hread Hp Hstat Hdst Hdst' Hopts Hpatch Hfits Hname Hbase Hstart Hruns Hr Hsize.
  destruct (sme_run_write e w stat_ok conf exe p addrs Hread dst opts patchelf) as (s & Hs & Hcall);
    [done..|]. fold f in Hcall.
  set (data := body3 e f ++ trailer_block e f) in *.
  set (g := mkSystemModeFile (sm_id f) exe opts data addrs).
  assert (Hg : fromProcessedFile e base data = Ok (Some g)) by (by apply (parse_ok e f)).
  pose proof (fit_entries f Hfits) as Hn. cbn in Hn.
  destruct (traced_memory fuel dst g eng eng0 rounds eng')
    as (m & idx & Hm & Hwf & Hw & Hne & Hfn & Hop & Hidx & Hall & Hh); [done|done|done|cbn; lia|].
  cbn in Hne, Hfn, Hop, Hidx, Hall.
  assert (Hms : memory_size m < 2 ^ 32)
    by (unfold memory_size, sizeof_system_mode_file; rewrite Hne, Hfn, Hop; lia).
  set (L := hit_addresses m (seqZ 0 (smm_n_entries m * 32)) addrs).
  assert (Hhit : ∀ i a, 0 ≤ i → addrs !! Z.to_nat i = Some a →
    (hit m i = true ↔ a ∈ breakpoints (concat rounds) ∧ idx !! a = Some i)).
  { intros i a Hi Ha. rewrite Hh by done. split; [|by intros [? ?]; exists a].
    intros (a' & Ha' & Hi'). destruct (Hidx a' i Hi') as [_ E1]. rewrite Ha in E1.
    injection E1 as ->. done. }
  exists s, data, g, m, (memory_block e m), L. split_and!; try done.
  - by apply memoryToFile_ok.
  - intros w' conf' p' src Hread' Hfile Hw0 Hsrc. apply (sme_run_read e w' stat_ok conf' exe p' addrs Hread' src m);
      try done; [lia|rewrite Hfn; apply Hfits|rewrite Hop; apply Hfits|].
    intros i Hi Hhi. apply Hh in Hhi as (a & _ & Ha); [|done]. apply Hidx in Ha as [_ Ha]. by eexists.
  - apply hit_addresses_NoDup; [apply NoDup_seqZ|].
    intros i j a [Hi _]%elem_of_seqZ [Hj _]%elem_of_seqZ Hhi Hhj Ei Ej.
    apply (Hhit i a) in Hhi as [_ ?]; [|done..]. apply (Hhit j a) in Hhj as [_ ?]; [|done..].
    congruence.
  - intros a. unfold L, hit_addresses. rewrite list_elem_of_omap. split.
    + intros (i & [Hi _]%elem_of_seqZ & E1). destruct (hit m i) eqn:Hhi; [|done].
      apply (Hhit i a) in Hhi as [Hb _]; [|done..]. split; [|done]. by eapply list_elem_of_lookup_2.
    + intros [Ha Hb]. destruct (Hall a Ha) as [i Hi]. destruct (Hidx a i Hi) as [Hpos E1].
      exists i. split.
      * apply elem_of_seqZ. apply lookup_lt_Some in E1. lia.
      * by rewrite (proj2 (Hhit i a Hpos E1)).
Qed.

(** ** A concrete run *)

(** An engine that plays rounds of events. *)
#[global] Instance Script_IEngine : IEngine (list (list EngineEvent)) := {
  eng_start _ eng := ([], true, eng);
  eng_registerBreakpoint _ eng := eng;
  eng_continueExecution eng :=
    match eng with
    | [] => ([], false, [])
    | [evs] => (evs, false, [])
    | evs :: eng => (evs, true, eng)
    end;
}.

Definition demo_rounds : list (list EngineEvent) :=
  [[mkEvent ev_breakpoint 0 0x401000]; [mkEvent ev_breakpoint 0 0x999];
   [mkEvent ev_breakpoint 0 0x401000; mkEvent ev_exit 0 0]].

Definition demo_world (files : list (bytes * bytes)) : World := {|
  w_file_exists := λ _, true;
  w_read_file := λ p, snd <$> find (λ kv, bool_decide (kv.1 = p)) files;
  w_getLines := λ _, [];
  w_hash_block := λ d, Z.of_nat (length d);
  w_std_hash := λ _, 7;
  w_timestamp := λ _, 0;
  w_real_path := id |}.

Definition record_conf : Configuration :=
  setKey newConfiguration (str "system-mode-write-file") (VString (str "/out/prog")).
Definition report_conf : Configuration :=
  setKey newConfiguration (str "system-mode-read-results-file") (VString (str "/data/1")).

Lemma demo_fits :
  fits (mkSystemModeFile 3 (str "/bin/prog") (str "      ") (str "ELF") [0x401000; 0x401008; 0x401000]).
Proof.
  split; cbn; try lia.
  - repeat constructor; lia.
  - apply (bool_decide_unpack _). by vm_compute.
  - apply (bool_decide_unpack _). by vm_compute.
  - by vm_compute.
Qed.

Lemma system_mode_refines_witness :
  ∃ m file s' L,
    memoryToFile LittleEndian m = Ok file ∧
    sme_run LittleEndian (demo_world [(str "/bin/prog", str "ELF"); (str "/data/1", file)])
      (λ _, true) report_conf (str "/bin/prog") [0x401000; 0x401008; 0x401000] = Ok s' ∧
    sme_calls s' = (break_event <$> L) ++ [SmeEvent (mkEvent ev_exit 0 0)] ∧
    NoDup L ∧ 0x401000 ∈ L ∧ 0x401008 ∉ L.
Proof.
  destruct (system_mode_refines LittleEndian (demo_world [(str "/bin/prog", str "ELF")])
    (λ _, true) record_conf (str "/bin/prog") (str "ELF") (str "/out/prog") (str "      ")
    (str "patchelf") [0x401000; 0x401008; 0x401000] 0 9 demo_rounds demo_rounds [] demo_rounds)
    as (s & data & g & m & file & L & _ & _ & _ & _ & H5 & H6 & H7 & H8).
  - reflexivity.
  - done.
  - reflexivity.
  - by vm_compute.
  - done.
  - by vm_compute.
  - by vm_compute.
  - apply demo_fits.
  - by vm_compute.
  - reflexivity.
  - reflexivity.
  - cbn. unfold demo_rounds. eapply runs_more; [reflexivity|].
    eapply runs_more; [reflexivity|]. by apply runs_last.
  - cbn. lia.
  - by vm_compute.
  - destruct (H6 (demo_world [(str "/bin/prog", str "ELF"); (str "/data/1", file)]) report_conf
      (str "ELF") (str "/data/1")) as (s' & Hs' & Hc); [reflexivity|reflexivity|by vm_compute|by vm_compute|].
    exists m, file, s', L. split_and!; [done..|apply H8|rewrite H8].
    + split; [left|]. apply (bool_decide_unpack _). by vm_compute.
    + intros [_ Hb]. revert Hb. apply (bool_decide_unpack _). by vm_compute.
Defined.
