(* ===== verification/MainProgram.v ===== *)
(** * The main program (src/src/main.cc)

    What a run wires together: which writers are registered and in which order,
    when the merged report is made, what each running mode does, and what system
    mode passes from the recording to the reporting run. *)
From S2P Require Import Prelude CxxString Utils Configuration SystemEngine SystemMode.
From stdpp Require Import options.

(** ** Metadata of other programs (countMetadata) *)

(** The directory of this program or one of its versions. *)
Definition is_current (binaryName name : bytes) : bool :=
  bool_decide (binaryName = name)
  || ((length binaryName <? length name)%nat
      && bool_decide (str_find binaryName name = Some O)
      && bool_decide (name !! length binaryName = Some "."%char)).

(** [dir]: the entries that [readdir] gives for the output directory, with the
    names in their metadata directory where there is one. *)
Definition metadata_datum (de2 : list bytes) : Z :=
  Z.of_nat (length (filter (λ n, head n ≠ Some "."%char) de2)).

Definition countMetadata (binaryName : bytes) (dir : option (list (bytes * option (list bytes)))) : Z :=
  match dir with
  | None => 0
  | Some des =>
      foldl (λ out '(name, metadataDir),
        if is_current binaryName name then out
        else match metadataDir with
             | None => out
             | Some de2 => u32 (out + if metadata_datum de2 =? 0 then 0 else 1)
             end) 0 des
  end.

(** ** Writers and the calls of a run *)

Inductive WriterKind :=
  | HtmlWriter | JsonWriter | CoberturaWriter | SonarqubeWriter | CodecovWriter | CoverallsWriter
  | MergeParserWriter.
#[global] Instance WriterKind_eq_dec : EqDecision WriterKind.
Proof. solve_decision. Defined.

(** A registered writer: its kind, whether it reads the merge parser's reporter,
    and where it writes (a directory or a file; coveralls has none). *)
Record Writer := mkWriter { wr_kind : WriterKind; wr_merged : bool; wr_out : bytes }.
#[global] Instance Writer_eq_dec : EqDecision Writer.
Proof. solve_decision. Defined.

Inductive MainCall :=
  | MError | MPrintUsage
  | MAddFile (file : bytes)
  | MMkdir (path : bytes)
  | MRegisterWriter (w : Writer)
  | MDaemonize
  | MSetupParser
  | MOutputStart
  | MSolibStartup
  | MCollectorRun (file : bytes)
  | MParserParse
  | MCleanup
  | MOutputStop
  | MWriteCoverageDatabase.

(** The writers of one program, and of all programs under [base]. *)
Definition program_writers (out : bytes) : list Writer :=
  [mkWriter CoberturaWriter false out; mkWriter HtmlWriter false out;
   mkWriter JsonWriter false (out ++ str "/coverage.json");
   mkWriter SonarqubeWriter false (out ++ str "/sonarqube.xml");
   mkWriter CodecovWriter false (out ++ str "/codecov.json")].
Definition merged_writers (base : bytes) : list Writer :=
  [mkWriter HtmlWriter true (base ++ str "/kcov-merged");
   mkWriter JsonWriter true (base ++ str "kcov-merged/coverage.json");
   mkWriter CoberturaWriter true (base ++ str "kcov-merged");
   mkWriter SonarqubeWriter true (base ++ str "kcov-merged/sonarqube.xml");
   mkWriter CoverallsWriter true [];
   mkWriter CodecovWriter true (base ++ str "kcov-merged/codecov.json")].

(** [runMergeMode]; [base] and [out] are the output handler's directories. *)
Definition runMergeMode (base : bytes) : list MainCall :=
  [MMkdir (base ++ str "/kcov-merged");
   MRegisterWriter (mkWriter MergeParserWriter true base)]
  ++ (MRegisterWriter <$> merged_writers base)
  ++ [MOutputStart; MOutputStop; MWriteCoverageDatabase; MCleanup].

(** The writers that [runKcov] registers. *)
Definition run_writers (runningMode cobertura_only metadata : Z) (base out : bytes) : list Writer :=
  (if runningMode =? MODE_COLLECT_ONLY then []
   else if cobertura_only =? 0 then
     (if metadata >? 0 then merged_writers base else [mkWriter CoverallsWriter false []])
     ++ program_writers out
   else [mkWriter CoberturaWriter false out])
  ++ (if cobertura_only =? 0 then [mkWriter MergeParserWriter true base] else []).

(** [runKcov]: whether a parser and an engine were found, the metadata that is
    there, and what [collector.run] returns are arguments. *)
Definition runKcov (conf : Configuration) (runningMode : Z) (parser engine : bool)
    (dir : option (list (bytes * option (list bytes)))) (run : bytes → Z) : res (Z * list MainCall) :=
  path ← keyAsString conf (str "binary-path");
  name ← keyAsString conf (str "binary-name");
  let file := path ++ name in
  if negb parser then Ok (1, [MError])
  else if negb engine then Ok (1, [MPrintUsage])
  else
    base ← keyAsString conf (str "out-directory");
    target ← keyAsString conf (str "target-directory");
    let out := target ++ str "/" in
    cobertura_only ← keyAsInt conf (str "cobertura-only");
    daemonize ← keyAsInt conf (str "daemonize-on-first-process-exit");
    let writers := run_writers runningMode cobertura_only (countMetadata name dir) base out in
    let ret := if runningMode =? MODE_REPORT_ONLY then 0 else run file in
    Ok (ret,
        [MAddFile file]
        ++ (if cobertura_only =? 0 then [MMkdir (base ++ str "/kcov-merged")] else [])
        ++ (MRegisterWriter <$> writers)
        ++ (if daemonize =? 0 then [] else [MDaemonize])
        ++ [MSetupParser; MOutputStart; MSolibStartup;
            if runningMode =? MODE_REPORT_ONLY then MParserParse else MCollectorRun file;
            MCleanup]).

(** ** System mode: recording *)

(** What [readdir] and [lstat] give: a directory with its mode and entries, a
    regular file with its mode, something else. *)
Inductive fsnode :=
  | FDir (name : bytes) (mode : Z) (entries : option (list fsnode))
  | FReg (name : bytes) (mode : Z)
  | FOther (name : bytes).

(** A call of [runSystemModeRecordFile(dir, file, dirMode, mode)]. *)
Record RecordFile := mkRecord { rf_dir : bytes; rf_file : bytes; rf_dirMode : Z; rf_mode : Z }.

(** [S_IXUSR | S_IXGRP | S_IXOTH] *)
Definition is_executable (mode : Z) : bool := negb (Z.land mode 73 =? 0).

Fixpoint record_node (base : bytes) (dirMode : Z) (n : fsnode) : list RecordFile :=
  match n with
  | FDir name mode entries =>
      if bool_decide (name ∈ [str "."; str ".."]) then []
      else
        match entries with
        | None => []
        | Some des =>
            (fix go des := match des with
                           | [] => []
                           | de :: des => record_node (base ++ str "/" ++ name) mode de ++ go des
                           end) des
        end
  | FReg name mode =>
      if is_executable mode
      then [mkRecord base (base ++ str "/" ++ name) dirMode mode] else []
  | FOther _ => []
  end.

Definition runSystemModeRecordDirectory (base : bytes) (mode : Z) (entries : option (list fsnode))
  : Z * list RecordFile :=
  match entries with
  | None => (-1, [])
  | Some des => (0, des ≫= record_node base mode)
  end.

(** The child that records a file: its configuration and the directory it
    makes, or nothing when the directory is not below the root. *)
Definition runSystemModeRecordFile (conf : Configuration) (r : RecordFile)
  : res (option (Configuration * bytes)) :=
  path ← keyAsString conf (str "binary-path");
  name ← keyAsString conf (str "binary-name");
  let rootDir := path ++ name in
  if (length (rf_dir r) <? length rootDir)%nat then Ok None
  else
    out ← keyAsString conf (str "out-directory");
    below ← substr_from (rf_dir r) (length rootDir);
    dstDir ← dir_concat out below;
    out ← keyAsString conf (str "out-directory");
    below ← substr_from (rf_file r) (length rootDir);
    dstFile ← dir_concat out below;
    Ok (Some (set_keys conf
      [(str "system-mode-write-file", VString dstFile);
       (str "system-mode-write-file-mode", VInt (Z.land (rf_mode r) 4095));
       (str "binary-name", VString (rf_file r));
       (str "binary-path", VString [])], dstDir)).

(** ** System mode: reporting *)

Definition optionsStringToConfigurationVector (s : bytes) : list bytes :=
  let parts := split_string s " "%char in
  if bool_decide (length parts = 6)%nat then parts else [].

(** The keys that are set when there are six options. *)
Definition report_option_keys (options : list bytes) : list (bytes * Value) :=
  match options with
  | [a; b; c; d; x; y] =>
      [(str "include-pattern", VString a); (str "exclude-pattern", VString b);
       (str "include-path", VString c); (str "exclude-path", VString d);
       (str "exclude-line", VString x); (str "exclude-region", VString y)]
  | _ => []
  end.

(** The configuration of the child that reports the data of a file. *)
Definition runSystemModeReportFile (conf : Configuration) (file : bytes) (data : system_mode_memory)
  : res Configuration :=
  let '(dir, name) := split_path (smm_filename data) in
  let conf := set_keys conf
    [(str "system-mode-read-results-file", VString file);
     (str "binary-name", VString name);
     (str "binary-path", VString dir)] in
  out ← keyAsString conf (str "out-directory");
  let conf := setKey conf (str "target-directory") (VString (out ++ str "/" ++ name)) in
  Ok (set_keys conf (report_option_keys (optionsStringToConfigurationVector (smm_options data)))).

(** The files that [runSystemModeReportDirectory] reports: the regular ones of
    one directory. *)
Definition report_files (base : bytes) (entries : list fsnode) : list bytes :=
  omap (λ n, match n with FReg name _ => Some (base ++ str "/" ++ name) | _ => None end) entries.

(** ** main *)

Inductive MainAction := ExitWith (code : Z) | RunMerge | RunRecord | RunReport | RunKcov (mode : Z).

Definition main_action (r : parse_result) : res MainAction :=
  match r with
  | Refused _ _ => Ok (ExitWith 1)
  | Exited code => Ok (ExitWith code)
  | Parsed conf =>
      mode ← keyAsInt conf (str "running-mode");
      Ok (if mode =? MODE_MERGE_ONLY then RunMerge
          else if mode =? MODE_SYSTEM_RECORD then RunRecord
          else if mode =? MODE_SYSTEM_REPORT then RunReport
          else RunKcov mode)
  end.

(** ** The options that travel *)

Lemma split_spaces (parts : list bytes) :
  Forall (" "%char ∉.) parts →
  split_string (concat ((λ s, s ++ str " ") <$> parts)) " "%char = parts.
Proof.
  unfold split_string. induction 1 as [|x parts Hx _ IH]; [done|].
  rewrite fmap_cons. cbn [concat]. rewrite <-app_assoc.
  set (rest := concat _) in *. change (str " " ++ rest) with (" "%char :: rest).
  by rewrite getlines_cons, IH.
Qed.

(** A list of patterns without spaces is joined to one without spaces. *)
Lemma keyListAsString_join l : keyListAsString l = Ok (join ","%char l).
Proof.
  unfold keyListAsString. destruct l as [|x l]; [done|].
  assert (H : ∀ l acc, foldl (λ out it, out ++ it ++ str ",") acc l
    = acc ++ concat ((λ s, s ++ str ",") <$> l)).
  { clear. induction l as [|y l IH]; intros acc; cbn; [by rewrite app_nil_r|].
    by rewrite IH, <-!app_assoc. }
  rewrite H. cbn [app].
  assert (H2 : ∀ x l, concat ((λ s, s ++ str ",") <$> x :: l) = join ","%char (x :: l) ++ str ",").
  { clear. intros x l. revert x. induction l as [|y l IH]; intros x.
    - cbn. by rewrite !app_nil_r.
    - rewrite fmap_cons. cbn [concat]. rewrite IH, join_cons, <-!app_assoc. done. }
  rewrite H2, substr_ok, drop_0 by lia. f_equal.
  rewrite length_app. cbn [length str String.list_ascii_of_string].
  by rewrite Nat.add_sub, take_app_length.
Qed.

(** The options of a recording run are six words in the instrumented binary,
    and the reporting run takes them apart into the same six, whichever of them
    are empty, as long as none contains a space; lists are joined by commas, so
    that taking them apart gives the patterns again. *)
Theorem options_roundtrip (conf : Configuration) (a b c d : list bytes) (x y : bytes) :
  keyAsList conf (str "include-pattern") = Ok a → keyAsList conf (str "exclude-pattern") = Ok b →
  keyAsList conf (str "include-path") = Ok c → keyAsList conf (str "exclude-path") = Ok d →
  keyAsString conf (str "exclude-line") = Ok x → keyAsString conf (str "exclude-region") = Ok y →
  Forall (" "%char ∉.) [join ","%char a; join ","%char b; join ","%char c; join ","%char d; x; y] →
  ∃ s, getKcovOptionsString conf = Ok s ∧
    optionsStringToConfigurationVector s
    = [join ","%char a; join ","%char b; join ","%char c; join ","%char d; x; y] ∧
    (a ≠ [] → Forall (","%char ∉.) a → getCommaSeparatedList (join ","%char a) = a).
Proof.
  intros Ha Hb Hc Hd Hx Hy Hs. eexists. split; [|split].
  - unfold getKcovOptionsString.
    rewrite Ha. cbn [mbind res_mbind res_bind]. rewrite keyListAsString_join. cbn [mbind res_mbind res_bind].
    rewrite Hb. cbn [mbind res_mbind res_bind]. rewrite keyListAsString_join. cbn [mbind res_mbind res_bind].
    rewrite Hc. cbn [mbind res_mbind res_bind]. rewrite keyListAsString_join. cbn [mbind res_mbind res_bind].
    rewrite Hd. cbn [mbind res_mbind res_bind]. rewrite keyListAsString_join. cbn [mbind res_mbind res_bind].
    rewrite Hx. cbn [mbind res_mbind res_bind]. rewrite Hy. reflexivity.
  - unfold optionsStringToConfigurationVector. by rewrite split_spaces.
  - destruct a as [|p a]; [done|]. intros _. apply comma_list_join.
Qed.

Lemma keyAsList_set_strings c kvs k :
  Forall (λ kv, type_of kv.2 = KString) kvs → keyAsList (set_keys c kvs) k = keyAsList c k.
Proof.
  unfold set_keys. intros H. revert c. induction H as [|[k' v] kvs Hv _ IH]; intros c; [done|].
  cbn [foldl]. rewrite IH. unfold keyAsList. rewrite m_stringVectors_setKey. by destruct v.
Qed.

(** The options that system mode carries to the reporting run do not arrive:
    they are set as strings, while the filter reads the four patterns and paths
    as lists, which stay those of the reporting run's own command line. *)
Theorem report_options_lost (conf conf' : Configuration) (file : bytes) (data : system_mode_memory) :
  runSystemModeReportFile conf file data = Ok conf' →
  keyAsList conf' (str "include-pattern") = keyAsList conf (str "include-pattern") ∧
  keyAsList conf' (str "exclude-pattern") = keyAsList conf (str "exclude-pattern") ∧
  keyAsList conf' (str "include-path") = keyAsList conf (str "include-path") ∧
  keyAsList conf' (str "exclude-path") = keyAsList conf (str "exclude-path").
Proof.
  cut (runSystemModeReportFile conf file data = Ok conf' → ∀ k, keyAsList conf' k = keyAsList conf k);
    [intros H Hr; by rewrite !H|].
  unfold runSystemModeReportFile. destruct (split_path _) as [dir name].
  set (c1 := set_keys conf _).
  assert (H1 : ∀ k, keyAsList c1 k = keyAsList conf k)
    by (intros k; apply keyAsList_set_strings; by repeat constructor).
  clearbody c1. intros (out & _ & H)%bind_Ok k. rewrite <-H1. revert H.
  set (c2 := setKey c1 _ _).
  assert (H2 : keyAsList c2 k = keyAsList c1 k)
    by (unfold keyAsList, c2; by rewrite m_stringVectors_setKey).
  clearbody c2. rewrite <-H2.
  intros H. assert (set_keys c2 (report_option_keys
    (optionsStringToConfigurationVector (smm_options data))) = conf') as <- by congruence.
  apply keyAsList_set_strings. unfold report_option_keys. repeat case_match; by repeat constructor.
Qed.

(** ** The merged report *)

(** The entries of the output directory that count. *)
Definition other_metadata (binaryName : bytes) (e : bytes * option (list bytes)) : bool :=
  negb (is_current binaryName e.1)
  && match e.2 with Some de2 => negb (metadata_datum de2 =? 0) | None => false end.

Lemma countMetadata_count binaryName des :
  Z.of_nat (length des) < 2 ^ 32 →
  countMetadata binaryName (Some des) = Z.of_nat (count_if (other_metadata binaryName) des).
Proof.
  unfold countMetadata. intros Hn.
  cut (∀ acc, 0 ≤ acc → acc + Z.of_nat (length des) < 2 ^ 32 →
    foldl (λ out '(name, metadataDir),
      if is_current binaryName name then out
      else match metadataDir with
           | None => out
           | Some de2 => u32 (out + if metadata_datum de2 =? 0 then 0 else 1)
           end) acc des = acc + Z.of_nat (count_if (other_metadata binaryName) des));
    [intros H; rewrite H by lia; lia|].
  clear Hn. induction des as [|[name md] des IH]; intros acc Hacc Hn; cbn [foldl count_if]; [cbn; lia|].
  cbn [length] in Hn. 
  change (other_metadata binaryName (name, md)) with
    (negb (is_current binaryName name)
     && match md with Some de2 => negb (metadata_datum de2 =? 0) | None => false end).
  destruct (is_current binaryName name); cbn [negb andb]; [rewrite IH by lia; done|].
  destruct md as [de2|]; [|rewrite IH by lia; done].
  destruct (metadata_datum de2 =? 0); cbn [negb]; rewrite uw_small by lia; rewrite IH by lia; cbn; lia.
Qed.

Definition registered (calls : list MainCall) : list Writer :=
  omap (λ c, match c with MRegisterWriter w => Some w | _ => None end) calls.

Lemma registered_app a b : registered (a ++ b) = registered a ++ registered b.
Proof. unfold registered. apply omap_app. Qed.
Lemma registered_writers ws : registered (MRegisterWriter <$> ws) = ws.
Proof. induction ws as [|w ws IH]; cbn; [done|]. f_equal. exact IH. Qed.

Lemma count_if_pos {A} (p : A → bool) l : (0 < count_if p l)%nat ↔ ∃ x, x ∈ l ∧ p x = true.
Proof.
  induction l as [|y l IH]; cbn.
  - split; [lia|]. by intros (x & ?%not_elem_of_nil & _).
  - destruct (p y) eqn:E.
    + split; [|cbn; lia]. intros _. exists y. rewrite elem_of_cons. auto.
    + cbn. rewrite IH. split; intros (x & Hx & Hp); exists x; rewrite elem_of_cons in *; [auto|].
      destruct Hx as [->|]; [congruence|auto].
Qed.

Lemma has_html (merged : bool) ws :
  (∃ w, w ∈ ws ∧ wr_kind w = HtmlWriter ∧ wr_merged w = merged) ↔
  existsb (λ w, bool_decide (wr_kind w = HtmlWriter) && Bool.eqb (wr_merged w) merged) ws = true.
Proof.
  rewrite existsb_exists. apply exist_proper. intros w.
  rewrite list_elem_of_In, andb_true_iff, bool_decide_eq_true, eqb_true_iff. done.
Qed.

(** A run writes the merged report exactly when it reports at all, not only
    for cobertura, and some other program has metadata in the output directory;
    the report of the program itself is then written as well. *)
Theorem merged_report_iff (conf : Configuration) (mode cobertura_only : Z) (name : bytes)
    (des : list (bytes * option (list bytes))) (run : bytes → Z) (ret : Z) (calls : list MainCall) :
  keyAsInt conf (str "cobertura-only") = Ok cobertura_only →
  keyAsString conf (str "binary-name") = Ok name →
  Z.of_nat (length des) < 2 ^ 32 →
  runKcov conf mode true true (Some des) run = Ok (ret, calls) →
  ((∃ w, w ∈ registered calls ∧ wr_kind w = HtmlWriter ∧ wr_merged w = true) ↔
    mode ≠ MODE_COLLECT_ONLY ∧ cobertura_only = 0 ∧
    ∃ e, e ∈ des ∧ other_metadata name e = true) ∧
  ((∃ w, w ∈ registered calls ∧ wr_kind w = HtmlWriter ∧ wr_merged w = false) ↔
    mode ≠ MODE_COLLECT_ONLY ∧ cobertura_only = 0).
Proof.
  intros Hc Hn Hlen. unfold runKcov. intros (path & _ & H)%bind_Ok. revert H.
  rewrite Hn. cbn [mbind res_mbind res_bind negb]. intros (base & _ & (target & _ & H)%bind_Ok)%bind_Ok.
  revert H. rewrite Hc. cbn [mbind res_mbind res_bind]. intros (daemonize & _ & H)%bind_Ok.
  match type of H with Ok (_, ?cs) = _ => assert (calls = cs) as -> by congruence end. clear H.
  assert (Hr : ∀ (a b d e : list MainCall) ws,
    registered a = [] → registered b = [] → registered d = [] → registered e = [] →
    registered (a ++ b ++ (MRegisterWriter <$> ws) ++ d ++ e) = ws).
  { intros a b d e ws Ha Hb Hd He.
    by rewrite !registered_app, registered_writers, Ha, Hb, Hd, He, !app_nil_r. }
  rewrite Hr;
    [|done|by destruct (cobertura_only =? 0)|by destruct (daemonize =? 0)
     |by destruct (mode =? MODE_REPORT_ONLY)].
  rewrite !has_html. unfold run_writers. rewrite countMetadata_count by done.
  assert (Hpos : (Z.of_nat (count_if (other_metadata name) des) >? 0) = true ↔
    ∃ e, e ∈ des ∧ other_metadata name e = true).
  { rewrite <-count_if_pos, Z.gtb_gt. lia. }
  destruct (Z.eqb_spec mode MODE_COLLECT_ONLY) as [Hm|Hm];
    destruct (Z.eqb_spec cobertura_only 0) as [Hco|Hco];
    try destruct (Z.of_nat _ >? 0) eqn:Hcount; cbn; naive_solver.
Qed.

(** ** Recording a tree *)

(** An executable file below a directory, with the directory it is in. *)
Inductive executable_below : bytes → Z → fsnode → RecordFile → Prop :=
  | below_file base dirMode name mode :
      is_executable mode = true →
      executable_below base dirMode (FReg name mode)
        (mkRecord base (base ++ str "/" ++ name) dirMode mode)
  | below_dir base dirMode name mode des de r :
      name ∉ [str "."; str ".."] → de ∈ des →
      executable_below (base ++ str "/" ++ name) mode de r →
      executable_below base dirMode (FDir name mode (Some des)) r.

Lemma record_node_dir base dirMode name mode des :
  record_node base dirMode (FDir name mode (Some des)) =
  if bool_decide (name ∈ [str "."; str ".."]) then []
  else des ≫= record_node (base ++ str "/" ++ name) mode.
Proof.
  cbn [record_node]. case_bool_decide; [done|].
  induction des as [|de des IH]; [done|]. cbn. by f_equal.
Qed.

Lemma record_node_sound : ∀ n base dirMode r,
  r ∈ record_node base dirMode n → executable_below base dirMode n r.
Proof.
  fix IH 1. intros [name mode [des|]|name mode|name] base dirMode r.
  - rewrite record_node_dir. case_bool_decide as Hn; [by intros ?%not_elem_of_nil|].
    intros Hr. assert (∃ de, de ∈ des ∧ executable_below (base ++ str "/" ++ name) mode de r)
      as (de & Hde & Hb); [|by eapply below_dir].
    revert Hr. induction des as [|de des IHdes]; cbn; [by intros ?%not_elem_of_nil|].
    intros [Hr|Hr]%elem_of_app.
    + exists de. rewrite elem_of_cons. auto.
    + destruct (IHdes Hr) as (de' & ? & ?). exists de'. by rewrite elem_of_cons; auto.
  - cbn. case_bool_decide; by intros ?%not_elem_of_nil.
  - cbn. destruct (is_executable mode) eqn:Hx; [|by intros ?%not_elem_of_nil].
    intros ->%list_elem_of_singleton. by constructor.
  - by intros ?%not_elem_of_nil.
Qed.

Lemma record_node_complete n base dirMode r :
  executable_below base dirMode n r → r ∈ record_node base dirMode n.
Proof.
  induction 1 as [base dirMode name mode Hx|base dirMode name mode des de r Hn Hde _ IH].
  - cbn. rewrite Hx. by left.
  - rewrite record_node_dir, bool_decide_eq_false_2 by done.
    apply list_elem_of_bind. by exists de.
Qed.

(** Recording a directory instruments exactly the executable regular files
    of the whole tree below it, each with the directory it is in and that
    directory's mode; symbolic links and the like are left alone. *)
Theorem record_directory_all (base : bytes) (mode : Z) (entries : list fsnode) (r : RecordFile) :
  r ∈ (runSystemModeRecordDirectory base mode (Some entries)).2 ↔
  ∃ n, n ∈ entries ∧ executable_below base mode n r.
Proof.
  cbn. rewrite list_elem_of_bind. split.
  - intros (n & Hr & Hn). exists n. split; [done|by apply record_node_sound].
  - intros (n & Hn & Hb). exists n. split; [by apply record_node_complete|done].
Qed.

(** ** Concrete runs *)

Definition demo_filters : Configuration :=
  set_keys newConfiguration
    [(str "include-pattern", VList [str "src"; str "lib"]); (str "exclude-line", VString (str "NOCOV"))].

Lemma options_roundtrip_witness :
  ∃ s, getKcovOptionsString demo_filters = Ok s ∧
    optionsStringToConfigurationVector s = [str "src,lib"; []; []; []; str "NOCOV"; []].
Proof.
  destruct (options_roundtrip demo_filters [str "src"; str "lib"] [] [] [] (str "NOCOV") [])
    as (s & H1 & H2 & _);
    [by vm_compute|by vm_compute|by vm_compute|by vm_compute|by vm_compute|by vm_compute| |].
  - apply (bool_decide_unpack _). by vm_compute.
  - exists s. split; [exact H1|exact H2].
Defined.

Definition demo_data : system_mode_memory :=
  mkMemory (str "/usr/bin/ls") (str "src,lib    NOCOV  ") 0 [] 0 0.

Definition demo_out : Configuration :=
  setKey newConfiguration (str "out-directory") (VString (str "/tmp/out/")).

Lemma report_options_lost_witness :
  ∃ conf', runSystemModeReportFile demo_out (str "/data/00000001") demo_data = Ok conf' ∧
    keyAsList conf' (str "include-pattern") = keyAsList demo_out (str "include-pattern") ∧
    keyAsString conf' (str "include-pattern") = Ok (str "src,lib").
Proof.
  assert (H : match runSystemModeReportFile demo_out (str "/data/00000001") demo_data with
              | Ok c => keyAsString c (str "include-pattern") | _ => Panic end = Ok (str "src,lib"))
    by by vm_compute.
  destruct (runSystemModeReportFile demo_out (str "/data/00000001") demo_data)
    as [conf'| | |] eqn:E; [|discriminate H..].
  exists conf'. split; [reflexivity|]. split; [|exact H].
  exact (proj1 (report_options_lost _ _ _ _ E)).
Defined.

Lemma merged_report_iff_witness :
  ∃ ret calls, runKcov
    (set_keys newConfiguration
      [(str "binary-name", VString (str "prog")); (str "out-directory", VString (str "/tmp/out/"));
       (str "target-directory", VString (str "/tmp/out/prog.1234"))])
    MODE_COLLECT_AND_REPORT true true
    (Some [(str "prog.99", Some [str "1"]); (str "other.77", Some [str "."; str "2"])]) (λ _, 3)
    = Ok (ret, calls) ∧ ret = 3 ∧
    ∃ w, w ∈ registered calls ∧ wr_kind w = HtmlWriter ∧ wr_merged w = true.
Proof.
  set (conf := set_keys newConfiguration _).
  set (des := [(str "prog.99", Some [str "1"]); (str "other.77", Some [str "."; str "2"])]).
  assert (E : ∃ calls, runKcov conf MODE_COLLECT_AND_REPORT true true (Some des) (λ _, 3) = Ok (3, calls));
    [|destruct E as [calls E]].
  { assert (match runKcov conf MODE_COLLECT_AND_REPORT true true (Some des) (λ _, 3) with
            | Ok (ret, _) => ret =? 3 | _ => false end = true) as E by (vm_compute; reflexivity).
    destruct (runKcov _ _ _ _ _ _) as [[ret calls]| | |]; try discriminate.
    apply Z.eqb_eq in E as ->. by exists calls. }
  exists 3, calls. split; [done|]. split; [done|].
  apply (merged_report_iff conf MODE_COLLECT_AND_REPORT 0 (str "prog") des (λ _, 3) 3 calls);
    [by vm_compute|by vm_compute|by vm_compute|done|].
  split; [done|]. split; [done|]. exists (str "other.77", Some [str "."; str "2"]).
  split; [right; left|by vm_compute].
Defined.
