(* ===== verification/Background.v ===== *)
(** * The program in the background (src/src/main.cc)

    What happens around a run: the process that goes on in the background while its
    parent waits at a fifo for the exit code of the traced program, which the
    collector writes (src/src/collector.cc); the signals that are passed on; what is
    deleted at the end; and the directories of the modes for whole file systems. *)
From S2P Require Export MainProgram.
From S2P Require Import CxxString Utils Configuration Collector SystemEngine PtraceStart.
From stdpp Require Import options.

(** ** daemonize *)

(** What the fifo gives the parent: [fopen] fails, nobody ever opens it for writing,
    or the bytes up to its end. *)
Inductive FifoAnswer := FifoFails | FifoNever | FifoGives (content : bytes).

Record BackgroundAnswers := mkBackground {
  ba_mkfifo : Z;
  ba_fork1 : Z;
  ba_fork2 : Z;
  ba_fifo : FifoAnswer;
}.

(** What a process does after it: go on with the run, end with a status, or wait for
    ever. *)
Inductive BgRole := BgGoesOn | BgExits (status : Z) | BgWaits.

Definition done_fifo (target : bytes) : bytes := target ++ str "/done.fifo".

(** The status a process gives [exit]. *)
Definition exit_status (out : Z) : Z := Z.land (s32 out) 0xff.

Definition strtoul (s : bytes) : Z :=
  let '(neg, v) := c_digits s in
  if 2 ^ 64 <=? v then 2 ^ 64 - 1 else if neg then u64 (- v) else v.

(** The parent, once the fifo is open; [None] is the end of the file. *)
Definition background_parent (content : bytes) : res BgRole :=
  match content with
  | [] => Panic
  | _ => Ok (BgExits (exit_status (strtoul (c_prefix (fgets 254 content).1))))
  end.

(** The fifo it makes, and the role of the process. *)
Definition main_daemonize (conf : Configuration) (a : BackgroundAnswers) : res (bytes * BgRole) :=
  target ← keyAsString conf (str "target-directory");
  let fifoName := done_fifo target in
  if ba_mkfifo a <? 0 then Panic
  else if ba_fork1 a <? 0 then Panic
  else if ba_fork1 a =? 0 then
    if ba_fork2 a <? 0 then Panic
    else Ok (fifoName, if 0 <? ba_fork2 a then BgExits 0 else BgGoesOn)
  else
    role ← (match ba_fifo a with
            | FifoFails => Panic
            | FifoNever => Ok BgWaits
            | FifoGives content => background_parent content
            end);
    Ok (fifoName, role).

(** ** Signals and the end *)

(** The signal is forwarded to the traced program; here with the ptrace engine. *)
Definition ctrlc (sig : Z) (engine : Ptrace) : Ptrace := Ptrace_kill sig engine.

Inductive Deletion := DelCollector | DelOutput | DelReporter | DelSolibHandler | DelEngine | DelFilter | DelBasicFilter.
#[global] Instance Deletion_eq_dec : EqDecision Deletion.
Proof. solve_decision. Defined.

Definition do_cleanup : list Deletion :=
  [DelCollector; DelOutput; DelReporter; DelSolibHandler; DelEngine; DelFilter; DelBasicFilter].

(** ** Recording and reporting whole directories *)

(** The library that is written for the instrumented programs; a failing [chmod]
    is only reported. *)
Definition system_library (out : bytes) : bytes := out ++ str "/lib/libkcov_system.so".

Definition runSystemModeRecord (conf : Configuration) (write_file : bytes → Z) (entries : bytes → option (list fsnode))
  : res (Z * list RecordFile) :=
  path ← keyAsString conf (str "binary-path");
  name ← keyAsString conf (str "binary-name");
  out ← keyAsString conf (str "out-directory");
  let base := path ++ name in
  if write_file (system_library (c_prefix out)) <? 0 then Ok (-1, [])
  else Ok (runSystemModeRecordDirectory base 493 (entries base)).

Definition runSystemModeReport (conf : Configuration) (entries : bytes → option (list fsnode)) : res (Z * list bytes) :=
  path ← keyAsString conf (str "binary-path");
  name ← keyAsString conf (str "binary-name");
  let base := path ++ name in
  Ok (match entries base with None => (-1, []) | Some des => (0, report_files base des) end).

(** ** The exit code that is handed over *)

Definition done_write (c : CollectorCall) : option bytes :=
  match c with CWriteDoneFifo code => Some code | _ => None end.
Definition first_exit (ev : EngineEvent) : option bytes :=
  if bool_decide (ev_type ev = ev_exit_first_process) then Some (fmt_u (u32 (ev_data ev))) else None.

(** The collector writes to the fifo at the end of the first process, and only then. *)
Lemma done_writes evs c :
  omap done_write (col_calls (foldl (λ c ev, onEvent true ev c) c evs))
  = omap done_write (col_calls c) ++ omap first_exit evs.
Proof.
  revert c; induction evs as [|ev evs IH]; intros c; cbn [foldl omap list_omap]; [by rewrite app_nil_r|].
  rewrite IH.
  assert (omap done_write (col_calls (onEvent true ev c))
          = omap done_write (col_calls c) ++ option_list (first_exit ev)) as ->.
  { assert (∀ h l, omap done_write ((λ i, COnAddressHit i h) <$> l) = []) as Hhits
      by (intros h l; induction l; done).
    unfold onEvent, first_exit. destruct (ev_type ev); cbn [col_calls col_emit col_exit option_list bool_decide];
      rewrite ?omap_app, ?Hhits, ?app_nil_r; try done; cbn; rewrite ?app_nil_r; try done.
    by destruct (col_signalExit c). }
  rewrite <-app_assoc. f_equal. by destruct (first_exit ev).
Qed.

(** What the fifo gives a parent that reads it: the first text that is written, if
    there ever is one. *)
Definition fifo_after (c : Collector) : FifoAnswer :=
  match omap done_write (col_calls c) with [] => FifoNever | text :: _ => FifoGives text end.

Lemma background_parent_code n : 0 ≤ n < 256 → background_parent (fmt_u (u32 n)) = Ok (BgExits n).
Proof.
  intros Hn.
  assert (forallb (λ n, match background_parent (fmt_u (u32 n)) with Ok (BgExits m) => m =? n | _ => false end)
            (seqZ 0 256) = true) as Ht by by vm_compute.
  rewrite forallb_forall in Ht. specialize (Ht n ltac:(apply list_elem_of_In, elem_of_seqZ; lia)).
  destruct (background_parent _) as [[|m|]| | |]; try done. by apply Z.eqb_eq in Ht as ->.
Qed.

Definition is_first_exit (ev : EngineEvent) : bool := bool_decide (ev_type ev = ev_exit_first_process).

Lemma first_exits evs : omap first_exit evs = (λ ev, fmt_u (u32 (ev_data ev))) <$> List.filter is_first_exit evs.
Proof.
  induction evs as [|ev evs IH]; [done|]. cbn [omap list_omap List.filter]. unfold first_exit at 1, is_first_exit at 1.
  destruct (bool_decide _); cbn; by rewrite IH.
Qed.

(** C14: With "daemonize on first process exit" the parent ends with the exit code of
    the traced program as the collector writes it into the fifo - that of the first
    process to exit, whatever happens before and after - and waits for ever when
    there is no such event: when the program is killed by a signal. *)
Theorem exit_code_handed_over (conf : Configuration) (target : bytes) (evs : list EngineEvent) (a : BackgroundAnswers) :
  keyAsString conf (str "target-directory") = Ok target →
  0 ≤ ba_mkfifo a → 0 < ba_fork1 a →
  ba_fifo a = fifo_after (foldl (λ c ev, onEvent true ev c) new_Collector evs) →
  Forall (λ ev, 0 ≤ ev_data ev < 256) (List.filter is_first_exit evs) →
  main_daemonize conf a
  = Ok (done_fifo target,
        match List.filter is_first_exit evs with [] => BgWaits | ev :: _ => BgExits (ev_data ev) end).
Proof.
  intros Hconf Hm Hf Hfifo Hcodes. unfold main_daemonize. rewrite Hconf. cbn [mbind res_mbind res_bind].
  rewrite (proj2 (Z.ltb_ge (ba_mkfifo a) 0)), (proj2 (Z.ltb_ge (ba_fork1 a) 0)), (proj2 (Z.eqb_neq (ba_fork1 a) 0)) by lia.
  rewrite Hfifo. unfold fifo_after. rewrite done_writes, first_exits. cbn [new_Collector col_calls omap list_omap app].
  destruct (List.filter is_first_exit evs) as [|ev l]; [done|]. cbn [fmap list_fmap].
  apply Forall_cons in Hcodes as [Hev _]. by rewrite background_parent_code.
Qed.

Definition demo_background_events : list EngineEvent :=
  [mkEvent ev_breakpoint (-1) 0x1000; mkEvent ev_exit 3 0; mkEvent ev_exit_first_process 7 0; mkEvent ev_exit 0 0].
Lemma exit_code_handed_over_witness :
  main_daemonize demo_conf (mkBackground 0 100 0
    (fifo_after (foldl (λ c ev, onEvent true ev c) new_Collector demo_background_events)))
  = Ok (str "/tmp/out//prog.0000beef/done.fifo", BgExits 7).
Proof.
  rewrite (exit_code_handed_over demo_conf (str "/tmp/out//prog.0000beef") demo_background_events);
    [reflexivity|vm_compute; reflexivity|done|done|done|].
  repeat constructor; done.
Defined.

(** The event of a process killed by a signal is not the one that is handed over: the
    parent of a program that crashes waits. *)
Theorem killed_never_handed_over {K : Type} `{!PtraceSys K} (k : K) (s : Ptrace) (who status : Z) :
  is_first_exit (wait_signaled who status k s).1 = false.
Proof. unfold wait_signaled, is_first_exit. cbn [fst ev_type]. by destruct (childrenLeft _). Qed.
