(* ===== verification/Reports.v ===== *)
(** * The XML and JSON reports (src/src/writers/sonarqube-xml-writer.cc,
    codecov-writer.cc, cobertura-writer.cc, json-writer.cc)

    Four writers that ask the reporter about every line of every file, each in
    its own syntax.  The files come in the order in which the program's map is
    iterated over, which is an argument.  The formatted quotients ("%.3f" and
    "%.2f" of floating-point numbers) and the dates are parameters. *)
From S2P Require Export Writers.
From S2P Require Import Configuration HtmlWriter.
From stdpp Require Import options.

Definition TAB : ascii := "009"%char.
Definition tabs (n : nat) : bytes := replicate n TAB.

(** [for (unsigned int n = 1; n < file->m_lastLineNr; n++)] *)
Fixpoint for_lines {S} (count : nat) (n : Z) (body : Z → S → res S) (s : S) : res S :=
  match count with
  | O => Ok s
  | Datatypes.S count => s ← body n s; for_lines count (n + 1) body s
  end.
Definition each_line {S} (file : WFile) (body : Z → S → res S) (s : S) : res S :=
  for_lines (Z.to_nat (wf_lastLineNr file - 1)) 1 body s.

Definition set_counts (executed code : Z) (f : WFile) : WFile :=
  mkWFile (wf_name f) (wf_fileName f) (wf_outFileName f) (wf_jsonOutFileName f) (wf_crc f)
    (wf_lineMap f) code executed (wf_lastLineNr f).

(** [!!cnt.m_hits] *)
Definition was_hit (c : LineExecutionCount) : Z := if lc_hits c =? 0 then 0 else 1.

Section reports.
Context {R : Type} `{!IReporter R} (rep : R) (m_maxPossibleHits : PossibleHits).
Context (rate3 percent2 : Z → Z → bytes).

(** ** Sonarqube *)

Definition sonarqube_line (file : WFile) (n : Z) (out : bytes) : res bytes :=
  code ← rep_lineIsCode rep (wf_name file) n;
  if negb (code : bool) then Ok out
  else
    cnt ← rep_getLineExecutionCount rep (wf_name file) n;
    let covered := if negb (lc_hits cnt =? 0) then str "true" else str "false" in
    Ok (out ++ tabs 2 ++ txt "<lineToCover lineNumber=`" ++ fmt_d (s32 n) ++ txt "` covered=`" ++
        covered ++ txt "`/>" ++ [NL]).

Definition sonarqube_writeOne (file : WFile) (out : bytes) : res bytes :=
  let out := out ++ tabs 1 ++ txt "<file path=`" ++ wf_name file ++ txt "`>" ++ [NL] in
  out ← each_line file (sonarqube_line file) out;
  Ok (out ++ tabs 1 ++ str "</file>" ++ [NL]).

Definition sonarqube_write (files : list WFile) : res bytes :=
  let out := str "<!-- Generated by kcov (https://simonkagstrom.github.io/kcov/) -->" ++ [NL]
             ++ txt "<coverage version=`1`>" ++ [NL] in
  out ← res_foldl (λ out file, sonarqube_writeOne file out) out files;
  Ok (out ++ str "</coverage>" ++ [NL]).

(** ** What cobertura and codecov count first *)

Definition sum_line (file : WFile) (n : Z) (st : Z * Z * WFile) : res (Z * Z * WFile) :=
  let '(nExecutedLines, nCodeLines, f) := st in
  code ← rep_lineIsCode rep (wf_name file) n;
  if negb (code : bool) then Ok st
  else
    cnt ← rep_getLineExecutionCount rep (wf_name file) n;
    let nExecutedLines := u32 (nExecutedLines + was_hit cnt) in
    let nCodeLines := u32 (nCodeLines + 1) in
    Ok (nExecutedLines, nCodeLines, set_counts nExecutedLines nCodeLines f).

Definition sumOne (file : WFile) : res WFile :=
  '(_, _, f) ← each_line file (sum_line file) (0, 0, file);
  Ok f.

(** ** Codecov *)

Definition strip_filename (stripPath filename : bytes) : res bytes :=
  match str_find stripPath filename with
  | Some _ =>
      if (length stripPath <? length filename)%nat
      then substr_from filename (length stripPath + 1) else Ok filename
  | None => Ok filename
  end.

Definition codecov_filename (fullPaths : Z) (strip m_commonPath : bytes) (file : WFile) : res bytes :=
  if fullPaths =? 0 then
    let stripPath := if bool_decide (length strip = 0)%nat then m_commonPath else strip in
    strip_filename stripPath (wf_name file)
  else Ok (wf_name file).

Definition hit_score (cnt : LineExecutionCount) : bytes :=
  match m_maxPossibleHits with
  | HITS_UNLIMITED | HITS_SINGLE =>
      if negb (lc_hits cnt =? 0) then fmt_u (lc_hits cnt) else str "0"
  | HITS_LIMITED => txt "`" ++ fmt_u (lc_hits cnt) ++ str "/" ++ fmt_u (lc_possibleHits cnt) ++ txt "`"
  end.

Definition codecov_line (file : WFile) (n : Z) (st : list bytes * Z * Z * WFile)
  : res (list bytes * Z * Z * WFile) :=
  let '(lineEntries, nExecutedLines, nCodeLines, f) := st in
  code ← rep_lineIsCode rep (wf_name file) n;
  '(lineEntries, nExecutedLines, nCodeLines) ←
    (if code : bool then
       cnt ← rep_getLineExecutionCount rep (wf_name file) n;
       Ok (lineEntries ++ [txt "      `" ++ fmt_u n ++ txt "`: " ++ hit_score cnt],
           u32 (nExecutedLines + was_hit cnt), u32 (nCodeLines + 1))
     else Ok (lineEntries, nExecutedLines, nCodeLines));
  Ok (lineEntries, nExecutedLines, nCodeLines, set_counts nExecutedLines nCodeLines f).

(** The entries, with a comma and a newline before each that follows text. *)
Definition join_entries (sep : bytes) (entries : list bytes) : bytes :=
  foldl (λ out e, (if bool_decide (out = []) then out else out ++ sep) ++ e) [] entries.

Definition codecov_writeOne (fullPaths : Z) (strip m_commonPath : bytes) (file : WFile)
  : res (bytes * WFile) :=
  filename ← codecov_filename fullPaths strip m_commonPath file;
  '(lineEntries, _, _, f) ← each_line file (codecov_line file) ([], 0, 0, file);
  let linesBlock := join_entries (str "," ++ [NL]) lineEntries ++ [NL] in
  Ok (txt "    `" ++ filename ++ txt "`: {" ++ [NL] ++ linesBlock ++ txt "    }", f).

(** The loop of [write] over the files, a comma before each but the first. *)
Fixpoint codecov_files (fullPaths : Z) (strip m_commonPath : bytes) (first : bool)
    (files : list WFile) (out : bytes) : res bytes :=
  match files with
  | [] => Ok out
  | file :: files =>
      let out := if first then out else out ++ str "," ++ [NL] in
      '(one, _) ← codecov_writeOne fullPaths strip m_commonPath file;
      codecov_files fullPaths strip m_commonPath false files (out ++ one)
  end.

Definition codecov_write (fullPaths : Z) (strip m_commonPath : bytes) (files : list WFile) : res bytes :=
  files ← res_foldl (λ fs f, f ← sumOne f; Ok (fs ++ [f])) [] files;
  let out := str "{" ++ [NL] ++ txt "  `coverage`: {" ++ [NL] in
  out ← codecov_files fullPaths strip m_commonPath true files out;
  Ok (out ++ [NL] ++ str "  }" ++ [NL] ++ str "}" ++ [NL]).

(** ** Cobertura *)

Definition mangleFileName (name : bytes) : bytes :=
  (λ c, if bool_decide (c = "."%char ∨ c = "-"%char) then "_"%char else c) <$> name.

Definition cobertura_line (file : WFile) (n : Z) (out : bytes) : res bytes :=
  code ← rep_lineIsCode rep (wf_name file) n;
  if negb (code : bool) then Ok out
  else
    cnt ← rep_getLineExecutionCount rep (wf_name file) n;
    let hits := lc_hits cnt in
    let hits := if negb (hits =? 0) && bool_decide (m_maxPossibleHits = HITS_SINGLE) then 1 else hits in
    Ok (out ++ tabs 6 ++ txt "<line number=`" ++ fmt_u n ++ txt "` hits=`" ++ fmt_u hits ++ txt "`/>" ++ [NL]).

(** [counter] is the static counter of the classes written so far. *)
Definition cobertura_writeOne (fullPaths : Z) (m_commonPath : bytes) (counter : Z) (file : WFile)
  : res (bytes * Z) :=
  let mangledName := mangleFileName (wf_fileName file) ++ str "__" ++ fmt_u counter in
  out ← each_line file (cobertura_line file) [];
  let nCodeLines := if wf_codeLines file =? 0 then 1 else wf_codeLines file in
  filename ← (if fullPaths =? 0 then strip_filename m_commonPath (wf_name file) else Ok (wf_name file));
  Ok (tabs 4 ++ txt "<class name=`" ++ mangledName ++ txt "` filename=`" ++ filename
      ++ txt "` branch-rate=`1.0` complexity=`1.0` line-rate=`"
      ++ rate3 (wf_executedLines file) nCodeLines ++ txt "`>" ++ [NL]
      ++ tabs 5 ++ str "<lines>" ++ [NL] ++ out ++ tabs 5 ++ str "</lines>" ++ [NL]
      ++ tabs 4 ++ str "</class>" ++ [NL], u32 (counter + 1)).

Definition cobertura_header (m_commonPath commandName date : bytes) (nCodeLines nExecutedLines : Z) : bytes :=
  let linesCovered := fmt_u nExecutedLines in
  let linesValid := fmt_u nCodeLines in
  let lineRate := rate3 nExecutedLines (if nCodeLines =? 0 then 1 else nCodeLines) in
  txt "<?xml version=`1.0` ?>" ++ [NL]
  ++ str "<!DOCTYPE coverage SYSTEM 'http://cobertura.sourceforge.net/xml/coverage-04.dtd'>" ++ [NL]
  ++ txt "<coverage line-rate=`" ++ lineRate ++ txt "` lines-covered=`" ++ linesCovered
  ++ txt "` lines-valid=`" ++ linesValid
  ++ txt "` branch-rate=`1.0` branches-covered=`1.0` branches-rate=`1.0` complexity=`1.0` version=`1.9` timestamp=`"
  ++ date ++ txt "`>" ++ [NL]
  ++ tabs 1 ++ str "<sources>" ++ [NL]
  ++ tabs 2 ++ str "<source>" ++ m_commonPath ++ str "/</source>" ++ [NL]
  ++ tabs 1 ++ str "</sources>" ++ [NL]
  ++ tabs 1 ++ str "<packages>" ++ [NL]
  ++ tabs 2 ++ txt "<package name=`" ++ mangleFileName commandName ++ txt "` line-rate=`" ++ lineRate
  ++ txt "` lines-covered=`" ++ linesCovered ++ txt "` lines-valid=`" ++ linesValid
  ++ txt "` branch-rate=`1.0` complexity=`1.0`>" ++ [NL]
  ++ tabs 3 ++ str "<classes>" ++ [NL].

Definition cobertura_footer : bytes :=
  tabs 3 ++ str "</classes>" ++ [NL] ++ tabs 2 ++ str "</package>" ++ [NL]
  ++ tabs 1 ++ str "</packages>" ++ [NL] ++ str "</coverage>" ++ [NL].

(** The first loop of [write]: the files summed up, and the totals. *)
Definition cobertura_totals (files : list WFile) : res (list WFile * Z * Z) :=
  res_foldl (λ '(fs, code, executed) f,
    f ← sumOne f;
    Ok (fs ++ [f], u32 (code + wf_codeLines f), u32 (executed + wf_executedLines f))) ([], 0, 0) files.

Definition cobertura_write (fullPaths : Z) (m_commonPath commandName date : bytes) (counter : Z)
    (files : list WFile) : res (bytes * Z) :=
  '(files, nTotalCodeLines, nTotalExecutedLines) ← cobertura_totals files;
  let out := cobertura_header m_commonPath commandName date nTotalCodeLines nTotalExecutedLines in
  '(out, counter) ← res_foldl (λ '(out, counter) f,
     '(one, counter) ← cobertura_writeOne fullPaths m_commonPath counter f;
     Ok (out ++ one, counter)) (out, counter) files;
  Ok (out ++ cobertura_footer, counter).

(** The files it writes, in the given directory. *)
Definition cobertura_files (cobertura_only : Z) (outDir : bytes) : list bytes :=
  (if cobertura_only =? 0 then [outDir ++ str "/cobertura.xml"] else []) ++ [outDir ++ str "/cov.xml"].

(** ** JSON *)

(** The counters of one file and of all, over the lines of a file. *)
Definition json_line (file : WFile) (n : Z) (st : Z * Z * Z * Z) : res (Z * Z * Z * Z) :=
  let '(nExecutedLines, nCodeLines, nTotalExecutedLines, nTotalCodeLines) := st in
  cnt ← rep_getLineExecutionCount rep (wf_name file) n;
  code ← rep_lineIsCode rep (wf_name file) n;
  Ok (if code : bool
      then (u32 (nExecutedLines + was_hit cnt), u32 (nCodeLines + 1),
            u32 (nTotalExecutedLines + was_hit cnt), u32 (nTotalCodeLines + 1))
      else st).

(** [percentCovered] is the quotient it was computed from; at first 0.0. *)
Record JsonState := mkJson {
  js_out : bytes;
  js_totalExecuted : Z;
  js_totalCode : Z;
  js_percent : Z * Z;
  js_firstFile : bool;
}.

Definition json_file (file : WFile) (st : JsonState) : res JsonState :=
  '(nExecutedLines, nCodeLines, totalExecuted, totalCode) ←
    each_line file (json_line file) (0, 0, js_totalExecuted st, js_totalCode st);
  let percentCovered := if nCodeLines >? 0 then (nExecutedLines, nCodeLines) else js_percent st in
  let out := if js_firstFile st then js_out st else js_out st ++ str "," ++ [NL] in
  Ok (mkJson
        (out ++ txt "    {`file`: `" ++ wf_name file ++ txt "`, `percent_covered`: `"
         ++ percent2 percentCovered.1 percentCovered.2 ++ txt "`, `covered_lines`: `"
         ++ fmt_d (s32 nExecutedLines) ++ txt "`, `total_lines`: `" ++ fmt_d (s32 nCodeLines) ++ txt "`}")
        totalExecuted totalCode percentCovered false).

Definition json_start : bytes := str "{" ++ [NL] ++ txt "  `files`: [" ++ [NL].

Definition json_write (low high : Z) (commandName date : bytes) (files : list WFile) : res bytes :=
  st ← res_foldl (λ st f, json_file f st) (mkJson json_start 0 0 (0, 1) true) files;
  let percent := if js_totalCode st >? 0 then (js_totalExecuted st, js_totalCode st) else (0, 1) in
  command ← escape_json commandName;
  Ok (js_out st ++ [NL] ++ txt "  ]," ++ [NL]
      ++ txt "  `percent_covered`: `" ++ percent2 percent.1 percent.2 ++ txt "`," ++ [NL]
      ++ txt "  `covered_lines`: " ++ fmt_d (s32 (js_totalExecuted st)) ++ str "," ++ [NL]
      ++ txt "  `total_lines`: " ++ fmt_d (s32 (js_totalCode st)) ++ str "," ++ [NL]
      ++ txt "  `percent_low`: " ++ fmt_d low ++ str "," ++ [NL]
      ++ txt "  `percent_high`: " ++ fmt_d high ++ str "," ++ [NL]
      ++ txt "  `command`: `" ++ command ++ txt "`," ++ [NL]
      ++ txt "  `date`: `" ++ date ++ txt "`" ++ [NL] ++ str "}" ++ [NL]).

(** The summary printed when the writer is stopped, for "dump-summary". *)
Definition json_summary_file (file : WFile) (st : JsonState) : res JsonState :=
  '(nExecutedLines, nCodeLines, totalExecuted, totalCode) ←
    each_line file (json_line file) (0, 0, js_totalExecuted st, js_totalCode st);
  let percentCovered := if nCodeLines >? 0 then (nExecutedLines, nCodeLines) else js_percent st in
  let out := if js_firstFile st then js_out st else js_out st ++ str "," ++ [NL] in
  Ok (mkJson
        (out ++ txt "    {`file`: `" ++ wf_name file ++ txt "`, `percent_covered`: `"
         ++ percent2 percentCovered.1 percentCovered.2 ++ txt "`}")
        totalExecuted totalCode percentCovered false).

Definition json_onStop (dump_summary : Z) (files : list WFile) : res bytes :=
  if dump_summary =? 0 then Ok []
  else
    st ← res_foldl (λ st f, json_summary_file f st) (mkJson json_start 0 0 (0, 1) true) files;
    let percent := if js_totalCode st >? 0 then (js_totalExecuted st, js_totalCode st) else (0, 1) in
    Ok (js_out st ++ [NL] ++ txt "  ]," ++ [NL]
        ++ txt "  `percent_covered`: `" ++ percent2 percent.1 percent.2 ++ txt "`," ++ [NL]
        ++ txt "  `covered_lines`: " ++ fmt_d (s32 (js_totalExecuted st)) ++ str "," ++ [NL]
        ++ txt "  `total_lines`: " ++ fmt_d (s32 (js_totalCode st)) ++ [NL] ++ str "}" ++ [NL]).
End reports.

(** ** Loops over lines *)

(** An assertion about the lines seen so far holds after the loop. *)
Lemma for_lines_inv {S} (P : Z → S → Prop) count n (body : Z → S → res S) s :
  P n s →
  (∀ i s, n ≤ i < n + Z.of_nat count → P i s → ∃ s', body i s = Ok s' ∧ P (i + 1) s') →
  ∃ s', for_lines count n body s = Ok s' ∧ P (n + Z.of_nat count) s'.
Proof.
  revert n s; induction count as [|count IH]; intros n s Hs Hbody; cbn [for_lines].
  { exists s. split; [done|]. by replace (n + Z.of_nat 0) with n by lia. }
  destruct (Hbody n s) as (s1 & -> & H1); [lia|done|]. cbn.
  destruct (IH (n + 1) s1 H1) as (s' & Hs' & HP).
  { intros i s2 Hi. apply Hbody. lia. }
  exists s'. split; [done|]. by replace (n + Z.of_nat (Datatypes.S count)) with (n + 1 + Z.of_nat count) by lia.
Qed.

(** The lines of a file, and those up to one of them. *)
Definition file_lines (f : WFile) : list Z := seqZ 1 (wf_lastLineNr f - 1).

Lemma each_line_inv {S} (P : list Z → S → Prop) file (body : Z → S → res S) s :
  P [] s →
  (∀ i ls s, 1 ≤ i < wf_lastLineNr file → ls = seqZ 1 (i - 1) → P ls s →
    ∃ s', body i s = Ok s' ∧ P (ls ++ [i]) s') →
  ∃ s', each_line file body s = Ok s' ∧ P (file_lines file) s'.
Proof.
  intros H0 Hbody. unfold each_line, file_lines.
  destruct (for_lines_inv (λ i s, P (seqZ 1 (i - 1)) s) (Z.to_nat (wf_lastLineNr file - 1)) 1 body s)
    as (s' & Hs' & HP); [done| |].
  - intros i s1 Hi HP. destruct (Hbody i (seqZ 1 (i - 1)) s1) as (s2 & H1 & H2); [lia|done|done|].
    exists s2. split; [done|].
    replace (i + 1 - 1) with (i - 1 + 1) by lia. rewrite seqZ_app by lia.
    replace (1 + (i - 1)) with i by lia. rewrite (seqZ_cons i 1) by lia.
    by rewrite (seqZ_nil (Z.succ i) (Z.pred 1)) by lia.
  - exists s'. split; [done|].
    destruct (Z.le_gt_cases 1 (wf_lastLineNr file)).
    + by replace (wf_lastLineNr file - 1) with (1 + Z.of_nat (Z.to_nat (wf_lastLineNr file - 1)) - 1) by lia.
    + rewrite seqZ_nil by lia. rewrite seqZ_nil in HP by lia. done.
Qed.

Section agreement.
Context {R : Type} `{!IReporter R} (rep : R) (hits : PossibleHits).
Context (rate3 percent2 : Z → Z → bytes).
Context (code : bytes → Z → bool) (cnt : bytes → Z → LineExecutionCount).

(** What the reporter answers about the lines of a file. *)
Definition answers (file : WFile) : Prop :=
  ∀ n, 1 ≤ n < wf_lastLineNr file →
    rep_lineIsCode rep (wf_name file) n = Ok (code (wf_name file) n) ∧
    rep_getLineExecutionCount rep (wf_name file) n = Ok (cnt (wf_name file) n).

Definition executed (name : bytes) (n : Z) : bool := code name n && negb (lc_hits (cnt name n) =? 0).

Definition code_lines (f : WFile) : nat := count_if (code (wf_name f)) (file_lines f).
Definition executed_lines (f : WFile) : nat := count_if (executed (wf_name f)) (file_lines f).

Lemma was_hit_executed name n : code name n = true →
  was_hit (cnt name n) = if executed name n then 1 else 0.
Proof. unfold was_hit, executed. intros ->. by destruct (lc_hits (cnt name n) =? 0). Qed.

Lemma count_if_snoc {A} (p : A → bool) l x :
  count_if p (l ++ [x]) = (count_if p l + if p x then 1 else 0)%nat.
Proof. rewrite count_if_app. cbn. by destruct (p x). Qed.

Lemma executed_le_code name ls : (count_if (executed name) ls ≤ count_if (code name) ls)%nat.
Proof. apply count_if_mono. unfold executed. by intros x _ [? _]%andb_true_iff. Qed.

(** *** The counts *)

Lemma sumOne_ok f :
  answers f → wf_lastLineNr f < 2 ^ 32 → wf_codeLines f = 0 → wf_executedLines f = 0 →
  sumOne rep f = Ok (set_counts (Z.of_nat (executed_lines f)) (Z.of_nat (code_lines f)) f).
Proof.
  intros Ha Hlast Hc He. unfold sumOne.
  destruct (each_line_inv (λ ls '(ex, cd, g),
      ex = Z.of_nat (count_if (executed (wf_name f)) ls) ∧
      cd = Z.of_nat (count_if (code (wf_name f)) ls) ∧ g = set_counts ex cd f) f
      (sum_line rep f) (0, 0, f)) as ([[ex cd] g] & -> & -> & -> & ->).
  - split_and!; [done..|]. destruct f; cbn in *; by subst.
  - intros i ls [[ex cd] g] Hi -> (-> & -> & ->).
    destruct (Ha i Hi) as [H1 H2]. unfold sum_line. rewrite H1. cbn [mbind res_mbind res_bind].
    set (ls := seqZ 1 (i - 1)).
    pose proof (count_if_le (code (wf_name f)) ls) as L1. pose proof (executed_le_code (wf_name f) ls) as L2.
    assert (Hl : Z.of_nat (length ls) < 2 ^ 32) by (unfold ls; rewrite length_seqZ; lia).
    rewrite !count_if_snoc. destruct (code (wf_name f) i) eqn:Ec; cbn [negb].
    + rewrite H2. cbn [mbind res_mbind res_bind]. eexists. split; [done|]. cbn zeta.
      rewrite was_hit_executed by done.
      assert (Z.of_nat (length ls) + 1 < 2 ^ 32) by (unfold ls; rewrite length_seqZ; lia).
      destruct (executed (wf_name f) i); rewrite !uw_small by lia; (split_and!; [lia|lia|done]).
    + eexists. split; [done|].
      assert (executed (wf_name f) i = false) as -> by (unfold executed; by rewrite Ec).
      split_and!; [lia|lia|done].
  - done.
Qed.

Lemma json_counts_ok f tE tC :
  answers f → 0 ≤ tE → 0 ≤ tC → tC + wf_lastLineNr f < 2 ^ 32 → tE + wf_lastLineNr f < 2 ^ 32 →
  each_line f (json_line rep f) (0, 0, tE, tC)
  = Ok (Z.of_nat (executed_lines f), Z.of_nat (code_lines f),
        tE + Z.of_nat (executed_lines f), tC + Z.of_nat (code_lines f)).
Proof.
  intros Ha HE HC Hlast HlastE.
  destruct (each_line_inv (λ ls st,
      st = (Z.of_nat (count_if (executed (wf_name f)) ls), Z.of_nat (count_if (code (wf_name f)) ls),
            tE + Z.of_nat (count_if (executed (wf_name f)) ls),
            tC + Z.of_nat (count_if (code (wf_name f)) ls))) f (json_line rep f) (0, 0, tE, tC))
    as (st & -> & ->); [by rewrite !Z.add_0_r| |done].
  intros i ls st Hi -> ->. destruct (Ha i Hi) as [H1 H2].
  unfold json_line. rewrite H2. cbn [mbind res_mbind res_bind]. rewrite H1. cbn [mbind res_mbind res_bind].
  set (ls := seqZ 1 (i - 1)).
  pose proof (count_if_le (code (wf_name f)) ls) as L1. pose proof (executed_le_code (wf_name f) ls) as L2.
  assert (Hl : Z.of_nat (length ls) + 1 < wf_lastLineNr f) by (unfold ls; rewrite length_seqZ; lia).
  rewrite !count_if_snoc. eexists. split; [done|].
  destruct (code (wf_name f) i) eqn:Ec.
  - rewrite was_hit_executed by done.
    destruct (executed (wf_name f) i); rewrite !uw_small by lia; repeat apply (f_equal2 pair); lia.
  - assert (executed (wf_name f) i = false) as -> by (unfold executed; by rewrite Ec).
    repeat apply (f_equal2 pair); lia.
Qed.
(** *** The totals *)

(** Files as [onLine] made them, about which the reporter answers. *)
Definition reportable (f : WFile) : Prop :=
  answers f ∧ wf_codeLines f = 0 ∧ wf_executedLines f = 0 ∧ 1 ≤ wf_lastLineNr f.

Definition total (count : WFile → nat) (files : list WFile) : Z :=
  Z.of_nat (sum_list_with count files).
Definition lines_of (files : list WFile) : Z := total (λ f, Z.to_nat (wf_lastLineNr f)) files.

Lemma counts_bound f : 1 ≤ wf_lastLineNr f →
  Z.of_nat (executed_lines f) ≤ Z.of_nat (code_lines f) < wf_lastLineNr f.
Proof.
  intros Hl. unfold executed_lines, code_lines.
  pose proof (executed_le_code (wf_name f) (file_lines f)).
  pose proof (count_if_le (code (wf_name f)) (file_lines f)) as Hle. unfold file_lines in Hle at 2.
  rewrite length_seqZ in Hle. lia.
Qed.

Definition summed (f : WFile) : WFile :=
  set_counts (Z.of_nat (executed_lines f)) (Z.of_nat (code_lines f)) f.

Lemma cobertura_totals_ok files : ∀ fs c x,
  Forall reportable files → 0 ≤ x ≤ c → c + lines_of files < 2 ^ 32 →
  res_foldl (λ '(fs, code, executed) f,
    f ← sumOne rep f;
    Ok (fs ++ [f], u32 (code + wf_codeLines f), u32 (executed + wf_executedLines f))) (fs, c, x) files
  = Ok (fs ++ (summed <$> files), c + total code_lines files, x + total executed_lines files).
Proof.
  unfold lines_of, total. induction files as [|f files IH]; intros fs c x Hf Hx Hn; cbn [res_foldl].
  { cbn. by rewrite app_nil_r, !Z.add_0_r. }
  apply Forall_cons in Hf as [(Ha & Hc & He & Hl) Hf]. cbn in Hn.
  pose proof (counts_bound f Hl). rewrite sumOne_ok by (done || lia). cbn [mbind res_mbind res_bind].
  cbn [wf_codeLines wf_executedLines set_counts]. rewrite !uw_small by lia.
  rewrite IH by (done || lia). rewrite fmap_cons, <-app_assoc. cbn.
  f_equal. apply (f_equal2 pair); [apply (f_equal2 pair); [done|lia]|lia].
Qed.

Lemma json_file_ok f st :
  reportable f → 0 ≤ js_totalExecuted st ≤ js_totalCode st →
  js_totalCode st + wf_lastLineNr f < 2 ^ 32 →
  ∃ st', json_file rep percent2 f st = Ok st' ∧
    js_totalCode st' = js_totalCode st + Z.of_nat (code_lines f) ∧
    js_totalExecuted st' = js_totalExecuted st + Z.of_nat (executed_lines f).
Proof.
  intros (Ha & _ & _ & Hl) Hx Hn. unfold json_file.
  rewrite json_counts_ok by (done || lia). cbn [mbind res_mbind res_bind]. by eexists.
Qed.

Lemma json_totals_ok files : ∀ st,
  Forall reportable files → 0 ≤ js_totalExecuted st ≤ js_totalCode st →
  js_totalCode st + lines_of files < 2 ^ 32 →
  ∃ st', res_foldl (λ st f, json_file rep percent2 f st) st files = Ok st' ∧
    js_totalCode st' = js_totalCode st + total code_lines files ∧
    js_totalExecuted st' = js_totalExecuted st + total executed_lines files.
Proof.
  unfold lines_of, total. induction files as [|f files IH]; intros st Hf Hx Hn; cbn [res_foldl].
  { exists st. cbn. split; [done|lia]. }
  apply Forall_cons in Hf as [Hr Hf]. cbn in Hn.
  destruct (json_file_ok f st) as (st1 & -> & E1 & E2); [done|done|lia|]. cbn [mbind res_mbind res_bind].
  destruct Hr as (_ & _ & _ & Hl). pose proof (counts_bound f Hl).
  destruct (IH st1) as (st' & H1 & H2 & H3); [done|lia|lia|].
  exists st'. split; [done|]. cbn. lia.
Qed.

Lemma total_perm (count : WFile → nat) files others :
  others ≡ₚ files → total count others = total count files.
Proof. unfold total. intros Hp. f_equal. induction Hp; cbn; lia. Qed.

Lemma totals_bound files :
  Forall (λ f, 1 ≤ wf_lastLineNr f) files →
  0 ≤ total executed_lines files ≤ total code_lines files ∧ total code_lines files ≤ lines_of files.
Proof.
  unfold lines_of, total. induction 1 as [|f files Hl _ IH]; cbn; [lia|].
  pose proof (counts_bound f Hl). lia.
Qed.

Lemma html_totals files :
  HtmlWriter.total (codes_of code) files = total code_lines files ∧
  HtmlWriter.total (executed_of code cnt) files = total executed_lines files.
Proof.
  unfold total, HtmlWriter.total. induction files as [|f files [IH1 IH2]]; [done|].
  cbn [foldr sum_list_with]. rewrite IH1, IH2, !Nat2Z.inj_add. done.
Qed.

Lemma reportable_page files :
  Forall reportable files → lines_of files < 2 ^ 32 → Forall (page_ready rep code cnt) files.
Proof.
  unfold lines_of, total. induction 1 as [|f files (Ha & Hc & He & Hl) _ IH]; cbn; intros Hn; [constructor|].
  constructor; [|apply IH; lia]. split; [lia|]. split; [done|].
  intros n Hn'. destruct (Ha n Hn') as [H1 H2]. done.
Qed.

(** The entries of the files in the cobertura report. *)
Lemma cobertura_classes_ok fullPaths common files : ∀ out counter,
  Forall reportable files →
  ∃ rest counter', res_foldl (λ '(out, counter) f,
     '(one, counter) ← cobertura_writeOne rep hits rate3 fullPaths common counter f;
     Ok (out ++ one, counter)) (out, counter) (summed <$> files) = Ok (out ++ rest, counter').
Proof.
  induction files as [|f files IH]; intros out counter Hf.
  { exists [], counter. by rewrite app_nil_r. }
  apply Forall_cons in Hf as [(Ha & _) Hf]. rewrite fmap_cons. cbn [res_foldl].
  assert (∃ one counter', cobertura_writeOne rep hits rate3 fullPaths common counter (summed f)
                          = Ok (one, counter')) as (one & counter' & ->).
  { unfold cobertura_writeOne.
    destruct (each_line_inv (λ _ _, True) (summed f) (cobertura_line rep hits (summed f)) [])
      as (lines & -> & _); [done| |].
    - intros i ls o Hi _ _. destruct (Ha i Hi) as [H1 H2]. unfold cobertura_line. cbn [wf_name summed set_counts].
      rewrite H1. cbn [mbind res_mbind res_bind]. destruct (negb _); [by eexists|]. rewrite H2. by eexists.
    - cbn [mbind res_mbind res_bind].
      assert (∃ name, (if fullPaths =? 0 then strip_filename common (wf_name (summed f)) else Ok (wf_name (summed f)))
        = Ok name) as [name ->]; [|by eexists _, _].
      destruct (fullPaths =? 0); [|by eexists]. unfold strip_filename.
      destruct (str_find _ _); [|by eexists]. destruct (Nat.ltb_spec (length common) (length (wf_name (summed f))));
        [|by eexists]. rewrite substr_from_ok by lia. by eexists. }
  cbn [mbind res_mbind res_bind]. destruct (IH (out ++ one) counter' Hf) as (rest & c & ->).
  exists (one ++ rest), c. by rewrite app_assoc.
Qed.

(** The end of the JSON report, which holds the totals. *)
Definition json_footer (low high : Z) (command date : bytes) (codes executed : Z) : bytes :=
  let percent := if codes >? 0 then (executed, codes) else (0, 1) in
  [NL] ++ txt "  ]," ++ [NL]
  ++ txt "  `percent_covered`: `" ++ percent2 percent.1 percent.2 ++ txt "`," ++ [NL]
  ++ txt "  `covered_lines`: " ++ fmt_d (s32 executed) ++ str "," ++ [NL]
  ++ txt "  `total_lines`: " ++ fmt_d (s32 codes) ++ str "," ++ [NL]
  ++ txt "  `percent_low`: " ++ fmt_d low ++ str "," ++ [NL]
  ++ txt "  `percent_high`: " ++ fmt_d high ++ str "," ++ [NL]
  ++ txt "  `command`: `" ++ concat (json_char <$> command) ++ txt "`," ++ [NL]
  ++ txt "  `date`: `" ++ date ++ txt "`" ++ [NL] ++ str "}" ++ [NL].

Lemma json_write_ok low high command date files :
  Forall reportable files → lines_of files < 2 ^ 32 →
  ∃ entries, json_write rep percent2 low high command date files
    = Ok (entries ++ json_footer low high command date (total code_lines files) (total executed_lines files)).
Proof.
  intros Hf Hn. destruct (json_totals_ok files (mkJson json_start 0 0 (0, 1) true))
    as (st & Hst & E1 & E2); [done|cbn; lia|cbn; lia|].
  cbn [js_totalCode js_totalExecuted] in E1, E2. rewrite Z.add_0_l in E1, E2.
  exists (js_out st). unfold json_write. rewrite Hst. cbn [mbind res_mbind res_bind].
  rewrite E1, E2, escape_json_eq. done.
Qed.

Lemma cobertura_write_ok fullPaths common command date counter files :
  Forall reportable files → lines_of files < 2 ^ 32 →
  ∃ rest counter', cobertura_write rep hits rate3 fullPaths common command date counter files
    = Ok (cobertura_header rate3 common command date (total code_lines files) (total executed_lines files) ++ rest,
          counter').
Proof.
  intros Hf Hn. unfold cobertura_write, cobertura_totals. rewrite cobertura_totals_ok by (done || lia).
  cbn [mbind res_mbind res_bind app]. rewrite !Z.add_0_l.
  destruct (cobertura_classes_ok fullPaths common files (cobertura_header rate3 common command date
    (total code_lines files) (total executed_lines files)) counter Hf) as (rest & c & ->).
  cbn [mbind res_mbind res_bind]. rewrite <-app_assoc. by eexists _, _.
Qed.

(** C32: All reports agree: over the same files, with names that start at the root,
    fewer than 2^32 lines together and a reporter that answers for each, [write] of
    the HTML, the cobertura and the JSON writer succeed, each counting for itself, and
    the totals they put into the index of the program, into the header and at the end
    are the numbers of lines that the reporter calls code and executed, whatever the
    order of the files.  Cobertura prints them unsigned, the others as signed. *)
Theorem report_totals_agree (e : endian) (conf : Configuration) (data : HtmlData) (now : bytes)
    (curl_easy_escape : bytes → option bytes) (w : HtmlWriter) (b : WriterBase)
    (dir : option (list DirEntry)) (s : ExecutionSummary) (global : list HtmlCall)
    (low high level fullPaths counter : Z) (command common date : bytes) (files : list WFile) :
  keyAsInt conf (str "low-limit") = Ok low → keyAsInt conf (str "high-limit") = Ok high →
  keyAsInt conf (str "path-strip-level") = Ok level → keyAsString conf (str "command-name") = Ok command →
  can_write e conf data now curl_easy_escape rep w b files dir s global →
  Forall reportable files → lines_of files < 2 ^ 32 →
  let C := total code_lines files in let X := total executed_lines files in
  (∃ calls b' index, html_write e conf data now curl_easy_escape rep w b files dir = Ok (calls, b') ∧
     index_js now w low high command index C X ∈ calls) ∧
  (∃ rest counter', cobertura_write rep hits rate3 fullPaths common command date counter files
     = Ok (cobertura_header rate3 common command date C X ++ rest, counter')) ∧
  (∃ entries, json_write rep percent2 low high command date files
     = Ok (entries ++ json_footer low high command date C X)) ∧
  0 ≤ X ≤ C ∧ C < 2 ^ 32 ∧
  ∀ others, others ≡ₚ files → total code_lines others = C ∧ total executed_lines others = X.
Proof.
  intros Hlow Hhigh Hlevel Hcommand Hcan Hf Hn C X. split_and!.
  - destruct (html_write_ok _ _ _ _ _ _ _ low high level command Hlow Hhigh Hlevel Hcommand _ _ _ _ _ _ _ (reportable_page files Hf Hn) Hcan)
      as (index & db & Hw & _). destruct (html_totals files) as [E1 E2]. rewrite E1, E2 in Hw.
    eexists _, _, index. split; [exact Hw|]. apply elem_of_app. right. apply elem_of_app. left. apply elem_of_cons. left.
    done.
  - by apply cobertura_write_ok.
  - by apply json_write_ok.
  - apply totals_bound, (Forall_impl _ _ _ Hf). by intros f (_ & _ & _ & ?).
  - apply totals_bound, (Forall_impl _ _ _ Hf). by intros f (_ & _ & _ & ?).
  - eapply Z.le_lt_trans; [|exact Hn]. apply totals_bound, (Forall_impl _ _ _ Hf). by intros f (_ & _ & _ & ?).
  - intros others Hp. unfold C, X. by rewrite !(total_perm _ _ _ Hp).
Qed.
(** *** The lines *)

Definition sonarqube_entry (name : bytes) (n : Z) : bytes :=
  tabs 2 ++ txt "<lineToCover lineNumber=`" ++ fmt_d (s32 n) ++ txt "` covered=`"
  ++ (if executed name n then str "true" else str "false") ++ txt "`/>" ++ [NL].
Definition cobertura_hits (name : bytes) (n : Z) : Z :=
  if executed name n && bool_decide (hits = HITS_SINGLE) then 1 else lc_hits (cnt name n).
Definition cobertura_entry (name : bytes) (n : Z) : bytes :=
  tabs 6 ++ txt "<line number=`" ++ fmt_u n ++ txt "` hits=`" ++ fmt_u (cobertura_hits name n)
  ++ txt "`/>" ++ [NL].
Definition codecov_entry (name : bytes) (n : Z) : bytes :=
  txt "      `" ++ fmt_u n ++ txt "`: " ++ hit_score hits (cnt name n).

(** The lines of code of a file, in order. *)
Definition shown_lines (f : WFile) : list Z := filter (λ n, code (wf_name f) n = true) (file_lines f).

Lemma filter_snoc_true {A} (p : A → bool) l x :
  filter (λ n, p n = true) (l ++ [x])
  = filter (λ n, p n = true) l ++ (if p x then [x] else []).
Proof.
  rewrite filter_app. f_equal. rewrite filter_cons, filter_nil. by destruct (p x); case_decide.
Qed.

(** A loop that adds an entry for each line of code. *)
Lemma each_line_entries (body : Z → bytes → res bytes) (entry : Z → bytes) f out :
  (∀ n out, 1 ≤ n < wf_lastLineNr f →
    body n out = Ok (if code (wf_name f) n then out ++ entry n else out)) →
  each_line f body out = Ok (out ++ concat (entry <$> shown_lines f)).
Proof.
  intros Hb. destruct (each_line_inv (λ ls o, o = out ++ concat (entry <$>
    filter (λ n, code (wf_name f) n = true) ls)) f body out) as (o & -> & ->).
  - cbn. by rewrite app_nil_r.
  - intros i ls o Hi _ ->. rewrite Hb by done. eexists. split; [done|].
    rewrite filter_snoc_true. destruct (code (wf_name f) i); [|by rewrite app_nil_r].
    rewrite fmap_app, concat_app. cbn. by rewrite app_nil_r, app_assoc.
  - done.
Qed.

Lemma codecov_lines_ok f : answers f →
  ∃ x c g, each_line f (codecov_line rep hits f) ([], 0, 0, f)
           = Ok (codecov_entry (wf_name f) <$> shown_lines f, x, c, g) ∧ wf_name g = wf_name f.
Proof.
  intros Ha. destruct (each_line_inv (λ ls '(es, x, c, g),
      es = codecov_entry (wf_name f) <$> filter (λ n, code (wf_name f) n = true) ls ∧
      wf_name g = wf_name f) f
      (codecov_line rep hits f) ([], 0, 0, f)) as ([[[es x] c] g] & -> & -> & Hg); [done| |by eexists _, _, _].
  intros i ls [[[es x] c] g] Hi _ (-> & Hg). destruct (Ha i Hi) as [H1 H2].
  unfold codecov_line. rewrite H1. cbn [mbind res_mbind res_bind].
  rewrite filter_snoc_true. destruct (code (wf_name f) i).
  - rewrite H2. cbn [mbind res_mbind res_bind]. eexists. split; [done|].
    by rewrite fmap_app.
  - cbn [mbind res_mbind res_bind]. eexists. split; [done|]. by rewrite app_nil_r.
Qed.

(** The sonarqube, cobertura and codecov reports list the same lines of a
    file - those the reporter calls code, each once and in order - and say of
    each the same: covered exactly when it has a hit. *)
Theorem reports_list_code_lines (f : WFile) (out : bytes) :
  answers f →
  sonarqube_writeOne rep f out
  = Ok (out ++ tabs 1 ++ txt "<file path=`" ++ wf_name f ++ txt "`>" ++ [NL]
        ++ concat (sonarqube_entry (wf_name f) <$> shown_lines f) ++ tabs 1 ++ str "</file>" ++ [NL]) ∧
  each_line f (cobertura_line rep hits f) []
  = Ok (concat (cobertura_entry (wf_name f) <$> shown_lines f)) ∧
  (∃ x c g, each_line f (codecov_line rep hits f) ([], 0, 0, f)
            = Ok (codecov_entry (wf_name f) <$> shown_lines f, x, c, g)) ∧
  ∀ n, n ∈ shown_lines f →
    1 ≤ n < wf_lastLineNr f ∧ code (wf_name f) n = true ∧
    (executed (wf_name f) n = true ↔ lc_hits (cnt (wf_name f) n) ≠ 0) ∧
    (cobertura_hits (wf_name f) n ≠ 0 ↔ executed (wf_name f) n = true).
Proof.
  intros Ha. split_and!.
  - unfold sonarqube_writeOne. rewrite (each_line_entries _ (sonarqube_entry (wf_name f))).
    + cbn [mbind res_mbind res_bind]. by rewrite <-!app_assoc.
    + intros n o Hn. destruct (Ha n Hn) as [H1 H2]. unfold sonarqube_line. rewrite H1.
      cbn [mbind res_mbind res_bind]. destruct (code (wf_name f) n) eqn:Ec; [|done].
      rewrite H2. cbn [negb mbind res_mbind res_bind]. unfold sonarqube_entry, executed. by rewrite Ec.
  - rewrite (each_line_entries _ (cobertura_entry (wf_name f))); [done|].
    intros n o Hn. destruct (Ha n Hn) as [H1 H2]. unfold cobertura_line. rewrite H1.
    cbn [mbind res_mbind res_bind]. destruct (code (wf_name f) n) eqn:Ec; [|done].
    rewrite H2. cbn [negb mbind res_mbind res_bind]. unfold cobertura_entry, cobertura_hits, executed.
    by rewrite Ec.
  - destruct (codecov_lines_ok f Ha) as (x & c & g & Hl & _). by exists x, c, g.
  - intros n [Hc Hn]%list_elem_of_filter. apply elem_of_seqZ in Hn.
    unfold cobertura_hits, executed. rewrite Hc. cbn [andb].
    destruct (Z.eqb_spec (lc_hits (cnt (wf_name f) n)) 0) as [->|]; cbn [negb andb].
    + split_and!; [lia|lia|done|split; done|split; done].
    + split_and!; [lia|lia|done|split; done|]. case_bool_decide; split; done.
Qed.
End agreement.

(** ** Concrete runs *)

(** Two files: the first with two lines of code, one of them hit, the second with
    a comment only. *)
Definition two_files : list WFile :=
  [mkWFile (str "/src/a.c") (str "a.c") [] [] 0 ∅ 0 0 4;
   mkWFile (str "/src/b.c") (str "b.c") [] [] 0 ∅ 0 0 2].
Definition two_code (name : bytes) (n : Z) : bool := bool_decide (name = str "/src/a.c") && (2 <=? n).
Definition two_cnt (name : bytes) (n : Z) : LineExecutionCount :=
  mkCount (if n =? 3 then 5 else 0) 1 1.
Definition two_reporter : IReporter unit := {|
  rep_fileIsIncluded _ _ := true;
  rep_lineIsCode _ name n := Ok (two_code name n);
  rep_getLineExecutionCount _ name n := Ok (two_cnt name n);
  rep_getExecutionSummary _ := Ok (mkSummary 2 1 1);
|}.
Definition show_ratio (a b : Z) : bytes := fmt_u a ++ str "/" ++ fmt_u b.

Lemma two_answers f : @answers unit two_reporter tt two_code two_cnt f.
Proof. intros n _. split; reflexivity. Qed.

Definition two_html : HtmlWriter :=
  new_HtmlWriter HITS_UNLIMITED (str "/out") (str "/out/prog.0001") (str "prog") true.
Definition two_reports (files : list WFile) : res (list HtmlCall * WriterBase) * res (bytes * Z) * res bytes :=
  (@html_write LittleEndian demo_conf demo_data (str "now") (λ s, Some s) unit two_reporter tt two_html
     new_WriterBase files (Some []),
   @cobertura_write unit two_reporter tt HITS_UNLIMITED show_ratio 0 (str "/src") (str "prog") (str "now") 0 files,
   @json_write unit two_reporter tt show_ratio 30 80 (str "prog") (str "now") files).

Lemma report_totals_agree_witness :
  ∃ calls b' index rest counter entries,
    two_reports two_files =
      (Ok (calls, b'), Ok (cobertura_header show_ratio (str "/src") (str "prog") (str "now") 2 1 ++ rest, counter),
       Ok (entries ++ json_footer show_ratio 30 80 (str "prog") (str "now") 2 1)) ∧
    index_js (str "now") two_html 30 80 (str "prog") index 2 1 ∈ calls.
Proof.
  destruct (@report_totals_agree unit two_reporter tt HITS_UNLIMITED show_ratio show_ratio two_code two_cnt
    LittleEndian demo_conf demo_data (str "now") (λ s, Some s) two_html new_WriterBase (Some []) (mkSummary 2 1 1)
    (match @writeGlobalIndex LittleEndian demo_conf demo_data (str "now") (λ s, Some s) two_html (Some [])
     with Ok l => l | _ => [] end)
    30 80 2 0 0 (str "prog") (str "/src") (str "now") two_files) as
    ((calls & b' & index & H1 & H2) & (rest & k & H3) & (entries & H4) & _ & _).
  - reflexivity.
  - reflexivity.
  - reflexivity.
  - reflexivity.
  - split; [do 2 (apply Forall_cons_2; [right; by eexists|]); apply Forall_nil_2|].
    split; [by left|]. split; [reflexivity|]. split; [cbn; lia|]. split; [cbn; lia|].
    vm_compute. reflexivity.
  - apply Forall_cons_2; [|apply Forall_cons_2; [|apply Forall_nil_2]];
      (split; [apply two_answers|]; cbn; lia).
  - by vm_compute.
  - exists calls, b', index, rest, k, entries. unfold two_reports. split; [|exact H2].
    exact (f_equal2 pair (f_equal2 pair H1 H3) H4).
Defined.

Lemma reports_list_code_lines_witness :
  ∃ out, @sonarqube_writeOne unit two_reporter tt (mkWFile (str "/src/a.c") (str "a.c") [] [] 0 ∅ 0 0 4) []
    = Ok out ∧
    contains (txt "<lineToCover lineNumber=`2` covered=`false`/>") out = true ∧
    contains (txt "<lineToCover lineNumber=`3` covered=`true`/>") out = true.
Proof.
  destruct (@reports_list_code_lines unit two_reporter tt HITS_UNLIMITED two_code two_cnt
    (mkWFile (str "/src/a.c") (str "a.c") [] [] 0 ∅ 0 0 4) []) as (H1 & _); [apply two_answers|].
  eexists. split; [exact H1|]. split; by vm_compute.
Defined.

(** ** What the reports get wrong *)

Definition json_entries (r : res bytes) (l : list bytes) : bool :=
  match r with Ok out => forallb (λ s, contains s out) l | _ => false end.

(** A file without code shows the percentage of the file before it in the JSON
    report; a --strip-path that ends with a slash takes a letter of the name, and one
    that is found further inside a name cuts as many characters off its front. *)
Theorem report_slips :
  json_entries (@json_write unit two_reporter tt show_ratio 25 75 (str "prog") [] two_files)
    [txt "{`file`: `/src/a.c`, `percent_covered`: `1/2`, `covered_lines`: `1`, `total_lines`: `2`}";
     txt "{`file`: `/src/b.c`, `percent_covered`: `1/2`, `covered_lines`: `0`, `total_lines`: `0`}"] = true ∧
  strip_filename (str "/src") (str "/src/a.c") = Ok (str "a.c") ∧
  strip_filename (str "/src/") (str "/src/main.c") = Ok (str "ain.c") ∧
  strip_filename (str "/src") (str "/home/src/a.c") = Ok (str "/src/a.c").
Proof. by vm_compute. Qed.
