(* ===== verification/CoverallsWriter.v ===== *)
(** * The coveralls report (src/src/writers/coveralls-writer.cc)

    The lines a command of git prints, the git information made of them, and the
    JSON file of source files and their line counts, which is sent once, after the
    end of the program.  What git prints and what the server answers are arguments. *)
From S2P Require Export Reports.
From S2P Require Import CxxString Utils Configuration SystemEngine.
From stdpp Require Import options.

(** ** Commands *)

(** The loop over the output: pieces of at most 127 characters. *)
Fixpoint run_loop (fuel : nat) (output : bytes) (stdoutLines : list bytes) : option (list bytes) :=
  match fuel with
  | O => None
  | S fuel =>
      if bool_decide (output = []) then Some stdoutLines
      else
        let '(buffer, output) := fgets 127 output in
        let line := c_prefix buffer in
        if bool_decide (line = []) then run_loop fuel output stdoutLines
        else
          let line := if bool_decide (last line = Some NL) then take (length line - 1) line else line in
          run_loop fuel output (stdoutLines ++ [line])
  end.

(** [popen] gives the output of a command, [None] if it fails. *)
Definition run_command (popen : bytes → option bytes) (command : bytes) (stderr_enabled : bool)
  : option (list bytes) :=
  let full_command := if negb stderr_enabled then command ++ str " 2>/dev/null" else command in
  match popen full_command with
  | None => Some []
  | Some output => run_loop (S (length output)) output []
  end.

(** ** What git says *)

(** [m_gitInfo]; the empty map is [None]. *)
Record GitInfo := mkGitInfo {
  gi_commitHash : bytes;
  gi_authorName : bytes;
  gi_authorEmail : bytes;
  gi_committerName : bytes;
  gi_committerEmail : bytes;
  gi_commitMessage : bytes;
  gi_gitBranch : bytes;
  gi_gitRootPath : bytes;
}.

Definition git_log : bytes := str "git log -1 --pretty=format:'%H%n%aN%n%aE%n%cN%n%cE%n%s'".

(** The outer [None]: out of fuel. *)
Definition getGitInfoMap (popen : bytes → option bytes) : option (option GitInfo) :=
  insideWorkTree ← run_command popen (str "git rev-parse --is-inside-work-tree") false;
  if negb (bool_decide (insideWorkTree = [str "true"])) then Some None
  else
    optionalGitInfo ← run_command popen git_log true;
    optionalGitBranch ← run_command popen (str "git rev-parse --abbrev-ref HEAD") true;
    optionalGitRootPath ← run_command popen (str "git rev-parse --show-toplevel") true;
    Some (match optionalGitInfo with
          | [h; an; ae; cn; ce; s] =>
              Some (mkGitInfo h an ae cn ce s (default [] (head optionalGitBranch))
                      (default [] (head optionalGitRootPath)))
          | _ => None
          end).

(** ** The connection *)

(** [m_writtenData] after the pieces that curl hands over. *)
Definition curlWritefunc (ptr : bytes) (m_writtenData : bytes) : Z * bytes :=
  (Z.of_nat (length ptr), m_writtenData ++ ptr).
Definition curlWriteFuncStatic (ptr : bytes) (priv : option bytes) : Z * option bytes :=
  match priv with
  | None => (0, None)
  | Some d => let '(n, d) := curlWritefunc ptr d in (n, Some d)
  end.

(** [talk]: [perform] is whether curl succeeds, and the pieces of the answer. *)
Definition talk (perform : bool * list bytes) : bool :=
  let m_writtenData := foldl (λ d p, (curlWritefunc p d).2) [] perform.2 in
  if negb perform.1 then false else contains (str "Job #") m_writtenData.

(** ** The writer *)

Inductive CoverallsCall :=
  | CvFile (path content : bytes)
  | CvConnect
  | CvTalk (path : bytes).

Record CoverallsWriter := mkCoverallsWriter {
  cw_doWrite : bool;
  cw_gitInfo : option GitInfo;
  cw_base : WriterBase;
  cw_curl : bool;                              (* [g_curl] *)
}.
Definition new_CoverallsWriter (g_curl : bool) : CoverallsWriter :=
  mkCoverallsWriter false None new_WriterBase g_curl.

Definition coveralls_onStartup (git : option GitInfo) (w : CoverallsWriter) : CoverallsWriter :=
  mkCoverallsWriter (cw_doWrite w) git (cw_base w) (cw_curl w).
Definition coveralls_onStop (w : CoverallsWriter) : CoverallsWriter :=
  mkCoverallsWriter true (cw_gitInfo w) (cw_base w) (cw_curl w).

Definition isRepoToken (s : bytes) : bool := bool_decide (32 ≤ length s)%nat.

Definition coveralls_git (m_gitInfo : option GitInfo) : bytes :=
  match m_gitInfo with
  | None => []
  | Some g =>
      txt " `git`: {" ++ [NL] ++ txt "  `head`: {" ++ [NL]
        ++ txt "   `id`: `" ++ gi_commitHash g ++ txt "`," ++ [NL]
        ++ txt "   `author_name`: `" ++ gi_authorName g ++ txt "`," ++ [NL]
        ++ txt "   `author_email`: `" ++ gi_authorEmail g ++ txt "`," ++ [NL]
        ++ txt "   `committer_name`: `" ++ gi_committerName g ++ txt "`," ++ [NL]
        ++ txt "   `committer_email`: `" ++ gi_committerEmail g ++ txt "`," ++ [NL]
        ++ txt "   `message`: `" ++ gi_commitMessage g ++ txt "`" ++ [NL]
        ++ str "  }," ++ [NL]
        ++ txt "  `branch`: `" ++ gi_gitBranch g ++ txt "`" ++ [NL] ++ str " }," ++ [NL]
  end.

Section coveralls.
Context (conf : Configuration) {R : Type} `{!IReporter R} (rep : R).

Definition coveralls_line (file : WFile) (n : Z) (out : bytes) : res bytes :=
  code ← rep_lineIsCode rep (wf_name file) n;
  out ← (if negb (code : bool) then Ok (out ++ str "null")
         else cnt ← rep_getLineExecutionCount rep (wf_name file) n; Ok (out ++ fmt_u (lc_hits cnt)));
  Ok (if negb (n =? u32 (wf_lastLineNr file - 1)) then out ++ str "," else out).

(** The name without the path to strip. *)
Definition coveralls_name (strip_path : bytes) (file : WFile) : res bytes :=
  if bool_decide (take (length strip_path) (wf_name file) = strip_path)
  then substr_from (wf_name file) (length strip_path)
  else Ok (wf_fileName file).

Definition coveralls_file (strip_path : bytes) (st : bytes * Z) (file : WFile) : res (bytes * Z) :=
  let '(out, filesLeft) := st in
  fileName ← coveralls_name strip_path file;
  name ← escape_json fileName;
  out ← each_line file (coveralls_line file)
          (out ++ str "  {" ++ [NL] ++ txt "   `name`: `" ++ name ++ txt "`," ++ [NL]
             ++ txt "   `source_digest`: `0x" ++ fmt_08x (wf_crc file) ++ txt "`," ++ [NL]
             ++ txt "   `coverage`: [");
  let out := out ++ str "]" ++ [NL] in
  let filesLeft := u32 (filesLeft - 1) in
  Ok ((if filesLeft >? 0 then out ++ str "  }," ++ [NL] else out ++ str "  }" ++ [NL]), filesLeft).

(** The path to strip: the option, or the common path; and that of the work tree
    before both. *)
Definition coveralls_strip (strip_option : bytes) (m_commonPath : bytes) (m_gitInfo : option GitInfo) : bytes :=
  match m_gitInfo with
  | Some g =>
      if bool_decide (gi_gitRootPath g ≠ []) then gi_gitRootPath g ++ str "/"
      else if bool_decide (length strip_option = 0%nat) then m_commonPath ++ str "/" else strip_option
  | None => if bool_decide (length strip_option = 0%nat) then m_commonPath ++ str "/" else strip_option
  end.

(** [write]: the files in the order of the map; [is_open]: the file can be written. *)
Definition coveralls_write (files : list WFile) (is_open : bool) (w : CoverallsWriter)
  : res (list CoverallsCall * CoverallsWriter) :=
  if negb (cw_doWrite w) then Ok ([], w)
  else
    id ← keyAsString conf (str "coveralls-id");
    if bool_decide (id = []) then Ok ([], w)
    else
      dir ← keyAsString conf (str "target-directory");
      let outFile := dir ++ str "/coveralls.out" in
      if negb is_open then Ok ([], w)
      else
        who ← (if isRepoToken id then Ok (txt " `repo_token`: `" ++ id ++ txt "`," ++ [NL])
               else
                 service ← keyAsString conf (str "coveralls-service-name");
                 Ok (txt " `service_name`: `" ++ service ++ txt "`," ++ [NL]
                       ++ txt " `service_job_id`: `" ++ id ++ txt "`," ++ [NL]));
        strip_option ← keyAsString conf (str "strip-path");
        let names := wf_name <$> files in
        let b := setupCommonPaths names (cw_base w) in
        let b := if bool_decide (length strip_option = 0%nat) then setupCommonPaths names b else b in
        let strip_path := coveralls_strip strip_option (wb_commonPath b) (cw_gitInfo w) in
        '(out, _) ← res_foldl (coveralls_file strip_path)
          (str "{" ++ [NL] ++ who ++ coveralls_git (cw_gitInfo w) ++ txt " `source_files`: [" ++ [NL],
           Z.of_nat (length files)) files;
        let out := out ++ str " ]" ++ [NL] ++ str "}" ++ [NL] in
        Ok ([CvFile outFile out] ++ (if cw_curl w then [] else [CvConnect])
              ++ (if bool_decide (id ≠ str "dry-run") then [CvTalk outFile] else []),
            mkCoverallsWriter (cw_doWrite w) (cw_gitInfo w) b true).
End coveralls.

(** ** Properties *)

(** *** Reading the output of a command *)

(** A line that one piece of the buffer holds. *)
Definition short_line (l : bytes) : Prop := NL ∉ l ∧ no_nul l ∧ (length l ≤ 126)%nat.
Definition as_output (lines : list bytes) : bytes := concat ((λ l, l ++ [NL]) <$> lines).

Lemma fgets_shorter n b : (0 < n)%nat → b ≠ [] → (length (fgets n b).2 < length b)%nat.
Proof.
  assert (∀ n b, (length (fgets n b).2 ≤ length b)%nat) as Hle.
  { clear. induction n as [|n IH]; intros [|c b]; cbn; try lia. case_bool_decide; cbn; [lia|].
    specialize (IH b). destruct (fgets n b). cbn in *. lia. }
  intros Hn Hb. destruct n as [|n]; [lia|]. destruct b as [|c b]; [done|]. cbn.
  case_bool_decide; cbn; [lia|]. specialize (Hle n b). destruct (fgets n b). cbn in *. lia.
Qed.

Lemma run_loop_total fuel : ∀ output acc,
  (length output < fuel)%nat → ∃ lines, run_loop fuel output acc = Some lines.
Proof.
  induction fuel as [|fuel IH]; intros output acc Hf; [lia|]. cbn [run_loop].
  case_bool_decide as He; [by eexists|].
  pose proof (fgets_shorter 127 output ltac:(lia) He) as Hs.
  destruct (fgets 127 output) as [buffer rest]. cbn [snd] in Hs.
  case_bool_decide; apply IH; lia.
Qed.

Lemma run_loop_lines fuel lines : ∀ acc,
  Forall short_line lines → (length (as_output lines) < fuel)%nat →
  run_loop fuel (as_output lines) acc = Some (acc ++ lines).
Proof.
  revert fuel. induction lines as [|l lines IH]; intros [|fuel] acc Hl Hf; [lia| |lia|].
  { cbn. by rewrite app_nil_r. }
  apply Forall_cons in Hl as [(Hnl & Hnul & Hlen) Hl].
  unfold as_output in *. cbn [fmap list_fmap concat] in *. rewrite !length_app in Hf. cbn in Hf.
  cbn [run_loop]. rewrite bool_decide_eq_false_2 by (by destruct l). rewrite <-app_assoc.
  assert (Hg : fgets 127 (l ++ [NL] ++ concat ((λ l, l ++ [NL]) <$> lines))
    = (l ++ [NL], concat ((λ l, l ++ [NL]) <$> lines))) by (apply (fgets_line 127); [lia|done]).
  rewrite Hg. cbn beta iota.
  rewrite c_prefix_no_nul by (by intros [?|?%list_elem_of_singleton]%elem_of_app).
  rewrite bool_decide_eq_false_2 by (by destruct l).
  rewrite bool_decide_eq_true_2 by (by rewrite last_snoc).
  rewrite length_app. cbn [length]. rewrite Nat.add_sub, take_app_length.
  rewrite IH by (done || lia). by rewrite <-app_assoc.
Qed.

(** A command's short lines are read as they are. *)
Lemma run_command_lines popen command lines :
  popen command = Some (as_output lines) → Forall short_line lines →
  run_command popen command true = Some lines.
Proof. intros Hp Hl. unfold run_command. cbn [negb]. rewrite Hp. by rewrite run_loop_lines by (done || lia). Qed.

(** In a work tree whose facts are no longer than a piece of the buffer, the
    git information is what git says, each fact in its place. *)
Theorem git_info_read (popen : bytes → option bytes) (g : GitInfo) :
  Forall short_line [gi_commitHash g; gi_authorName g; gi_authorEmail g; gi_committerName g;
                     gi_committerEmail g; gi_commitMessage g; gi_gitBranch g; gi_gitRootPath g] →
  popen (str "git rev-parse --is-inside-work-tree 2>/dev/null") = Some (as_output [str "true"]) →
  popen git_log = Some (as_output [gi_commitHash g; gi_authorName g; gi_authorEmail g; gi_committerName g;
                                   gi_committerEmail g; gi_commitMessage g]) →
  popen (str "git rev-parse --abbrev-ref HEAD") = Some (as_output [gi_gitBranch g]) →
  popen (str "git rev-parse --show-toplevel") = Some (as_output [gi_gitRootPath g]) →
  getGitInfoMap popen = Some (Some g).
Proof.
  intros Hl H1 H2 H3 H4. unfold getGitInfoMap.
  repeat apply Forall_cons in Hl as [? Hl].
  assert (run_command popen (str "git rev-parse --is-inside-work-tree") false = Some [str "true"]) as ->.
  { unfold run_command. cbn [negb]. change (str "git rev-parse --is-inside-work-tree" ++ str " 2>/dev/null")
      with (str "git rev-parse --is-inside-work-tree 2>/dev/null"). rewrite H1. by vm_compute. }
  rewrite (run_command_lines popen git_log _ H2) by (repeat apply Forall_cons_2; done).
  rewrite (run_command_lines popen _ _ H3) by (repeat apply Forall_cons_2; done).
  rewrite (run_command_lines popen _ _ H4) by (repeat apply Forall_cons_2; done). by destruct g.
Qed.

(** Whatever the commands print, the information is read in the end. *)
Lemma run_command_total popen command err : ∃ lines, run_command popen command err = Some lines.
Proof.
  unfold run_command. destruct (popen _) as [output|]; [|by eexists]. apply run_loop_total. lia.
Qed.
Lemma git_info_total popen : ∃ g, getGitInfoMap popen = Some g.
Proof.
  unfold getGitInfoMap.
  destruct (run_command_total popen (str "git rev-parse --is-inside-work-tree") false) as [l1 ->].
  destruct (run_command_total popen git_log true) as [l2 ->].
  destruct (run_command_total popen (str "git rev-parse --abbrev-ref HEAD") true) as [l3 ->].
  destruct (run_command_total popen (str "git rev-parse --show-toplevel") true) as [l4 ->].
  cbn. case_match; by eexists.
Qed.

(** *** The file *)

Section report.
Context (conf : Configuration) {R : Type} `{!IReporter R} (rep : R).
Context (code : bytes → Z → bool) (cnt : bytes → Z → LineExecutionCount).

Definition coverage_entry (name : bytes) (n : Z) : bytes :=
  if code name n then fmt_u (lc_hits (cnt name n)) else str "null".
(** The entries of all lines, with commas between them. *)
Definition coverage_of (f : WFile) : bytes :=
  join ","%char (coverage_entry (wf_name f) <$> file_lines f).

Lemma commas_between (e : Z → bytes) k : ∀ n,
  concat ((λ i, e i ++ (if i =? n + Z.of_nat k - 1 then [] else str ",")) <$> seqZ n (Z.of_nat k))
    = join ","%char (e <$> seqZ n (Z.of_nat k)).
Proof.
  induction k as [|k IH]; intros n; [done|].
  rewrite seqZ_cons by lia. replace (Z.pred (Z.of_nat (S k))) with (Z.of_nat k) by lia.
  change (Z.succ n) with (n + 1). specialize (IH (n + 1)). destruct k as [|k].
  { cbn. destruct (Z.eqb_spec n (n + Z.of_nat 1 - 1)); [by rewrite !app_nil_r|lia]. }
  rewrite seqZ_cons in IH |- * by lia. cbn [fmap list_fmap] in IH |- *. rewrite join_cons.
  rewrite <-IH. clear IH. cbn [concat].
  destruct (Z.eqb_spec n (n + Z.of_nat (S (S k)) - 1)); [lia|].
  replace (n + 1 + Z.of_nat (S k) - 1) with (n + Z.of_nat (S (S k)) - 1) by lia.
  by rewrite <-!app_assoc.
Qed.

Lemma coveralls_lines_ok f out :
  answers rep code cnt f → 1 ≤ wf_lastLineNr f < 2 ^ 32 →
  each_line f (coveralls_line rep f) out = Ok (out ++ coverage_of f).
Proof.
  intros Ha Hl.
  destruct (each_line_inv (λ ls o, o = out ++ concat ((λ i, coverage_entry (wf_name f) i ++
      (if i =? wf_lastLineNr f - 1 then [] else str ",")) <$> ls)) f (coveralls_line rep f) out)
    as (o & -> & ->).
  - cbn. by rewrite app_nil_r.
  - intros i ls o Hi _ ->. destruct (Ha i Hi) as [H1 H2]. unfold coveralls_line, coverage_entry.
    rewrite H1, (uw_small 32) by lia. rewrite fmap_app, concat_app. cbn [mbind res_mbind res_bind].
    destruct (code (wf_name f) i) eqn:Hc; [rewrite H2|]; cbn [negb mbind res_mbind res_bind];
      (eexists; split; [reflexivity|]); cbn [fmap list_fmap concat]; rewrite Hc; destruct (i =? _); cbn [fmap list_fmap concat]; rewrite ?app_nil_r, <-?app_assoc; reflexivity.
  - unfold coverage_of, file_lines. pose proof (commas_between (coverage_entry (wf_name f))
      (Z.to_nat (wf_lastLineNr f - 1)) 1) as Hj. rewrite Z2Nat.id in Hj by lia. rewrite <-Hj.
    by replace (1 + (wf_lastLineNr f - 1) - 1) with (wf_lastLineNr f - 1) by lia.
Qed.

(** What stands in the file for a source file under the name [shown]. *)
Definition source_file (f : WFile) (shown : bytes) : bytes :=
  str "  {" ++ [NL] ++ txt "   `name`: `" ++ concat (json_char <$> shown) ++ txt "`," ++ [NL]
    ++ txt "   `source_digest`: `0x" ++ fmt_08x (wf_crc f) ++ txt "`," ++ [NL]
    ++ txt "   `coverage`: [" ++ coverage_of f ++ str "]" ++ [NL].
(** The objects of all files: a comma after each but the last. *)
Fixpoint source_files (objects : list bytes) : bytes :=
  match objects with
  | [] => []
  | [o] => o ++ str "  }" ++ [NL]
  | o :: objects => o ++ str "  }," ++ [NL] ++ source_files objects
  end.

(** The name of a file is what follows the path to strip, or the bare name of a
    file that lies elsewhere. *)
Definition stripped (strip_path : bytes) (f : WFile) (shown : bytes) : Prop :=
  wf_name f = strip_path ++ shown ∨
  (¬ strip_path `prefix_of` wf_name f ∧ shown = wf_fileName f).

Lemma coveralls_name_ok strip_path f :
  ∃ shown, coveralls_name strip_path f = Ok shown ∧ stripped strip_path f shown.
Proof.
  unfold coveralls_name, stripped. case_bool_decide as H.
  - exists (drop (length strip_path) (wf_name f)).
    assert (wf_name f = strip_path ++ drop (length strip_path) (wf_name f)) as E
      by (by rewrite <-H at 1; rewrite take_drop).
    rewrite substr_from_ok; [split; [done|by left]|]. apply (f_equal length) in E.
    rewrite length_app in E. lia.
  - eexists. split; [done|]. right. split; [|done]. intros [r Hr]. apply H.
    by rewrite Hr, take_app_length.
Qed.

Lemma coveralls_files_ok strip_path files : ∀ out,
  Forall (λ f, answers rep code cnt f ∧ 1 ≤ wf_lastLineNr f < 2 ^ 32) files →
  Z.of_nat (length files) < 2 ^ 32 →
  ∃ shown, res_foldl (coveralls_file rep strip_path) (out, Z.of_nat (length files)) files
      = Ok (out ++ source_files (zip_with source_file files shown), 0) ∧
    Forall2 (stripped strip_path) files shown.
Proof.
  induction files as [|f files IH]; intros out Hf Hlen.
  { exists []. cbn. by rewrite app_nil_r. }
  apply Forall_cons in Hf as [(Ha & Hl) Hf]. cbn [length] in Hlen |- *.
  destruct (coveralls_name_ok strip_path f) as (name & Hn & Hs).
  cbn [res_foldl]. unfold coveralls_file at 2. rewrite Hn. cbn [mbind res_mbind res_bind].
  rewrite escape_json_eq. cbn [mbind res_mbind res_bind].
  rewrite coveralls_lines_ok by done. cbn [mbind res_mbind res_bind].
  rewrite uw_small by lia. replace (Z.of_nat (S (length files)) - 1) with (Z.of_nat (length files)) by lia.
  match goal with |- context [res_foldl _ (?o, _) files] =>
    destruct (IH o Hf ltac:(lia)) as (shown & Hr & HF) end.
  exists (name :: shown). split; [|by constructor]. rewrite Hr. f_equal. f_equal.
  cbn [zip_with]. destruct files as [|f' files].
  - cbn [length Z.of_nat Z.gtb Z.compare zip_with source_files]. unfold source_file.
    by rewrite <-!app_assoc, app_nil_r.
  - inversion HF; subst. cbn [length zip_with source_files].
    destruct (Z.gtb_spec (Z.of_nat (S (length files))) 0); [|lia]. unfold source_file.
    by rewrite <-!app_assoc.
Qed.

Context (id service dir strip_option : bytes).
Context (Hid : keyAsString conf (str "coveralls-id") = Ok id).
Context (Hservice : keyAsString conf (str "coveralls-service-name") = Ok service).
Context (Hdir : keyAsString conf (str "target-directory") = Ok dir).
Context (Hstrip : keyAsString conf (str "strip-path") = Ok strip_option).

Definition coveralls_identity : bytes :=
  if isRepoToken id then txt " `repo_token`: `" ++ id ++ txt "`," ++ [NL]
  else txt " `service_name`: `" ++ service ++ txt "`," ++ [NL] ++ txt " `service_job_id`: `" ++ id ++ txt "`," ++ [NL].

(** C16: Before the end of the program, without an identity, or when the file can not
    be written, nothing is written or sent.  At the end, with an identity, the report
    holds an object per source file, in order and separated by commas, with the count
    of each line of code and null for every other line, and is sent once unless the
    run is dry. *)
Theorem coveralls_report (files : list WFile) (git : option GitInfo) (w : CoverallsWriter) :
  Forall (λ f, answers rep code cnt f ∧ 1 ≤ wf_lastLineNr f < 2 ^ 32) files →
  Z.of_nat (length files) < 2 ^ 32 →
  (∀ w' is_open, cw_doWrite w' = false ∨ id = [] ∨ is_open = false →
     coveralls_write conf rep files is_open w' = Ok ([], w')) ∧
  (id ≠ [] → ∃ b shown,
    coveralls_write conf rep files true (coveralls_onStop (coveralls_onStartup git w)) =
      Ok ([CvFile (dir ++ str "/coveralls.out")
             (str "{" ++ [NL] ++ coveralls_identity ++ coveralls_git git ++ txt " `source_files`: [" ++ [NL]
                ++ source_files (zip_with source_file files shown) ++ str " ]" ++ [NL] ++ str "}" ++ [NL])]
            ++ (if cw_curl w then [] else [CvConnect])
            ++ (if bool_decide (id ≠ str "dry-run") then [CvTalk (dir ++ str "/coveralls.out")] else []),
          mkCoverallsWriter true git b true) ∧
    Forall2 (stripped (coveralls_strip strip_option (wb_commonPath b) git)) files shown).
Proof using Hid Hservice Hdir Hstrip.
  intros Hf Hlen. split.
  { intros w' is_open Hno. unfold coveralls_write. destruct (cw_doWrite w'); [|done]. cbn [negb].
    rewrite Hid. cbn [mbind res_mbind res_bind]. case_bool_decide; [done|].
    rewrite Hdir. destruct Hno as [? | [? | ->]]; done. }
  intros Hne. unfold coveralls_write. cbn [coveralls_onStartup coveralls_onStop cw_doWrite cw_gitInfo cw_base cw_curl negb].
  rewrite Hid. cbn [mbind res_mbind res_bind]. rewrite (bool_decide_eq_false_2 (id = [])) by done.
  rewrite Hdir. cbn [mbind res_mbind res_bind].
  assert ((if isRepoToken id then Ok (txt " `repo_token`: `" ++ id ++ txt "`," ++ [NL])
           else service ← keyAsString conf (str "coveralls-service-name");
                Ok (txt " `service_name`: `" ++ service ++ txt "`," ++ [NL]
                      ++ txt " `service_job_id`: `" ++ id ++ txt "`," ++ [NL])) = Ok coveralls_identity) as ->.
  { unfold coveralls_identity. rewrite Hservice. by destruct (isRepoToken id). }
  cbn [mbind res_mbind res_bind]. rewrite Hstrip. cbn [mbind res_mbind res_bind].
  match goal with |- context [coveralls_strip strip_option (wb_commonPath ?b0) git] => set (b := b0) end.
  destruct (coveralls_files_ok (coveralls_strip strip_option (wb_commonPath b) git) files
    (str "{" ++ [NL] ++ coveralls_identity ++ coveralls_git git ++ txt " `source_files`: [" ++ [NL]) Hf Hlen)
    as (shown & Hr & HF).
  exists b, shown. split; [|done]. rewrite Hr. cbn [mbind res_mbind res_bind]. by rewrite <-!app_assoc.
Qed.
End report.

(** ** Concrete runs *)

Definition demo_git (subject : bytes) (command : bytes) : option bytes :=
  if bool_decide (command = git_log)
  then Some (as_output [str "c0ffee"; str "A. Uthor"; str "a@x.org"; str "C. Ommitter"; str "c@x.org"; subject])
  else if bool_decide (command = str "git rev-parse --abbrev-ref HEAD") then Some (as_output [str "master"])
  else if bool_decide (command = str "git rev-parse --show-toplevel") then Some (as_output [str "/src"])
  else Some (as_output [str "true"]).
Definition demo_info (subject : bytes) : GitInfo :=
  mkGitInfo (str "c0ffee") (str "A. Uthor") (str "a@x.org") (str "C. Ommitter") (str "c@x.org") subject
    (str "master") (str "/src").

Lemma git_info_read_witness : getGitInfoMap (demo_git (str "Fix it")) = Some (Some (demo_info (str "Fix it"))).
Proof.
  apply (git_info_read (demo_git (str "Fix it")) (demo_info (str "Fix it"))); [|reflexivity..].
  repeat (apply Forall_cons_2; [split; [|split]; [apply (bool_decide_unpack _); vm_compute; exact I..|cbn; lia]|]).
  apply Forall_nil_2.
Defined.

(** A configuration with the keys of the writer. *)
Definition coveralls_conf : Configuration :=
  set_keys newConfiguration [(str "coveralls-id", VString (str "1234"));
    (str "coveralls-service-name", VString (str "travis-ci")); (str "target-directory", VString (str "/out/p"));
    (str "strip-path", VString [])].

Lemma coveralls_report_witness :
  ∃ out w, @coveralls_write coveralls_conf unit two_reporter tt two_files true
      (coveralls_onStop (coveralls_onStartup (Some (demo_info (str "Fix it"))) (new_CoverallsWriter false)))
    = Ok ([CvFile (str "/out/p/coveralls.out") out; CvConnect; CvTalk (str "/out/p/coveralls.out")], w) ∧
    contains (txt "`name`: `a.c`") out = true ∧ contains (txt "`coverage`: [null,0,5]") out = true.
Proof.
  destruct (@coveralls_report coveralls_conf unit two_reporter tt two_code two_cnt (str "1234")
    (str "travis-ci") (str "/out/p") [] eq_refl eq_refl eq_refl eq_refl two_files (Some (demo_info (str "Fix it")))
    (new_CoverallsWriter false)) as (_ & H).
  - apply Forall_cons_2; [|apply Forall_cons_2; [|apply Forall_nil_2]]; (split; [apply two_answers|]; cbn; lia).
  - cbn. lia.
  - destruct H as (b & shown & _ & _); [done|].
    eexists _, _. split; [vm_compute; reflexivity|]. split; vm_compute; reflexivity.
Defined.

(** A commit whose subject is longer than a piece of the buffer makes seven lines
    of the six, and all git information is dropped.  The facts are put into the
    JSON file as they are, so that a quote in a subject ends its string. *)
Theorem coveralls_slips :
  getGitInfoMap (demo_git (replicate 127 "x"%char)) = Some None ∧
  contains (txt "   `message`: `Revert `fix``")
    (coveralls_git (Some (demo_info (txt "Revert `fix`")))) = true.
Proof. split; vm_compute; reflexivity. Qed.
