(* ===== verification/Disassembler.v ===== *)
(** * The disassembler (src/src/parsers/bfd-disassembler.cc, dummy-disassembler.cc)

    kcov disassembles the text of a program to see whether an address the debug
    information gives is one where an instruction starts ([verify]), and can
    divide the text into basic blocks ([getBasicBlock]).  libopcodes is the
    parameter [print_insn]: the number of bytes of the instruction at an offset
    of a section (0 or negative when there is none) and the strings it printed.

    The [std::map]s are finite maps iterated over in the order of their keys.
    [m_orderedInstructions] maps a key to the instruction of the same key in
    [m_instructions], so that its keys are kept.  A block is known by its place
    in [m_bbs]. *)
From stdpp Require Import sorting.
From S2P Require Export Utils.
From stdpp Require Import options.
#[local] Open Scope Z_scope.

(** ** Data *)

Definition BT_INVALID : Z := 0xfffffffffffffffe.

Definition x86BranchInstructions : list bytes := str <$>
  ["ja"; "jae"; "jbe"; "jc"; "je"; "jg"; "jge"; "jl"; "jle"; "jna"; "jnae"; "jnb"; "jnbe"; "jnc";
   "jne"; "jng"; "jnge"; "jnl"; "jnle"; "jno"; "jnp"; "jns"; "jnz"; "jo"; "jp"; "jpe"; "jpo"; "js";
   "jz"; "jczx"; "jezx"; "loop"; "jmp"; "call"; "ret"]%string.

Record Instruction := mkInstruction {
  in_branchTarget : Z;
  in_leader : bool;
  in_bb : option nat;
}.

(** [Instruction(uint64_t branchTarget = 0)] *)
Definition new_Instruction (branchTarget : Z) : Instruction := mkInstruction branchTarget false None.
Definition isBranch (i : Instruction) : bool := negb (in_branchTarget i =? BT_INVALID).
Definition set_leader (i : Instruction) : Instruction :=
  mkInstruction (in_branchTarget i) true (in_bb i).
Definition setBasicBlock (bb : option nat) (i : Instruction) : Instruction :=
  mkInstruction (in_branchTarget i) (in_leader i) bb.

Record Section_ := mkSection {
  sec_data : bytes;
  sec_startAddress : Z;
  sec_disassembled : bool;
}.
Definition getSize (s : Section_) : Z := Z.of_nat (length (sec_data s)).
Definition set_disassembled (s : Section_) : Section_ :=
  mkSection (sec_data s) (sec_startAddress s) true.

Record Disassembler := mkDisassembler {
  d_64bit : bool;
  d_cache : gmap Z Section_;
  d_instructions : gmap Z Instruction;
  d_ordered : gset Z;
  d_bbs : list (option (list Z));
}.
Definition new_Disassembler : Disassembler := mkDisassembler false ∅ ∅ ∅ [].

Definition d_set_cache (c : gmap Z Section_) (d : Disassembler) : Disassembler :=
  mkDisassembler (d_64bit d) c (d_instructions d) (d_ordered d) (d_bbs d).
Definition d_set_instructions (m : gmap Z Instruction) (d : Disassembler) : Disassembler :=
  mkDisassembler (d_64bit d) (d_cache d) m (d_ordered d) (d_bbs d).
Definition d_set_bbs (b : list (option (list Z))) (d : Disassembler) : Disassembler :=
  mkDisassembler (d_64bit d) (d_cache d) (d_instructions d) (d_ordered d) b.

(** The order in which a [std::map] is iterated over. *)
Definition in_order (keys : gset Z) : list Z := merge_sort Z.le (elements keys).

(** [setup(header, headerSize)]: [EI_CLASS] is 4, [ELFCLASS64] is 2. *)
Definition EI_CLASS : nat := 4.
Definition setup (header : bytes) : res Disassembler :=
  match header !! EI_CLASS with
  | None => Panic
  | Some c => Ok (mkDisassembler (byte_val c =? 2) ∅ ∅ ∅ [])
  end.

Definition addSection (data : bytes) (base : Z) (d : Disassembler) : Disassembler :=
  match d_cache d !! base with
  | Some _ => d
  | None => d_set_cache (<[base := mkSection data base false]> (d_cache d)) d
  end.

(** [instructionFactory]: the mask [1 << 31] is an [int], so that it is widened
    with its sign. *)
Definition instructionFactory (pc : Z) (vec : list bytes) : res Instruction :=
  match vec with
  | [] => Ok (new_Instruction 0)
  | name :: operands =>
      match operands with
      | target :: _ =>
          if bool_decide (name ∈ x86BranchInstructions) && string_is_integer target 0 then
            offset ← string_to_integer target 0;
            let offset := if Z.land offset (- 2 ^ 31) =? 0 then offset
                          else s64 (Z.lor offset 0xffffffff00000000) in
            Ok (new_Instruction (u64 (pc + offset)))
          else Ok (new_Instruction BT_INVALID)
      | [] => Ok (new_Instruction BT_INVALID)
      end
  end.

(** [opcodesFprintFuncStatic]: a buffer of 64 characters, of which one is spared
    and one is the terminator; the string is trimmed. *)
Definition opcodesFprintFunc (s : bytes) : bytes := trim_string (take 62 s) trim_default.

Section libopcodes.
Context (print_insn : bool → bytes → Z → Z * list bytes).

(** The loop of [Section::disassemble]. *)
Fixpoint disassemble_loop (fuel : nat) (mach : bool) (s : Section_) (pc : Z)
    (st : gmap Z Instruction * gset Z) : res (gmap Z Instruction * gset Z) :=
  match fuel with
  | O => Ok st
  | S fuel =>
      let '(count, printed) := print_insn mach (sec_data s) pc in
      if count <? 0 then Ok st
      else
        insn ← instructionFactory pc (opcodesFprintFunc <$> printed);
        let key := u64 (pc + sec_startAddress s) in
        let st := (<[key := insn]> st.1, {[key]} ∪ st.2) in
        let pc := u64 (pc + count) in
        if (count >? 0) && (pc <? getSize s) then disassemble_loop fuel mach s pc st else Ok st
  end.

Definition disassemble (base : Z) (s : Section_) (d : Disassembler) : res Disassembler :=
  if sec_disassembled s then Ok d
  else
    '(m, o) ← disassemble_loop (S (length (sec_data s))) (d_64bit d) s 0
                (d_instructions d, d_ordered d);
    Ok (mkDisassembler (d_64bit d) (<[base := set_disassembled s]> (d_cache d)) m o (d_bbs d)).

(** [lookupSection].  [--it] at the first section is undefined, which is where
    an address below all sections, or any address when there are none, leads. *)
Definition lookupSection (address : Z) (d : Disassembler) : res (option (Z * Section_)) :=
  match d_cache d !! address with
  | Some s => Ok (Some (address, s))
  | None =>
      match last (filter (λ k, k < address) (in_order (dom (d_cache d)))) with
      | None => Fault
      | Some base =>
          cur ← or_fault (d_cache d !! base);
          let end_ := u64 (sec_startAddress cur + getSize cur - 1) in
          if address <? sec_startAddress cur then Throw
          else if address >? end_ then Ok None
          else Ok (Some (base, cur))
      end
  end.

Definition verify (address : Z) (d : Disassembler) : res (bool * Disassembler) :=
  p ← lookupSection address d;
  match p with
  | None => Ok (true, d)
  | Some (base, s) =>
      d ← disassemble base s d;
      Ok (bool_decide (is_Some (d_instructions d !! address)), d)
  end.

(** ** Basic blocks *)

(** [m_instructions[address].makeLeader()]: [operator[]] makes an instruction
    where there is none. *)
Definition makeLeader (address : Z) (m : gmap Z Instruction) : gmap Z Instruction :=
  <[address := set_leader (default (new_Instruction 0) (m !! address))]> m.

(** The loop over the pairs of neighbours. *)
Fixpoint mark_leaders (keys : list Z) (m : gmap Z Instruction) : res (gmap Z Instruction) :=
  match keys with
  | cur :: (next :: _) as rest =>
      i ← or_fault (m !! cur);
      let m := if isBranch i then makeLeader next (makeLeader (in_branchTarget i) m) else m in
      mark_leaders rest m
  | _ => Ok m
  end.

(** The loop that creates and fills the blocks, from [m_bbs.push_back(bb)] on;
    [bb] is the current block. *)
Definition place (st : Disassembler * option nat) (key : Z) : res (Disassembler * option nat) :=
  let '(d, bb) := st in
  cur ← or_fault (d_instructions d !! key);
  let '(d, bb) :=
    if in_leader cur then (d_set_bbs (d_bbs d ++ [Some []]) d, Some (length (d_bbs d)))
    else (d, bb) in
  let d := d_set_instructions (<[key := setBasicBlock bb cur]> (d_instructions d)) d in
  b ← or_fault bb;
  block ← or_fault (mjoin (d_bbs d !! b));
  Ok (d_set_bbs (<[b := Some (block ++ [key])]> (d_bbs d)) d, bb).

Definition setupBasicBlocks (d : Disassembler) : res Disassembler :=
  d ← res_foldl (λ d base, s ← or_fault (d_cache d !! base); disassemble base s d) d
        (in_order (dom (d_cache d)));
  match in_order (d_ordered d) with
  | [] => Ok d
  | [only] => Ok (d_set_instructions (makeLeader only (d_instructions d)) d)
  | (first :: _ :: _) as keys =>
      m ← mark_leaders keys (makeLeader first (d_instructions d));
      '(d, _) ← res_foldl place (d_set_bbs (d_bbs d ++ [None]) (d_set_instructions m d), None) keys;
      Ok d
  end.

(** A null pointer is dereferenced when the instruction has no block. *)
Definition getBasicBlock (address : Z) (d : Disassembler) : res (list Z * Disassembler) :=
  d ← (match d_bbs d with [] => setupBasicBlocks d | _ => Ok d end);
  match d_instructions d !! address with
  | None => Ok ([], d)
  | Some i =>
      b ← or_fault (in_bb i);
      block ← or_fault (mjoin (d_bbs d !! b));
      Ok (block, d)
  end.
End libopcodes.

(** ** The disassembler where there is no libbfd *)

Inductive arch := arch_arm | arch_powerpc | arch_other.
Definition dummy_verify (a : arch) (offset : Z) : bool :=
  match a with
  | arch_arm => Z.land offset 1 =? 0
  | arch_powerpc => Z.land offset 3 =? 0
  | arch_other => true
  end.

(** ** Iteration in order *)

Lemma elem_of_in_order s k : k ∈ in_order s ↔ k ∈ s.
Proof. unfold in_order. by rewrite merge_sort_Permutation, elem_of_elements. Qed.

Lemma in_order_sorted s : StronglySorted Z.lt (in_order s).
Proof.
  assert (NoDup (in_order s)) as Hn.
  { unfold in_order. rewrite merge_sort_Permutation. apply NoDup_elements. }
  assert (StronglySorted Z.le (in_order s)) as Hs.
  { apply (StronglySorted_merge_sort Z.le). }
  induction Hs as [|x l Hl IH Hx]; constructor.
  - apply IH. by inversion Hn.
  - apply NoDup_cons in Hn as [Hn _]. rewrite Forall_forall in *.
    intros y Hy. specialize (Hx y Hy). assert (x ≠ y) by by intros ->. lia.
Qed.

Lemma elem_of_concat {A} (x : A) (ls : list (list A)) : x ∈ concat ls ↔ ∃ l, l ∈ ls ∧ x ∈ l.
Proof.
  rewrite list_elem_of_In, in_concat. split; intros (l & H); exists l; by rewrite !list_elem_of_In in *.
Qed.

(** The greatest key below an address. *)
Lemma last_below a s :
  match last (filter (λ k, k < a) (in_order s)) with
  | None => ∀ k, k ∈ s → a ≤ k
  | Some b => b ∈ s ∧ b < a ∧ ∀ k, k ∈ s → k < a → k ≤ b
  end.
Proof.
  assert (∀ k, k ∈ filter (λ k, k < a) (in_order s) ↔ k < a ∧ k ∈ s) as He.
  { intros k. by rewrite list_elem_of_filter, elem_of_in_order. }
  assert (StronglySorted Z.lt (filter (λ k, k < a) (in_order s))) as Hs.
  { generalize (in_order_sorted s). generalize (in_order s). induction 1 as [|x l Hl IH Hx]; [constructor|].
    rewrite filter_cons. case_decide; [|done]. constructor; [done|].
    rewrite Forall_forall in *. intros y [_ Hy]%list_elem_of_filter. by apply Hx. }
  revert He Hs. generalize (filter (λ k, k < a) (in_order s)). intros l He Hs.
  destruct (last l) as [b|] eqn:El.
  - apply last_Some in El as [l' ->].
    assert (b ∈ l' ++ [b]) as Hb by (apply elem_of_app; right; by left).
    apply He in Hb as [? ?]. split_and!; [done|done|].
    intros k Hk Hka. assert (k ∈ l' ++ [b]) as Hin by by apply He.
    apply elem_of_app in Hin as [Hin|Hin%list_elem_of_singleton]; [|lia].
    clear He. induction l' as [|x l' IH]; [by inversion Hin|]. cbn in Hs. inversion Hs as [|?? Hs' Hx]; subst.
    apply elem_of_cons in Hin as [->|Hin].
    + rewrite Forall_forall in Hx. enough (x < b) by lia. apply Hx, elem_of_app. right; by left.
    + by apply IH.
  - apply last_None in El as ->. intros k Hk. destruct (Z.lt_ge_cases k a) as [Hlt|]; [|done].
    assert (k ∈ @nil Z) as Hn by by apply He. by inversion Hn.
Qed.

(** ** Disassembling a section *)

Lemma instructionFactory_ok pc vec :
  ∃ t, instructionFactory pc vec = Ok (new_Instruction t).
Proof.
  unfold instructionFactory. destruct vec as [|name [|target ops]]; [by eauto..|].
  case_bool_decide; cbn [andb]; [|by eauto].
  destruct (string_is_integer target 0) eqn:E; [|by eauto].
  unfold string_is_integer, string_to_integer in *. destruct (stoull target 0); [|done..].
  cbn. by eauto.
Qed.

Section disassembly.
Context (print_insn : bool → bytes → Z → Z * list bytes).

(** From one instruction of a section to the next. *)
Definition next_insn (mach : bool) (data : bytes) (pc pc' : Z) : Prop :=
  0 < (print_insn mach data pc).1 ∧ pc' = pc + (print_insn mach data pc).1
  ∧ pc' < Z.of_nat (length data).

(** The addresses at which the instructions of a section start, when they are
    disassembled from [pc] on. *)
Definition starts_from (mach : bool) (s : Section_) (pc a : Z) : Prop :=
  ∃ q, rtc (next_insn mach (sec_data s)) pc q ∧ 0 ≤ (print_insn mach (sec_data s) q).1 ∧
       a = u64 (q + sec_startAddress s).
Definition insn_starts (mach : bool) (s : Section_) (a : Z) : Prop := starts_from mach s 0 a.

Lemma rtc_next_range mach data pc q :
  rtc (next_insn mach data) pc q → pc ≤ q ∧ (q = pc ∨ q < Z.of_nat (length data)).
Proof. induction 1 as [|x y z (H1 & -> & H3) _ [IH1 IH2]]; [lia|]. lia. Qed.

Lemma starts_from_step mach s pc a :
  starts_from mach s pc a ↔
  (0 ≤ (print_insn mach (sec_data s) pc).1 ∧ a = u64 (pc + sec_startAddress s)) ∨
  (∃ pc', next_insn mach (sec_data s) pc pc' ∧ starts_from mach s pc' a).
Proof.
  split.
  - intros (q & Hq & Hc & ->). apply rtc_inv in Hq as [->|(pc' & Hn & Hq)]; [by left|].
    right. exists pc'. split; [done|]. by exists q.
  - intros [[Hc ->]|(pc' & Hn & q & Hq & Hc & ->)].
    + exists pc. split_and!; [apply rtc_refl|done|done].
    + exists q. split_and!; [by eapply rtc_l|done|done].
Qed.

(** What a run of the loop adds: fresh instructions at the starts, no other. *)
Definition adds (st st' : gmap Z Instruction * gset Z) (new : Z → Prop) : Prop :=
  (∀ a, new a → (∃ t, st'.1 !! a = Some (new_Instruction t)) ∧ a ∈ st'.2) ∧
  (∀ a, st'.1 !! a = st.1 !! a ∨ new a) ∧
  (∀ a, a ∈ st'.2 ↔ a ∈ st.2 ∨ new a).

Lemma adds_nothing st : adds st st (λ _, False).
Proof. split_and!; [done|by left|naive_solver]. Qed.

Lemma adds_insert st key t (new : Z → Prop) st' :
  adds (<[key := new_Instruction t]> st.1, {[key]} ∪ st.2) st' new →
  adds st st' (λ a, a = key ∨ new a).
Proof.
  intros (H1 & H2 & H3). cbn in *. split_and!.
  - intros a [->|Ha]; [|by apply H1]. split.
    + destruct (H2 key) as [->|Hn]; [rewrite lookup_insert_eq; by eauto|by apply H1].
    + apply H3. left. set_solver.
  - intros a. destruct (decide (a = key)) as [->|Hne]; [by right; left|].
    destruct (H2 a) as [E|Hn]; [left; by rewrite E, lookup_insert_ne|by right; right].
  - intros a. rewrite H3. set_solver.
Qed.

Lemma adds_ext st st' (new new' : Z → Prop) : (∀ a, new a ↔ new' a) → adds st st' new → adds st st' new'.
Proof.
  intros E (H1 & H2 & H3). split_and!; intros a.
  - rewrite <-E. apply H1.
  - rewrite <-E. apply H2.
  - rewrite <-E. apply H3.
Qed.

(** The number of bytes is an [int]. *)
Context (count_int : ∀ m data pc, (print_insn m data pc).1 < 2 ^ 31).

(** With fuel for the bytes that are left the loop returns, having gone through
    all instructions. *)
Lemma disassemble_loop_adds fuel mach s pc st :
  0 ≤ pc < 2 ^ 63 → getSize s < 2 ^ 63 → getSize s - pc < Z.of_nat fuel → (0 < fuel)%nat →
  ∃ st', disassemble_loop print_insn fuel mach s pc st = Ok st' ∧
         adds st st' (starts_from mach s pc).
Proof using count_int.
  revert pc st. induction fuel as [|fuel IH]; intros pc st Hpc Hs Hf H0; [lia|].
  cbn [disassemble_loop]. pose proof (count_int mach (sec_data s) pc) as Hc.
  pose proof (starts_from_step mach s pc) as Hstep.
  unfold next_insn in Hstep. fold (getSize s) in Hstep.
  destruct (print_insn mach (sec_data s) pc) as [count printed] eqn:Ep. cbn [fst] in *.
  destruct (Z.ltb_spec count 0).
  { exists st. split; [done|]. eapply adds_ext, adds_nothing. intros a. rewrite Hstep. split; [done|].
    intros [[? _]|(pc' & (? & _) & _)]; lia. }
  destruct (instructionFactory_ok pc (opcodesFprintFunc <$> printed)) as [t ->]. cbn.
  rewrite (uw_small 64 (pc + count)) by lia.
  destruct (Z.gtb_spec count 0); cbn [andb].
  2:{ eexists. split; [done|]. eapply adds_ext, adds_insert, adds_nothing. intros a. rewrite Hstep.
      split; [intros [->|[]]; by left|]. intros [[_ ->]|(pc' & (? & _) & _)]; [by left|lia]. }
  destruct (Z.ltb_spec (pc + count) (getSize s)).
  - destruct (IH (pc + count) (<[u64 (pc + sec_startAddress s) := new_Instruction t]> st.1,
      {[u64 (pc + sec_startAddress s)]} ∪ st.2)) as (st' & -> & Ha); [lia|done|lia|lia|].
    exists st'. split; [done|]. eapply adds_ext, adds_insert, Ha. intros a. rewrite Hstep.
    split; [intros [->|Hn]; [by left|right; by eexists]|].
    intros [[_ ->]|(pc' & (_ & -> & _) & Hn)]; [by left|by right].
  - eexists. split; [done|]. eapply adds_ext, adds_insert, adds_nothing. intros a. rewrite Hstep.
    split; [intros [->|[]]; by left|]. intros [[_ ->]|(pc' & (_ & -> & ?) & _)]; [by left|lia].
Qed.

(** ** The address verifier *)

(** How the parser of ELF files uses it: the sections of one file, which do not
    overlap, are added after [setup], and addresses are verified. *)
Definition fits (data : bytes) (base : Z) (d : Disassembler) : Prop :=
  data ≠ [] ∧ 0 ≤ base ∧ base + Z.of_nat (length data) < 2 ^ 64 ∧ Z.of_nat (length data) < 2 ^ 63 ∧
  ∀ b s, d_cache d !! b = Some s → b ≠ base →
    base + Z.of_nat (length data) ≤ b ∨ b + getSize s ≤ base.

Inductive verifying : Disassembler → Prop :=
  | verifying_setup header d : setup header = Ok d → verifying d
  | verifying_add data base d : verifying d → fits data base d → verifying (addSection data base d)
  | verifying_verify a d b d' : verifying d → verify print_insn a d = Ok (b, d') → verifying d'.

Definition covers (s : Section_) (a : Z) : Prop := sec_startAddress s ≤ a < sec_startAddress s + getSize s.

(** The instructions known are those of the sections disassembled so far. *)
Record verifier_ok (d : Disassembler) : Prop := {
  vo_section : ∀ b s, d_cache d !! b = Some s →
    sec_startAddress s = b ∧ 0 ≤ b ∧ 0 < getSize s ∧ b + getSize s < 2 ^ 64 ∧ getSize s < 2 ^ 63;
  vo_disjoint : ∀ b s b' s' a, d_cache d !! b = Some s → d_cache d !! b' = Some s' →
    covers s a → covers s' a → b = b';
  vo_known : ∀ a, is_Some (d_instructions d !! a) ↔
    ∃ b s, d_cache d !! b = Some s ∧ sec_disassembled s = true ∧
           insn_starts (d_64bit d) s a;
  vo_fresh : ∀ a i, d_instructions d !! a = Some i → ∃ t, i = new_Instruction t;
  vo_ordered : ∀ a, a ∈ d_ordered d ↔ is_Some (d_instructions d !! a);
  vo_bbs : d_bbs d = [];
}.

Lemma insn_starts_covers mach s a :
  0 ≤ sec_startAddress s → 0 < getSize s → sec_startAddress s + getSize s < 2 ^ 64 →
  insn_starts mach s a → covers s a.
Proof.
  intros H0 H1 H2 (q & [Hq1 Hq2]%rtc_next_range & _ & ->). fold (getSize s) in Hq2.
  unfold covers. rewrite uw_small by lia. lia.
Qed.

Lemma disassemble_ok b s d :
  verifier_ok d → d_cache d !! b = Some s →
  ∃ d', disassemble print_insn b s d = Ok d' ∧ verifier_ok d' ∧ d_64bit d' = d_64bit d ∧
    d_cache d' = <[b := set_disassembled s]> (d_cache d).
Proof using count_int.
  intros [V1 V2 V3 V4 V5 V6] Hs. destruct (V1 b s Hs) as (E1 & E2 & E3 & E4 & E5). unfold disassemble.
  destruct (sec_disassembled s) eqn:Ed.
  { exists d. split_and!; [done|by constructor|done|]. symmetry. apply insert_id. rewrite Hs.
    f_equal. destruct s; cbn in *. by subst. }
  destruct (disassemble_loop_adds (S (length (sec_data s))) (d_64bit d) s 0
    (d_instructions d, d_ordered d)) as ([m o] & -> & A1 & A2 & A3); [lia|done|unfold getSize; lia|lia|].
  cbn -[insert] in *. eexists. split; [done|]. split; [|done].
  assert (∀ b0 s0, <[b:=set_disassembled s]> (d_cache d) !! b0 = Some s0 → ∃ s1,
    d_cache d !! b0 = Some s1 ∧ sec_data s1 = sec_data s0 ∧ sec_startAddress s1 = sec_startAddress s0) as Hc.
  { intros b0 s0. rewrite lookup_insert. case_decide; [subst; intros [= <-]; by exists s|]. by exists s0. }
  constructor; cbn -[insert].
  - intros b0 s0 (s1 & H1 & Hd & Hst)%Hc. unfold getSize. rewrite <-Hd, <-Hst. by apply V1.
  - intros b0 s0 b1 s1 a (t0 & H0 & Hd0 & Hst0)%Hc (t1 & H1 & Hd1 & Hst1)%Hc.
    unfold covers, getSize. rewrite <-Hd0, <-Hst0, <-Hd1, <-Hst1. by apply (V2 b0 t0 b1 t1).
  - intros a. split.
    + intros Ha. destruct (A2 a) as [E|Hn].
      * rewrite E in Ha. apply V3 in Ha as (b0 & s0 & H0 & Hd & Hst). exists b0, s0.
        split; [|done]. rewrite lookup_insert_ne; [done|]. intros ->. congruence.
      * exists b, (set_disassembled s). rewrite lookup_insert_eq. by split_and!.
    + intros (b0 & s0 & H0 & Hd & Hst). rewrite lookup_insert in H0. case_decide.
      * simplify_eq. destruct (A1 a Hst) as [[t ->] _]. by eauto.
      * destruct (A2 a) as [->|Hn]; [apply V3; by exists b0, s0|]. destruct (A1 a Hn) as [[t ->] _]. by eauto.
  - intros a i Hi. destruct (A2 a) as [E|Hn]; [rewrite E in Hi; by eapply V4|].
    destruct (A1 a Hn) as [[t Ht] _]. exists t. congruence.
  - intros a. rewrite A3, V5. split.
    + intros [Ha|Hn]; [|destruct (A1 a Hn) as [[t ->] _]; by eauto].
      destruct (A2 a) as [->|Hn]; [done|]. destruct (A1 a Hn) as [[t ->] _]. by eauto.
    + intros Ha. destruct (A2 a) as [E|Hn]; [left; by rewrite <-E|by right].
  - done.
Qed.

(** The section an address is in is found; where there is none the search fails,
    below the lowest of them with a fault. *)
Lemma lookupSection_ok a d :
  verifier_ok d → a < 2 ^ 64 →
  match lookupSection a d with
  | Ok (Some (b, s)) => d_cache d !! b = Some s ∧ covers s a
  | Ok None => ∀ b s, d_cache d !! b = Some s → ¬ covers s a
  | Fault => ∀ b s, d_cache d !! b = Some s → a < b
  | _ => False
  end.
Proof.
  intros [V1 V2 _ _ _ _] Ha. unfold lookupSection.
  destruct (d_cache d !! a) as [s|] eqn:Ea.
  { destruct (V1 a s Ea) as (E1 & E2 & E3 & E4 & E5). split; [done|]. unfold covers. lia. }
  pose proof (last_below a (dom (d_cache d))) as Hl.
  destruct (last _) as [b|]; cbn.
  - destruct Hl as (Hb & Hlt & Hmax). apply elem_of_dom in Hb as [s Hs]. rewrite Hs. cbn.
    destruct (V1 b s Hs) as (E1 & E2 & E3 & E4 & E5). rewrite E1, uw_small by lia.
    destruct (Z.ltb_spec a b); [lia|]. destruct (Z.gtb_spec a (b + getSize s - 1)).
    + intros b' s' Hs' [C1 C2]. destruct (V1 b' s' Hs') as (F1 & F2 & F3 & F4 & F5).
      assert (b' ≤ b). { apply Hmax; [by eapply elem_of_dom_2|]. destruct (decide (b' = a)); [congruence|lia]. }
      destruct (decide (b' = b)) as [->|]; [simplify_eq; lia|].
      enough (b' = b) by lia. apply (V2 b' s' b s b); unfold covers; try done; lia.
    + split; [done|]. unfold covers. lia.
  - intros b s Hs. assert (a ≤ b) by (apply Hl; by eapply elem_of_dom_2).
    destruct (decide (a = b)); [congruence|lia].
Qed.

Lemma lookupSection_below a d :
  (∀ low, is_Some (d_cache d !! low) → a < low) → lookupSection a d = Fault.
Proof.
  intros Hbelow. unfold lookupSection. destruct (d_cache d !! a) as [s|] eqn:Ea.
  { pose proof (Hbelow a ltac:(by eexists)). lia. }
  pose proof (last_below a (dom (d_cache d))) as Hl. destruct (last _) as [b|]; [|done].
  destruct Hl as (Hb & Hlt & _). apply elem_of_dom, Hbelow in Hb. lia.
Qed.

Lemma verifying_ok d : verifying d → verifier_ok d.
Proof using count_int.
  induction 1 as [header d H|data base d _ IH (F1 & F2 & F3 & F4 & F5)|a d b d' _ IH H].
  - unfold setup in H. destruct (header !! EI_CLASS); [|done]. injection H as <-.
    constructor; cbn.
    1,2: intros ? ? *; by rewrite lookup_empty.
    3: intros x; rewrite lookup_empty; split; [set_solver|by intros []].
    3: done.
    + intros x. rewrite lookup_empty. split; [by intros []|].
      intros (? & ? & H & _). by rewrite lookup_empty in H.
    + intros ??. by rewrite lookup_empty.
  - unfold addSection. destruct (d_cache d !! base) eqn:Eb; [done|]. destruct IH as [V1 V2 V3 V4 V5 V6].
    assert (0 < Z.of_nat (length data)) by (destruct data; cbn; [done|lia]).
    constructor; cbn -[insert]; [..|done|done|done].
    + intros b s. rewrite lookup_insert. case_decide; [|by apply V1]. intros [= <-]. cbn. unfold getSize; cbn. lia.
    + intros b s b' s' a. rewrite !lookup_insert. unfold covers. repeat case_decide; subst; [done|..|by apply V2].
      * intros [= <-] Hs' C C'. cbn in C. destruct (V1 b' s' Hs') as (E1 & _).
        destruct (F5 b' s' Hs'); [done|..]; unfold getSize in *; cbn in *; lia.
      * intros Hs [= <-] C C'. cbn in C'. destruct (V1 b s Hs) as (E1 & _).
        destruct (F5 b s Hs); [done|..]; unfold getSize in *; cbn in *; lia.
    + intros a. rewrite V3. apply exist_proper. intros b. split.
      * intros (s & Hs & Hd). exists s. rewrite lookup_insert_ne; [done|]. congruence.
      * intros (s & Hs & Hd & Hst). rewrite lookup_insert in Hs. case_decide; [by simplify_eq|]. by exists s.
  - unfold verify in H. apply bind_Ok in H as (p & Hp & H). destruct p as [[base s]|]; [|by simplify_eq].
    apply bind_Ok in H as (d1 & H1 & [= _ <-]).
    assert (d_cache d !! base = Some s) as Hs.
    { unfold lookupSection in Hp. destruct (d_cache d !! a) eqn:E; [by simplify_eq|].
      destruct (last _); [|done]. apply bind_Ok in Hp as (cur & Hcur & Hp).
      destruct (d_cache d !! z) eqn:Ez; [|done]. cbn in Hcur. simplify_eq.
      repeat case_match; by simplify_eq. }
    destruct (disassemble_ok base s d IH Hs) as (d2 & E2 & V & _). congruence.
Qed.

(** The text that is disassembled: sections are only ever marked. *)
Definition same_text (d d' : Disassembler) : Prop :=
  d_64bit d' = d_64bit d ∧
  ∀ base, (λ s, (sec_data s, sec_startAddress s)) <$> d_cache d' !! base
        = (λ s, (sec_data s, sec_startAddress s)) <$> d_cache d !! base.

(** No instruction of a section lies across the address: it is outside all
    sections, or disassembling the section it is in from its beginning has an
    instruction start there. *)
Definition on_boundary (d : Disassembler) (a : Z) : Prop :=
  ∀ base s, d_cache d !! base = Some s → covers s a → insn_starts (d_64bit d) s a.

Lemma same_text_boundary d d' a : same_text d d' → on_boundary d a → on_boundary d' a.
Proof.
  intros [Em Hc] H base s' Hs' C. specialize (Hc base). rewrite Hs' in Hc.
  destruct (d_cache d !! base) as [s|] eqn:Hs; [|done]. cbn in Hc. injection Hc as Ed Ea.
  unfold insn_starts, starts_from. rewrite Em, Ed, Ea. apply (H base s Hs).
  unfold covers, getSize in *. by rewrite <-Ed, <-Ea.
Qed.

Lemma same_text_sym d d' : same_text d d' → same_text d' d.
Proof. intros [? H]. split; [done|]. intros base. by rewrite H. Qed.

Lemma same_text_low d d' low : same_text d d' → is_Some (d_cache d !! low) → is_Some (d_cache d' !! low).
Proof.
  intros [_ H] [s Hs]. specialize (H low). rewrite Hs in H. destruct (d_cache d' !! low); [by eauto|done].
Qed.

Lemma verify_step (d : Disassembler) (a low : Z) :
  verifying d → is_Some (d_cache d !! low) → low ≤ a < 2 ^ 64 →
  ∃ b d', verify print_insn a d = Ok (b, d') ∧ verifying d' ∧ (b = true ↔ on_boundary d a) ∧ same_text d d'.
Proof using count_int.
  intros Hd [s0 Hs0] Ha. pose proof (verifying_ok d Hd) as V.
  pose proof (lookupSection_ok a d V ltac:(lia)) as Hl.
  assert (∀ b d', verify print_insn a d = Ok (b, d') → verifying d') as Hv.
  { intros b d' E. by eapply verifying_verify. }
  unfold verify in *. destruct (lookupSection a d) as [[[b s]|]| | |]; cbn in *; [..|done|done|].
  - destruct Hl as [Hs Hc]. destruct (disassemble_ok b s d V Hs) as (d' & E & V' & Em & Ec). rewrite E in *. cbn in *.
    eexists _, d'. split_and!; [done|by eapply Hv| |].
    + rewrite bool_decide_eq_true, (vo_known d' V' a), Em. split.
      * intros (b1 & s1 & H1 & Hd1 & Hst) base s2 H2 C2.
        assert (base = b) as -> by by eapply (vo_disjoint d V base s2 b s a).
        assert (s2 = s) as -> by congruence.
        assert (covers s1 a) as C1.
        { destruct (vo_section d' V' b1 s1 H1) as (F1 & F2 & F3 & F4 & F5).
          apply (insn_starts_covers (d_64bit d)); [lia..|done]. }
        assert (b1 = b) as ->.
        { eapply (vo_disjoint d' V' b1 s1 b (set_disassembled s) a); [done| |done|done].
          by rewrite Ec, lookup_insert_eq. }
        rewrite Ec, lookup_insert_eq in H1. by simplify_eq.
      * intros H. exists b, (set_disassembled s). rewrite Ec, lookup_insert_eq. split_and!; [done..|].
        by apply (H b s).
    + split; [done|]. intros base. rewrite Ec, lookup_insert. case_decide; [subst; by rewrite Hs|done].
  - eexists true, d. split_and!; [done|done| |done]. split; [|done]. intros _ b s Hs Hc. by destruct (Hl b s).
  - specialize (Hl low s0 Hs0). lia.
Qed.

(** C27: Of a text that was set up, given its sections, which are not empty and do not
    overlap ([fits]), and asked about by [verify] only, an address at or above the
    start of a section is accepted exactly when no instruction of a section lies
    across it, whatever was verified before, although sections are disassembled only
    when they are first needed; below all sections the search is undefined.
    ([getBasicBlock], which nothing calls, is not among the operations: it makes the
    verifier accept more, see [disassembler_slips].) *)
Theorem verify_exact (d : Disassembler) (a : Z) :
  verifying d → a < 2 ^ 64 →
  ((∃ low, is_Some (d_cache d !! low) ∧ low ≤ a) →
   ∃ b d', verify print_insn a d = Ok (b, d') ∧ (b = true ↔ on_boundary d a) ∧
     verifying d' ∧ ∀ a', on_boundary d' a' ↔ on_boundary d a') ∧
  ((∀ low, is_Some (d_cache d !! low) → a < low) → verify print_insn a d = Fault).
Proof using count_int.
  intros Hd Ha. split.
  - intros (low & Hl & Hle). destruct (verify_step d a low Hd Hl) as (b & d' & H1 & H2 & H3 & H4); [lia|].
    exists b, d'. split_and!; [done..|]. intros a'. split; apply same_text_boundary; [by apply same_text_sym|done].
  - intros Hbelow. unfold verify. by rewrite lookupSection_below.
Qed.

(** ** Basic blocks *)

Definition is_leader (m : gmap Z Instruction) (a : Z) : bool := from_option in_leader false (m !! a).

(** The instruction at [cur] is taken for a branch to [t]. *)
Definition jumps (m : gmap Z Instruction) (cur t : Z) : Prop :=
  ∃ i, m !! cur = Some i ∧ isBranch i = true ∧ t = in_branchTarget i.

Definition adjacent (keys : list Z) (cur next : Z) : Prop :=
  ∃ pre post, keys = pre ++ cur :: next :: post.

Lemma adjacent_cons cur next rest c n :
  adjacent (cur :: next :: rest) c n ↔ (c = cur ∧ n = next) ∨ adjacent (next :: rest) c n.
Proof.
  split.
  - intros ([|x pre] & post & E); cbn in E; simplify_eq; [by left|]. right. by exists pre, post.
  - intros [[-> ->]|(pre & post & ->)]; [by exists [], rest|]. by exists (cur :: pre), post.
Qed.

Lemma makeLeader_leader m a b : is_leader (makeLeader a m) b = bool_decide (b = a) || is_leader m b.
Proof.
  unfold is_leader, makeLeader. destruct (decide (b = a)) as [->|].
  - by rewrite lookup_insert_eq, bool_decide_eq_true_2.
  - by rewrite lookup_insert_ne, bool_decide_eq_false_2.
Qed.

Lemma makeLeader_jumps m a cur t : is_Some (m !! cur) → jumps (makeLeader a m) cur t ↔ jumps m cur t.
Proof.
  intros [i Hi]. unfold jumps, makeLeader. rewrite lookup_insert. case_decide; [subst|done].
  rewrite Hi. cbn. split; intros (j & [= <-] & H); by eexists.
Qed.

Lemma makeLeader_is_Some m a b : is_Some (m !! b) → is_Some (makeLeader a m !! b).
Proof. intros H. unfold makeLeader. rewrite lookup_insert. case_decide; [by eauto|done]. Qed.

Lemma mark_leaders_cons cur next rest m i :
  m !! cur = Some i →
  mark_leaders (cur :: next :: rest) m
  = mark_leaders (next :: rest)
      (if isBranch i then makeLeader next (makeLeader (in_branchTarget i) m) else m).
Proof. intros Hi. cbn [mark_leaders]. by rewrite Hi. Qed.

Lemma mark_leaders_ok keys m :
  (∀ k, k ∈ keys → is_Some (m !! k)) →
  ∃ m', mark_leaders keys m = Ok m' ∧
    (∀ a, is_leader m' a = true ↔ is_leader m a = true ∨
       ∃ cur next t, adjacent keys cur next ∧ jumps m cur t ∧ (a = t ∨ a = next)) ∧
    (∀ a, is_Some (m !! a) → is_Some (m' !! a) ∧ ∀ t, jumps m' a t ↔ jumps m a t).
Proof.
  revert m; induction keys as [|cur [|next rest] IH]; intros m Hk.
  1,2: exists m; split; [done|]; split; [|done]; intros a; split; [by left|];
    intros [?|(c & n & t & ([|? pre] & post & E) & _)]; [done|done|];
    destruct pre; done.
  destruct (Hk cur) as [i Hi]; [by left|]. rewrite (mark_leaders_cons _ _ _ _ i Hi).
  set (m1 := if isBranch i then _ else m).
  assert (∀ k, is_Some (m !! k) → is_Some (m1 !! k)) as Hs.
  { intros k Hx. unfold m1. destruct (isBranch i); [by do 2 apply makeLeader_is_Some|done]. }
  assert (∀ k t, is_Some (m !! k) → jumps m1 k t ↔ jumps m k t) as Hj.
  { intros k t Hx. unfold m1. destruct (isBranch i); [|done].
    rewrite !makeLeader_jumps; [done|done|by apply makeLeader_is_Some]. }
  destruct (IH m1) as (m' & -> & Hl & Hsame); [intros k Hin; apply Hs, Hk; by right|].
  exists m'. split; [done|]. split.
  - intros a. rewrite Hl.
    assert (is_leader m1 a = true ↔ is_leader m a = true ∨ ∃ t, jumps m cur t ∧ (a = t ∨ a = next)) as ->.
    { unfold m1. destruct (isBranch i) eqn:Eb.
      - rewrite !makeLeader_leader, !orb_true_iff, !bool_decide_eq_true. split.
        + intros [->|[->|?]]; [right; exists (in_branchTarget i); by split; [exists i|right]
            |right; exists (in_branchTarget i); by split; [exists i|left]|by left].
        + intros [?|(t & (j & Hj' & _ & ->) & [-> | ->])]; [by right; right| |by left]. simplify_eq. by right; left.
      - split; [by left|]. intros [?|(t & (j & Hj' & Hb & _) & _)]; [done|]. simplify_eq. congruence. }
    rewrite Logic.or_assoc. apply or_iff_compat_l. split.
    + intros [(t & Ht & Ha)|(c & n & t & Had & Ht & Ha)].
      * exists cur, next, t. split; [|done]. apply adjacent_cons. by left.
      * exists c, n, t. split; [apply adjacent_cons; by right|]. split; [|done].
        apply Hj in Ht; [done|]. apply Hk. destruct Had as (pre & post & ->).
        right. apply elem_of_app. right. by left.
    + intros (c & n & t & Had & Ht & Ha). apply adjacent_cons in Had as [[-> ->]|Had]; [left; by exists t|].
      right. exists c, n, t. split; [done|]. split; [|done].
      apply Hj; [|done]. destruct Ht as (j & -> & _). by eauto.
  - intros a Ha. destruct (Hsame a (Hs a Ha)) as [H1 H2]. split; [done|]. intros t. by rewrite H2, Hj.
Qed.

(** The blocks made of the keys seen so far. *)
Record placed (m0 : gmap Z Instruction) (ks : list Z) (d : Disassembler) (bb : option nat)
    (blocks : list (list Z)) : Prop := {
  pl_bbs : d_bbs d = None :: (Some <$> blocks);
  pl_concat : concat blocks = ks;
  pl_bb : bb = match blocks with [] => None | _ => Some (length blocks) end;
  pl_heads : Forall (λ l, match l with
    | [] => False
    | h :: t => is_leader m0 h = true ∧ Forall (λ x, is_leader m0 x = false) t end) blocks;
  pl_insn : ∀ a, (λ i, (in_branchTarget i, in_leader i)) <$> d_instructions d !! a
               = (λ i, (in_branchTarget i, in_leader i)) <$> m0 !! a;
  pl_in : ∀ j l k, blocks !! j = Some l → k ∈ l → in_bb <$> d_instructions d !! k = Some (Some (S j));
}.

Lemma bbs_last (blocks : list (list Z)) (x y : option (list Z)) :
  (None :: (Some <$> blocks) ++ [x]) !! S (length blocks) = Some x ∧
  <[S (length blocks) := y]> (None :: (Some <$> blocks) ++ [x]) = None :: (Some <$> blocks) ++ [y].
Proof.
  rewrite <-(length_fmap (@Some (list Z)) blocks). split.
  - by apply (list_lookup_middle (None :: (Some <$> blocks))).
  - replace (S _) with (length (None :: (Some <$> blocks)) + 0)%nat by (cbn; lia).
    by rewrite app_comm_cons, insert_app_r.
Qed.

Lemma place_ok m0 pre d bb blocks key :
  placed m0 pre d bb blocks → key ∉ pre → is_Some (m0 !! key) → (pre = [] → is_leader m0 key = true) →
  ∃ d' bb' blocks', place (d, bb) key = Ok (d', bb') ∧ placed m0 (pre ++ [key]) d' bb' blocks' ∧
    d_ordered d' = d_ordered d ∧ d_cache d' = d_cache d ∧ d_64bit d' = d_64bit d.
Proof.
  intros [P1 P2 P3 P4 P5 P6] Hnew [i0 Hi0] Hfirst. unfold place.
  pose proof (P5 key) as Hk. rewrite Hi0 in Hk. destruct (d_instructions d !! key) as [cur|] eqn:Ecur; [|done].
  cbn in Hk. injection Hk as Ht Hl. cbn [or_fault mbind res_mbind res_bind].
  assert (∀ bb0 a, (λ i, (in_branchTarget i, in_leader i)) <$>
    <[key:=setBasicBlock bb0 cur]> (d_instructions d) !! a
    = (λ i, (in_branchTarget i, in_leader i)) <$> m0 !! a) as Hinsn.
  { intros bb0 a. rewrite lookup_insert. case_decide; [subst|by apply P5]. rewrite Hi0. cbn. congruence. }
  assert (is_leader m0 key = in_leader cur) as Hlead by (unfold is_leader; rewrite Hi0; cbn; congruence).
  assert (∀ j l, blocks !! j = Some l → key ∉ l) as Hnot.
  { intros j l Hj Hin. apply Hnew. rewrite <-P2. apply elem_of_concat. exists l.
    split; [by eapply list_elem_of_lookup_2|done]. }
  destruct (in_leader cur) eqn:El; cbn -[insert lookup].
  - rewrite P1. cbn [length app]. rewrite length_fmap.
    rewrite (proj1 (bbs_last _ _ None)). cbn -[insert lookup]. rewrite (proj2 (bbs_last _ _ _)).
    eexists _, _, (blocks ++ [[key]]). split; [done|]. split; [|done]. constructor; cbn -[insert].
    + by rewrite fmap_app.
    + by rewrite concat_app, P2.
    + rewrite length_app. cbn. destruct blocks; cbn; [done|]. do 2 f_equal. lia.
    + apply Forall_app. split; [done|]. constructor; [|done]. done.
    + apply Hinsn.
    + intros j l k Hj Hin. apply lookup_app_Some in Hj as [Hj|[Hge Hj]].
      * rewrite lookup_insert_ne by (intros ->; by eapply Hnot). by eapply P6.
      * apply list_lookup_singleton_Some in Hj as [Hj <-]. apply list_elem_of_singleton in Hin as ->.
        rewrite lookup_insert_eq. cbn. do 2 f_equal. lia.
  - destruct blocks as [|bl blocks _] using rev_ind.
    { cbn in P2. rewrite Hfirst in Hlead by done. done. }
    rewrite P3. destruct (blocks ++ [bl]) eqn:Eb; [by destruct blocks|]. rewrite <-Eb in *. clear Eb.
    rewrite P1, length_app, fmap_app. change (Some <$> [bl]) with [Some bl].
    cbn [length or_fault mbind res_mbind res_bind]. rewrite Nat.add_1_r.
    rewrite (proj1 (bbs_last _ _ None)). cbn -[insert lookup]. rewrite (proj2 (bbs_last _ _ _)).
    eexists _, _, (blocks ++ [bl ++ [key]]). split; [done|]. split; [|done]. constructor; cbn -[insert].
    + by rewrite fmap_app.
    + rewrite <-P2, !concat_app. cbn. by rewrite !app_nil_r, app_assoc.
    + destruct blocks; [done|]. cbn. rewrite length_app, Nat.add_1_r. done.
    + apply Forall_app in P4 as [P4 P4']. apply Forall_app. split; [done|].
      apply Forall_cons_1 in P4' as [P4' _]. apply Forall_singleton. destruct bl as [|h t]; [done|].
      destruct P4' as [? ?]. cbn. split; [done|]. apply Forall_app. split; [done|]. by apply Forall_singleton.
    + apply Hinsn.
    + intros j b k Hj Hin. apply lookup_app_Some in Hj as [Hj|[Hge Hj]].
      * assert ((blocks ++ [bl]) !! j = Some b) as Hj' by by apply lookup_app_l_Some.
        rewrite lookup_insert_ne by (intros ->; by eapply Hnot). by eapply P6.
      * apply list_lookup_singleton_Some in Hj as [Hj <-].
        assert (j = length blocks) as -> by lia.
        apply elem_of_app in Hin as [Hin|Hin%list_elem_of_singleton].
        -- assert ((blocks ++ [bl]) !! length blocks = Some bl) as Hb by by rewrite list_lookup_middle.
           rewrite lookup_insert_ne by (intros ->; by eapply Hnot). by eapply P6.
        -- subst. by rewrite lookup_insert_eq.
Qed.

Lemma place_all m0 keys d :
  NoDup keys → (∀ k, k ∈ keys → is_Some (m0 !! k)) →
  (∀ k, head keys = Some k → is_leader m0 k = true) → d_instructions d = m0 → d_bbs d = [] →
  ∃ d' bb' blocks, res_foldl place (d_set_bbs [None] d, None) keys = Ok (d', bb') ∧
    placed m0 keys d' bb' blocks ∧ d_ordered d' = d_ordered d ∧ d_cache d' = d_cache d ∧
    d_64bit d' = d_64bit d.
Proof.
  intros Hnd Hk Hhead <- Hbbs.
  destruct (res_foldl_prefix (λ ks '(d', bb'), ∃ blocks, placed (d_instructions d) ks d' bb' blocks ∧
    d_ordered d' = d_ordered d ∧ d_cache d' = d_cache d ∧ d_64bit d' = d_64bit d)
    place keys (d_set_bbs [None] d, None)) as ([d' bb'] & H1 & blocks & H2).
  - exists []. split; [|done]. constructor; cbn; [done..|by constructor|done|].
    intros j l k H. by rewrite lookup_nil in H.
  - intros pre x post [d1 bb1] -> (blocks & HP & Ho & Hc & Hm).
    destruct (place_ok (d_instructions d) pre d1 bb1 blocks x) as (d2 & bb2 & blocks2 & E & HP2 & Ho2 & Hc2 & Hm2).
    + done.
    + apply NoDup_app in Hnd as (_ & Hd & _). intros Hin. apply (Hd x Hin). by left.
    + apply Hk, elem_of_app. right. by left.
    + intros ->. by apply Hhead.
    + exists (d2, bb2). split; [done|]. exists blocks2. split_and!; [done|congruence..].
  - exists d', bb', blocks. by split.
Qed.

(** The address at which the blocks of a list start. *)
Definition heads (blocks : list (list Z)) : list Z := omap head blocks.

Lemma placed_heads m0 ks d bb blocks a :
  placed m0 ks d bb blocks → NoDup ks → a ∈ ks → a ∈ heads blocks ↔ is_leader m0 a = true.
Proof.
  intros [_ <- _ P4 _ _] Hnd Ha. unfold heads. rewrite list_elem_of_omap. rewrite Forall_forall in P4. split.
  - intros (l & Hl & Hh). specialize (P4 l Hl). destruct l; [done|]. cbn in Hh. simplify_eq. by destruct P4.
  - intros Hlead. apply elem_of_concat in Ha as (l & Hl & Ha). exists l. split; [done|].
    specialize (P4 l Hl). destruct l as [|h t]; [done|]. destruct P4 as [_ Ht].
    apply elem_of_cons in Ha as [->|Ha]; [done|]. rewrite Forall_forall in Ht. rewrite Ht in Hlead by done. done.
Qed.

Lemma placed_jumps m0 ks d bb blocks a t :
  placed m0 ks d bb blocks → jumps (d_instructions d) a t ↔ jumps m0 a t.
Proof.
  intros P. pose proof (pl_insn _ _ _ _ _ P a) as E. unfold jumps, isBranch.
  destruct (d_instructions d !! a) as [i1|], (m0 !! a) as [i2|]; cbn in E; [|done|done|by split; intros (? & ? & _)].
  injection E as Et _. split; intros (i & [= <-] & H); eexists; (split; [done|]); congruence.
Qed.

Lemma getBasicBlock_placed m0 ks d bb blocks block a :
  placed m0 ks d bb blocks → block ∈ blocks → a ∈ block → getBasicBlock print_insn a d = Ok (block, d).
Proof.
  intros P [j Hj]%list_elem_of_lookup Ha. unfold getBasicBlock.
  rewrite (pl_bbs _ _ _ _ _ P). cbn [mbind res_mbind res_bind].
  pose proof (pl_in _ _ _ _ _ P j block a Hj Ha) as Hbb. destruct (d_instructions d !! a) as [i|]; [|done].
  cbn in Hbb. injection Hbb as ->. cbn [or_fault mbind res_mbind res_bind]. rewrite (pl_bbs _ _ _ _ _ P).
  assert ((None :: (Some <$> blocks)) !! S j = Some (Some block)) as ->
    by (change ((Some <$> blocks) !! j = Some (Some block)); by rewrite list_lookup_fmap, Hj).
  done.
Qed.

Lemma fresh_not_leader d a :
  verifier_ok d → is_Some (d_instructions d !! a) → is_leader (d_instructions d) a = false.
Proof.
  intros V [i Hi]. unfold is_leader. rewrite Hi. by destruct (vo_fresh d V a i Hi) as [t ->].
Qed.

(** All sections are disassembled. *)
Lemma disassemble_all_ok d :
  verifier_ok d →
  ∃ d', res_foldl (λ d base, s ← or_fault (d_cache d !! base); disassemble print_insn base s d) d
          (in_order (dom (d_cache d))) = Ok d' ∧
    verifier_ok d' ∧ d_64bit d' = d_64bit d ∧
    ∀ b, d_cache d' !! b = set_disassembled <$> d_cache d !! b.
Proof using count_int.
  intros V.
  destruct (res_foldl_prefix (λ pre d', verifier_ok d' ∧ d_64bit d' = d_64bit d ∧
    ∀ b, d_cache d' !! b = if bool_decide (b ∈ pre) then set_disassembled <$> d_cache d !! b else d_cache d !! b)
    (λ d base, s ← or_fault (d_cache d !! base); disassemble print_insn base s d)
    (in_order (dom (d_cache d))) d) as (d' & H1 & H2 & H3 & H4).
  - split_and!; [done..|]. intros b. by rewrite bool_decide_eq_false_2 by set_solver.
  - intros pre b post d1 E (V1 & Em & Ec).
    assert (b ∈ dom (d_cache d)) as [s Hs]%elem_of_dom.
    { apply elem_of_in_order. rewrite E. apply elem_of_app. right. by left. }
    pose proof (Ec b) as Hb. rewrite Hs in Hb. cbn in Hb.
    assert (∃ s1, d_cache d1 !! b = Some s1 ∧ set_disassembled s1 = set_disassembled s) as (s1 & Hs1 & Es).
    { rewrite Hb. case_bool_decide; by eexists. }
    rewrite Hs1. cbn [or_fault mbind res_mbind res_bind].
    destruct (disassemble_ok b s1 d1 V1 Hs1) as (d2 & E2 & V2 & Em2 & Ec2).
    exists d2. split; [done|]. split_and!; [done|congruence|]. intros b'. rewrite Ec2, lookup_insert.
    destruct (decide (b = b')) as [<-|].
    + rewrite bool_decide_eq_true_2 by set_solver. rewrite Hs. cbn. congruence.
    + rewrite Ec. destruct (decide (b' ∈ pre)).
      * by rewrite !bool_decide_eq_true_2 by set_solver.
      * by rewrite !bool_decide_eq_false_2 by set_solver.
  - exists d'. split_and!; [done..|]. intros b. rewrite H4. case_bool_decide as Hin; [done|].
    destruct (d_cache d !! b) eqn:Eb; [|done]. exfalso. apply Hin, elem_of_in_order. by eapply elem_of_dom_2.
Qed.

(** Text of at least two instructions is divided into basic blocks: put one
    after the other they are the instructions of all sections in ascending
    order, each instruction is found in the block it is in, and a block starts
    exactly at the first instruction, at a branch target, and after a branch -
    where the last instruction is not looked at. *)
Theorem basic_blocks (d : Disassembler) :
  verifying d →
  ∃ d', setupBasicBlocks print_insn d = Ok d' ∧
    let keys := in_order (d_ordered d') in
    (∀ a, a ∈ keys ↔ ∃ b s, d_cache d !! b = Some s ∧ insn_starts (d_64bit d) s a) ∧
    (2 ≤ length keys →
     ∃ blocks, concat blocks = keys ∧ [] ∉ blocks ∧
       (∀ block a, block ∈ blocks → a ∈ block → getBasicBlock print_insn a d' = Ok (block, d')) ∧
       (∀ a, a ∈ keys → a ∈ heads blocks ↔
          head keys = Some a ∨
          ∃ cur next t, adjacent keys cur next ∧ jumps (d_instructions d') cur t ∧ (a = t ∨ a = next)))%nat.
Proof using count_int.
  intros Hd. pose proof (verifying_ok d Hd) as V.
  destruct (disassemble_all_ok d V) as (d1 & E1 & V1 & Em & Ec). unfold setupBasicBlocks. rewrite E1.
  cbn [mbind res_mbind res_bind].
  assert (∀ a, a ∈ in_order (d_ordered d1) ↔ ∃ b s, d_cache d !! b = Some s ∧ insn_starts (d_64bit d) s a) as Hkeys.
  { intros a. rewrite elem_of_in_order, (vo_ordered d1 V1), (vo_known d1 V1), Em.
    split; intros (b & s & Hs & H).
    - rewrite Ec in Hs. destruct (d_cache d !! b) as [s0|] eqn:E; [|done]. cbn in Hs. simplify_eq.
      exists b, s0. by destruct H.
    - exists b, (set_disassembled s). by rewrite Ec, Hs. }
  assert (∀ k, k ∈ in_order (d_ordered d1) → is_Some (d_instructions d1 !! k)) as Hsome.
  { intros k Hk. by apply (vo_ordered d1 V1), elem_of_in_order. }
  assert (NoDup (in_order (d_ordered d1))) as Hnd.
  { unfold in_order. rewrite merge_sort_Permutation. apply NoDup_elements. }
  destruct (in_order (d_ordered d1)) as [|first [|second rest]] eqn:Eo.
  { exists d1. split; [done|]. rewrite Eo. split; [done|]. cbn. lia. }
  { eexists. split; [done|]. cbn [d_ordered d_set_instructions]. rewrite Eo. split; [done|]. cbn. lia. }
  rewrite <-Eo in *.
  destruct (mark_leaders_ok (in_order (d_ordered d1)) (makeLeader first (d_instructions d1)))
    as (m & -> & Hlead & Hsame); [intros k Hk; by apply makeLeader_is_Some, Hsome|].
  cbn [mbind res_mbind res_bind].
  rewrite (vo_bbs d1 V1). change ([] ++ [None]) with [@None (list Z)].
  destruct (place_all m (in_order (d_ordered d1)) (d_set_instructions m d1)) as (d2 & bb & blocks & -> & HP & Ho & Hc & Hm);
    [done| | |done|by apply V1|].
  { intros k Hk. by apply Hsame, makeLeader_is_Some, Hsome. }
  { intros k Hk. apply Hlead. left. rewrite makeLeader_leader, Eo in *. cbn in Hk. simplify_eq.
    by rewrite bool_decide_eq_true_2. }
  exists d2. cbn [mbind res_mbind res_bind]. split; [done|]. rewrite Ho. cbn [d_ordered d_set_instructions].
  split; [done|]. intros _. pose proof HP as [_ P2 _ P4 _ _]. exists blocks. split_and!.
  - done.
  - intros Hin. rewrite Forall_forall in P4. by apply (P4 [] Hin).
  - intros block a. by apply (getBasicBlock_placed m (in_order (d_ordered d1)) d2 bb blocks).
  - intros a Ha. rewrite (placed_heads m _ d2 bb blocks a HP Hnd Ha), Hlead, makeLeader_leader.
    rewrite (fresh_not_leader d1 a V1) by by apply Hsome.
    rewrite orb_false_r, bool_decide_eq_true, Eo. cbn [head]. rewrite <-Eo.
    assert (a = first ↔ Some first = Some a) as -> by (split; congruence).
    apply or_iff_compat_l. do 3 (apply exist_proper; intros ?).
    split; intros (Had & Hj & Hat); (split; [done|]; split; [|done]).
    all: assert (x ∈ in_order (d_ordered d1)) as Hx
      by (destruct Had as (pre & post & ->); apply elem_of_app; right; by left).
    all: apply (placed_jumps m _ d2 bb blocks x x1 HP) || apply (placed_jumps m _ d2 bb blocks x x1 HP) in Hj.
    all: by apply Hsame; [apply makeLeader_is_Some, Hsome|].
Qed.
End disassembly.

(** ** Concrete runs *)

(** A machine of two instructions, "n" and a jump with the digit that follows. *)
Definition print_demo (mach : bool) (data : bytes) (pc : Z) : Z * list bytes :=
  match drop (Z.to_nat pc) data with
  | c :: r =>
      if bool_decide (c = "n"%char) then (1, [str "nop"])
      else match r with
           | digit :: _ => if bool_decide (c = "j"%char) then (2, [str "jmp "; str "0x" ++ [digit]]) else (-1, [])
           | [] => (-1, [])
           end
  | [] => (-1, [])
  end.

Lemma print_demo_int m data pc : (print_demo m data pc).1 < 2 ^ 31.
Proof. unfold print_demo. repeat case_match; cbn; lia. Qed.

Definition demo_header : bytes := replicate 4 NUL ++ [byte_of 2].
Definition demo_fresh : Disassembler := mkDisassembler true ∅ ∅ ∅ [].
Definition demo_with (text : bytes) (base : Z) : Disassembler := addSection text base demo_fresh.

Lemma demo_verifying text base :
  text ≠ [] → 0 ≤ base → base + Z.of_nat (length text) < 2 ^ 63 →
  verifying print_demo (demo_with text base).
Proof.
  intros H1 H2 H3. apply verifying_add; [by apply (verifying_setup _ demo_header)|].
  split_and!; [done|done|lia|lia|]. intros b s. cbn. by rewrite lookup_empty.
Qed.

Definition answer {A B} (r : res (A * B)) : res A := '(a, _) ← r; Ok a.

(** At 1 there is a jump of two bytes, so that no instruction starts at 2. *)
Lemma verify_exact_witness :
  answer (verify print_demo 0x402 (demo_with (str "nj3nnj1") 0x400)) = Ok false ∧
  (∃ b d', verify print_demo 0x402 (demo_with (str "nj3nnj1") 0x400) = Ok (b, d') ∧ verifying print_demo d') ∧
  verify print_demo 0x3ff (demo_with (str "nj3nnj1") 0x400) = Fault.
Proof.
  split; [by vm_compute|]. split.
  - destruct (proj1 (verify_exact print_demo print_demo_int (demo_with (str "nj3nnj1") 0x400) 0x402
      ltac:(by apply demo_verifying) ltac:(lia))) as (b & d' & H1 & _ & H2 & _).
    + exists 0x400. split; [by eexists|lia].
    + by exists b, d'.
  - apply (proj2 (verify_exact print_demo print_demo_int (demo_with (str "nj3nnj1") 0x400) 0x3ff
      ltac:(by apply demo_verifying) ltac:(lia))).
    intros low [s Hs]. change (d_cache _) with (<[0x400 := mkSection (str "nj3nnj1") 0x400 false]> (∅ : gmap Z Section_)) in Hs.
    apply lookup_insert_Some in Hs as [[<- _]|[_ Hs]]; [lia|].
    by rewrite lookup_empty in Hs.
Defined.

Definition starts_of (r : res Disassembler) : list Z :=
  match r with Ok d => in_order (d_ordered d) | _ => [] end.

Lemma basic_blocks_witness :
  starts_of (setupBasicBlocks print_demo (demo_with (str "nj3nnj1") 0)) = [0; 1; 3; 4; 5] ∧
  ∃ d' blocks, setupBasicBlocks print_demo (demo_with (str "nj3nnj1") 0) = Ok d' ∧
    concat blocks = [0; 1; 3; 4; 5] ∧ 3 ∈ heads blocks.
Proof.
  assert (starts_of (setupBasicBlocks print_demo (demo_with (str "nj3nnj1") 0)) = [0; 1; 3; 4; 5]) as Hs
    by by vm_compute.
  assert (match setupBasicBlocks print_demo (demo_with (str "nj3nnj1") 0) with
          | Ok d => from_option isBranch false (d_instructions d !! 1) | _ => false end = true) as Hb by by vm_compute.
  split; [exact Hs|].
  destruct (basic_blocks print_demo print_demo_int (demo_with (str "nj3nnj1") 0)) as (d' & E & _ & H).
  - by apply demo_verifying.
  - rewrite E in Hs, Hb. cbn in Hs. rewrite Hs in H. destruct H as (blocks & H1 & _ & _ & H2); [cbn; lia|].
    exists d', blocks. split_and!; [exact E|exact H1|]. apply H2; [right; right; left|]. right.
    destruct (d_instructions d' !! 1) as [i|] eqn:Ei; [|discriminate Hb]. clear E.
    exists 1, 3, (in_branchTarget i). split; [by exists [0], [4; 5]|]. split; [|by right]. by exists i.
Defined.

(** What the disassembler gets wrong.  A target that is no instruction start is
    entered into the table of instructions when the blocks are made: the
    verifier then accepts it, and asking for its block follows a null pointer.
    So does asking for the block of the only instruction of a text.  An address
    below all sections decrements the first iterator. *)
Theorem disassembler_slips :
  answer (verify print_demo 2 (demo_with (str "nj1n") 0)) = Ok false ∧
  answer ('(_, d) ← getBasicBlock print_demo 0 (demo_with (str "nj1n") 0); verify print_demo 2 d) = Ok true ∧
  answer ('(_, d) ← getBasicBlock print_demo 0 (demo_with (str "nj1n") 0); getBasicBlock print_demo 2 d) = Fault ∧
  answer (getBasicBlock print_demo 0 (demo_with (str "n") 0)) = Fault ∧
  answer (verify print_demo 0x100 (demo_with (str "n") 0x400)) = Fault.
Proof. by vm_compute. Qed.
