(* ===== verification/Crc32.v ===== *)
(** * The checksum of debug links (src/src/parsers/elf-parser.cc, debugLinkCrc32)

    A debug link names a file with debug information and gives its CRC-32.
    [debugLinkCrc32] computes it byte by byte with a table.  Proved: the table
    computes the checksum that is defined bit by bit by the CRC-32 polynomial,
    and the checksum tells files apart that differ in one place. *)
From S2P Require Export Prelude.
From stdpp Require Import options.

Definition crc32_table : list Z :=
  [0x00000000; 0x77073096; 0xee0e612c; 0x990951ba; 0x076dc419; 0x706af48f; 0xe963a535; 0x9e6495a3;
   0x0edb8832; 0x79dcb8a4; 0xe0d5e91e; 0x97d2d988; 0x09b64c2b; 0x7eb17cbd; 0xe7b82d07; 0x90bf1d91;
   0x1db71064; 0x6ab020f2; 0xf3b97148; 0x84be41de; 0x1adad47d; 0x6ddde4eb; 0xf4d4b551; 0x83d385c7;
   0x136c9856; 0x646ba8c0; 0xfd62f97a; 0x8a65c9ec; 0x14015c4f; 0x63066cd9; 0xfa0f3d63; 0x8d080df5;
   0x3b6e20c8; 0x4c69105e; 0xd56041e4; 0xa2677172; 0x3c03e4d1; 0x4b04d447; 0xd20d85fd; 0xa50ab56b;
   0x35b5a8fa; 0x42b2986c; 0xdbbbc9d6; 0xacbcf940; 0x32d86ce3; 0x45df5c75; 0xdcd60dcf; 0xabd13d59;
   0x26d930ac; 0x51de003a; 0xc8d75180; 0xbfd06116; 0x21b4f4b5; 0x56b3c423; 0xcfba9599; 0xb8bda50f;
   0x2802b89e; 0x5f058808; 0xc60cd9b2; 0xb10be924; 0x2f6f7c87; 0x58684c11; 0xc1611dab; 0xb6662d3d;
   0x76dc4190; 0x01db7106; 0x98d220bc; 0xefd5102a; 0x71b18589; 0x06b6b51f; 0x9fbfe4a5; 0xe8b8d433;
   0x7807c9a2; 0x0f00f934; 0x9609a88e; 0xe10e9818; 0x7f6a0dbb; 0x086d3d2d; 0x91646c97; 0xe6635c01;
   0x6b6b51f4; 0x1c6c6162; 0x856530d8; 0xf262004e; 0x6c0695ed; 0x1b01a57b; 0x8208f4c1; 0xf50fc457;
   0x65b0d9c6; 0x12b7e950; 0x8bbeb8ea; 0xfcb9887c; 0x62dd1ddf; 0x15da2d49; 0x8cd37cf3; 0xfbd44c65;
   0x4db26158; 0x3ab551ce; 0xa3bc0074; 0xd4bb30e2; 0x4adfa541; 0x3dd895d7; 0xa4d1c46d; 0xd3d6f4fb;
   0x4369e96a; 0x346ed9fc; 0xad678846; 0xda60b8d0; 0x44042d73; 0x33031de5; 0xaa0a4c5f; 0xdd0d7cc9;
   0x5005713c; 0x270241aa; 0xbe0b1010; 0xc90c2086; 0x5768b525; 0x206f85b3; 0xb966d409; 0xce61e49f;
   0x5edef90e; 0x29d9c998; 0xb0d09822; 0xc7d7a8b4; 0x59b33d17; 0x2eb40d81; 0xb7bd5c3b; 0xc0ba6cad;
   0xedb88320; 0x9abfb3b6; 0x03b6e20c; 0x74b1d29a; 0xead54739; 0x9dd277af; 0x04db2615; 0x73dc1683;
   0xe3630b12; 0x94643b84; 0x0d6d6a3e; 0x7a6a5aa8; 0xe40ecf0b; 0x9309ff9d; 0x0a00ae27; 0x7d079eb1;
   0xf00f9344; 0x8708a3d2; 0x1e01f268; 0x6906c2fe; 0xf762575d; 0x806567cb; 0x196c3671; 0x6e6b06e7;
   0xfed41b76; 0x89d32be0; 0x10da7a5a; 0x67dd4acc; 0xf9b9df6f; 0x8ebeeff9; 0x17b7be43; 0x60b08ed5;
   0xd6d6a3e8; 0xa1d1937e; 0x38d8c2c4; 0x4fdff252; 0xd1bb67f1; 0xa6bc5767; 0x3fb506dd; 0x48b2364b;
   0xd80d2bda; 0xaf0a1b4c; 0x36034af6; 0x41047a60; 0xdf60efc3; 0xa867df55; 0x316e8eef; 0x4669be79;
   0xcb61b38c; 0xbc66831a; 0x256fd2a0; 0x5268e236; 0xcc0c7795; 0xbb0b4703; 0x220216b9; 0x5505262f;
   0xc5ba3bbe; 0xb2bd0b28; 0x2bb45a92; 0x5cb36a04; 0xc2d7ffa7; 0xb5d0cf31; 0x2cd99e8b; 0x5bdeae1d;
   0x9b64c2b0; 0xec63f226; 0x756aa39c; 0x026d930a; 0x9c0906a9; 0xeb0e363f; 0x72076785; 0x05005713;
   0x95bf4a82; 0xe2b87a14; 0x7bb12bae; 0x0cb61b38; 0x92d28e9b; 0xe5d5be0d; 0x7cdcefb7; 0x0bdbdf21;
   0x86d3d2d4; 0xf1d4e242; 0x68ddb3f8; 0x1fda836e; 0x81be16cd; 0xf6b9265b; 0x6fb077e1; 0x18b74777;
   0x88085ae6; 0xff0f6a70; 0x66063bca; 0x11010b5c; 0x8f659eff; 0xf862ae69; 0x616bffd3; 0x166ccf45;
   0xa00ae278; 0xd70dd2ee; 0x4e048354; 0x3903b3c2; 0xa7672661; 0xd06016f7; 0x4969474d; 0x3e6e77db;
   0xaed16a4a; 0xd9d65adc; 0x40df0b66; 0x37d83bf0; 0xa9bcae53; 0xdebb9ec5; 0x47b2cf7f; 0x30b5ffe9;
   0xbdbdf21c; 0xcabac28a; 0x53b39330; 0x24b4a3a6; 0xbad03605; 0xcdd70693; 0x54de5729; 0x23d967bf;
   0xb3667a2e; 0xc4614ab8; 0x5d681b02; 0x2a6f2b94; 0xb40bbe37; 0xc30c8ea1; 0x5a05df1b; 0x2d02ef8d].

Definition crc32_step (crc : Z) (b : ascii) : Z :=
  Z.lxor (nth (Z.to_nat (Z.land (Z.lxor crc (byte_val b)) 0xff)) crc32_table 0) (Z.shiftr crc 8).

Definition debugLinkCrc32 (crc : Z) (buf : bytes) : Z :=
  let crc := Z.land (Z.lnot crc) 0xffffffff in
  let crc := foldl crc32_step crc buf in
  Z.land (Z.lnot crc) 0xffffffff.

(** ** The definition by the polynomial *)

(** One bit is shifted out; when it is set the polynomial, its bits in reverse
    order, is subtracted. *)
Definition crc_bit (c : Z) : Z :=
  if Z.odd c then Z.lxor (Z.shiftr c 1) 0xedb88320 else Z.shiftr c 1.
Definition crc_byte (c : Z) (b : ascii) : Z := Nat.iter 8 crc_bit (Z.lxor c (byte_val b)).
Definition crc32_bitwise (crc : Z) (buf : bytes) : Z :=
  Z.lxor (foldl crc_byte (Z.lxor crc 0xffffffff) buf) 0xffffffff.

(** ** Bits *)

Definition is_u32 (z : Z) : Prop := 0 ≤ z < 2 ^ 32.

(** A number is below [2 ^ n] when its bits from the [n]th on are clear. *)
Lemma high_bits_clear z n : 0 ≤ z → 0 ≤ n → z < 2 ^ n ↔ ∀ i, n ≤ i → Z.testbit z i = false.
Proof.
  intros Hz Hn. split.
  - intros H i Hi. rewrite <-(Z.mod_small z (2 ^ n)) by lia. apply Z.mod_pow2_bits_high. lia.
  - intros H. destruct (Z.lt_ge_cases z (2 ^ n)); [done|].
    assert (n ≤ Z.log2 z) by (apply Z.log2_le_pow2; lia).
    enough (Z.testbit z (Z.log2 z) = true) by (rewrite H in *; done).
    apply Z.bit_log2. pose proof (Z.pow_pos_nonneg 2 n). lia.
Qed.

Lemma lxor_u32 a b : is_u32 a → is_u32 b → is_u32 (Z.lxor a b).
Proof.
  unfold is_u32. intros [Ha Ha'] [Hb Hb'].
  assert (0 ≤ Z.lxor a b) by (apply Z.lxor_nonneg; lia). split; [done|].
  rewrite high_bits_clear in * by lia. intros i Hi. by rewrite Z.lxor_spec, Ha', Hb'.
Qed.

Lemma shiftr_u32 a n : 0 ≤ n → is_u32 a → is_u32 (Z.shiftr a n).
Proof.
  unfold is_u32. intros Hn [H1 H2]. rewrite Z.shiftr_div_pow2 by lia.
  pose proof (Z.pow_pos_nonneg 2 n). split; [apply Z.div_pos; lia|].
  apply Z.le_lt_trans with a; [|lia]. apply Z.div_le_upper_bound; [lia|]. nia.
Qed.

Lemma byte_u32 b : is_u32 (byte_val b).
Proof. unfold is_u32. pose proof (byte_val_range b). lia. Qed.

Lemma lnot_u32 c : is_u32 c → Z.land (Z.lnot c) 0xffffffff = Z.lxor c 0xffffffff.
Proof.
  intros [H1 H2]. apply Z.bits_inj'. intros i Hi.
  rewrite Z.land_spec, Z.lnot_spec, Z.lxor_spec by done. change 0xffffffff with (Z.ones 32).
  destruct (Z.lt_ge_cases i 32).
  - rewrite Z.ones_spec_low by lia. by destruct (Z.testbit c i).
  - rewrite Z.ones_spec_high by lia. rewrite (proj1 (high_bits_clear c 32 H1 ltac:(lia)) H2 i) by lia. done.
Qed.

(** ** One bit *)

Lemma crc_bit_u32 c : is_u32 c → is_u32 (crc_bit c).
Proof.
  intros H. unfold crc_bit. destruct (Z.odd c); [apply lxor_u32; [|done]|]; by apply shiftr_u32.
Qed.

Lemma crc_bit_xor a b : crc_bit (Z.lxor a b) = Z.lxor (crc_bit a) (crc_bit b).
Proof.
  unfold crc_bit. rewrite <-!Z.bit0_odd, Z.lxor_spec, Z.shiftr_lxor.
  destruct (Z.testbit a 0), (Z.testbit b 0); cbn [xorb].
  - rewrite (Z.lxor_comm (Z.shiftr b 1)), Z.lxor_assoc, <-(Z.lxor_assoc 0xedb88320).
    by rewrite Z.lxor_nilpotent, Z.lxor_0_l.
  - by rewrite !Z.lxor_assoc, (Z.lxor_comm 0xedb88320).
  - by rewrite Z.lxor_assoc.
  - done.
Qed.

Lemma crc_bits_xor n a b :
  Nat.iter n crc_bit (Z.lxor a b) = Z.lxor (Nat.iter n crc_bit a) (Nat.iter n crc_bit b).
Proof. induction n as [|n IH]; [done|]. by rewrite !Nat.iter_succ, IH, crc_bit_xor. Qed.

Lemma crc_bits_u32 n c : is_u32 c → is_u32 (Nat.iter n crc_bit c).
Proof. intros H. induction n; [done|]. rewrite Nat.iter_succ. by apply crc_bit_u32. Qed.

(** Clear low bits are shifted out one by one. *)
Lemma crc_bits_shift n h : Nat.iter n crc_bit (Z.shiftl h (Z.of_nat n)) = h.
Proof.
  revert h; induction n as [|n IH]; intros h; [apply Z.shiftl_0_r|].
  rewrite Nat.iter_succ_r. unfold crc_bit at 2.
  replace (Z.shiftl h (Z.of_nat (S n))) with (Z.shiftl (Z.shiftl h (Z.of_nat n)) 1)
    by (rewrite Z.shiftl_shiftl by lia; f_equal; lia).
  rewrite <-Z.bit0_odd, Z.shiftl_spec_low by lia.
  rewrite Z.shiftr_shiftl_l, Z.shiftl_0_r by lia. apply IH.
Qed.

(** No bit is lost. *)
Lemma crc_bit_zero c : is_u32 c → crc_bit c = 0 → c = 0.
Proof.
  intros Hc. unfold crc_bit. pose proof (Z.div2_odd c) as Hd. rewrite <-Z.div2_spec. unfold is_u32 in Hc.
  destruct (Z.odd c) eqn:E; cbn in Hd; [|lia]. intros H%Z.lxor_eq. lia.
Qed.

Lemma crc_bits_zero n c : is_u32 c → Nat.iter n crc_bit c = 0 → c = 0.
Proof.
  intros Hc. induction n as [|n IH]; [done|]. rewrite Nat.iter_succ. intros H%crc_bit_zero; [by apply IH|by apply crc_bits_u32].
Qed.

Lemma crc_byte_u32 c b : is_u32 c → is_u32 (crc_byte c b).
Proof. intros. apply crc_bits_u32, lxor_u32; [done|apply byte_u32]. Qed.

Lemma crc_byte_inj c c' b b' :
  is_u32 c → is_u32 c' → crc_byte c b = crc_byte c' b' → Z.lxor c c' = Z.lxor (byte_val b) (byte_val b').
Proof.
  intros Hc Hc' H. apply Z.lxor_eq_0_iff in H. unfold crc_byte in H. rewrite <-crc_bits_xor in H.
  apply crc_bits_zero in H; [|by repeat apply lxor_u32; try apply byte_u32].
  apply Z.lxor_eq. rewrite <-H. rewrite !Z.lxor_assoc. f_equal.
  rewrite <-!Z.lxor_assoc. f_equal. apply Z.lxor_comm.
Qed.

(** ** The table *)

Lemma crc32_table_entries :
  forallb (λ i, nth (Z.to_nat i) crc32_table 0 =? Nat.iter 8 crc_bit i) (seqZ 0 256) = true.
Proof. by vm_compute. Qed.

Lemma crc32_step_byte c b : is_u32 c → crc32_step c b = crc_byte c b.
Proof.
  intros Hc. unfold crc32_step, crc_byte. set (x := Z.lxor c (byte_val b)).
  assert (Z.shiftr x 8 = Z.shiftr c 8) as Hs.
  { unfold x. rewrite Z.shiftr_lxor, (Z.shiftr_div_pow2 (byte_val b)), Z.div_small by
      (try apply byte_val_range; lia). apply Z.lxor_0_r. }
  assert (0 ≤ Z.land x 0xff < 256) as Hr.
  { change 0xff with (Z.ones 8). rewrite Z.land_ones by done. by apply Z.mod_pos_bound. }
  pose proof crc32_table_entries as Ht. rewrite forallb_forall in Ht.
  specialize (Ht (Z.land x 0xff)). rewrite Z.eqb_eq in Ht. rewrite Ht by (apply list_elem_of_In, elem_of_seqZ; lia).
  rewrite <-Hs, <-(crc_bits_shift 8 (Z.shiftr x 8)), <-crc_bits_xor. f_equal.
  apply Z.bits_inj'. intros i Hi. rewrite Z.lxor_spec, Z.land_spec. change 0xff with (Z.ones 8).
  change (Z.of_nat 8) with 8. destruct (Z.lt_ge_cases i 8).
  - rewrite Z.ones_spec_low, Z.shiftl_spec_low by lia. by rewrite andb_true_r, xorb_false_r.
  - rewrite Z.ones_spec_high, Z.shiftl_spec, Z.shiftr_spec by lia. rewrite andb_false_r. cbn [xorb].
    f_equal. lia.
Qed.

Lemma crc32_steps_bytes c buf : is_u32 c → foldl crc32_step c buf = foldl crc_byte c buf ∧ is_u32 (foldl crc_byte c buf).
Proof.
  revert c; induction buf as [|b buf IH]; intros c Hc; cbn; [done|].
  rewrite crc32_step_byte by done. by apply IH, crc_byte_u32.
Qed.

(** C33: The table-driven checksum of a debug-link file is the CRC-32 of its
    definition, bit by bit with the polynomial 0x04c11db7; and it can be computed
    piece by piece. *)
Theorem debugLinkCrc32_correct (crc : Z) (a b : bytes) :
  is_u32 crc →
  debugLinkCrc32 crc a = crc32_bitwise crc a ∧
  debugLinkCrc32 (debugLinkCrc32 crc a) b = debugLinkCrc32 crc (a ++ b).
Proof.
  intros Hc. assert (∀ c buf, is_u32 c → debugLinkCrc32 c buf = crc32_bitwise c buf) as H.
  { intros c buf Hu. unfold debugLinkCrc32, crc32_bitwise. rewrite (lnot_u32 c) by done.
    destruct (crc32_steps_bytes (Z.lxor c 0xffffffff) buf) as [-> ?]; [by apply lxor_u32|]. by apply lnot_u32. }
  split; [by apply H|]. rewrite !H; [|done|done|].
  - unfold crc32_bitwise. by rewrite Z.lxor_assoc, Z.lxor_nilpotent, Z.lxor_0_r, foldl_app.
  - rewrite H by done. unfold crc32_bitwise. apply lxor_u32; [|done].
    apply crc32_steps_bytes. by apply lxor_u32.
Qed.

Lemma debugLinkCrc32_correct_witness :
  debugLinkCrc32 0 (str "123456789") = 0xcbf43926 ∧
  crc32_bitwise 0 (str "123456789") = 0xcbf43926.
Proof.
  destruct (debugLinkCrc32_correct 0 (str "123456789") []) as [H _]; [done|].
  assert (debugLinkCrc32 0 (str "123456789") = 0xcbf43926) as E by by vm_compute.
  split; [exact E|]. rewrite <-H. exact E.
Defined.

(** The state after the same bytes tells the states before apart. *)
Lemma crc_bytes_inj c c' buf :
  is_u32 c → is_u32 c' → foldl crc_byte c buf = foldl crc_byte c' buf → c = c'.
Proof.
  revert c c'; induction buf as [|b buf IH]; intros c c' Hc Hc'; cbn; [done|].
  intros H%IH; [|by apply crc_byte_u32..]. apply crc_byte_inj in H; [|done..].
  rewrite Z.lxor_nilpotent in H. by apply Z.lxor_eq.
Qed.

(** Files that differ in one byte have different checksums. *)
Lemma debugLinkCrc32_detects (a b : bytes) (x y : ascii) :
  debugLinkCrc32 0 (a ++ x :: b) = debugLinkCrc32 0 (a ++ y :: b) → x = y.
Proof.
  rewrite !(proj1 (debugLinkCrc32_correct 0 _ [] ltac:(done))). unfold crc32_bitwise.
  intros H%(f_equal (λ z, Z.lxor z 0xffffffff)). cbn beta in H.
  rewrite !Z.lxor_assoc, Z.lxor_nilpotent, !Z.lxor_0_r, !foldl_app in H. cbn in H.
  set (c := foldl crc_byte _ a) in H.
  assert (is_u32 c) as Hc by (apply crc32_steps_bytes; done).
  apply crc_bytes_inj in H; [|by apply crc_byte_u32..]. apply crc_byte_inj in H; [|done..].
  rewrite Z.lxor_nilpotent in H. symmetry in H. apply Z.lxor_eq in H. by apply byte_val_inj.
Qed.
