(* ===== verification/Elf.v ===== *)
(** * Segments, ELF sections and DWARF lines (src/src/include/elf.hh,
    src/src/parsers/elf.cc, dwarf.cc)

    libelf and libdw take a file apart; what they answer about a file is data
    here ([ElfHandle], [Dwarf]), and modelled is what kcov makes of it: the
    build-id and debug link of an ELF file and its executable segments, and the
    lines of the compilation units. *)
From S2P Require Export Utils.
From S2P Require Import MergeParser Crc32.
From stdpp Require Import options.

(** ** Segments *)

Record Segment := mkSegment {
  seg_data : option bytes;
  seg_paddr : Z;
  seg_vaddr : Z;
  seg_size : Z;
}.

Definition addressIsWithinSegment (s : Segment) (addr : Z) : bool :=
  (seg_paddr s <=? addr) && (addr <? u64 (seg_paddr s + seg_size s)).
Definition adjustAddress (s : Segment) (addr : Z) : Z :=
  if addressIsWithinSegment s addr then u64 (addr - seg_paddr s + seg_vaddr s) else addr.

(** ** What libelf answers *)

Record Shdr := mkShdr {
  sh_type : Z;
  sh_addr : Z;
  sh_size : Z;
  sh_flags : Z;
  sh_offset : Z;
}.

(** A section: its header at either width ([None] is NULL), the answers of
    [elf_getdata] (with the pointer [d_buf] in it) and [elf_strptr]. *)
Record Scn := mkScn {
  scn_shdr32 : option Shdr;
  scn_shdr64 : option Shdr;
  scn_data : option (option bytes);
  scn_name : option bytes;
}.

(** [eh_class] is the byte at [EI_CLASS] when [elf_getident] gives that many. *)
Record ElfHandle := mkElfHandle {
  eh_shstrndx_ok : bool;
  eh_class : option Z;
  eh_sections : list Scn;
}.

Definition ELFCLASS32 : Z := 1.
Definition SHT_NOTE : Z := 7.
Definition NT_GNU_BUILD_ID : Z := 3.
Definition SHF_ALLOC : Z := 2.
Definition SHF_EXECINSTR : Z := 4.
Definition sizeof_Nhdr : Z := 12.

(** ** ElfImpl *)

Record ElfImpl := mkElfImpl {
  e_buildId : bytes;
  e_debugLinkValid : bool;
  e_debugLink : bytes * Z;
  e_segments : list Segment;
}.
Definition new_ElfImpl : ElfImpl := mkElfImpl [] false ([], 0) [].

(** [strcmp(p, lit) == 0]: characters are read up to the first difference. *)
Fixpoint strcmp_eq (p lit : bytes) : res bool :=
  match p with
  | [] => Fault
  | c :: p =>
      match lit with
      | [] => Ok (bool_decide (c = NUL))
      | l :: lit => if bool_decide (c = l) then strcmp_eq p lit else Ok false
      end
  end.

Definition hex_digits : bytes := str "0123456789abcdef".
Definition hex_digit (n : Z) : ascii := nth (Z.to_nat (Z.land n 0xf)) hex_digits NUL.
Definition hex_byte (b : ascii) : bytes :=
  [hex_digit (Z.shiftr (byte_val b) 4); hex_digit (Z.shiftr (byte_val b) 0)].

Section elf.
Context (e : endian).

Definition parse_note (data : bytes) (el : ElfImpl) : res ElfImpl :=
  n_namesz ← host32 e data 0;
  n_descsz ← host32 e data 4;
  n_type ← host32 e data 8;
  gnu ← strcmp_eq (drop (Z.to_nat sizeof_Nhdr) data) (str "GNU");
  if gnu && (n_type =? NT_GNU_BUILD_ID) then
    build_id ← zread data (sizeof_Nhdr + n_namesz) (Z.to_nat n_descsz);
    Ok (mkElfImpl (e_buildId el ++ (build_id ≫= hex_byte)) (e_debugLinkValid el) (e_debugLink el)
          (e_segments el))
  else Ok el.

Definition parse_debuglink (data : bytes) (el : ElfImpl) : res ElfImpl :=
  p ← c_str data;
  let addr := Z.of_nat (length p) + 1 in
  let offs := if negb (Z.land addr 3 =? 0) then 4 - Z.land addr 3 else 0 in
  crc ← host32 e data (addr + offs);
  Ok (mkElfImpl (e_buildId el) true ((e_debugLink el).1 ++ p, crc) (e_segments el)).

(** The body of the loop over the sections. *)
Definition parse_section (m_fileData : bytes) (elfIs32Bit : bool) (el : ElfImpl) (scn : Scn) : res ElfImpl :=
  shdr ← or_fault (if elfIs32Bit then scn_shdr32 scn else scn_shdr64 scn);
  match scn_data scn with
  | None | Some None => Ok el
  | Some (Some data) =>
      el ← (if sh_type shdr =? SHT_NOTE then parse_note data el else Ok el);
      name ← or_fault (scn_name scn);
      el ← (if bool_decide (name = str ".gnu_debuglink") then parse_debuglink data el else Ok el);
      if negb (Z.land (sh_flags shdr) (Z.lor SHF_EXECINSTR SHF_ALLOC) =? Z.lor SHF_EXECINSTR SHF_ALLOC)
      then Ok el
      else
        text ← zread m_fileData (sh_offset shdr) (Z.to_nat (sh_size shdr));
        Ok (mkElfImpl (e_buildId el) (e_debugLinkValid el) (e_debugLink el)
              (e_segments el ++ [mkSegment (Some text) (sh_addr shdr) (sh_addr shdr) (sh_size shdr)]))
  end.

(** [ElfImpl::parse], with the answer of [elf_memory]. *)
Definition ElfImpl_parse (elf_memory : bytes → option ElfHandle) (m_fileData : bytes) : res ElfImpl :=
  match elf_memory m_fileData with
  | None => Ok new_ElfImpl
  | Some elf =>
      if negb (eh_shstrndx_ok elf) then Ok new_ElfImpl
      else
        let elfIs32Bit := match eh_class elf with Some c => c =? ELFCLASS32 | None => true end in
        res_foldl (parse_section m_fileData elfIs32Bit) new_ElfImpl (eh_sections elf)
  end.

Definition getDebugLink (el : ElfImpl) : option (bytes * Z) :=
  if e_debugLinkValid el then Some (e_debugLink el) else None.

(** [IElf::create]: also the raw data, for [getRawData]. *)
Definition IElf_create (elf_memory : bytes → option ElfHandle) (data : option bytes) : res (option (ElfImpl * bytes)) :=
  match data with
  | None => Ok None
  | Some data => el ← ElfImpl_parse elf_memory data; Ok (Some (el, data))
  end.
End elf.

(** ** What libdw answers *)

Record DwLine := mkDwLine {
  dl_lineno : option Z;
  dl_linesrc : option bytes;
  dl_beginstatement : option bool;
  dl_lineaddr : option Z;
}.

(** The entry of a compilation unit: its lines (of which [dwarf_onesrcline] may
    not find one), whether it has files, the source directories, and
    [dwarf_getsrc_die]. *)
Record Die := mkDie {
  die_srclines : option (list (option DwLine));
  die_srcfiles : bool;
  die_srcdirs : option (list (option bytes));
  die_getsrc : Z → option DwLine;
}.

(** [dw_units]: for each compilation unit what [dwarf_nextcu] answers, the offset
    of the next unit and the size of the unit's header. *)
Record Dwarf := mkDwarf {
  dw_units : list (Z * Z);
  dw_offdie : Z → option Die;
}.

(** ** DwarfParser *)

Definition fullPath (srcDirs : list (option bytes)) (filename : bytes) : res bytes :=
  d ← or_fault (head srcDirs);
  let dir := default [] d in
  fullFilePath ← dir_concat dir filename;
  Ok (if bool_decide (head filename = Some "/"%char) then filename else fullFilePath).

(** What a line has to have to be announced. *)
Definition line_event (line : option DwLine) : option (Z * bytes * Z) :=
  line ← line;
  lineNr ← dl_lineno line;
  lineSource ← dl_linesrc line;
  isCode ← dl_beginstatement line;
  addr ← dl_lineaddr line;
  if lineNr =? 0 then None
  else if negb (isCode : bool) then None
  else Some (lineNr, lineSource, addr).

Section lines.
Context {S : Type} (onLine : bytes → Z → Z → S → res S).

Definition one_line (srcDirs : list (option bytes)) (s : S) (line : option DwLine) : res S :=
  match line_event line with
  | None => Ok s
  | Some (lineNr, lineSource, addr) =>
      path ← fullPath srcDirs lineSource;
      onLine path (u32 lineNr) addr s
  end.

Definition unit_lines (die : Die) (s : S) : res S :=
  match die_srclines die, die_srcfiles die, die_srcdirs die with
  | Some lines, true, Some ((_ :: _) as srcDirs) => res_foldl (one_line srcDirs) s lines
  | _, _, _ => Ok s
  end.

Fixpoint forEachLine_loop (dw : Dwarf) (units : list (Z * Z)) (lastOffset : Z) (s : S) : res S :=
  match units with
  | [] => Ok s
  | (offset, headerSize) :: units =>
      match dw_offdie dw (u64 (lastOffset + headerSize)) with
      | None => forEachLine_loop dw units lastOffset s
      | Some die => s ← unit_lines die s; forEachLine_loop dw units offset s
      end
  end.
Definition forEachLine (m_dwarf : option Dwarf) (s : S) : res S :=
  match m_dwarf with
  | None => Ok s
  | Some dw => forEachLine_loop dw (dw_units dw) 0 s
  end.

(** [forAddress]; the loop ends when a line has no source. *)
Fixpoint forAddress_loop (dw : Dwarf) (address : Z) (units : list (Z * Z)) (lastOffset : Z) (s : S) : res S :=
  match units with
  | [] => Ok s
  | (offset, headerSize) :: units =>
      match dw_offdie dw (u64 (lastOffset + headerSize)) with
      | None => forAddress_loop dw address units offset s
      | Some die =>
          match die_getsrc die address with
          | None => forAddress_loop dw address units offset s
          | Some line =>
              if negb (die_srcfiles die) then forAddress_loop dw address units offset s
              else
                match dl_linesrc line with
                | None => Ok s
                | Some lineSource =>
                    match die_srcdirs die, dl_lineno line with
                    | Some srcDirs, Some lineNr =>
                        path ← fullPath srcDirs lineSource;
                        s ← onLine path (u32 lineNr) address s;
                        forAddress_loop dw address units offset s
                    | _, _ => forAddress_loop dw address units offset s
                    end
                end
          end
      end
  end.
Definition forAddress (m_dwarf : option Dwarf) (address : Z) (s : S) : res S :=
  match m_dwarf with
  | None => Ok s
  | Some dw => forAddress_loop dw address (dw_units dw) 0 s
  end.
End lines.

(** ** What is read back *)

Lemma strcmp_eq_refl s r : no_nul s → strcmp_eq (s ++ NUL :: r) s = Ok true.
Proof.
  induction s as [|c s IH]; cbn; [done|]. intros [_ ?]%no_nul_cons.
  by rewrite bool_decide_eq_true_2, IH.
Qed.

Lemma hex_byte_inj b b' : hex_byte b = hex_byte b' → b = b'.
Proof.
  intros H.
  assert (forallb (λ i, forallb (λ j, negb (bool_decide (hex_byte (byte_of i) = hex_byte (byte_of j))) || (i =? j))
    (seqZ 0 256)) (seqZ 0 256) = true) as Ht by by vm_compute.
  rewrite forallb_forall in Ht. specialize (Ht (byte_val b)).
  rewrite forallb_forall in Ht. pose proof (byte_val_range b). pose proof (byte_val_range b').
  specialize (Ht ltac:(apply list_elem_of_In, elem_of_seqZ; lia) (byte_val b')).
  rewrite !byte_of_val, (bool_decide_eq_true_2 _ H) in Ht. cbn in Ht.
  apply byte_val_inj, Z.eqb_eq, Ht. apply list_elem_of_In, elem_of_seqZ. lia.
Qed.

Lemma hex_inj id id' : id ≫= hex_byte = id' ≫= hex_byte → id = id'.
Proof.
  revert id'; induction id as [|b id IH]; intros [|b' id']; [done..|].
  change (hex_byte b ++ (id ≫= hex_byte) = hex_byte b' ++ (id' ≫= hex_byte) → b :: id = b' :: id').
  intros H. apply app_inj_1 in H as [->%hex_byte_inj ->%IH]; done.
Qed.

(** The notes and debug links that linkers write. *)
Definition build_id_note (e : endian) (id : bytes) : bytes :=
  native_bytes e 4 4 ++ native_bytes e 4 (Z.of_nat (length id)) ++ native_bytes e 4 NT_GNU_BUILD_ID
  ++ str "GNU" ++ NUL :: id.
Definition debuglink_pad (name : bytes) : nat := Z.to_nat ((- (Z.of_nat (length name) + 1)) mod 4).
Definition debuglink_section (e : endian) (name : bytes) (crc : Z) : bytes :=
  name ++ NUL :: zeros (debuglink_pad name) ++ native_bytes e 4 crc.

Lemma host32_at e a v b off :
  off = Z.of_nat (length a) → 0 ≤ v < 2 ^ 32 → host32 e (a ++ native_bytes e 4 v ++ b) off = Ok v.
Proof.
  intros -> Hv. unfold host32. rewrite zread_skip by lia.
  rewrite zread_here by (rewrite ?length_native_bytes; lia). cbn. f_equal. rewrite native_val_bytes. by apply Z.mod_small.
Qed.

Lemma host32_head e v b : 0 ≤ v < 2 ^ 32 → host32 e (native_bytes e 4 v ++ b) 0 = Ok v.
Proof. by apply (host32_at e []). Qed.

(** The build-id of a note and the debug link of a section, as linkers write
    them, are read back on hosts of either byte order: the build-id as the
    hexadecimal name of its file under /usr/lib/debug/.build-id, which is
    different for different ids, and the link with its checksum. *)
Theorem debug_sections_read (e : endian) (id name : bytes) (crc : Z) (rest rest' : bytes) (el : ElfImpl) :
  Z.of_nat (length id) < 2 ^ 32 → no_nul name → is_u32 crc →
  e_buildId <$> parse_note e (build_id_note e id ++ rest) el = Ok (e_buildId el ++ (id ≫= hex_byte)) ∧
  (∀ id', id ≫= hex_byte = id' ≫= hex_byte → id = id') ∧
  getDebugLink <$> parse_debuglink e (debuglink_section e name crc ++ rest') el
  = Ok (Some ((e_debugLink el).1 ++ name, crc)).
Proof.
  intros Hid Hname Hcrc. split_and!; [|by apply hex_inj|].
  - unfold parse_note, build_id_note. rewrite <-!app_assoc.
    change ((NUL :: id) ++ rest) with (NUL :: (id ++ rest)).
    rewrite host32_head by done. cbn [mbind res_mbind res_bind].
    rewrite (host32_at e (native_bytes e 4 4) _ _ 4) by (rewrite ?length_native_bytes; lia).
    cbn [mbind res_mbind res_bind]. rewrite app_assoc.
    rewrite (host32_at e (native_bytes e 4 4 ++ _) _ _ 8) by (rewrite ?length_app, ?length_native_bytes; done).
    cbn [mbind res_mbind res_bind]. rewrite <-app_assoc.
    change (Z.to_nat sizeof_Nhdr) with 12%nat.
    do 3 rewrite drop_app_ge by (rewrite ?length_native_bytes; lia).
    rewrite !length_native_bytes. change (12 - 4 - 4 - 4)%nat with O. rewrite drop_0.
    rewrite strcmp_eq_refl by (apply (bool_decide_unpack _); vm_compute; exact I). cbn [mbind res_mbind res_bind andb Z.eqb].
    change (NT_GNU_BUILD_ID =? NT_GNU_BUILD_ID) with true.
    cbn [mbind res_mbind res_bind]. rewrite Nat2Z.id.
    do 3 rewrite zread_skip by (rewrite ?length_native_bytes; unfold sizeof_Nhdr; lia).
    rewrite !length_native_bytes.
    rewrite (zread_skip (str "GNU") (NUL :: id ++ rest)) by (cbn; unfold sizeof_Nhdr; lia).
    rewrite (zread_skip [NUL] (id ++ rest)) by (cbn; unfold sizeof_Nhdr; lia).
    rewrite zread_here by (cbn; unfold sizeof_Nhdr; lia). done.
  - unfold parse_debuglink, debuglink_section. rewrite <-!app_assoc. cbn [app]. rewrite <-app_assoc.
    rewrite c_str_app by done. cbn [mbind res_mbind res_bind].
    set (addr := Z.of_nat (length name) + 1).
    assert ((if negb (Z.land addr 3 =? 0) then 4 - Z.land addr 3 else 0) = Z.of_nat (debuglink_pad name)) as ->.
    { unfold debuglink_pad. fold addr. change 3 with (Z.ones 2). rewrite Z.land_ones by done. change (2 ^ 2) with 4.
      destruct (Z.eqb_spec (addr mod 4) 0); cbn [negb]; Z.div_mod_to_equations; lia. }
    replace (name ++ NUL :: zeros (debuglink_pad name) ++ native_bytes e 4 crc ++ rest')
      with ((name ++ NUL :: zeros (debuglink_pad name)) ++ native_bytes e 4 crc ++ rest')
      by (by rewrite <-app_assoc).
    rewrite host32_at; [done| |done]. rewrite length_app. cbn [length]. rewrite length_zeros. lia.
Qed.

Definition build_id_demo : bytes := byte_of <$> [0xab; 0x01; 0xff].
Lemma debug_sections_read_witness :
  Z.of_nat (length build_id_demo) < 2 ^ 32 ∧
  e_buildId <$> parse_note BigEndian (build_id_note BigEndian build_id_demo ++ []) new_ElfImpl
  = Ok (str "ab01ff").
Proof.
  split; [done|].
  destruct (debug_sections_read BigEndian build_id_demo (str "prog.debug") 0xcbf43926 [] [] new_ElfImpl)
    as (H & _ & _); [done|by apply (bool_decide_unpack _); vm_compute|by split|].
  rewrite H. reflexivity.
Defined.

(** ** The lines of all units *)

(** The lines a unit announces: path components, line and address. *)
Definition die_events (die : Die) : list (list (option bytes) * bytes * Z * Z) :=
  match die_srclines die, die_srcfiles die, die_srcdirs die with
  | Some lines, true, Some ((_ :: _) as srcDirs) =>
      omap (λ l, '(n, src, a) ← line_event l; Some (srcDirs, src, u32 n, a)) lines
  | _, _, _ => []
  end.

(** The entries of the units, each found at the end of the unit's header. *)
Fixpoint dies_found (dw : Dwarf) (units : list (Z * Z)) (start : Z) (dies : list Die) : Prop :=
  match units, dies with
  | [], [] => True
  | (offset, headerSize) :: units, die :: dies =>
      dw_offdie dw (u64 (start + headerSize)) = Some die ∧ dies_found dw units offset dies
  | _, _ => False
  end.

Lemma one_line_eq {S} (onLine : bytes → Z → Z → S → res S) dirs s line :
  one_line onLine dirs s line
  = match line_event line with
    | None => Ok s
    | Some (n, src, a) => path ← fullPath dirs src; onLine path (u32 n) a s
    end.
Proof. done. Qed.

Lemma unit_lines_events {S} (onLine : bytes → Z → Z → S → res S) die s :
  unit_lines onLine die s
  = res_foldl (λ s '(dirs, src, n, a), path ← fullPath dirs src; onLine path n a s) s (die_events die).
Proof.
  unfold unit_lines, die_events.
  destruct (die_srclines die) as [lines|], (die_srcfiles die), (die_srcdirs die) as [[|d dirs]|]; try done.
  revert s; induction lines as [|l lines IH]; intros s; [done|]. cbn -[fullPath one_line].
  rewrite one_line_eq. destruct (line_event l) as [[[n src] a]|]; cbn -[fullPath]; [|apply IH].
  destruct (fullPath (d :: dirs) src); cbn; [|done..]. destruct (onLine a0 (u32 n) a s); cbn; [|done..]. apply IH.
Qed.

Lemma forEachLine_all {S} (onLine : bytes → Z → Z → S → res S) (dw : Dwarf) (dies : list Die) (s : S) :
  dies_found dw (dw_units dw) 0 dies →
  forEachLine onLine (Some dw) s
  = res_foldl (λ s '(dirs, src, n, a), path ← fullPath dirs src; onLine path n a s) s (dies ≫= die_events).
Proof.
  cbn [forEachLine]. generalize (dw_units dw) 0. intros units start.
  revert start dies s. induction units as [|[offset hs] units IH]; intros start [|die dies] s; [done..|].
  intros [Hd Hds]. cbn [forEachLine_loop]. rewrite Hd.
  change ((die :: dies) ≫= die_events) with (die_events die ++ (dies ≫= die_events)).
  rewrite res_foldl_app, unit_lines_events.
  destruct (res_foldl _ s (die_events die)); cbn; [|done..]. by apply IH.
Qed.

(** When the entry of every compilation unit is found, the listener is told
    of each line that has a number, a source and an address and begins a
    statement, in the order of the line tables, and of nothing else. *)
Theorem forEachLine_events {S} (onLine : bytes → Z → Z → S → res S) (dw : Dwarf) (dies : list Die) (s : S) :
  dies_found dw (dw_units dw) 0 dies →
  forEachLine onLine (Some dw) s
  = res_foldl (λ s '(dirs, src, n, a), path ← fullPath dirs src; onLine path n a s) s (dies ≫= die_events).
Proof. apply forEachLine_all. Qed.

(** A line that is in the code of a file in the compilation directory. *)
Definition plain_line (n : Z) (src : bytes) (a : Z) : option DwLine :=
  Some (mkDwLine (Some n) (Some src) (Some true) (Some a)).
Definition plain_die (lines : list (option DwLine)) : Die :=
  mkDie (Some lines) true (Some [Some (str "/work")]) (λ a, default None (head (filter (λ l, from_option dl_lineaddr None l = Some a) lines))).
Definition collect_line : bytes → Z → Z → list (bytes * Z * Z) → res (list (bytes * Z * Z)) :=
  λ f n a s, Ok (s ++ [(f, n, a)]).

Definition two_units : Dwarf :=
  mkDwarf [(100, 11); (200, 11)] (λ o,
    if o =? 11 then Some (plain_die [plain_line 3 (str "a.c") 0x1000; plain_line 0 (str "a.c") 0x1004])
    else if o =? 111 then Some (plain_die [plain_line 7 (str "/usr/b.h") 0x2000]) else None).

Lemma forEachLine_events_witness :
  forEachLine collect_line (Some two_units) [] = Ok [(str "/work/a.c", 3, 0x1000); (str "/usr/b.h", 7, 0x2000)].
Proof.
  rewrite (forEachLine_events collect_line two_units
    [plain_die [plain_line 3 (str "a.c") 0x1000; plain_line 0 (str "a.c") 0x1004];
     plain_die [plain_line 7 (str "/usr/b.h") 0x2000]] []).
  - reflexivity.
  - by split_and!.
Defined.

(** A unit whose entry is not found makes [forEachLine] lose all units after it,
    since it goes on looking at the old offset; [forAddress] finds them. *)
Definition first_unit_lost : Dwarf :=
  mkDwarf [(100, 11); (200, 11); (300, 11)] (λ o,
    if o =? 111 then Some (plain_die [plain_line 3 (str "a.c") 0x1000])
    else if o =? 211 then Some (plain_die [plain_line 7 (str "b.c") 0x2000]) else None).

Theorem units_lost :
  forEachLine collect_line (Some first_unit_lost) [] = Ok [] ∧
  forAddress collect_line (Some first_unit_lost) 0x1000 [] = Ok [(str "/work/a.c", 3, 0x1000)] ∧
  forAddress collect_line (Some first_unit_lost) 0x2000 [] = Ok [(str "/work/b.c", 7, 0x2000)].
Proof. by vm_compute. Qed.
