(* ===== verification/MachoParser.v ===== *)
(** * The Mach-O parser (src/src/parsers/macho-parser.cc)

    The commands of a Mach-O file are walked by hand and modelled on the bytes of
    the file; the line table comes from libdwarf, whose answers are data here. *)
From S2P Require Export Interfaces Elf.
From S2P Require Import CxxString Crc32 Configuration UtilsFiles.
From stdpp Require Import options.

(** mach-o/loader.h and fat.h *)
Definition FAT_MAGIC : Z := 0xcafebabe.
Definition FAT_MAGIC_64 : Z := 0xcafebabf.
Definition MACHO_MAGIC_64 : Z := 0xfeedfacf.
Definition MH_EXECUTE : Z := 2.
Definition MH_DSYM : Z := 10.
Definition LC_SEGMENT_64 : Z := 0x19.
Definition sizeof_mach_header_64 : Z := 32.
Definition sizeof_segment_command_64 : Z := 72.
Definition sizeof_section_64 : Z := 80.

(** [read_file] with the name as its text. *)
Definition read_named_file (files : bytes → option bytes) (name : bytes) : res (option bytes) :=
  if 2048 <=? Z.of_nat (length name) then Panic
  else
    match files (c_prefix name) with
    | None => Ok None
    | Some content => '(p, _) ← or_fault (read_file content); Ok (Some p)
    end.

(** [strcmp] with a field of a structure; pointers are offsets into the block. *)
Definition field_is (data : bytes) (off : Z) (lit : bytes) : res bool := strcmp_eq (drop (Z.to_nat off) data) lit.

Section macho.
Context (e : endian).

(** ** Is it a Go program? *)

Fixpoint go_sections (data : bytes) (section_ptr : Z) (nsects : nat) : res bool :=
  match nsects with
  | O => Ok false
  | S n =>
      found ← field_is data section_ptr (str "__go_buildinfo");
      if found : bool then Ok true else go_sections data (section_ptr + sizeof_section_64) n
  end.

Fixpoint go_commands (data : bytes) (cmd_ptr : Z) (ncmds : nat) : res bool :=
  match ncmds with
  | O => Ok false
  | S n =>
      cmd ← load e 4 data cmd_ptr;
      found ← (if cmd =? LC_SEGMENT_64 then
                 is_data ← field_is data (cmd_ptr + 8) (str "__DATA");
                 if is_data : bool then
                   nsects ← load e 4 data (cmd_ptr + 64);
                   go_sections data (cmd_ptr + sizeof_segment_command_64) (Z.to_nat nsects)
                 else Ok false
               else Ok false);
      if found : bool then Ok true
      else cmdsize ← load e 4 data (cmd_ptr + 4); go_commands data (cmd_ptr + cmdsize) n
  end.

(** A file that can not be read is a NULL header. *)
Definition isGoBinary (files : bytes → option bytes) (filename : bytes) : res bool :=
  p ← read_named_file files filename;
  data ← or_fault p;
  ncmds ← load e 4 data 16;
  go_commands data sizeof_mach_header_64 (Z.to_nat ncmds).

(** [data] is the start of the file. *)
Definition macho_matchParser (files : bytes → option bytes) (filename data : bytes) (conf : Configuration)
  : res (Z * Configuration) :=
  magic ← load e 4 data 0;
  if magic =? FAT_MAGIC_64 then Ok (match_none, conf)
  else if magic =? MACHO_MAGIC_64 then
    is_go ← keyAsInt conf (str "is-go-binary");
    set ← (if is_go =? 0 then isGoBinary files filename else Ok false);
    Ok (match_perfect, if set : bool then setKey conf (str "is-go-binary") (VInt 1) else conf)
  else Ok (match_none, conf).

(** The command given to [system], if any. *)
Definition macho_setupParser (conf : Configuration) : res (option bytes) :=
  is_go ← keyAsInt conf (str "is-go-binary");
  if negb (is_go =? 0) then Ok None
  else
    path ← keyAsString conf (str "binary-path");
    name ← keyAsString conf (str "binary-name");
    cmd ← fmt (str "dsymutil " ++ c_prefix path ++ str "/" ++ c_prefix name);
    Ok (Some (c_prefix cmd)).

(** ** The commands of the debug file *)

(** [m_readPtr] and [m_dwarfSections]. *)
Definition parseSection (st : Z * list Z) : Z * list Z := (st.1 + sizeof_section_64, st.2 ++ [st.1]).

Definition commandParseSegment64 (data : bytes) (st : Z * list Z) : res (Z * list Z) :=
  debug ← field_is data (st.1 + 8) (str "__DWARF");
  if negb debug then Ok st
  else
    nsects ← load e 4 data (st.1 + 64);
    Ok (Nat.iter (Z.to_nat nsects) parseSection (st.1 + sizeof_segment_command_64, st.2)).

Fixpoint macho_commands (data : bytes) (ncmds : nat) (st : Z * list Z) : res (Z * list Z) :=
  match ncmds with
  | O => Ok st
  | S n =>
      let cmd_ptr := st.1 in
      cmd ← load e 4 data cmd_ptr;
      st ← (if cmd =? LC_SEGMENT_64 then commandParseSegment64 data st else Ok st);
      cmdsize ← load e 4 data (cmd_ptr + 4);
      macho_commands data n (st.1 + cmdsize, st.2)
  end.

(** ** The lines *)

(** The answers of libdwarf about a line: [None] is not DW_DLV_OK.  [ml_endsequence]
    is false also when the call fails. *)
Record MachoLine := mkMachoLine {
  ml_linesrc : option bytes;
  ml_lineno : option Z;
  ml_beginstatement : option bool;
  ml_lineaddr : option Z;
  ml_endsequence : bool;
}.

(** About a compilation unit: [None] when it has no entry or no line context; whether
    the entry has a name; its lines. *)
Record MachoUnit := mkMachoUnit { mu_diename : bool; mu_lines : option (list MachoLine) }.

Definition macho_line_event (diename : bool) (l : MachoLine) : option (bytes * Z * Z) :=
  filename ← ml_linesrc l;
  lineno ← ml_lineno l;
  is_code ← ml_beginstatement l;
  if negb diename then None
  else
    addr ← ml_lineaddr l;
    if negb (lineno =? 0) && is_code && negb (ml_endsequence l)
    then Some (c_prefix filename, u32 lineno, addr) else None.

Inductive MachoCall (L : Type) :=
  | MachoOnFile (listener : L) (filename : bytes)
  | MachoOnLine (listener : L) (filename : bytes) (lineno addr : Z).
#[global] Arguments MachoOnFile {L}.
#[global] Arguments MachoOnLine {L}.

Record MachoParser (L : Type) := mkMachoParser {
  mp_lineListeners : list L;
  mp_fileListeners : list L;
  mp_filename : bytes;
  mp_dwarfSections : list Z;
  mp_calls : list (MachoCall L);               (* made so far *)
}.
#[global] Arguments mkMachoParser {L}.
#[global] Arguments mp_lineListeners {L}.
#[global] Arguments mp_fileListeners {L}.
#[global] Arguments mp_filename {L}.
#[global] Arguments mp_dwarfSections {L}.
#[global] Arguments mp_calls {L}.
Definition new_MachoParser {L} : MachoParser L := mkMachoParser [] [] [] [] [].

Section parser.
Context {L : Type}.
Implicit Types p : MachoParser L.

Definition macho_addFile (filename : bytes) p : bool * MachoParser L :=
  (true, mkMachoParser (mp_lineListeners p) (mp_fileListeners p) filename (mp_dwarfSections p)
     (mp_calls p ++ ((λ l, MachoOnFile l filename) <$> mp_fileListeners p))).
Definition macho_registerLineListener (l : L) p : MachoParser L :=
  mkMachoParser (mp_lineListeners p ++ [l]) (mp_fileListeners p) (mp_filename p) (mp_dwarfSections p) (mp_calls p).
Definition macho_registerFileListener (l : L) p : MachoParser L :=
  mkMachoParser (mp_lineListeners p) (mp_fileListeners p ++ [l]) (mp_filename p) (mp_dwarfSections p) (mp_calls p).
Definition macho_setMainFileRelocation (relocation : Z) p : bool := true.
Definition macho_getChecksum p : Z := 0.
Definition macho_getParserType p : bytes := str "Mach-O".
Definition macho_maxPossibleHits p : PossibleHits := HITS_LIMITED.

(** The body of the loop over the lines of a unit, and that over the units. *)
Definition macho_line (diename : bool) p (l : MachoLine) : MachoParser L :=
  match macho_line_event diename l with
  | None => p
  | Some (filename, lineno, addr) =>
      mkMachoParser (mp_lineListeners p) (mp_fileListeners p) (mp_filename p) (mp_dwarfSections p)
        (mp_calls p ++ ((λ l, MachoOnLine l filename lineno addr) <$> mp_lineListeners p))
  end.
Definition macho_unit p (u : MachoUnit) : MachoParser L :=
  match mu_lines u with None => p | Some lines => foldl (macho_line (mu_diename u)) p lines end.

(** [dwarf_init_path] gives the units of a file. *)
Definition macho_parse (conf : Configuration) (files : bytes → option bytes)
    (dwarf_init_path : bytes → option (list MachoUnit)) p : res (bool * MachoParser L) :=
  path ← keyAsString conf (str "binary-path");
  binary ← keyAsString conf (str "binary-name");
  name ← fmt (c_prefix path ++ str "/" ++ c_prefix binary ++ str ".dSYM/Contents/Resources/DWARF/" ++ c_prefix binary);
  is_go ← keyAsInt conf (str "is-go-binary");
  name ← (if negb (is_go =? 0) then fmt (c_prefix path ++ str "/" ++ c_prefix binary) else Ok name);
  m_fileData ← read_named_file files name;
  match m_fileData with
  | None => Ok (false, p)
  | Some data =>
      magic ← load e 4 data 0;
      if magic =? FAT_MAGIC then Ok (false, p)
      else
        filetype ← load e 4 data 12;
        if negb (filetype =? MH_DSYM) && negb (filetype =? MH_EXECUTE) then Ok (false, p)
        else
          ncmds ← load e 4 data 16;
          '(_, sections) ← macho_commands data (Z.to_nat ncmds) (sizeof_mach_header_64, mp_dwarfSections p);
          let p := mkMachoParser (mp_lineListeners p) (mp_fileListeners p) (mp_filename p) sections (mp_calls p) in
          match dwarf_init_path (c_prefix name) with
          | None => Ok (false, p)
          | Some units => Ok (true, foldl macho_unit p units)
          end
  end.
End parser.
End macho.

(** ** Files as linkers write them *)

Definition name16 (s : bytes) : bytes := s ++ zeros (16 - length s).

(** Of a section what follows its name (segment name, address, size, ...), of a
    segment what lies between its name and the number of its sections, and its flags. *)
Record MachoSection := mkMachoSection { ms_name : bytes; ms_rest : bytes }.
Inductive MachoCommand :=
  | MachoSegment (segname mid flags : bytes) (sections : list MachoSection)
  | MachoOther (cmd : Z) (body : bytes).

Definition wf_name (s : bytes) : Prop := no_nul s ∧ (length s ≤ 16)%nat.
Definition wf_section (s : MachoSection) : Prop := wf_name (ms_name s) ∧ length (ms_rest s) = 64%nat.
Definition wf_command (c : MachoCommand) : Prop :=
  match c with
  | MachoSegment segname mid flags sections =>
      wf_name segname ∧ length mid = 40%nat ∧ length flags = 4%nat ∧ Forall wf_section sections ∧
      72 + 80 * Z.of_nat (length sections) < 2 ^ 32
  | MachoOther cmd body => cmd ≠ LC_SEGMENT_64 ∧ is_u32 cmd ∧ 8 + Z.of_nat (length body) < 2 ^ 32
  end.

Definition is_segment (segname : bytes) (c : MachoCommand) : bool :=
  match c with MachoSegment s _ _ _ => bool_decide (s = segname) | MachoOther _ _ => false end.
Definition sections_of (c : MachoCommand) : list MachoSection :=
  match c with MachoSegment _ _ _ sections => sections | MachoOther _ _ => [] end.

Section encoding.
Context (e : endian).

Definition enc_section (s : MachoSection) : bytes := name16 (ms_name s) ++ ms_rest s.
Definition enc_command (c : MachoCommand) : bytes :=
  match c with
  | MachoSegment segname mid flags sections =>
      native_bytes e 4 LC_SEGMENT_64 ++ native_bytes e 4 (72 + 80 * Z.of_nat (length sections)) ++
      name16 segname ++ mid ++ native_bytes e 4 (Z.of_nat (length sections)) ++ flags ++
      (sections ≫= enc_section)
  | MachoOther cmd body => native_bytes e 4 cmd ++ native_bytes e 4 (8 + Z.of_nat (length body)) ++ body
  end.
Definition macho_header (cpu : bytes) (filetype ncmds : Z) (sizes_flags : bytes) : bytes :=
  native_bytes e 4 MACHO_MAGIC_64 ++ cpu ++ native_bytes e 4 filetype ++ native_bytes e 4 ncmds ++ sizes_flags.
Definition macho_file (cpu sizes_flags : bytes) (filetype : Z) (cmds : list MachoCommand) (rest : bytes) : bytes :=
  macho_header cpu filetype (Z.of_nat (length cmds)) sizes_flags ++ (cmds ≫= enc_command) ++ rest.

Lemma strcmp_field s k rest lit :
  no_nul s → no_nul lit → (length lit < length s + k)%nat →
  strcmp_eq (s ++ zeros k ++ rest) lit = Ok (bool_decide (s = lit)).
Proof.
  revert lit. induction s as [|c s IH]; intros lit Hs Hl Hk.
  - destruct k as [|k]; [cbn in Hk; lia|]. destruct lit as [|l lit]; [done|].
    apply no_nul_cons in Hl as [Hl _]. cbn. rewrite bool_decide_eq_false_2 by congruence. done.
  - apply no_nul_cons in Hs as [Hc Hs]. destruct lit as [|l lit]; cbn.
    + by rewrite bool_decide_eq_false_2.
    + apply no_nul_cons in Hl as [_ Hl]. cbn in Hk. destruct (decide (c = l)) as [->|Hne].
      * rewrite bool_decide_eq_true_2 by done. rewrite IH by (done || lia). f_equal.
        apply bool_decide_ext. split; congruence.
      * by rewrite !bool_decide_eq_false_2 by congruence.
Qed.

Lemma field_skip a b off lit :
  Z.of_nat (length a) ≤ off → field_is (a ++ b) off lit = field_is b (off - Z.of_nat (length a)) lit.
Proof.
  intros H. unfold field_is. rewrite drop_app_ge by lia. do 2 f_equal. lia.
Qed.
Lemma field_here s rest lit : wf_name s → no_nul lit → (length lit < 16)%nat →
  field_is (name16 s ++ rest) 0 lit = Ok (bool_decide (s = lit)).
Proof.
  intros [Hs Hl] Hlit Hk. unfold field_is, name16. change (Z.to_nat 0) with O. rewrite drop_0, <-app_assoc.
  apply strcmp_field; [done|done|lia].
Qed.
Lemma length_name16 s : wf_name s → length (name16 s) = 16%nat.
Proof. intros [_ H]. unfold name16. rewrite length_app, length_zeros. lia. Qed.

Lemma field_section_name s post lit : wf_section s → no_nul lit → (length lit < 16)%nat →
  field_is (enc_section s ++ post) 0 lit = Ok (bool_decide (ms_name s = lit)).
Proof. intros [H _] ? ?. unfold enc_section. rewrite <-app_assoc. by apply field_here. Qed.

Lemma length_enc_section s : wf_section s → length (enc_section s) = 80%nat.
Proof. intros [H1 H2]. unfold enc_section. rewrite length_app, length_name16, H2 by done. done. Qed.
Lemma length_enc_sections l : Forall wf_section l → length (l ≫= enc_section) = (80 * length l)%nat.
Proof.
  induction 1 as [|s l Hs _ IH]; [done|]. cbn -[Nat.mul]. rewrite length_app, IH, length_enc_section by done. cbn. lia.
Qed.
End encoding.

Section reading.
Context (e : endian).

Lemma load4_here v c : is_u32 v → load e 4 (native_bytes e 4 v ++ c) 0 = Ok v.
Proof. intros H. rewrite load_here by done. f_equal. apply Z.mod_small. by unfold is_u32 in H. Qed.

Lemma load4_at a v c off : off = Z.of_nat (length a) → is_u32 v → load e 4 (a ++ native_bytes e 4 v ++ c) off = Ok v.
Proof. intros -> H. rewrite load_skip by lia. rewrite Z.sub_diag. by apply load4_here. Qed.

Lemma go_sections_ok l : Forall wf_section l → ∀ pre post,
  go_sections (pre ++ (l ≫= enc_section) ++ post) (Z.of_nat (length pre)) (length l)
  = Ok (existsb (λ s, bool_decide (ms_name s = str "__go_buildinfo")) l).
Proof using Type.
  induction 1 as [|s l Hs Hl IH]; intros pre post; [done|]. cbn [length go_sections existsb].
  change ((s :: l) ≫= enc_section) with (enc_section s ++ (l ≫= enc_section)).
  rewrite <-app_assoc, field_skip by lia. rewrite Z.sub_diag, field_section_name by
    (done || (by apply (bool_decide_unpack _); vm_compute) || (cbn; lia)).
  cbn [mbind res_mbind res_bind]. destruct (bool_decide (ms_name s = _)); [done|]. cbn [orb].
  specialize (IH (pre ++ enc_section s) post). rewrite length_app, length_enc_section in IH by done.
  rewrite <-app_assoc in IH. rewrite <-IH. f_equal. unfold sizeof_section_64. lia.
Qed.

Definition command_kind (c : MachoCommand) : Z :=
  match c with MachoSegment _ _ _ _ => LC_SEGMENT_64 | MachoOther cmd _ => cmd end.
Definition command_size (c : MachoCommand) : Z :=
  match c with
  | MachoSegment _ _ _ sections => 72 + 80 * Z.of_nat (length sections)
  | MachoOther _ body => 8 + Z.of_nat (length body)
  end.

Lemma length_enc_command c : wf_command c → Z.of_nat (length (enc_command e c)) = command_size c.
Proof using Type.
  destruct c as [seg mid flags l | cmd body]; cbn [wf_command enc_command command_size].
  - intros (Hs & Hm & Hf & Hl & _). rewrite !length_app, !length_native_bytes, length_name16, Hm, Hf,
      length_enc_sections by done. lia.
  - intros _. rewrite !length_app, !length_native_bytes. lia.
Qed.

Lemma command_fields c pre post : wf_command c →
  load e 4 (pre ++ enc_command e c ++ post) (Z.of_nat (length pre)) = Ok (command_kind c) ∧
  load e 4 (pre ++ enc_command e c ++ post) (Z.of_nat (length pre) + 4) = Ok (command_size c).
Proof using Type.
  intros Hwf. assert (is_u32 (command_kind c) ∧ is_u32 (command_size c)) as [Hk Hs].
  { unfold is_u32. destruct c; cbn in *; [|unfold is_u32 in Hwf]; split; unfold LC_SEGMENT_64; lia. }
  assert (∃ body, enc_command e c = native_bytes e 4 (command_kind c) ++ native_bytes e 4 (command_size c) ++ body)
    as [body ->] by (destruct c; cbn; by eexists).
  rewrite <-!app_assoc. split.
  - by apply load4_at.
  - rewrite app_assoc. apply load4_at; [|done]. rewrite length_app, length_native_bytes. lia.
Qed.

Lemma segment_fields seg mid flags l pre post lit :
  let c := MachoSegment seg mid flags l in
  wf_command c → no_nul lit → (length lit < 16)%nat →
  field_is (pre ++ enc_command e c ++ post) (Z.of_nat (length pre) + 8) lit = Ok (bool_decide (seg = lit)) ∧
  load e 4 (pre ++ enc_command e c ++ post) (Z.of_nat (length pre) + 64) = Ok (Z.of_nat (length l)) ∧
  go_sections (pre ++ enc_command e c ++ post) (Z.of_nat (length pre) + 72) (length l)
  = Ok (existsb (λ s, bool_decide (ms_name s = str "__go_buildinfo")) l).
Proof using Type.
  intros c (Hs & Hm & Hf & Hl & Hn) Hlit Hk. unfold c. cbn [enc_command]. rewrite <-!app_assoc. split_and!.
  - do 3 rewrite field_skip by (rewrite ?length_native_bytes; lia). rewrite !length_native_bytes.
    match goal with |- field_is _ ?o _ = _ => replace o with 0 by lia end. by apply field_here.
  - do 5 rewrite load_skip by (rewrite ?length_native_bytes, ?length_name16, ?Hm by done; lia).
    rewrite !length_native_bytes, length_name16, Hm by done.
    match goal with |- load _ _ _ ?o = _ => replace o with 0 by lia end. apply load4_here. unfold is_u32. lia.
  - pose proof (go_sections_ok l Hl (pre ++ native_bytes e 4 LC_SEGMENT_64 ++
      native_bytes e 4 (72 + 80 * Z.of_nat (length l)) ++ name16 seg ++ mid ++
      native_bytes e 4 (Z.of_nat (length l)) ++ flags) post) as H.
    rewrite <-!app_assoc in H. rewrite <-H. f_equal.
    rewrite !length_app, !length_native_bytes, length_name16, Hm, Hf by done. lia.
Qed.

Definition is_go_command (c : MachoCommand) : bool :=
  is_segment (str "__DATA") c && existsb (λ s, bool_decide (ms_name s = str "__go_buildinfo")) (sections_of c).

Lemma go_commands_ok cmds : Forall wf_command cmds → ∀ pre post,
  go_commands e (pre ++ (cmds ≫= enc_command e) ++ post) (Z.of_nat (length pre)) (length cmds)
  = Ok (existsb is_go_command cmds).
Proof using Type.
  induction 1 as [|c cmds Hc _ IH]; intros pre post; [done|]. cbn [length go_commands existsb].
  change ((c :: cmds) ≫= enc_command e) with (enc_command e c ++ (cmds ≫= enc_command e)). rewrite <-app_assoc.
  set (tail := (cmds ≫= enc_command e) ++ post). destruct (command_fields c pre tail Hc) as [-> Hsz].
  cbn [mbind res_mbind res_bind]. rewrite Hsz.
  assert (go_commands e (pre ++ enc_command e c ++ tail) (Z.of_nat (length pre) + command_size c) (length cmds)
          = Ok (existsb is_go_command cmds)) as Hrest.
  { rewrite <-(length_enc_command c Hc), <-Nat2Z.inj_add, <-length_app, app_assoc. apply IH. }
  destruct c as [seg mid flags l | cmd body]; cbn [command_kind].
  - destruct (segment_fields seg mid flags l pre tail (str "__DATA") Hc) as (-> & -> & Hg);
      [by apply (bool_decide_unpack _); vm_compute|cbn; lia|].
    assert (is_go_command (MachoSegment seg mid flags l) = bool_decide (seg = str "__DATA") &&
      existsb (λ s, bool_decide (ms_name s = str "__go_buildinfo")) l) as -> by done.
    rewrite Z.eqb_refl. cbn [mbind res_mbind res_bind].
    destruct (bool_decide (seg = str "__DATA")); cbn [mbind res_mbind res_bind andb orb]; [|done].
    rewrite Nat2Z.id. unfold sizeof_segment_command_64. rewrite Hg. cbn [mbind res_mbind res_bind].
    by destruct (existsb _ l).
  - destruct Hc as [Hne _]. destruct (Z.eqb_spec cmd LC_SEGMENT_64); [done|]. cbn. done.
Qed.
End reading.

Definition wf_file (cpu sizes_flags : bytes) (filetype : Z) (cmds : list MachoCommand) : Prop :=
  length cpu = 8%nat ∧ length sizes_flags = 12%nat ∧ is_u32 filetype ∧ is_u32 (Z.of_nat (length cmds)) ∧
  Forall wf_command cmds.

Lemma header_fields e cpu sf ft cmds rest : wf_file cpu sf ft cmds →
  load e 4 (macho_file e cpu sf ft cmds rest) 0 = Ok MACHO_MAGIC_64 ∧
  load e 4 (macho_file e cpu sf ft cmds rest) 12 = Ok ft ∧
  load e 4 (macho_file e cpu sf ft cmds rest) 16 = Ok (Z.of_nat (length cmds)) ∧
  length (macho_header e cpu ft (Z.of_nat (length cmds)) sf) = 32%nat.
Proof.
  intros (Hc & Hs & Hft & Hn & _). unfold macho_file, macho_header. rewrite <-!app_assoc. split_and!.
  - by apply load4_here.
  - do 2 rewrite load_skip by (rewrite ?length_native_bytes; lia). rewrite length_native_bytes, Hc.
    by apply load4_here.
  - do 3 rewrite load_skip by (rewrite ?length_native_bytes; lia). rewrite !length_native_bytes, Hc.
    by apply load4_here.
  - rewrite !length_app, !length_native_bytes. lia.
Qed.

Lemma read_named_file_ok files name content : no_nul name → Z.of_nat (length name) < 2048 →
  files name = Some content → ∃ k, read_named_file files name = Ok (Some (content ++ zeros k)).
Proof.
  intros Hnul Hlen Hf. unfold read_named_file. destruct (Z.leb_spec 2048 (Z.of_nat (length name))); [lia|].
  rewrite c_prefix_no_nul, Hf by done. destruct (read_file_content content) as (k & -> & _). by exists k.
Qed.

(** A Mach-O file of any commands and sections, in the host's byte order, is taken
    for a Go program exactly when a segment __DATA of it has a section
    __go_buildinfo; nothing outside the file is read. *)
Theorem macho_go_binary (e : endian) (files : bytes → option bytes) (filename cpu sf rest : bytes)
    (ft : Z) (cmds : list MachoCommand) :
  no_nul filename → Z.of_nat (length filename) < 2048 → wf_file cpu sf ft cmds →
  files filename = Some (macho_file e cpu sf ft cmds rest) →
  isGoBinary e files filename = Ok (existsb is_go_command cmds).
Proof.
  intros Hnul Hlen Hwf Hf. destruct (read_named_file_ok files filename _ Hnul Hlen Hf) as [k E].
  unfold isGoBinary. rewrite E. cbn [mbind res_mbind res_bind or_fault].
  assert (macho_file e cpu sf ft cmds rest ++ zeros k = macho_file e cpu sf ft cmds (rest ++ zeros k)) as ->
    by (unfold macho_file; by rewrite <-!app_assoc).
  destruct (header_fields e cpu sf ft cmds (rest ++ zeros k) Hwf) as (_ & _ & -> & Hlh).
  cbn [mbind res_mbind res_bind]. rewrite Nat2Z.id. unfold macho_file.
  change sizeof_mach_header_64 with (Z.of_nat 32). rewrite <-Hlh. apply go_commands_ok. apply Hwf.
Qed.

(** ** The debug file *)

Definition section_offsets (start : Z) (n : nat) : list Z := (λ i, start + 80 * Z.of_nat i) <$> seq 0 n.

Lemma iter_parseSection n start secs :
  Nat.iter n parseSection (start, secs) = (start + 80 * Z.of_nat n, secs ++ section_offsets start n).
Proof.
  induction n as [|n IH]; [by rewrite app_nil_r, Z.add_0_r|].
  rewrite Nat.iter_succ, IH. unfold parseSection, section_offsets, sizeof_section_64. cbn [fst snd].
  rewrite seq_S, fmap_app, app_assoc. cbn [fmap list_fmap Nat.add]. f_equal. lia.
Qed.

Section walk.
Context (e : endian).

Definition not_debug (c : MachoCommand) : Prop := is_segment (str "__DWARF") c = false.

(** A command that is no __DWARF segment is passed over. *)
Lemma macho_command_skip c : wf_command c → not_debug c → ∀ pre post n secs,
  macho_commands e (pre ++ enc_command e c ++ post) (S n) (Z.of_nat (length pre), secs)
  = macho_commands e (pre ++ enc_command e c ++ post) n (Z.of_nat (length (pre ++ enc_command e c)), secs).
Proof using Type.
  intros Hc Hd pre post n secs. cbn [macho_commands fst]. destruct (command_fields e c pre post Hc) as [-> Hsz].
  cbn [mbind res_mbind res_bind]. rewrite length_app, Nat2Z.inj_add, length_enc_command by done.
  enough ((if command_kind c =? LC_SEGMENT_64
           then commandParseSegment64 e (pre ++ enc_command e c ++ post) (Z.of_nat (length pre), secs)
           else Ok (Z.of_nat (length pre), secs)) = Ok (Z.of_nat (length pre), secs)) as ->
    by (cbn [mbind res_mbind res_bind]; by rewrite Hsz).
  destruct c as [seg mid flags l | cmd body]; cbn [command_kind].
  - rewrite Z.eqb_refl. unfold commandParseSegment64. cbn [fst].
    destruct (segment_fields e seg mid flags l pre post (str "__DWARF") Hc) as (-> & _ & _);
      [by apply (bool_decide_unpack _); vm_compute|cbn; lia|].
    unfold not_debug, is_segment in Hd. by rewrite Hd.
  - destruct Hc as [Hne _]. by destruct (Z.eqb_spec cmd LC_SEGMENT_64).
Qed.

Lemma macho_commands_skip cmds : Forall wf_command cmds → Forall not_debug cmds → ∀ pre post n secs,
  macho_commands e (pre ++ (cmds ≫= enc_command e) ++ post) (length cmds + n) (Z.of_nat (length pre), secs)
  = macho_commands e (pre ++ (cmds ≫= enc_command e) ++ post) n
      (Z.of_nat (length (pre ++ (cmds ≫= enc_command e))), secs).
Proof using Type.
  induction 1 as [|c cmds Hc _ IH]; intros Hd pre post n secs; [cbn; by rewrite app_nil_r|].
  apply Forall_cons in Hd as [Hdc Hd]. change ((c :: cmds) ≫= enc_command e) with (enc_command e c ++ (cmds ≫= enc_command e)).
  rewrite <-app_assoc. cbn [length Nat.add]. rewrite macho_command_skip by done.
  specialize (IH Hd (pre ++ enc_command e c) post n secs). rewrite <-!app_assoc in IH. exact IH.
Qed.

(** At a __DWARF segment the sections are remembered, and the pointer is moved past
    the segment twice. *)
Lemma macho_command_debug mid flags l : wf_command (MachoSegment (str "__DWARF") mid flags l) →
  ∀ pre post n secs, let c := MachoSegment (str "__DWARF") mid flags l in
  macho_commands e (pre ++ enc_command e c ++ post) (S n) (Z.of_nat (length pre), secs)
  = macho_commands e (pre ++ enc_command e c ++ post) n
      (Z.of_nat (length pre) + 2 * command_size c,
       secs ++ section_offsets (Z.of_nat (length pre) + 72) (length l)).
Proof using Type.
  intros Hc pre post n secs c. cbn [macho_commands fst]. destruct (command_fields e c pre post Hc) as [-> Hsz].
  unfold c in *. clear c.
  cbn [command_kind mbind res_mbind res_bind]. rewrite Z.eqb_refl. unfold commandParseSegment64. cbn [fst snd].
  destruct (segment_fields e (str "__DWARF") mid flags l pre post (str "__DWARF") Hc) as (-> & -> & _);
    [by apply (bool_decide_unpack _); vm_compute|cbn; lia|].
  rewrite bool_decide_eq_true_2 by done. cbn [mbind res_mbind res_bind negb].
  rewrite Nat2Z.id, iter_parseSection. rewrite Hsz. cbn [mbind res_mbind res_bind fst snd].
  f_equal. f_equal. unfold sizeof_segment_command_64. cbn [command_size]. lia.
Qed.
End walk.

(** The lines a unit announces, and as what: those libdwarf gives a file, a number that
    is not zero and an address for, that begin a statement and do not end a sequence,
    in units whose entry has a name. *)
Definition announced (l : MachoLine) : Prop :=
  is_Some (ml_linesrc l) ∧ is_Some (ml_lineno l) ∧ ml_lineno l ≠ Some 0 ∧
  ml_beginstatement l = Some true ∧ is_Some (ml_lineaddr l) ∧ ml_endsequence l = false.
#[global] Instance announced_dec l : Decision (announced l).
Proof. unfold announced. apply _. Defined.

Definition announcement (l : MachoLine) : bytes * Z * Z :=
  (c_prefix (default [] (ml_linesrc l)), u32 (default 0 (ml_lineno l)), default 0 (ml_lineaddr l)).
Definition announcements (u : MachoUnit) : list (bytes * Z * Z) :=
  if mu_diename u then announcement <$> filter announced (default [] (mu_lines u)) else [].

Definition macho_unit_events (u : MachoUnit) : list (bytes * Z * Z) :=
  match mu_lines u with None => [] | Some lines => omap (macho_line_event (mu_diename u)) lines end.

Lemma macho_line_announced l :
  macho_line_event true l = if decide (announced l) then Some (announcement l) else None.
Proof.
  unfold macho_line_event, announced, announcement. destruct l as [[f|] [n|] [b|] [a|] es]; cbn;
    try (rewrite decide_False; [by repeat case_match|]; intros (H1 & H2 & _ & H3 & H4 & _);
      (by destruct H1) || (by destruct H2) || done || (by destruct H4)).
  destruct (Z.eqb_spec n 0) as [->|Hn]; cbn.
  - rewrite decide_False; [done|]. by intros (_ & _ & H & _).
  - destruct b, es; cbn; first [rewrite decide_True; [done|by split_and!; eauto; intros [= ?]]
      |rewrite decide_False; [done|]; by intros (_ & _ & _ & ? & _ & ?)].
Qed.

Lemma macho_unit_announced u : macho_unit_events u = announcements u.
Proof.
  unfold macho_unit_events, announcements. destruct (mu_lines u) as [lines|]; [|by destruct (mu_diename u)].
  cbn [default from_option id]. destruct (mu_diename u).
  - induction lines as [|l lines IH]; [done|]. cbn [omap list_omap]. rewrite macho_line_announced, filter_cons.
    case_decide; [|done]. cbn. by f_equal.
  - induction lines as [|l lines IH]; [done|]. cbn [omap list_omap].
    replace (macho_line_event false l) with (@None (bytes * Z * Z)); [done|].
    unfold macho_line_event. destruct l as [[f|] [n|] [b|] a es]; done.
Qed.

Definition macho_tell {L} (listeners : list L) (ev : bytes * Z * Z) : list (MachoCall L) :=
  (λ l, MachoOnLine l ev.1.1 ev.1.2 ev.2) <$> listeners.
Definition with_calls {L} (calls : list (MachoCall L)) (p : MachoParser L) : MachoParser L :=
  mkMachoParser (mp_lineListeners p) (mp_fileListeners p) (mp_filename p) (mp_dwarfSections p) calls.

Lemma macho_lines_eq {L} (diename : bool) lines (p : MachoParser L) :
  foldl (macho_line diename) p lines
  = with_calls (mp_calls p ++ (omap (macho_line_event diename) lines ≫= macho_tell (mp_lineListeners p))) p.
Proof.
  revert p; induction lines as [|l lines IH]; intros p; cbn [foldl omap list_omap].
  - destruct p. unfold with_calls. cbn. by rewrite app_nil_r.
  - rewrite IH. unfold macho_line. destruct (macho_line_event diename l) as [[[f n] a]|]; [|done].
    unfold with_calls. cbn [mp_lineListeners mp_fileListeners mp_filename mp_dwarfSections mp_calls].
    f_equal. rewrite <-app_assoc. f_equal.
Qed.

Lemma macho_units_eq {L} units (p : MachoParser L) :
  foldl macho_unit p units
  = with_calls (mp_calls p ++ ((units ≫= macho_unit_events) ≫= macho_tell (mp_lineListeners p))) p.
Proof.
  revert p; induction units as [|u units IH]; intros p; cbn [foldl].
  - destruct p. unfold with_calls. cbn. by rewrite app_nil_r.
  - rewrite IH. change ((u :: units) ≫= macho_unit_events) with (macho_unit_events u ++ (units ≫= macho_unit_events)).
    rewrite bind_app, app_assoc. unfold macho_unit, macho_unit_events at 2.
    destruct (mu_lines u) as [lines|]; [|cbn [mbind list_bind]; by rewrite app_nil_r].
    by rewrite macho_lines_eq.
Qed.

Definition debug_file_name (path name : bytes) : bytes :=
  path ++ str "/" ++ name ++ str ".dSYM/Contents/Resources/DWARF/" ++ name.

(** C13: Of a well-formed debug file, found under the name that the configuration
    gives (of less than 2048 bytes, for a program that is not Go's), whose __DWARF
    segment is the last of its commands, as dsymutil writes it, every section is found
    where it is, and each listener is told of the
    lines of all units that have a number, begin a statement and do not end a
    sequence, in the order of the line tables ([announcements] says which and with
    which file, number and address). *)
Theorem macho_debug_file {L} (e : endian) (conf : Configuration) (files : bytes → option bytes)
    (dwarf_init_path : bytes → option (list MachoUnit)) (path name cpu sf mid flags rest : bytes) (ft : Z)
    (cmds : list MachoCommand) (l : list MachoSection) (units : list MachoUnit) (p : MachoParser L) :
  let debug := MachoSegment (str "__DWARF") mid flags l in
  let file := debug_file_name path name in
  keyAsString conf (str "binary-path") = Ok path → keyAsString conf (str "binary-name") = Ok name →
  keyAsInt conf (str "is-go-binary") = Ok 0 →
  no_nul path → no_nul name → Z.of_nat (length file) < 2048 →
  ft = MH_DSYM ∨ ft = MH_EXECUTE → wf_file cpu sf ft (cmds ++ [debug]) → Forall not_debug cmds →
  files file = Some (macho_file e cpu sf ft (cmds ++ [debug]) rest) → dwarf_init_path file = Some units →
  macho_parse e conf files dwarf_init_path p
  = Ok (true, mkMachoParser (mp_lineListeners p) (mp_fileListeners p) (mp_filename p)
      (mp_dwarfSections p ++ section_offsets (104 + Z.of_nat (length (cmds ≫= enc_command e))) (length l))
      (mp_calls p ++ ((units ≫= announcements) ≫= macho_tell (mp_lineListeners p)))).
Proof.
  intros debug file Hpath Hname Hgo Hn1 Hn2 Hlen Hft Hwf Hnd Hf Hd.
  assert (no_nul file) as Hnf by (unfold file, debug_file_name; repeat apply no_nul_app; try done;
    by apply (bool_decide_unpack _); vm_compute).
  destruct (read_named_file_ok files file _ Hnf Hlen Hf) as [k E].
  unfold macho_parse. rewrite Hpath, Hname. cbn [mbind res_mbind res_bind].
  rewrite !c_prefix_no_nul by done. fold (debug_file_name path name). fold file.
  rewrite (fmt_whole file), Hgo by done. cbn [mbind res_mbind res_bind Z.eqb negb]. rewrite E. cbn [mbind res_mbind res_bind].
  assert (macho_file e cpu sf ft (cmds ++ [debug]) rest ++ zeros k
          = macho_file e cpu sf ft (cmds ++ [debug]) (rest ++ zeros k)) as ->
    by (unfold macho_file; by rewrite <-!app_assoc).
  destruct (header_fields e cpu sf ft (cmds ++ [debug]) (rest ++ zeros k) Hwf) as (-> & -> & -> & Hlh).
  cbn [mbind res_mbind res_bind]. change (MACHO_MAGIC_64 =? FAT_MAGIC) with false. cbv iota.
  assert (negb (ft =? MH_DSYM) && negb (ft =? MH_EXECUTE) = false) as -> by by destruct Hft as [-> | ->].
  destruct Hwf as (_ & _ & _ & _ & Hwf). apply Forall_app in Hwf as [Hwc Hwd].
  apply Forall_cons in Hwd as [Hwd _].
  rewrite Nat2Z.id, length_app. cbn [length]. unfold macho_file. rewrite bind_app, <-app_assoc.
  change sizeof_mach_header_64 with (Z.of_nat 32). rewrite <-Hlh at 1.
  rewrite macho_commands_skip by done. cbn [mbind list_bind]. rewrite app_nil_r, app_assoc.
  unfold debug in *. clear debug. rewrite macho_command_debug by done. cbn [macho_commands mbind res_mbind res_bind].
  rewrite (c_prefix_no_nul file), Hd by done. rewrite macho_units_eq. unfold with_calls.
  replace (units ≫= macho_unit_events) with (units ≫= announcements)
    by (apply list_bind_ext; [intros u; symmetry; apply macho_unit_announced|done]).
  cbn [mp_lineListeners mp_fileListeners mp_filename mp_dwarfSections mp_calls]. do 4 f_equal.
  rewrite length_app, Hlh. f_equal. lia.
Qed.

(** A command after the __DWARF segment, as in the programs of the Go linker, is not
    found: the walk goes on as far behind the segment as the segment is long, and
    reads outside the file when it ends there.  A file that can not be read is a
    null pointer to [isGoBinary]. *)
Theorem macho_slips (e : endian) (mid flags : bytes) (l : list MachoSection) (pre post : bytes) (n : nat)
    (secs : list Z) (files : bytes → option bytes) (filename : bytes) :
  let debug := MachoSegment (str "__DWARF") mid flags l in
  (wf_command debug → Z.of_nat (length post) < command_size debug + 4 →
   macho_commands e (pre ++ enc_command e debug ++ post) (S (S n)) (Z.of_nat (length pre), secs) = Fault) ∧
  (files (c_prefix filename) = None → Z.of_nat (length filename) < 2048 → isGoBinary e files filename = Fault).
Proof.
  intros debug. split.
  - intros Hwf Hlen. unfold debug in *. rewrite macho_command_debug by done. cbn [macho_commands fst].
    unfold load, zread. set (s := command_size _) in *. rewrite !length_app.
    pose proof (length_enc_command e _ Hwf) as Hs. fold s in Hs.
    set (enc := length (enc_command e _)) in *.
    destruct (Z.leb_spec (Z.of_nat (length pre) + 2 * s + Z.of_nat 4) (Z.of_nat (length pre + (enc + length post)))); [lia|].
    by rewrite andb_false_r.
  - intros Hf Hlen. unfold isGoBinary, read_named_file.
    destruct (Z.leb_spec 2048 (Z.of_nat (length filename))); [lia|]. by rewrite Hf.
Qed.

(** *** On a file *)

Definition demo_section (name : bytes) : MachoSection := mkMachoSection name (zeros 64).
Definition demo_segment (name : bytes) (sections : list bytes) : MachoCommand :=
  MachoSegment name (zeros 40) (zeros 4) (demo_section <$> sections).
Definition demo_go_commands : list MachoCommand :=
  [demo_segment (str "__TEXT") [str "__text"]; MachoOther 0x1b (zeros 16);
   demo_segment (str "__DATA") [str "__data"; str "__go_buildinfo"]].
Definition demo_debug : MachoCommand := demo_segment (str "__DWARF") [str "__debug_line"; str "__debug_info"].

Lemma demo_wf_names (names : list bytes) : forallb (λ s, bool_decide (no_nul s) && bool_decide (length s ≤ 16)%nat) names = true →
  Forall wf_section (demo_section <$> names).
Proof.
  rewrite forallb_forall. intros H. apply Forall_fmap, Forall_forall. intros s Hs%list_elem_of_In%H.
  apply andb_prop in Hs as [?%bool_decide_eq_true_1 ?%bool_decide_eq_true_1]. by split; [split|].
Qed.
Lemma demo_wf_segment name names :
  bool_decide (no_nul name) && bool_decide (length name ≤ 16)%nat = true →
  forallb (λ s, bool_decide (no_nul s) && bool_decide (length s ≤ 16)%nat) names = true →
  72 + 80 * Z.of_nat (length names) < 2 ^ 32 → wf_command (demo_segment name names).
Proof.
  intros [?%bool_decide_eq_true_1 ?%bool_decide_eq_true_1]%andb_prop Hn Hl. unfold demo_segment, wf_command.
  split_and!; [done..|by apply demo_wf_names|by rewrite length_fmap].
Qed.

Lemma demo_go_wf : Forall wf_command demo_go_commands.
Proof. unfold demo_go_commands. do 3 (apply Forall_cons_2; [first [by apply demo_wf_segment | done]|]). done. Qed.

Lemma macho_go_binary_witness :
  isGoBinary LittleEndian (λ f, if bool_decide (f = str "/bin/prog")
      then Some (macho_file LittleEndian (zeros 8) (zeros 12) MH_EXECUTE demo_go_commands (str "code")) else None)
    (str "/bin/prog") = Ok true.
Proof.
  apply (macho_go_binary LittleEndian _ (str "/bin/prog") (zeros 8) (zeros 12) (str "code") MH_EXECUTE demo_go_commands).
  - by apply (bool_decide_unpack _); vm_compute.
  - done.
  - split_and!; [done|done|done|done|exact demo_go_wf].
  - done.
Defined.

Definition demo_macho_conf : Configuration :=
  set_keys newConfiguration [(str "binary-path", VString (str "/work")); (str "binary-name", VString (str "prog"))].
Definition demo_macho_file : bytes :=
  macho_file LittleEndian (zeros 8) (zeros 12) MH_DSYM (demo_go_commands ++ [demo_debug]) [].
Definition demo_macho_units : list MachoUnit :=
  [mkMachoUnit true (Some [mkMachoLine (Some (str "/work/a.c")) (Some 3) (Some true) (Some 0x1000) false;
                           mkMachoLine (Some (str "/work/a.c")) (Some 3) (Some false) (Some 0x1004) false;
                           mkMachoLine (Some (str "/work/a.c")) (Some 4) (Some true) (Some 0x1008) true])].

Lemma macho_debug_file_witness :
  mp_calls ∘ snd <$> macho_parse LittleEndian demo_macho_conf
    (λ f, if bool_decide (f = str "/work/prog.dSYM/Contents/Resources/DWARF/prog") then Some demo_macho_file else None)
    (λ _, Some demo_macho_units) (macho_registerLineListener 1 new_MachoParser)
  = Ok [MachoOnLine 1 (str "/work/a.c") 3 0x1000].
Proof.
  rewrite (macho_debug_file LittleEndian demo_macho_conf _ _ (str "/work") (str "prog") (zeros 8) (zeros 12)
    (zeros 40) (zeros 4) [] MH_DSYM demo_go_commands
    (demo_section <$> [str "__debug_line"; str "__debug_info"]) demo_macho_units).
  - vm_compute. reflexivity.
  - vm_compute. reflexivity.
  - vm_compute. reflexivity.
  - vm_compute. reflexivity.
  - by apply (bool_decide_unpack _); vm_compute.
  - by apply (bool_decide_unpack _); vm_compute.
  - done.
  - by left.
  - split_and!; [done|done|done|done|]. apply Forall_app. split; [exact demo_go_wf|].
    apply Forall_cons_2; [by apply demo_wf_segment|done].
  - repeat constructor.
  - done.
  - done.
Defined.
