(* ===== verification/LibDwarf.v ===== *)
(** * DWARF lines through libdwarf (src/src/parsers/dwarf-libdwarf.cc)

    The variant of the line parser for systems without libdw: the lines of all
    compilation units, and the descriptor behind them.  What libdwarf answers is
    data. *)
From S2P Require Export Elf.
From S2P Require Import Utils CxxString.
From stdpp Require Import options.

(** ** The lines *)

(** About a line; [None] is not DW_DLV_OK. *)
Record LdLine := mkLdLine {
  ld_lineno : option Z;
  ld_linesrc : option bytes;
  ld_beginstatement : option bool;
  ld_lineaddr : option Z;
}.

(** About a compilation unit: its lines, [None] without an entry or a line table. *)
Definition LdUnit : Type := option (list LdLine).

Definition ld_line_event (l : LdLine) : option (Z * bytes * Z) :=
  line_nr ← ld_lineno l;
  line_source ← ld_linesrc l;
  is_code ← ld_beginstatement l;
  addr ← ld_lineaddr l;
  if negb (line_nr =? 0) && is_code then Some (line_nr, line_source, addr) else None.

Section lines.
Context {S : Type} (onLine : bytes → Z → Z → S → res S).

(** The directories are one NULL pointer. *)
Definition ld_one_line (s : S) (l : LdLine) : res S :=
  match ld_line_event l with
  | None => Ok s
  | Some (line_nr, line_source, addr) =>
      path ← fullPath [None] (c_prefix line_source);
      onLine path (u32 line_nr) addr s
  end.
Definition ld_unit (s : S) (u : LdUnit) : res S :=
  match u with None => Ok s | Some lines => res_foldl ld_one_line s lines end.
Definition ld_forEachLine (units : list LdUnit) (s : S) : res S := res_foldl ld_unit s units.
Definition ld_forAddress (address : Z) (s : S) : res S := Panic.
End lines.

(** ** The descriptor *)

Inductive LdCall := LdOpen (fd : Z) | LdInit (fd : Z) | LdFinish | LdClose (fd : Z).

(** [m_fd] and [m_dwarf], and the calls made. *)
Record LdParser := mkLdParser { ld_fd : Z; ld_dwarf : option Z; ld_calls : list LdCall }.
Definition new_LdParser : LdParser := mkLdParser (-1) None [].

Definition ld_close (p : LdParser) : LdParser :=
  if ld_fd p <? 0 then p
  else mkLdParser (-1) None (ld_calls p ++ [LdFinish; LdClose (ld_fd p)]).

(** The result of [open(2)], and that of [dwarf_init]. *)
Inductive LdInitAnswer := LdOk (dwarf : Z) | LdNoEntry | LdError.

Definition ld_open (fd : Z) (init : LdInitAnswer) (p : LdParser) : bool * LdParser :=
  let p := ld_close p in
  if fd <? 0 then (false, mkLdParser fd (ld_dwarf p) (ld_calls p))
  else
    let calls := ld_calls p ++ [LdOpen fd; LdInit fd] in
    match init with
    | LdError => (false, mkLdParser (-1) (ld_dwarf p) (calls ++ [LdClose fd]))
    | LdOk d => (true, mkLdParser fd (Some d) calls)
    | LdNoEntry => (true, mkLdParser fd (ld_dwarf p) calls)
    end.

(** [~DwarfParser] *)
Definition ld_destroy (p : LdParser) : LdParser := ld_close p.

(** ** Properties *)

(** The events of all units. *)
Definition ld_events (units : list LdUnit) : list (Z * bytes * Z) :=
  units ≫= λ u, match u with None => [] | Some lines => omap ld_line_event lines end.

(** Without a directory a name is left as it is. *)
Lemma ld_fullPath filename : fullPath [None] filename = Ok filename.
Proof. unfold fullPath. cbn. by destruct (bool_decide _). Qed.

Lemma ld_one_line_eq {S} (onLine : bytes → Z → Z → S → res S) s l :
  ld_one_line onLine s l
  = match ld_line_event l with Some (n, src, a) => onLine (c_prefix src) (u32 n) a s | None => Ok s end.
Proof. unfold ld_one_line. destruct (ld_line_event l) as [[[n src] a]|]; [|done]. by rewrite ld_fullPath. Qed.

Lemma ld_unit_eq {S} (onLine : bytes → Z → Z → S → res S) lines s :
  res_foldl (ld_one_line onLine) s lines
  = res_foldl (λ s '(n, src, a), onLine (c_prefix src) (u32 n) a s) s (omap ld_line_event lines).
Proof.
  revert s; induction lines as [|l lines IH]; intros s; [done|].
  trans (s' ← ld_one_line onLine s l; res_foldl (ld_one_line onLine) s' lines); [done|].
  rewrite ld_one_line_eq. cbn [omap list_omap]. destruct (ld_line_event l) as [[[n src] a]|]; [|apply IH].
  cbn [res_foldl]. destruct (onLine _ _ a s); cbn [mbind res_mbind res_bind]; [apply IH|done..].
Qed.

(** The listener is told of every line that has a number, a source and an address
    and begins a statement, unit after unit, and of nothing else; a name that is
    not absolute is left as it is. *)
Theorem ld_forEachLine_events {S} (onLine : bytes → Z → Z → S → res S) (units : list LdUnit) (s : S) :
  ld_forEachLine onLine units s
  = res_foldl (λ s '(n, src, a), onLine (c_prefix src) (u32 n) a s) s (ld_events units).
Proof.
  unfold ld_forEachLine. revert s; induction units as [|u units IH]; intros s; [done|].
  change (ld_events (u :: units)) with
    (match u with None => [] | Some lines => omap ld_line_event lines end ++ ld_events units).
  rewrite res_foldl_app. trans (s' ← ld_unit onLine s u; res_foldl (ld_unit onLine) s' units); [done|].
  destruct u as [lines|]; [|apply IH]. change (ld_unit onLine s (Some lines)) with (res_foldl (ld_one_line onLine) s lines). rewrite ld_unit_eq.
  destruct (res_foldl _ s (omap _ _)); cbn [mbind res_mbind res_bind]; [apply IH|done..].
Qed.

(** The descriptors that are open after the calls. *)
Fixpoint open_fds (calls : list LdCall) (fds : gset Z) : gset Z :=
  match calls with
  | [] => fds
  | LdOpen fd :: calls => open_fds calls ({[fd]} ∪ fds)
  | LdClose fd :: calls => open_fds calls (fds ∖ {[fd]})
  | _ :: calls => open_fds calls fds
  end.

Lemma open_fds_app a b fds : open_fds (a ++ b) fds = open_fds b (open_fds a fds).
Proof. revert fds; induction a as [|[]]; intros; cbn; auto. Qed.

(** The files a parser is opened for, with the answers of the system. *)
Definition ld_uses (l : list (Z * LdInitAnswer)) : LdParser :=
  foldl (λ p '(fd, init), (ld_open fd init p).2) new_LdParser l.

Definition ld_balanced (p : LdParser) : Prop :=
  open_fds (ld_calls p) ∅ = if ld_fd p <? 0 then ∅ else {[ld_fd p]}.

Lemma ld_close_balanced p : ld_balanced p → ld_balanced (ld_close p) ∧ ld_fd (ld_close p) < 0.
Proof.
  unfold ld_balanced, ld_close. destruct (Z.ltb_spec (ld_fd p) 0); [intros ->; split; [by rewrite (proj2 (Z.ltb_lt _ _))|done]|].
  intros H0. cbn [ld_calls ld_fd]. rewrite open_fds_app, H0. cbn. split; [set_solver|lia].
Qed.

Lemma ld_open_balanced fd init p : ld_balanced p → ld_balanced (ld_open fd init p).2.
Proof.
  intros Hp. destruct (ld_close_balanced p Hp) as [Hc Hneg]. unfold ld_open, ld_balanced in *.
  rewrite (proj2 (Z.ltb_lt _ _) Hneg) in Hc.
  destruct (Z.ltb_spec fd 0) as [Hfd|Hfd]; cbn [snd ld_calls ld_fd].
  - by rewrite (proj2 (Z.ltb_lt _ _) Hfd).
  - destruct init; cbn [snd ld_calls ld_fd]; rewrite ?open_fds_app, Hc; cbn;
      rewrite ?(proj2 (Z.ltb_ge _ _) Hfd); set_solver.
Qed.

(** Whatever files a parser is opened for, and whatever libdwarf answers, at most
    the descriptor it holds is open, and none after it is destroyed. *)
Theorem ld_descriptors (l : list (Z * LdInitAnswer)) :
  open_fds (ld_calls (ld_uses l)) ∅ ⊆ {[ld_fd (ld_uses l)]} ∧
  open_fds (ld_calls (ld_destroy (ld_uses l))) ∅ = ∅.
Proof.
  assert (ld_balanced (ld_uses l)) as Hb.
  { unfold ld_uses. assert (ld_balanced new_LdParser) as H0 by done. revert H0. generalize new_LdParser.
    induction l as [|[fd init] l IH]; intros p Hp; [done|]. cbn. by apply IH, ld_open_balanced. }
  split.
  - rewrite Hb. destruct (_ <? 0); set_solver.
  - destruct (ld_close_balanced _ Hb) as [Hc Hneg]. unfold ld_destroy. rewrite Hc.
    by rewrite (proj2 (Z.ltb_lt _ _) Hneg).
Qed.
