(* ===== verification/SolibHandler.v ===== *)
(** * Shared libraries (src/src/solib-parser/phdr_data.c, lib.c,
    src/src/solib-handler.cc)

    A library that is preloaded into the traced program writes the segments of
    everything the dynamic linker has loaded into a pipe, when the program
    starts and after each [dlopen].  A thread of kcov reads the pipe; at each
    tick of the collector one message is taken from its list, and the libraries
    that were not seen before are handed to the parser.

    The structures are those of x86-64 Linux; both ends run on one host, so
    that its byte order is the only parameter. *)
From S2P Require Export Prelude Endian.
From S2P Require Import MergeParser.
From stdpp Require Import options.

(** ** phdr_data.c *)

Definition SOLIB_MAGIC : Z := 0x6b636f76.
Definition SOLIB_VERSION : Z := 3.
Definition sizeof_phdr_data : Z := 24.
Definition sizeof_phdr_data_entry : Z := 2568.
Definition sizeof_entry_name : Z := 1024.
Definition max_segments : Z := 64.
Definition PT_LOAD : Z := 1.
Definition data_area_size : Z := 4 * 1024 * 1024.

(** What the dynamic linker tells of a library. *)
Record Phdr := mkPhdr { p_type : Z; p_paddr : Z; p_vaddr : Z; p_memsz : Z }.
Record dl_phdr_info := mkInfo { dlpi_addr : Z; dlpi_name : bytes; dlpi_phdr : list Phdr }.

Section format.
Context (e : endian).

Definition set32 (off v : Z) (p : bytes) : res bytes := zwrite off (native_bytes e 4 v) p.
Definition set64 (off v : Z) (p : bytes) : res bytes := zwrite off (native_bytes e 8 v) p.

(** [data_area] is the static block; a failed allocation is [None]. *)
Definition phdr_data_new (data_area : bytes) (allocSize : Z) : res (option bytes) :=
  if allocSize >? Z.of_nat (length data_area) then Ok None
  else
    p ← set32 0 SOLIB_MAGIC data_area;
    p ← set32 4 SOLIB_VERSION p;
    p ← set64 8 0 p;
    p ← set32 16 0 p;
    Ok (Some p).

Definition n_entries_of (p : bytes) : res Z := host32 e p 16.
Definition entry_at (n : Z) : Z := sizeof_phdr_data + sizeof_phdr_data_entry * n.

(** The loop of [phdr_data_add]; [false] when it returns early. *)
Fixpoint add_segments (addr cur : Z) (phdrs : list Phdr) (p : bytes) : res (bytes * bool) :=
  match phdrs with
  | [] => Ok (p, true)
  | curHdr :: phdrs =>
      if negb (p_type curHdr =? PT_LOAD) then add_segments addr cur phdrs p
      else
        n_segments ← host32 e p (cur + sizeof_entry_name);
        if n_segments >=? max_segments then Ok (p, false)
        else
          let seg := cur + sizeof_entry_name + 8 + 24 * n_segments in
          p ← set64 seg (p_paddr curHdr) p;
          p ← set64 (seg + 8) (u64 (addr + p_vaddr curHdr)) p;
          p ← set64 (seg + 16) (p_memsz curHdr) p;
          p ← set32 (cur + sizeof_entry_name) (n_segments + 1) p;
          add_segments addr cur phdrs p
  end.

Definition phdr_data_add (info : dl_phdr_info) (p : bytes) : res bytes :=
  curEntry ← n_entries_of p;
  let cur := entry_at curEntry in
  p ← zwrite cur (zeros (Z.to_nat sizeof_phdr_data_entry)) p;
  p ← zwrite cur (take 1023 (dlpi_name info)) p;
  p ← set32 (cur + sizeof_entry_name) 0 p;
  '(p, all) ← add_segments (dlpi_addr info) cur (dlpi_phdr info) p;
  if all : bool then set32 16 (curEntry + 1) p else Ok p.

Definition phdr_data_marshal (p : bytes) : res bytes :=
  n ← n_entries_of p;
  zread p 0 (Z.to_nat (entry_at n)).

(** [phdr_data_unmarshal]: [None] is NULL. *)
Definition phdr_data_unmarshal (p : bytes) : res (option bytes) :=
  magic ← host32 e p 0;
  if negb (magic =? SOLIB_MAGIC) then Ok None
  else
    version ← host32 e p 4;
    if negb (version =? SOLIB_VERSION) then Ok None
    else
      n ← n_entries_of p;
      if n >? 0x10000 then Ok None else Ok (Some p).

(** ** lib.c *)

Definition phdrCallback (p : bytes) (info : dl_phdr_info) : res bytes :=
  n ← n_entries_of p;
  p ← (if n =? 0 then set64 8 (dlpi_addr info) p else Ok p);
  phdr_data_add info p.

Definition phdrSize (infos : list dl_phdr_info) : Z :=
  sizeof_phdr_data + sizeof_phdr_data_entry * Z.of_nat (length infos).

(** What [parse_solibs] writes into the pipe, given what [dl_iterate_phdr]
    iterates over. *)
Definition parse_solibs (data_area : bytes) (infos : list dl_phdr_info) : res (option bytes) :=
  phdr_data ← phdr_data_new data_area (phdrSize infos);
  match phdr_data with
  | None => Ok None
  | Some p => p ← res_foldl phdrCallback p infos; m ← phdr_data_marshal p; Ok (Some m)
  end.

(** ** solib-handler.cc *)

(** One round of [solibThreadParse]: [read] puts [data] at the start of the
    buffer; the data is copied out of the buffer. *)
Definition solibThread_read (data buf : bytes) : res (option bytes * bytes) :=
  buf ← zwrite 0 data buf;
  if Z.of_nat (length data) >=? Z.of_nat (length buf) then Panic
  else
    p ← phdr_data_unmarshal buf;
    match p with
    | None => Ok (None, buf)
    | Some p =>
        n ← n_entries_of p;
        cpy ← zread p 0 (Z.to_nat (entry_at n));
        Ok (Some cpy, buf)
    end.

Definition solibThread_reads (datas : list bytes) (buf : bytes) : res (list bytes * bytes) :=
  res_foldl (λ '(phdrs, buf) data,
    '(p, buf) ← solibThread_read data buf; Ok (phdrs ++ option_list p, buf)) ([], buf) datas.
End format.

(** The parser, as the handler uses it. *)
Class ISolibParser (P : Type) := {
  sp_setMainFileRelocation : Z → P → res P;
  sp_addFile : bytes → list (Z * Z * Z) → P → res P;
  sp_parse : P → res P;
}.

Record SolibHandler := mkSolibHandler {
  sh_foundSolibs : gset bytes;
  sh_phdrs : list bytes;
  sh_hasSetupRelocation : bool;
}.

Section handler.
Context (e : endian).
Context {P : Type} `{!ISolibParser P}.

(** The segments of an entry, as [addFile] reads them. *)
Fixpoint read_segments (count : nat) (off : Z) (p : bytes) : res (list (Z * Z * Z)) :=
  match count with
  | O => Ok []
  | S count =>
      paddr ← host64 e p off;
      vaddr ← host64 e p (off + 8);
      size ← host64 e p (off + 16);
      rest ← read_segments count (off + 24) p;
      Ok ((paddr, vaddr, size) :: rest)
  end.

(** The body of the loop over the entries. *)
Definition check_entry (p : bytes) (st : gset bytes * P) (i : Z) : res (gset bytes * P) :=
  let '(found, parser) := st in
  let cur := entry_at i in
  name ← zc_str p cur;
  if bool_decide (name = []) then Ok st
  else if bool_decide (name ∈ found) then Ok st
  else
    n_segments ← host32 e p (cur + sizeof_entry_name);
    segments ← read_segments (Z.to_nat n_segments) (cur + sizeof_entry_name + 8) p;
    parser ← sp_addFile name segments parser;
    parser ← sp_parse parser;
    Ok ({[name]} ∪ found, parser).

Definition checkSolibData (h : SolibHandler) (parser : P) : res (SolibHandler * P) :=
  match sh_phdrs h with
  | [] => Ok (h, parser)
  | p :: phdrs =>
      parser ← (if negb (sh_hasSetupRelocation h)
                then relocation ← host64 e p 8; sp_setMainFileRelocation relocation parser
                else Ok parser);
      n ← n_entries_of e p;
      '(found, parser) ← res_foldl (check_entry p) (sh_foundSolibs h, parser) (seqZ 0 n);
      Ok (mkSolibHandler found phdrs true, parser)
  end.

(** The ticks of a run. *)
Fixpoint ticks (n : nat) (h : SolibHandler) (parser : P) : res (SolibHandler * P) :=
  match n with
  | O => Ok (h, parser)
  | S n => '(h, parser) ← checkSolibData h parser; ticks n h parser
  end.
End handler.

(** ** The layout *)

Lemma zwrite_at (a o c b d : bytes) off :
  b = a ++ o ++ c → off = Z.of_nat (length a) → length o = length d → zwrite off d b = Ok (a ++ d ++ c).
Proof.
  intros -> -> H. rewrite zwrite_skip by lia. rewrite zwrite_here by lia. done.
Qed.

Lemma zread_at (a o c b : bytes) off n :
  b = a ++ o ++ c → off = Z.of_nat (length a) → length o = n → zread b off n = Ok o.
Proof. intros -> -> H. rewrite zread_skip by lia. by rewrite zread_here by lia. Qed.

(** Blocks that differ only in where the brackets are. *)
Ltac solve_block := rewrite <-?app_assoc; cbn [app]; rewrite <-?app_assoc; reflexivity.
Ltac solve_len := autorewrite with kcov_len; rewrite ?length_native_bytes; lia.

(** A write into a block of a known shape. *)
Ltac store a o c :=
  rewrite (zwrite_at a o c);
    [cbn [mbind res_mbind res_bind]
    |solve_block
    |unfold sizeof_entry_name, sizeof_phdr_data, sizeof_phdr_data_entry in *;
     rewrite ?length_app, ?length_native_bytes, ?length_zeros; cbn [length]; lia
    |rewrite ?length_app, ?length_native_bytes, ?length_zeros; lia].

Section layout.
Context (e : endian).

Definition enc_segment (s : Z * Z * Z) : bytes :=
  native_bytes e 8 s.1.1 ++ native_bytes e 8 s.1.2 ++ native_bytes e 8 s.2.
Definition enc_entry (name : bytes) (segs : list (Z * Z * Z)) : bytes :=
  (name ++ zeros (1024 - length name)) ++ native_bytes e 4 (Z.of_nat (length segs)) ++ zeros 4 ++
  (segs ≫= enc_segment) ++ zeros (24 * (64 - length segs)).
Definition enc_header (relocation n : Z) : bytes :=
  native_bytes e 4 SOLIB_MAGIC ++ native_bytes e 4 SOLIB_VERSION ++ native_bytes e 8 relocation ++
  native_bytes e 4 n ++ zeros 4.

(** The segments of a library that are loaded. *)
Definition loaded (info : dl_phdr_info) : list (Z * Z * Z) :=
  (λ h, (p_paddr h, u64 (dlpi_addr info + p_vaddr h), p_memsz h)) <$>
    filter (λ h, p_type h = PT_LOAD) (dlpi_phdr info).

Definition addr_ok (z : Z) : Prop := 0 ≤ z < 2 ^ 64.
Definition info_ok (info : dl_phdr_info) : Prop :=
  no_nul (dlpi_name info) ∧ (length (dlpi_name info) ≤ 1023)%nat ∧ (length (loaded info) ≤ 64)%nat ∧
  addr_ok (dlpi_addr info) ∧ Forall (λ h, addr_ok (p_paddr h) ∧ addr_ok (p_memsz h)) (dlpi_phdr info).

#[global] Instance info_ok_dec info : Decision (info_ok info).
Proof. unfold info_ok, addr_ok. apply _. Defined.

Definition enc_info (info : dl_phdr_info) : bytes := enc_entry (dlpi_name info) (loaded info).
Definition message (relocation : Z) (infos : list dl_phdr_info) : bytes :=
  enc_header relocation (Z.of_nat (length infos)) ++ (infos ≫= enc_info).

Lemma length_enc_segments segs : length (segs ≫= enc_segment) = (24 * length segs)%nat.
Proof.
  induction segs as [|s segs IH]; [done|]. change ((s :: segs) ≫= enc_segment) with (enc_segment s ++ (segs ≫= enc_segment)).
  rewrite length_app, IH. unfold enc_segment. rewrite !length_app, !length_native_bytes. cbn [length]. lia.
Qed.
Lemma length_enc_entry name segs :
  (length name ≤ 1023)%nat → (length segs ≤ 64)%nat → length (enc_entry name segs) = 2568%nat.
Proof.
  intros H1 H2. unfold enc_entry. rewrite !length_app, length_enc_segments, !length_zeros, length_native_bytes. lia.
Qed.
Lemma length_enc_header r n : length (enc_header r n) = 24%nat.
Proof. unfold enc_header. by rewrite !length_app, !length_native_bytes. Qed.
Lemma length_enc_infos infos : Forall info_ok infos → length (infos ≫= enc_info) = (2568 * length infos)%nat.
Proof.
  induction 1 as [|i infos (_ & H1 & H2 & _) _ IH]; [done|].
  change ((i :: infos) ≫= enc_info) with (enc_info i ++ (infos ≫= enc_info)).
  rewrite length_app, IH. unfold enc_info. rewrite length_enc_entry by done. cbn [length]. lia.
Qed.

(** A segment is stored behind the others. *)
Lemma add_segments_ok addr phdrs pre name segs post :
  length name = 1024%nat →
  let new := (λ h, (p_paddr h, u64 (addr + p_vaddr h), p_memsz h)) <$> filter (λ h, p_type h = PT_LOAD) phdrs in
  (length segs + length new ≤ 64)%nat →
  let entry segs := name ++ native_bytes e 4 (Z.of_nat (length segs)) ++ zeros 4 ++
    (segs ≫= enc_segment) ++ zeros (24 * (64 - length segs)) in
  add_segments e addr (Z.of_nat (length pre)) phdrs (pre ++ entry segs ++ post)
  = Ok (pre ++ entry (segs ++ new) ++ post, true).
Proof.
  intros Hname new Hlen entry. subst new. revert segs Hlen.
  induction phdrs as [|h phdrs IH]; intros segs Hlen; cbn [add_segments].
  { cbn. by rewrite app_nil_r. }
  rewrite filter_cons. destruct (decide (p_type h = PT_LOAD)) as [Ht|Ht].
  2:{ rewrite (proj2 (Z.eqb_neq _ _)) by done. cbn [negb]. rewrite filter_cons_False in Hlen by done. by apply IH. }
  rewrite (proj2 (Z.eqb_eq _ _)) by done. cbn [negb]. rewrite filter_cons_True in Hlen by done.
  rewrite fmap_cons in *. cbn [length] in Hlen. set (s := (_, _, _)) in *.
  unfold host32. rewrite (zread_at (pre ++ name) (native_bytes e 4 (Z.of_nat (length segs)))
    (zeros 4 ++ (segs ≫= enc_segment) ++ zeros (24 * (64 - length segs)) ++ post)).
  2:{ unfold entry. solve_block. }
  2:{ rewrite length_app, Hname. unfold sizeof_entry_name. lia. }
  2:{ apply length_native_bytes. }
  cbn [mbind res_mbind res_bind]. rewrite native_val_bytes, Z.mod_small by lia.
  destruct (Z.geb_spec (Z.of_nat (length segs)) max_segments) as [|_]; [unfold max_segments in *; lia|].
  unfold set64, set32.
  set (rest := zeros (24 * (64 - length (segs ++ [s])))).
  assert (zeros (24 * (64 - length segs)) = zeros 8 ++ zeros 8 ++ zeros 8 ++ rest) as Hz.
  { unfold rest. rewrite <-!zeros_add. f_equal. rewrite length_app. cbn [length]. lia. }
  assert (entry segs = (name ++ native_bytes e 4 (Z.of_nat (length segs)) ++ zeros 4 ++ (segs ≫= enc_segment))
    ++ zeros 8 ++ zeros 8 ++ zeros 8 ++ rest) as -> by (unfold entry; rewrite Hz; solve_block).
  set (front := name ++ _).
  assert (Z.of_nat (length front) = sizeof_entry_name + 8 + 24 * Z.of_nat (length segs)) as Hfront.
  { unfold front. rewrite !length_app, length_enc_segments, Hname, length_zeros, length_native_bytes.
    unfold sizeof_entry_name. lia. }
  store (pre ++ front) (zeros 8) (zeros 8 ++ zeros 8 ++ rest ++ post).
  store (pre ++ front ++ native_bytes e 8 (p_paddr h)) (zeros 8) (zeros 8 ++ rest ++ post).
  store (pre ++ front ++ native_bytes e 8 (p_paddr h) ++ native_bytes e 8 (u64 (addr + p_vaddr h)))
    (zeros 8) (rest ++ post).
  unfold front, s.
  store (pre ++ name) (native_bytes e 4 (Z.of_nat (length segs)))
    (zeros 4 ++ (segs ≫= enc_segment) ++ (native_bytes e 8 (p_paddr h) ++ native_bytes e 8 (u64 (addr + p_vaddr h)) ++
    native_bytes e 8 (p_memsz h)) ++ rest ++ post).
  assert (∀ b, (pre ++ name) ++ native_bytes e 4 (Z.of_nat (length segs) + 1) ++ zeros 4 ++ (segs ≫= enc_segment) ++
    (native_bytes e 8 (p_paddr h) ++ native_bytes e 8 (u64 (addr + p_vaddr h)) ++
    native_bytes e 8 (p_memsz h)) ++ rest ++ post = b → b = pre ++ entry (segs ++ [s]) ++ post) as Hb.
  { intros b <-. unfold entry, rest. rewrite length_app, bind_app. cbn [length].
    replace (Z.of_nat (length segs + 1)) with (Z.of_nat (length segs) + 1) by lia.
    change ([s] ≫= enc_segment) with (enc_segment s ++ []). rewrite app_nil_r.
    unfold enc_segment at 3, s. cbn [fst snd]. solve_block. }
  rewrite (Hb _ eq_refl), IH by (rewrite length_app; cbn [length]; lia).
  by rewrite <-app_assoc.
Qed.

(** A library is stored behind the others. *)
Lemma phdr_data_add_ok relocation n entries info rest :
  info_ok info → 0 ≤ n < 2 ^ 32 - 1 → Z.of_nat (length entries) = 2568 * n → (2568 ≤ length rest)%nat →
  phdr_data_add e info (enc_header relocation n ++ entries ++ rest)
  = Ok (enc_header relocation (n + 1) ++ (entries ++ enc_info info) ++ drop 2568 rest).
Proof.
  intros (Hnul & Hname & Hsegs & Haddr & Hph) Hn He Hrest. unfold phdr_data_add, n_entries_of, entry_at, set32, enc_header.
  assert (∃ old post, rest = old ++ post ∧ length old = 2568%nat ∧ drop 2568 rest = post) as (old & post & -> & Hold & ->).
  { exists (take 2568 rest), (drop 2568 rest). rewrite take_drop, length_take. split_and!; [done|lia|done]. }
  set (h4 := native_bytes e 4 SOLIB_MAGIC ++ native_bytes e 4 SOLIB_VERSION ++ native_bytes e 8 relocation).
  assert (length h4 = 16%nat) as Hh4 by (unfold h4; by rewrite !length_app, !length_native_bytes).
  set (hd := (h4 ++ native_bytes e 4 n ++ zeros 4) ++ entries).
  assert (Z.of_nat (length hd) = 24 + 2568 * n) as Hhd.
  { unfold hd. rewrite !length_app, length_native_bytes, length_zeros. lia. }
  assert ((native_bytes e 4 SOLIB_MAGIC ++ native_bytes e 4 SOLIB_VERSION ++ native_bytes e 8 relocation
    ++ native_bytes e 4 n ++ zeros 4) ++ entries ++ old ++ post = hd ++ old ++ post) as ->
    by (unfold hd, h4; solve_block).
  assert (host32 e (hd ++ old ++ post) 16 = Ok n) as ->.
  { unfold host32. rewrite (zread_at h4 (native_bytes e 4 n) (zeros 4 ++ entries ++ old ++ post));
      [|unfold hd; solve_block|lia|apply length_native_bytes].
    cbn. rewrite native_val_bytes, Z.mod_small by lia. done. }
  cbn [mbind res_mbind res_bind]. change (Z.to_nat sizeof_phdr_data_entry) with 2568%nat.
  store hd old post.
  rewrite take_ge by lia.
  set (k := length (dlpi_name info)).
  assert (zeros 2568 = zeros k ++ zeros (1024 - k) ++ zeros 4 ++ zeros 4 ++ zeros 1536) as ->.
  { rewrite <-!zeros_add. f_equal. lia. }
  store hd (zeros k) ((zeros (1024 - k) ++ zeros 4 ++ zeros 4 ++ zeros 1536) ++ post).
  store (hd ++ dlpi_name info ++ zeros (1024 - k)) (zeros 4) (zeros 4 ++ zeros 1536 ++ post).
  set (name := dlpi_name info ++ zeros (1024 - k)).
  assert (length name = 1024%nat) as Hlen by (unfold name; rewrite length_app, length_zeros; lia).
  pose proof (add_segments_ok (dlpi_addr info) (dlpi_phdr info) hd name [] post Hlen) as Hadd.
  cbn zeta in Hadd. specialize (Hadd Hsegs). cbn [length app] in Hadd.
  replace (sizeof_phdr_data + sizeof_phdr_data_entry * n) with (Z.of_nat (length hd)) by done.
  change ([] ≫= enc_segment) with (@nil ascii) in Hadd. cbn [app] in Hadd.
  change (24 * (64 - 0))%nat with 1536%nat in Hadd. change (Z.of_nat 0) with 0 in Hadd.
  fold (loaded info) in Hadd. rewrite <-!app_assoc in Hadd. rewrite <-!app_assoc.
  rewrite Hadd. cbn [mbind res_mbind res_bind]. unfold hd.
  store h4 (native_bytes e 4 n) (zeros 4 ++ entries ++ name ++
    native_bytes e 4 (Z.of_nat (length (loaded info))) ++ zeros 4 ++ (loaded info ≫= enc_segment) ++
    zeros (24 * (64 - length (loaded info))) ++ post).
  f_equal. unfold h4, enc_info, enc_entry. fold k. fold name. solve_block.
Qed.

Lemma phdr_data_new_ok area size :
  (24 ≤ length area)%nat → Forall (.= NUL) area → size ≤ Z.of_nat (length area) →
  phdr_data_new e area size = Ok (Some (enc_header 0 0 ++ drop 24 area)).
Proof.
  intros H24 Hz Hsize. unfold phdr_data_new, set32, set64. destruct (Z.gtb_spec size (Z.of_nat (length area))); [lia|].
  assert (area = zeros 24 ++ drop 24 area) as Ha.
  { rewrite <-(take_drop 24 area) at 1. f_equal. symmetry.
    apply list_eq_Forall2, Forall2_same_length_lookup_2.
    - rewrite length_take, length_zeros. lia.
    - intros i x y Hx Hy. apply lookup_replicate in Hx as [-> _].
      apply lookup_take_Some in Hy as [Hy _]. rewrite Forall_forall in Hz. symmetry. apply Hz.
      by eapply list_elem_of_lookup_2. }
  set (rest := drop 24 area) in *. clearbody rest. subst area.
  change (zeros 24) with (zeros 4 ++ zeros 4 ++ zeros 8 ++ zeros 4 ++ zeros 4).
  store ([] : bytes) (zeros 4) ((zeros 4 ++ zeros 8 ++ zeros 4 ++ zeros 4) ++ rest).
  store (native_bytes e 4 SOLIB_MAGIC) (zeros 4) ((zeros 8 ++ zeros 4 ++ zeros 4) ++ rest).
  store (native_bytes e 4 SOLIB_MAGIC ++ native_bytes e 4 SOLIB_VERSION) (zeros 8) ((zeros 4 ++ zeros 4) ++ rest).
  store (native_bytes e 4 SOLIB_MAGIC ++ native_bytes e 4 SOLIB_VERSION ++ native_bytes e 8 0) (zeros 4) (zeros 4 ++ rest).
  do 2 f_equal. unfold enc_header. solve_block.
Qed.

(** The relocation of the message is that of the first entry. *)
Definition first_addr (infos : list dl_phdr_info) : Z :=
  match infos with [] => 0 | i :: _ => dlpi_addr i end.

Lemma phdrCallback_ok relocation n entries info rest :
  info_ok info → 0 ≤ n < 2 ^ 32 - 1 → Z.of_nat (length entries) = 2568 * n → (2568 ≤ length rest)%nat →
  phdrCallback e (enc_header relocation n ++ entries ++ rest) info
  = Ok (enc_header (if n =? 0 then dlpi_addr info else relocation) (n + 1) ++ (entries ++ enc_info info) ++ drop 2568 rest).
Proof.
  intros Hi Hn He Hrest. unfold phdrCallback, n_entries_of, host32.
  rewrite (zread_at (native_bytes e 4 SOLIB_MAGIC ++ native_bytes e 4 SOLIB_VERSION ++ native_bytes e 8 relocation)
    (native_bytes e 4 n) (zeros 4 ++ entries ++ rest));
    [|unfold enc_header; solve_block|by rewrite !length_app, !length_native_bytes|apply length_native_bytes].
  cbn [mbind res_mbind res_bind]. rewrite native_val_bytes, Z.mod_small by lia.
  destruct (n =? 0); [|cbn [mbind res_mbind res_bind]; by apply phdr_data_add_ok].
  unfold set64.
  rewrite (zwrite_at (native_bytes e 4 SOLIB_MAGIC ++ native_bytes e 4 SOLIB_VERSION) (native_bytes e 8 relocation)
    (native_bytes e 4 n ++ zeros 4 ++ entries ++ rest));
    [|unfold enc_header; solve_block|by rewrite !length_app, !length_native_bytes|by rewrite !length_native_bytes].
  cbn [mbind res_mbind res_bind]. rewrite <-phdr_data_add_ok by done. f_equal. unfold enc_header. solve_block.
Qed.

(** The library sends every entry, in the order of the dynamic linker. *)
Lemma parse_solibs_ok area infos :
  Forall (.= NUL) area → Forall info_ok infos → phdrSize infos ≤ Z.of_nat (length area) →
  Z.of_nat (length infos) < 2 ^ 32 →
  parse_solibs e area infos = Ok (Some (message (first_addr infos) infos)).
Proof.
  intros Hz Hinfos Hsize Hn. unfold parse_solibs, phdrSize, sizeof_phdr_data, sizeof_phdr_data_entry in *.
  rewrite phdr_data_new_ok by (done || lia). cbn [mbind res_mbind res_bind].
  destruct (res_foldl_prefix (λ pre p, p = message (first_addr pre) pre ++ drop (2568 * length pre) (drop 24 area))
    (phdrCallback e) infos (enc_header 0 0 ++ drop 24 area)) as (p & -> & ->).
  - unfold message. cbn. by rewrite app_nil_r.
  - intros pre info post p E ->. rewrite E in Hinfos. apply Forall_app in Hinfos as [Hpre [Hi _]%Forall_cons].
    assert (length infos = length pre + S (length post))%nat as Hl by (rewrite E, length_app; done).
    unfold message at 1. rewrite <-app_assoc. rewrite phdrCallback_ok; [|done|lia|rewrite length_enc_infos by done; lia|].
    2:{ rewrite !length_drop. lia. }
    eexists. split; [done|]. unfold message. rewrite drop_drop, length_app, bind_app. cbn [length].
    assert ((if Z.of_nat (length pre) =? 0 then dlpi_addr info else first_addr pre) = first_addr (pre ++ [info])) as ->
      by (destruct pre; [done|destruct (Z.eqb_spec (Z.of_nat (length (d :: pre))) 0); cbn in *; [lia|done]]).
    replace (Z.of_nat (length pre + 1)) with (Z.of_nat (length pre) + 1) by lia.
    replace (2568 * (length pre + 1))%nat with (2568 * length pre + 2568)%nat by lia.
    rewrite <-!app_assoc. do 3 f_equal. cbn [mbind list_bind]. by rewrite app_nil_r.
  - cbn [mbind res_mbind res_bind]. unfold phdr_data_marshal, n_entries_of, host32, message.
    rewrite (zread_at (native_bytes e 4 SOLIB_MAGIC ++ native_bytes e 4 SOLIB_VERSION ++ native_bytes e 8 (first_addr infos))
      (native_bytes e 4 (Z.of_nat (length infos))) (zeros 4 ++ (infos ≫= enc_info) ++ drop (2568 * length infos) (drop 24 area)));
      [|unfold enc_header; solve_block|by rewrite !length_app, !length_native_bytes|apply length_native_bytes].
    cbn [mbind res_mbind res_bind]. rewrite native_val_bytes, Z.mod_small by (cbn; lia).
    rewrite zread_here; [done|done|]. rewrite length_app, length_enc_header, length_enc_infos by done.
    unfold entry_at, sizeof_phdr_data, sizeof_phdr_data_entry. lia.
Qed.

Lemma unmarshal_header relocation n rest :
  0 ≤ n ≤ 0x10000 →
  phdr_data_unmarshal e (enc_header relocation n ++ rest) = Ok (Some (enc_header relocation n ++ rest)) ∧
  n_entries_of e (enc_header relocation n ++ rest) = Ok n.
Proof.
  intros Hn. unfold phdr_data_unmarshal, n_entries_of, host32.
  rewrite (zread_at [] (native_bytes e 4 SOLIB_MAGIC) ((native_bytes e 4 SOLIB_VERSION ++ native_bytes e 8 relocation
    ++ native_bytes e 4 n ++ zeros 4) ++ rest) _ 0); [|unfold enc_header; solve_block|done|apply length_native_bytes].
  rewrite (zread_at (native_bytes e 4 SOLIB_MAGIC) (native_bytes e 4 SOLIB_VERSION) ((native_bytes e 8 relocation
    ++ native_bytes e 4 n ++ zeros 4) ++ rest) _ 4);
    [|unfold enc_header; solve_block|by rewrite length_native_bytes|apply length_native_bytes].
  rewrite (zread_at (native_bytes e 4 SOLIB_MAGIC ++ native_bytes e 4 SOLIB_VERSION ++ native_bytes e 8 relocation)
    (native_bytes e 4 n) (zeros 4 ++ rest) _ 16);
    [|unfold enc_header; solve_block|by rewrite !length_app, !length_native_bytes|apply length_native_bytes].
  cbn [mbind res_mbind res_bind]. rewrite !native_val_bytes, (Z.mod_small n) by (cbn; lia).
  change (negb (SOLIB_MAGIC mod 256 ^ Z.of_nat 4 =? SOLIB_MAGIC)) with false.
  change (negb (SOLIB_VERSION mod 256 ^ Z.of_nat 4 =? SOLIB_VERSION)) with false.
  destruct (Z.gtb_spec n 0x10000); [lia|]. done.
Qed.

(** A message that is read whole is handed on as it was sent. *)
Lemma solibThread_read_ok relocation infos buf :
  Forall info_ok infos → Z.of_nat (length infos) ≤ 0x10000 →
  phdrSize infos < Z.of_nat (length buf) →
  ∃ buf', solibThread_read e (message relocation infos) buf = Ok (Some (message relocation infos), buf') ∧
          length buf' = length buf.
Proof.
  intros Hi Hn Hsize. unfold phdrSize, sizeof_phdr_data, sizeof_phdr_data_entry in *.
  assert (length (message relocation infos) = 24 + 2568 * length infos)%nat as Hl.
  { unfold message. by rewrite length_app, length_enc_header, length_enc_infos. }
  unfold solibThread_read.
  rewrite (zwrite_at [] (take (length (message relocation infos)) buf) (drop (length (message relocation infos)) buf));
    [|cbn [app]; by rewrite take_drop|done|rewrite length_take; lia].
  cbn [mbind res_mbind res_bind app].
  destruct (Z.geb_spec (Z.of_nat (length (message relocation infos)))
    (Z.of_nat (length (message relocation infos ++ drop (length (message relocation infos)) buf)))) as [H|_].
  { rewrite length_app, length_drop in H. lia. }
  destruct (unmarshal_header relocation (Z.of_nat (length infos))
    ((infos ≫= enc_info) ++ drop (length (message relocation infos)) buf)) as [R1 R2]; [lia|].
  unfold message at 1 3 5 7. rewrite <-!app_assoc. rewrite R1. cbn [mbind res_mbind res_bind].
  rewrite R2. cbn [mbind res_mbind res_bind]. rewrite app_assoc. fold (message relocation infos).
  rewrite zread_here; [|done|].
  - cbn [mbind res_mbind res_bind]. eexists. split; [done|]. rewrite length_app, length_drop. lia.
  - unfold entry_at, sizeof_phdr_data, sizeof_phdr_data_entry. lia.
Qed.
End layout.

(** ** The libraries that are parsed *)

Section handling.
Context (e : endian).
Context {P : Type} `{!ISolibParser P}.

Definition seg_ok (s : Z * Z * Z) : Prop := addr_ok s.1.1 ∧ addr_ok s.1.2 ∧ addr_ok s.2.

Lemma loaded_ok info : info_ok info → Forall seg_ok (loaded info).
Proof.
  intros (_ & _ & _ & _ & H). unfold loaded. apply Forall_fmap, Forall_forall.
  intros h [_ Hh]%list_elem_of_filter. rewrite Forall_forall in H. destruct (H h Hh).
  split_and!; cbn; [done|apply u64_range|done].
Qed.

Lemma host64_at a v c b off :
  b = a ++ native_bytes e 8 v ++ c → off = Z.of_nat (length a) → addr_ok v → host64 e b off = Ok v.
Proof.
  intros -> -> Hv. unfold host64. rewrite (zread_at a (native_bytes e 8 v) c) by (done || apply length_native_bytes).
  cbn. rewrite native_val_bytes, Z.mod_small by done. done.
Qed.

Lemma read_segments_ok segs a c off :
  Forall seg_ok segs → off = Z.of_nat (length a) →
  read_segments e (length segs) off (a ++ (segs ≫= enc_segment e) ++ c) = Ok segs.
Proof.
  intros Hs. revert a off. induction Hs as [|[[x y] z] segs (H1 & H2 & H3) _ IH]; intros a off ->; [done|].
  cbn [fst snd] in *. cbn [length read_segments].
  change (((x, y, z) :: segs) ≫= enc_segment e)
    with ((native_bytes e 8 x ++ native_bytes e 8 y ++ native_bytes e 8 z) ++ (segs ≫= enc_segment e)).
  set (tl := segs ≫= enc_segment e) in *.
  rewrite (host64_at a x (native_bytes e 8 y ++ native_bytes e 8 z ++ tl ++ c) _ (Z.of_nat (length a)));
    [|solve_block|done|done].
  cbn [mbind res_mbind res_bind].
  rewrite (host64_at (a ++ native_bytes e 8 x) y (native_bytes e 8 z ++ tl ++ c) _ (Z.of_nat (length a) + 8));
    [|solve_block|rewrite length_app, length_native_bytes; lia|done].
  cbn [mbind res_mbind res_bind].
  rewrite (host64_at (a ++ native_bytes e 8 x ++ native_bytes e 8 y) z (tl ++ c) _ (Z.of_nat (length a) + 16));
    [|solve_block|rewrite !length_app, !length_native_bytes; lia|done].
  cbn [mbind res_mbind res_bind].
  assert (a ++ ((native_bytes e 8 x ++ native_bytes e 8 y ++ native_bytes e 8 z) ++ tl) ++ c
    = (a ++ native_bytes e 8 x ++ native_bytes e 8 y ++ native_bytes e 8 z) ++ tl ++ c) as -> by solve_block.
  rewrite IH; [done|]. rewrite !length_app, !length_native_bytes. lia.
Qed.

(** What is done with a library that is new. *)
Definition parse_lib (parser : P) (info : dl_phdr_info) : res P :=
  parser ← sp_addFile (dlpi_name info) (loaded info) parser; sp_parse parser.

(** The libraries that have a name and were not seen before. *)
Fixpoint new_libs (found : gset bytes) (infos : list dl_phdr_info) : list dl_phdr_info :=
  match infos with
  | [] => []
  | i :: infos =>
      if bool_decide (dlpi_name i = [] ∨ dlpi_name i ∈ found) then new_libs found infos
      else i :: new_libs ({[dlpi_name i]} ∪ found) infos
  end.
Definition found_after (found : gset bytes) (infos : list dl_phdr_info) : gset bytes :=
  foldl (λ found i, {[dlpi_name i]} ∪ found) found (new_libs found infos).

Lemma check_entry_ok relocation pre info post found parser :
  Forall info_ok (pre ++ info :: post) →
  check_entry e (message e relocation (pre ++ info :: post)) (found, parser) (Z.of_nat (length pre))
  = if bool_decide (dlpi_name info = [] ∨ dlpi_name info ∈ found) then Ok (found, parser)
    else parser ← parse_lib parser info; Ok ({[dlpi_name info]} ∪ found, parser).
Proof.
  intros Hok. pose proof Hok as [Hpre [Hi _]%Forall_cons]%Forall_app. pose proof Hi as (Hnul & Hlen & Hsegs & _).
  unfold check_entry, message. rewrite bind_app.
  change ((info :: post) ≫= enc_info e) with (enc_info e info ++ (post ≫= enc_info e)).
  set (front := enc_header e relocation (Z.of_nat (length (pre ++ info :: post))) ++ (pre ≫= enc_info e)).
  assert (Z.of_nat (length front) = entry_at (Z.of_nat (length pre))) as Hfront.
  { unfold front. rewrite length_app, length_enc_header, length_enc_infos by done.
    unfold entry_at, sizeof_phdr_data, sizeof_phdr_data_entry. lia. }
  set (rest := post ≫= enc_info e). rewrite <-Hfront.
  assert (enc_header e relocation (Z.of_nat (length (pre ++ info :: post))) ++ (pre ≫= enc_info e) ++ enc_info e info ++ rest
    = front ++ enc_info e info ++ rest) as -> by (unfold front; solve_block).
  set (tail := native_bytes e 4 (Z.of_nat (length (loaded info))) ++ zeros 4 ++ (loaded info ≫= enc_segment e) ++
    zeros (24 * (64 - length (loaded info)))).
  assert (enc_info e info ++ rest = dlpi_name info ++ NUL :: zeros (1023 - length (dlpi_name info)) ++ tail ++ rest) as Ht.
  { unfold enc_info, enc_entry, tail. 
    replace (1024 - length (dlpi_name info))%nat with (S (1023 - length (dlpi_name info))) by lia. solve_block. }
  assert (zc_str (front ++ enc_info e info ++ rest) (Z.of_nat (length front)) = Ok (dlpi_name info)) as ->
    by (rewrite Ht; by apply zc_str_at).
  cbn [mbind res_mbind res_bind].
  destruct (decide (dlpi_name info = [])) as [En|En].
  { rewrite !bool_decide_eq_true_2 by auto. done. }
  rewrite (bool_decide_eq_false_2 (dlpi_name info = [])) by done.
  destruct (decide (dlpi_name info ∈ found)) as [Ef|Ef].
  { rewrite !bool_decide_eq_true_2 by auto. done. }
  rewrite !bool_decide_eq_false_2 by naive_solver.
  unfold host32. rewrite (zread_at (front ++ dlpi_name info ++ zeros (1024 - length (dlpi_name info)))
    (native_bytes e 4 (Z.of_nat (length (loaded info)))) (zeros 4 ++ (loaded info ≫= enc_segment e) ++
     zeros (24 * (64 - length (loaded info))) ++ rest));
    [|unfold enc_info, enc_entry; solve_block
     |rewrite !length_app, length_zeros; unfold sizeof_entry_name; lia|apply length_native_bytes].
  cbn [mbind res_mbind res_bind]. rewrite native_val_bytes, Z.mod_small, Nat2Z.id by (cbn; lia).
  assert (front ++ enc_info e info ++ rest = (front ++ (dlpi_name info ++ zeros (1024 - length (dlpi_name info))) ++
    native_bytes e 4 (Z.of_nat (length (loaded info))) ++ zeros 4) ++ (loaded info ≫= enc_segment e) ++
    zeros (24 * (64 - length (loaded info))) ++ rest) as -> by (unfold enc_info, enc_entry; solve_block).
  rewrite read_segments_ok; [|by apply loaded_ok|].
  - cbn [mbind res_mbind res_bind]. unfold parse_lib.
    destruct (sp_addFile (dlpi_name info) (loaded info) parser); cbn; [|done..]. by destruct (sp_parse a).
  - rewrite !length_app, !length_zeros, length_native_bytes. unfold sizeof_entry_name. lia.
Qed.

Lemma check_entries_ok relocation infos found parser :
  Forall info_ok infos →
  res_foldl (check_entry e (message e relocation infos)) (found, parser) (seqZ 0 (Z.of_nat (length infos)))
  = (parser ← res_foldl parse_lib parser (new_libs found infos); Ok (found_after found infos, parser)).
Proof.
  intros Hok.
  assert (∀ post pre found parser, infos = pre ++ post →
    res_foldl (check_entry e (message e relocation infos)) (found, parser) (seqZ (Z.of_nat (length pre)) (Z.of_nat (length post)))
    = (parser ← res_foldl parse_lib parser (new_libs found post); Ok (found_after found post, parser))) as H;
    [|by apply (H infos [])].
  induction post as [|info post IH]; intros pre found0 parser0 E; [done|]. cbn [length].
  rewrite seqZ_cons by lia. cbn [res_foldl]. pose proof Hok as Hok'. rewrite E in Hok'. rewrite E at 1.
  rewrite check_entry_ok by done.
  replace (Z.succ (Z.of_nat (length pre))) with (Z.of_nat (length (pre ++ [info]))) by (rewrite length_app; cbn; lia).
  replace (Z.pred (Z.of_nat (S (length post)))) with (Z.of_nat (length post)) by lia.
  unfold found_after. cbn [new_libs]. case_bool_decide as Hd.
  - cbn [mbind res_mbind res_bind]. rewrite (IH (pre ++ [info])); [done|]. by rewrite <-app_assoc.
  - cbn [res_foldl]. destruct (parse_lib parser0 info); cbn [mbind res_mbind res_bind]; [|done..].
    rewrite (IH (pre ++ [info])); [done|]. by rewrite <-app_assoc.
Qed.

Lemma new_libs_app found a b : new_libs found (a ++ b) = new_libs found a ++ new_libs (found_after found a) b.
Proof.
  revert found; induction a as [|i a IH]; intros found; [done|]. unfold found_after. cbn [new_libs app].
  case_bool_decide; [by apply IH|]. cbn. f_equal. by apply IH.
Qed.
Lemma found_after_app found a b : found_after (found_after found a) b = found_after found (a ++ b).
Proof. unfold found_after. rewrite new_libs_app, foldl_app. done. Qed.

(** Each name once, and exactly the names that are not empty and new. *)
Lemma new_libs_names found infos :
  NoDup (dlpi_name <$> new_libs found infos) ∧
  ∀ n, n ∈ dlpi_name <$> new_libs found infos ↔ n ∈ dlpi_name <$> infos ∧ n ≠ [] ∧ n ∉ found.
Proof.
  revert found; induction infos as [|i infos IH]; intros found; cbn [new_libs].
  { split; [constructor|]. intros n. cbn. set_solver. }
  rewrite fmap_cons. case_bool_decide as Hd.
  - destruct (IH found) as [H1 H2]. split; [done|]. intros n. rewrite H2, elem_of_cons. split.
    + intros (? & ? & ?). auto.
    + intros ([->|?] & ? & ?); [by destruct Hd|done].
  - destruct (IH ({[dlpi_name i]} ∪ found)) as [H1 H2]. rewrite fmap_cons. split.
    + constructor; [|done]. rewrite H2. set_solver.
    + intros n. rewrite !elem_of_cons, H2. destruct (decide (n = dlpi_name i)) as [->|]; [|set_solver].
      split; [|by left]. intros _. split; [by left|]. naive_solver.
Qed.

(** The messages that a run of the preloaded library makes of what is loaded. *)
Definition sent (infos : list dl_phdr_info) : bytes := message e (first_addr infos) infos.

Lemma sent_header infos :
  addr_ok (first_addr infos) → Z.of_nat (length infos) < 2 ^ 32 →
  host64 e (sent infos) 8 = Ok (first_addr infos) ∧ n_entries_of e (sent infos) = Ok (Z.of_nat (length infos)).
Proof.
  intros Ha Hl. unfold n_entries_of, host32, sent, message, enc_header. split.
  - apply (host64_at (native_bytes e 4 SOLIB_MAGIC ++ native_bytes e 4 SOLIB_VERSION) _
      (native_bytes e 4 (Z.of_nat (length infos)) ++ zeros 4 ++ (infos ≫= enc_info e)));
      [solve_block|by rewrite length_app, !length_native_bytes|done].
  - rewrite (zread_at (native_bytes e 4 SOLIB_MAGIC ++ native_bytes e 4 SOLIB_VERSION ++ native_bytes e 8 (first_addr infos))
      (native_bytes e 4 (Z.of_nat (length infos))) (zeros 4 ++ (infos ≫= enc_info e)));
      [|solve_block|by rewrite !length_app, !length_native_bytes|apply length_native_bytes].
    cbn. rewrite native_val_bytes, Z.mod_small by (cbn; lia). done.
Qed.

Lemma first_addr_ok infos : Forall info_ok infos → addr_ok (first_addr infos).
Proof. destruct 1 as [|i infos (_ & _ & _ & H & _) _]; done. Qed.

Definition msg_ok (infos : list dl_phdr_info) : Prop :=
  Forall info_ok infos ∧ Z.of_nat (length infos) < 2 ^ 32.

(** One tick with a message in the list. *)
Lemma checkSolibData_ok infos msgs found setup parser :
  msg_ok infos →
  checkSolibData e (mkSolibHandler found (sent infos :: msgs) setup) parser
  = (parser ← (if setup then Ok parser else sp_setMainFileRelocation (first_addr infos) parser);
     parser ← res_foldl parse_lib parser (new_libs found infos);
     Ok (mkSolibHandler (found_after found infos) msgs true, parser)).
Proof.
  intros [Hi Hl]. unfold checkSolibData. cbn [sh_phdrs sh_hasSetupRelocation sh_foundSolibs].
  destruct (sent_header infos (first_addr_ok infos Hi) Hl) as [-> ->].
  pose proof (λ parser, check_entries_ok (first_addr infos) infos found parser Hi) as Hce. fold (sent infos) in Hce.
  destruct setup; cbn [negb mbind res_mbind res_bind].
  - rewrite Hce. by destruct (res_foldl parse_lib parser (new_libs found infos)).
  - destruct (sp_setMainFileRelocation (first_addr infos) parser) as [parser1| | |]; cbn [mbind res_mbind res_bind]; [|done..].
    rewrite Hce. by destruct (res_foldl parse_lib parser1 (new_libs found infos)).
Qed.

Lemma ticks_ok msgs found parser :
  Forall msg_ok msgs →
  ticks e (length msgs) (mkSolibHandler found (sent <$> msgs) true) parser
  = (parser ← res_foldl parse_lib parser (new_libs found (concat msgs));
     Ok (mkSolibHandler (found_after found (concat msgs)) [] true, parser)).
Proof.
  intros Hok. revert found parser. induction Hok as [|infos msgs Hi Hok IH]; intros found parser; [done|].
  cbn [length ticks fmap list_fmap concat]. rewrite checkSolibData_ok by done. cbn [mbind res_mbind res_bind].
  rewrite new_libs_app, res_foldl_app.
  destruct (res_foldl parse_lib parser (new_libs found infos)) as [parser1| | |]; cbn [mbind res_mbind res_bind]; [|done..].
  rewrite <-found_after_app. by apply IH.
Qed.

(** What the thread hands on of the messages that reach it, each read whole into
    a fresh buffer. *)
Lemma received area buf infos :
  Forall (.= NUL) area → Forall info_ok infos → phdrSize infos ≤ Z.of_nat (length area) →
  Z.of_nat (length infos) ≤ 0x10000 → phdrSize infos < Z.of_nat (length buf) →
  ∃ m buf', parse_solibs e area infos = Ok (Some m) ∧ solibThread_read e m buf = Ok (Some (sent infos), buf').
Proof.
  intros Hz Hi Hs Hn Hb. exists (sent infos).
  destruct (solibThread_read_ok e (first_addr infos) infos buf Hi Hn Hb) as (buf' & H & _).
  exists buf'. split; [|done]. apply parse_solibs_ok; [done..|lia].
Qed.

(** C31: Whatever libraries the traced program loads of at most 64 loaded segments
    and names of at most 1023 bytes each, however often it reports them, as long as
    a message holds at most 65536 of them, fits the zeroed block it is made in and is
    read whole into a larger buffer: the main file's relocation is set once, from the
    first entry of the first message, before any library is parsed; and each library
    is handed to the parser once, in the order in which they first appear, with the
    segments the dynamic linker loaded - those without a name and those known from
    the start not at all.  ([solib_slips] has a message that is read in parts.) *)
Theorem solibs_parsed_once (area buf : bytes) (first : list dl_phdr_info) (msgs : list (list dl_phdr_info))
    (found : gset bytes) (parser : P) :
  Forall (.= NUL) area →
  Forall (λ infos, Forall info_ok infos ∧ phdrSize infos ≤ Z.of_nat (length area) ∧
    Z.of_nat (length infos) ≤ 0x10000 ∧ phdrSize infos < Z.of_nat (length buf)) (first :: msgs) →
  ∃ phdrs,
    Forall2 (λ infos p, ∃ m buf', parse_solibs e area infos = Ok (Some m) ∧
      solibThread_read e m buf = Ok (Some p, buf')) (first :: msgs) phdrs ∧
    let libs := new_libs found (concat (first :: msgs)) in
    ticks e (length phdrs) (mkSolibHandler found phdrs false) parser
    = (parser ← sp_setMainFileRelocation (first_addr first) parser;
       parser ← res_foldl parse_lib parser libs;
       Ok (mkSolibHandler (found_after found (concat (first :: msgs))) [] true, parser)) ∧
    NoDup (dlpi_name <$> libs) ∧
    ∀ n, n ∈ dlpi_name <$> libs ↔ n ∈ dlpi_name <$> concat (first :: msgs) ∧ n ≠ [] ∧ n ∉ found.
Proof.
  intros Hz Hmsgs. exists (sent <$> first :: msgs). split.
  { apply Forall2_fmap_r, Forall_Forall2_diag. eapply Forall_impl; [exact Hmsgs|].
    intros infos (Hi & Hs & Hn & Hb). by apply received. }
  cbv zeta. split; [|by apply new_libs_names].
  assert (Forall msg_ok (first :: msgs)) as [Hf Hok]%Forall_cons.
  { eapply Forall_impl; [exact Hmsgs|]. intros infos (Hi & _ & Hn & _). split; [done|lia]. }
  cbn [length ticks fmap list_fmap concat]. rewrite checkSolibData_ok by done. cbn [mbind res_mbind res_bind].
  destruct (sp_setMainFileRelocation (first_addr first) parser) as [parser1| | |]; cbn [mbind res_mbind res_bind]; [|done..].
  rewrite new_libs_app, res_foldl_app.
  destruct (res_foldl parse_lib parser1 (new_libs found first)) as [parser2| | |]; cbn [mbind res_mbind res_bind]; [|done..].
  rewrite <-found_after_app, length_fmap. by apply ticks_ok.
Qed.
End handling.

(** ** Concrete runs *)

(** A parser that keeps what it is told. *)
Inductive SolibCall := CallRelocation (r : Z) | CallAddFile (name : bytes) (segs : list (Z * Z * Z)) | CallParse.
Definition note_call (c : SolibCall) (cs : list SolibCall) : res (list SolibCall) := Ok (cs ++ [c]).
#[global] Instance noting_parser : ISolibParser (list SolibCall) := {|
  sp_setMainFileRelocation r := note_call (CallRelocation r);
  sp_addFile name segs := note_call (CallAddFile name segs);
  sp_parse := note_call CallParse;
|}.

Definition demo_main : dl_phdr_info := mkInfo 0x5000 [] [mkPhdr PT_LOAD 0 0 4096].
Definition demo_lib : dl_phdr_info :=
  mkInfo 0x7000 (str "/lib/a.so") [mkPhdr PT_LOAD 0 0 4096; mkPhdr 2 0 0 8; mkPhdr PT_LOAD 4096 4096 512].
Definition demo_lib2 : dl_phdr_info := mkInfo 0x9000 (str "/lib/b.so") [mkPhdr PT_LOAD 0 0 64].

Lemma demo_infos_ok : Forall info_ok [demo_main; demo_lib; demo_lib2].
Proof. apply (bool_decide_unpack _). by vm_compute. Qed.

Definition calls_made (r : res (SolibHandler * list SolibCall)) : list SolibCall :=
  match r with Ok (_, cs) => cs | _ => [] end.

(** The program reports at its start, and again after it opened a library. *)
Lemma solibs_parsed_once_witness :
  ∃ phdrs, length phdrs = 2%nat ∧
    calls_made (ticks LittleEndian 2 (mkSolibHandler ∅ phdrs false) [])
    = [CallRelocation 0x5000; CallAddFile (str "/lib/a.so") [(0, 0x7000, 4096); (4096, 0x8000, 512)]; CallParse;
       CallAddFile (str "/lib/b.so") [(0, 0x9000, 64)]; CallParse].
Proof.
  destruct (solibs_parsed_once LittleEndian (zeros 8000) (zeros 9000) [demo_main; demo_lib]
    [[demo_main; demo_lib; demo_lib2]] ∅ ([] : list SolibCall)) as (phdrs & HF & H & _).
  - apply Forall_forall. by intros x [-> _]%elem_of_replicate.
  - pose proof demo_infos_ok as Hok. apply Forall_cons in Hok as [H1 [H2 [H3 _]%Forall_cons]%Forall_cons].
    unfold phdrSize, sizeof_phdr_data, sizeof_phdr_data_entry. cbn [length].
    apply Forall_cons_2; [|apply Forall_cons_2; [|apply Forall_nil_2]];
      (split; [by repeat apply Forall_cons_2; try apply Forall_nil_2|split_and!; by vm_compute]).
  - exists phdrs. apply Forall2_length in HF. cbn [length] in HF. split; [symmetry; exact HF|].
    rewrite <-HF in H. rewrite H. vm_compute. reflexivity.
Defined.

(** What can go wrong on the way.  A message that the pipe delivers in two pieces
    loses the libraries of the second; one with as many entries as are accepted
    is copied from beyond the end of the 100 MB buffer. *)
Theorem solib_slips :
  (let m := message LittleEndian 0x5000 [demo_main; demo_lib; demo_lib2] in
   match solibThread_reads LittleEndian [take 5160 m; drop 5160 m] (zeros 9000) with
   | Ok (phdrs, _) => length phdrs = 1%nat ∧
       calls_made (ticks LittleEndian 2 (mkSolibHandler ∅ phdrs false) [])
       = [CallRelocation 0x5000; CallAddFile (str "/lib/a.so") [(0, 0x7000, 4096); (4096, 0x8000, 512)]; CallParse]
   | _ => False
   end) ∧
  ∀ e buf, Z.of_nat (length buf) = 104857600 → solibThread_read e (enc_header e 0 0x10000) buf = Fault.
Proof.
  split; [by vm_compute|].
  intros e buf Hl. pose proof (length_enc_header e 0 0x10000) as H24. unfold solibThread_read.
  rewrite (zwrite_at [] (take 24 buf) (drop 24 buf));
    [|cbn [app]; by rewrite take_drop|done|rewrite length_take, H24; lia].
  cbn [mbind res_mbind res_bind app].
  assert (Z.of_nat (length (enc_header e 0 0x10000 ++ drop 24 buf)) = 104857600) as Hb.
  { rewrite length_app, length_drop, H24. lia. }
  rewrite H24, Hb. cbn [Z.geb Z.compare].
  destruct (unmarshal_header e 0 0x10000 (drop 24 buf)) as [-> E]; [lia|].
  cbn [mbind res_mbind res_bind]. rewrite E. cbn [mbind res_mbind res_bind].
  unfold zread. rewrite Hb, Z2Nat.id by (unfold entry_at, sizeof_phdr_data, sizeof_phdr_data_entry; lia).
  destruct (Z.leb_spec (0 + entry_at 0x10000) 104857600) as [H|_]; [|by rewrite andb_false_r].
  unfold entry_at, sizeof_phdr_data, sizeof_phdr_data_entry in H. lia.
Qed.
