(* ===== verification/SolibStart.v ===== *)
(** * Starting and stopping the library handler (src/src/solib-handler.cc,
    src/src/solib-parser/lib.c)

    The fifo, the preloaded library and the environment that [startup] sets up, what
    the destructor takes down, and the thread that reads the fifo with the semaphore
    on which the engine waits for it. *)
From S2P Require Export SolibHandler Launch.
From S2P Require Import Configuration Selection.
From stdpp Require Import options.

(** ** [startup] and the destructor *)

Inductive SolibFs :=
  | SfWrite (path : bytes)
  | SfUnlink (path : bytes)
  | SfMkfifo (path : bytes)
  | SfMkdtemp (template : bytes)
  | SfRmdir (path : bytes).

(** The members that [startup] sets. *)
Record SolibMembers := mkSolibMembers {
  sm_solibPath : bytes;
  sm_solibDirectory : bytes;
  sm_foundSolibs : gset bytes;
  sm_threadStarted : bool;
}.
Definition new_SolibMembers : SolibMembers := mkSolibMembers [] [] ∅ false.

Record SolibAnswers := mkSolibAnswers {
  sa_mkfifo : bytes → Z;
  sa_mkdtemp : bytes → option bytes;
  sa_file_exists : bytes → bool;
}.

(** The handler takes part in the ticks only for ELF programs. *)
Definition registers_ticks (parserType : bytes) : bool := bool_decide (parserType = str "ELF").

Section startup.
Context (W : World) (conf : Configuration) (caps : Capabilities).

Definition solib_pipe (outDirectory : bytes) (a : SolibAnswers) (env : Environ)
  : res (bytes * bytes * list SolibFs) :=
  let path := outDirectory ++ str "kcov-solib.pipe" in
  let calls := [SfUnlink path; SfMkfifo path] in
  if sa_mkfifo a path <? 0 then
    let tmpdir := default (str "/tmp") (env !! str "TMPDIR") in
    let template := take 1023 (tmpdir ++ str "/kcov-solibXXXXXX") in
    match sa_mkdtemp a template with
    | None => Panic
    | Some dir =>
        let path := dir ++ str "/kcov-solib.pipe" in
        if sa_mkfifo a path <? 0 then Panic
        else Ok (path, dir, calls ++ [SfMkdtemp template; SfMkfifo path])
    end
  else Ok (path, [], calls).

Definition solib_startup (parserType outDirectory baseDirectory : bytes) (a : SolibAnswers) (env : Environ)
  : res (SolibMembers * Environ * list SolibFs) :=
  if negb (bool_decide (parserType = str "ELF")) then Ok (new_SolibMembers, env, [])
  else
    let kcov_solib_path := baseDirectory ++ str "libkcov_sowrapper.so" in
    '(pipe, dir, calls) ← solib_pipe outDirectory a env;
    parse ← keyAsInt conf (str "parse-solibs");
    handle ← (if negb (parse =? 0) then hasCapability caps (str "handle-solibs") else Ok false);
    let env := if (handle : bool) && sa_file_exists a kcov_solib_path
               then doSetenv (str "LD_PRELOAD=" ++ kcov_solib_path) env else env in
    let env := doSetenv (str "KCOV_SOLIB_PATH=" ++ pipe) env in
    Ok (mkSolibMembers pipe dir {[w_real_path W kcov_solib_path]} true, env,
        SfWrite kcov_solib_path :: calls).

(** The destructor: what it removes, and whether it ends the thread. *)
Definition solib_destroy (m : SolibMembers) (m_solibThreadValid : bool) : list SolibFs * bool :=
  ((if bool_decide (sm_solibPath m ≠ []) then [SfUnlink (sm_solibPath m)] else [])
     ++ (if bool_decide (sm_solibDirectory m ≠ []) then [SfRmdir (sm_solibDirectory m)] else []),
   m_solibThreadValid).

(** The path the library in the program sends its data to. *)
Definition lib_path (env : Environ) : option bytes := env !! str "KCOV_SOLIB_PATH".
End startup.

(** What [dlopen] and the start of the program do in the library, in this order. *)
Inductive LibAction := OrigDlopen | ParseSolibs | ForceBreakpoint.
Definition lib_dlopen : list LibAction := [OrigDlopen; ParseSolibs; ForceBreakpoint].
Definition kcov_solib_at_startup : list LibAction := [ParseSolibs; ForceBreakpoint].

(** ** The thread and its semaphore *)

(** [st_reading] is whether the thread is in the loop over [read]; the semaphore
    counts from 1, the default of its constructor. *)
Record SolibThread := mkSolibThread {
  st_reading : bool;
  st_valid : bool;
  st_sem : Z;
  st_phdrs : list bytes;
  st_exit : bool;
}.
Definition new_SolibThread : SolibThread := mkSolibThread false false 1 [] false.

(** What happens: [open] returns (with a descriptor or not), [read] gets a message
    (of which [phdr_data_unmarshal] makes the data, if it is any) or ends, the engine
    waits in [blockUntilSolibDataRead], a tick takes the first data. *)
Inductive SolibEvent :=
  | EvOpen (ok : bool)
  | EvRead (data : option bytes)
  | EvEnd
  | EvWait
  | EvTick.

Definition solib_event (ev : SolibEvent) (s : SolibThread) : option SolibThread :=
  let '(mkSolibThread reading valid sem phdrs exit_) := s in
  match ev, reading with
  | EvOpen ok, false => if exit_ then None else Some (mkSolibThread ok true sem phdrs exit_)
  | EvRead data, true => Some (mkSolibThread true valid (sem + 1) (phdrs ++ option_list data) exit_)
  | EvEnd, true => Some (mkSolibThread false valid (sem + 1) phdrs exit_)
  | EvWait, _ =>
      if negb valid then Some s
      else if 0 <? sem then Some (mkSolibThread reading valid (sem - 1) phdrs exit_) else None
  | EvTick, _ => Some (mkSolibThread reading valid sem (drop 1 phdrs) exit_)
  | _, _ => None
  end.
Fixpoint solib_events (evs : list SolibEvent) (s : SolibThread) : option SolibThread :=
  match evs with
  | [] => Some s
  | ev :: evs => s ← solib_event ev s; solib_events evs s
  end.

(** ** Properties *)

Section proofs.
Context (W : World) (conf : Configuration) (caps : Capabilities).
Context (parse : Z) (handle : bool).
Context (Hparse : keyAsInt conf (str "parse-solibs") = Ok parse).
Context (Hcap : hasCapability caps (str "handle-solibs") = Ok handle).

(** Where the fifo is made: in the output directory, or in a directory of its own
    where that can not have one. *)
Inductive fifo_at (out : bytes) (a : SolibAnswers) (env : Environ) : bytes → bytes → Prop :=
  | fifo_out : 0 ≤ sa_mkfifo a (out ++ str "kcov-solib.pipe") → fifo_at out a env (out ++ str "kcov-solib.pipe") []
  | fifo_tmp dir :
      sa_mkfifo a (out ++ str "kcov-solib.pipe") < 0 →
      sa_mkdtemp a (take 1023 (default (str "/tmp") (env !! str "TMPDIR") ++ str "/kcov-solibXXXXXX")) = Some dir →
      dir ≠ [] → 0 ≤ sa_mkfifo a (dir ++ str "/kcov-solib.pipe") →
      fifo_at out a env (dir ++ str "/kcov-solib.pipe") dir.

Lemma solib_pipe_ok out a env path dir :
  fifo_at out a env path dir →
  ∃ calls, solib_pipe out a env = Ok (path, dir, calls) ∧ last calls = Some (SfMkfifo path) ∧ path ≠ [].
Proof using Type.
  intros [H | d H Hd Hne H2]; unfold solib_pipe.
  - rewrite (proj2 (Z.ltb_ge _ _)) by done. eexists. split_and!; [done|done|]. by destruct out.
  - rewrite (proj2 (Z.ltb_lt _ _)) by done. rewrite Hd, (proj2 (Z.ltb_ge _ _)) by done.
    eexists. split_and!; [done|done|]. by destruct d.
Qed.

(** The program is told the path of a fifo that exists, and is given the library when
    libraries are to be parsed and can be; the library itself is never parsed; and
    the destructor removes what was made. *)
Theorem solib_startup_ready (out base path dir : bytes) (a : SolibAnswers) (env : Environ) :
  fifo_at out a env path dir → no_nul path → no_nul base →
  ∃ m env' calls,
    solib_startup W conf caps (str "ELF") out base a env = Ok (m, env', calls) ∧
    lib_path env' = Some path ∧ last calls = Some (SfMkfifo path) ∧ sm_solibPath m = path ∧
    env' !! str "LD_PRELOAD" =
      (if negb (parse =? 0) && handle && sa_file_exists a (base ++ str "libkcov_sowrapper.so")
       then Some (base ++ str "libkcov_sowrapper.so") else env !! str "LD_PRELOAD") ∧
    w_real_path W (base ++ str "libkcov_sowrapper.so") ∈ sm_foundSolibs m ∧
    ∀ valid, (solib_destroy m valid).1 = SfUnlink path :: (if bool_decide (dir = []) then [] else [SfRmdir dir]).
Proof using Hparse Hcap.
  intros Hf Hnp Hnb. destruct (solib_pipe_ok out a env path dir Hf) as (calls & Hp & Hl & Hne).
  set (lib := base ++ str "libkcov_sowrapper.so").
  assert (no_nul lib) as Hnl by (apply no_nul_app; [done|by apply no_nul_closed]).
  assert ((if negb (parse =? 0) then hasCapability caps (str "handle-solibs") else Ok false)
          = Ok (negb (parse =? 0) && handle)) as Hh by (destruct (negb (parse =? 0)); by rewrite ?Hcap).
  assert (∀ env0, doSetenv (str "KCOV_SOLIB_PATH=" ++ path) env0 = <[str "KCOV_SOLIB_PATH" := path]> env0) as E1.
  { intros env0. apply setenv_eq; [reflexivity|by apply (bool_decide_unpack _); vm_compute|by apply no_nul_closed|done]. }
  assert (∀ env0, doSetenv (str "LD_PRELOAD=" ++ lib) env0 = <[str "LD_PRELOAD" := lib]> env0) as E2.
  { intros env0. apply setenv_eq; [reflexivity|by apply (bool_decide_unpack _); vm_compute|by apply no_nul_closed|done]. }
  eexists _, _, _. split.
  - unfold solib_startup. rewrite bool_decide_eq_true_2 by done. cbn [negb]. rewrite Hp.
    cbn [mbind res_mbind res_bind]. rewrite Hparse. cbn [mbind res_mbind res_bind]. rewrite Hh.
    cbn [mbind res_mbind res_bind]. fold lib. rewrite E1, E2. reflexivity.
  - unfold lib_path, solib_destroy. cbn [sm_solibPath sm_solibDirectory sm_foundSolibs fst]. split_and!.
    + by rewrite lookup_insert_eq.
    + destruct calls; [done|]. exact Hl.
    + done.
    + rewrite lookup_insert_ne by (apply (bool_decide_unpack _); vm_compute; exact I).
      destruct (_ && sa_file_exists a lib); [by rewrite lookup_insert_eq|done].
    + set_solver.
    + intros _. rewrite bool_decide_eq_true_2 by done. cbn [app]. f_equal.
      case_bool_decide; case_bool_decide; done.
Qed.
End proofs.

(** *** The semaphore *)

Definition is_wait (ev : SolibEvent) : bool := match ev with EvWait => true | _ => false end.

Lemma sem_without_waits evs : ∀ s s',
  solib_events evs s = Some s' → forallb (λ ev, negb (is_wait ev)) evs = true → st_sem s ≤ st_sem s'.
Proof.
  induction evs as [|ev evs IH]; intros s s' H Hw; cbn in *; [by simplify_eq|].
  apply andb_true_iff in Hw as [Hw1 Hw2]. destruct (solib_event ev s) as [s1|] eqn:E; [|done]. cbn in H.
  transitivity (st_sem s1); [|by eapply IH].
  destruct s as [reading valid sem phdrs exit_]. cbn in E.
  destruct ev as [ok|data| | |]; [| | |done|]; repeat case_match; simplify_eq; cbn; lia.
Qed.

(** The engine waits once, at its first breakpoint, and that wait never blocks:
    whatever has happened before, the semaphore, which counts from 1, lets it pass -
    also when the thread has read nothing yet. *)
Theorem solib_wait_passes (evs : list SolibEvent) (s : SolibThread) :
  solib_events evs new_SolibThread = Some s → forallb (λ ev, negb (is_wait ev)) evs = true →
  is_Some (solib_event EvWait s).
Proof.
  intros H Hw. pose proof (sem_without_waits evs _ _ H Hw) as Hs. cbn in Hs.
  destruct s as [reading valid sem phdrs exit_]. cbn in Hs |- *. destruct valid; cbn; [|by eexists].
  rewrite (proj2 (Z.ltb_lt 0 sem)) by lia. by eexists.
Qed.

(** ** Concrete runs *)

Definition demo_solib_answers : SolibAnswers :=
  mkSolibAnswers (λ p, if contains (str "/readonly/") p then -1 else 0) (λ _, Some (str "/tmp/kcov-solibAb12Cd")) (λ _, true).
Definition demo_caps : Capabilities := {[ str "handle-solibs" := true ]}.
Definition demo_solib_conf : Configuration := set_keys newConfiguration [(str "parse-solibs", VInt 1)].

Lemma solib_startup_ready_witness :
  ∃ m env calls,
    solib_startup (one_file_world [] []) demo_solib_conf demo_caps (str "ELF") (str "/readonly/") (str "/base/")
      demo_solib_answers ∅ = Ok (m, env, calls) ∧
    lib_path env = Some (str "/tmp/kcov-solibAb12Cd/kcov-solib.pipe") ∧
    env !! str "LD_PRELOAD" = Some (str "/base/libkcov_sowrapper.so") ∧
    (solib_destroy m false).1 = [SfUnlink (str "/tmp/kcov-solibAb12Cd/kcov-solib.pipe"); SfRmdir (str "/tmp/kcov-solibAb12Cd")].
Proof.
  destruct (solib_startup_ready (one_file_world [] []) demo_solib_conf demo_caps 1 true eq_refl eq_refl
    (str "/readonly/") (str "/base/") (str "/tmp/kcov-solibAb12Cd/kcov-solib.pipe") (str "/tmp/kcov-solibAb12Cd")
    demo_solib_answers ∅) as (m & env & calls & H1 & H0 & _ & _ & H2 & _ & H3).
  - apply (fifo_tmp _ _ _ (str "/tmp/kcov-solibAb12Cd")); [reflexivity..|discriminate|discriminate].
  - by apply no_nul_closed.
  - by apply no_nul_closed.
  - exists m, env, calls. split; [exact H1|]. split; [exact H0|]. split; [exact H2|exact (H3 false)].
Defined.

Lemma solib_wait_passes_witness :
  ∃ s s', solib_events [EvOpen true] new_SolibThread = Some s ∧ solib_event EvWait s = Some s' ∧ st_phdrs s' = [].
Proof.
  destruct (solib_wait_passes [EvOpen true] (mkSolibThread true true 1 [] false) eq_refl eq_refl) as [s' Hs].
  exists (mkSolibThread true true 1 [] false), s'. split; [reflexivity|]. split; [exact Hs|].
  vm_compute in Hs. injection Hs as <-. reflexivity.
Defined.
