(* ===== verification/ElfParser.v ===== *)
(** * The ELF parser (src/src/parsers/elf-parser.cc)

    [ElfInstance] parses the program and its shared libraries: it looks for the
    debug information of a file in the places where distributions put it, and
    announces the lines whose addresses lie in the text of the file.  The
    disassembler is used through the interface [IDisassembler], of which the
    library-based one and the dummy are instances. *)
From S2P Require Export Interfaces.
From S2P Require Import Configuration Selection Disassembler Crc32 Elf SolibHandler.
From stdpp Require Import options.

(** [IDisassembler] (include/disassembler.hh), as the parser uses it. *)
Class IDisassembler (D : Type) := {
  dis_setup : bytes → D → res D;
  dis_addSection : bytes → Z → D → D;
  dis_verify : Z → D → res (bool * D);
}.

(** What it promises: once the sections of a file are added, the answers about
    addresses are fixed, where [ans] has one. *)
Class VerifierSpec (D : Type) `{!IDisassembler D} (fixes : D → (Z → option bool) → Prop) : Prop :=
  dis_verify_spec d ans a b :
    fixes d ans → ans a = Some b → ∃ d', dis_verify a d = Ok (b, d') ∧ fixes d' ans.

Definition DummyDisassembler (a : arch) : IDisassembler unit := {|
  dis_setup _ d := Ok d;
  dis_addSection _ _ d := d;
  dis_verify o d := Ok (dummy_verify a o, d);
|}.
Definition BfdDisassembler (print_insn : bool → bytes → Z → Z * list bytes) : IDisassembler Disassembler := {|
  dis_setup header _ := setup header;
  dis_addSection := addSection;
  dis_verify := verify print_insn;
|}.

(** ** The world the parser reads *)

(** [checkFile]: a file that cannot be opened, one that libelf does not begin,
    and what libelf answers otherwise; [None] is a NULL header. *)
Inductive ElfAnswer :=
  | NotOpened
  | NotBegun
  | Begun (kind_none : bool) (ident_class : option Z) (e_type32 e_type64 : option Z)
      (checksum32 checksum64 : Z).

Record ElfWorld := {
  ew_check : bytes → ElfAnswer;
  ew_lstat : bytes → bool;
  ew_read_file : bytes → option bytes;
  ew_elf_memory : bytes → option ElfHandle;
  ew_dwarf : bytes → option Dwarf;
  ew_file_exists : bytes → bool;
  ew_dirname : bytes → bytes;
  ew_real_path : bytes → bytes;
  ew_machine_is_64bit : bool;
}.

Definition ET_DYN : Z := 3.

(** ** ElfInstance *)

Inductive ElfCall :=
  | ElfOnFile (filename : bytes) (solib : bool)
  | ElfOnLine (file : bytes) (lineNr addr : Z).

Record ElfInstance (D : Type) := mkElfInstance {
  ei_filename : bytes;
  ei_checksum : Z;
  ei_elfIs32Bit : bool;
  ei_elfIsShared : bool;
  ei_isMainFile : bool;
  ei_initialized : bool;
  ei_verifyAddresses : Z;
  ei_buildId : bytes;
  ei_debuglink : bytes;
  ei_debuglinkCrc : Z;
  ei_relocation : Z;
  ei_invalidBreakpoints : Z;
  ei_curSegments : list Segment;
  ei_executableSegments : list Segment;
  ei_addressVerifier : D;
  ei_capabilities : Capabilities;
  ei_calls : list ElfCall;
}.
Arguments mkElfInstance {_}.
Arguments ei_filename {_}. Arguments ei_checksum {_}. Arguments ei_elfIs32Bit {_}.
Arguments ei_elfIsShared {_}. Arguments ei_isMainFile {_}. Arguments ei_initialized {_}.
Arguments ei_verifyAddresses {_}. Arguments ei_buildId {_}. Arguments ei_debuglink {_}.
Arguments ei_debuglinkCrc {_}. Arguments ei_relocation {_}. Arguments ei_invalidBreakpoints {_}.
Arguments ei_curSegments {_}. Arguments ei_executableSegments {_}. Arguments ei_addressVerifier {_}.
Arguments ei_capabilities {_}. Arguments ei_calls {_}.

(** Updates of groups of fields. *)
Section updates.
Context {D : Type}.
Implicit Types ei : ElfInstance D.

Definition ei_set_header (checksum : Z) (is32 shared : bool) (caps : Capabilities) ei : ElfInstance D :=
  mkElfInstance (ei_filename ei) checksum is32 shared (ei_isMainFile ei) (ei_initialized ei)
    (ei_verifyAddresses ei) (ei_buildId ei) (ei_debuglink ei) (ei_debuglinkCrc ei) (ei_relocation ei)
    (ei_invalidBreakpoints ei) (ei_curSegments ei) (ei_executableSegments ei) (ei_addressVerifier ei)
    caps (ei_calls ei).
Definition ei_new_file (filename : bytes) (verify : Z) (cur : list Segment) ei : ElfInstance D :=
  mkElfInstance filename (ei_checksum ei) (ei_elfIs32Bit ei) (ei_elfIsShared ei) (ei_isMainFile ei) true
    verify [] [] (ei_debuglinkCrc ei) (ei_relocation ei) (ei_invalidBreakpoints ei) cur []
    (ei_addressVerifier ei) (ei_capabilities ei) (ei_calls ei).
Definition ei_set_elf (buildId debuglink : bytes) (crc : Z) (cur exec : list Segment) ei : ElfInstance D :=
  mkElfInstance (ei_filename ei) (ei_checksum ei) (ei_elfIs32Bit ei) (ei_elfIsShared ei) (ei_isMainFile ei)
    (ei_initialized ei) (ei_verifyAddresses ei) buildId debuglink crc (ei_relocation ei)
    (ei_invalidBreakpoints ei) cur exec (ei_addressVerifier ei) (ei_capabilities ei) (ei_calls ei).
Definition ei_set_run (isMain : bool) (relocation invalid : Z) (d : D) (calls : list ElfCall) ei : ElfInstance D :=
  mkElfInstance (ei_filename ei) (ei_checksum ei) (ei_elfIs32Bit ei) (ei_elfIsShared ei) isMain
    (ei_initialized ei) (ei_verifyAddresses ei) (ei_buildId ei) (ei_debuglink ei) (ei_debuglinkCrc ei)
    relocation invalid (ei_curSegments ei) (ei_executableSegments ei) d (ei_capabilities ei) calls.

Definition ei_set_relocation (relocation : Z) ei : ElfInstance D :=
  ei_set_run (ei_isMainFile ei) relocation 0 (ei_addressVerifier ei) (ei_calls ei) ei.
Definition ei_set_verifier (d : D) (invalid : Z) ei : ElfInstance D :=
  ei_set_run (ei_isMainFile ei) (ei_relocation ei) invalid d (ei_calls ei) ei.
Definition ei_emit (c : ElfCall) ei : ElfInstance D :=
  ei_set_run (ei_isMainFile ei) (ei_relocation ei) (ei_invalidBreakpoints ei) (ei_addressVerifier ei)
    (ei_calls ei ++ [c]) ei.
Definition ei_not_main ei : ElfInstance D :=
  ei_set_run false (ei_relocation ei) (ei_invalidBreakpoints ei) (ei_addressVerifier ei) (ei_calls ei) ei.

Definition new_ElfInstance (d : D) : ElfInstance D :=
  mkElfInstance [] 0 true false true false 0 [] [] 0 0 0 [] [] d new_Capabilities [].
End updates.

Definition adjustAddressBySegment_in (segments : list Segment) (addr : Z) : Z :=
  match list_find (λ s, addressIsWithinSegment s addr = true) segments with
  | Some (_, s) => adjustAddress s addr
  | None => addr
  end.

Section parser.
Context {D : Type} `{!IDisassembler D}.
Context {F : Type} `{!IFilter F} (m_filter : F).
Context (e : endian) (w : ElfWorld) (conf : Configuration).
Implicit Types ei : ElfInstance D.

(** *** Addresses *)

Fixpoint addressIsValid_loop (segments : list Segment) (addr : Z) ei : res (bool * ElfInstance D) :=
  match segments with
  | [] => Ok (false, ei)
  | it :: segments =>
      if addressIsWithinSegment it addr then
        if negb (ei_verifyAddresses ei =? 0) then
          '(out, d) ← dis_verify addr (ei_addressVerifier ei);
          let invalid := if out : bool then ei_invalidBreakpoints ei else u32 (ei_invalidBreakpoints ei + 1) in
          Ok (out, ei_set_verifier d invalid ei)
        else Ok (true, ei)
      else addressIsValid_loop segments addr ei
  end.
Definition addressIsValid (addr : Z) ei : res (bool * ElfInstance D) :=
  addressIsValid_loop (ei_executableSegments ei) addr ei.

Definition adjustAddressBySegment (addr : Z) ei : Z := adjustAddressBySegment_in (ei_curSegments ei) addr.

(** [onLine], from [IFileParser::ILineListener]. *)
Definition elf_onLine (file : bytes) (lineNr addr : Z) ei : res (ElfInstance D) :=
  '(valid, ei) ← addressIsValid addr ei;
  if negb (valid : bool) then Ok ei
  else
    let rp := mangleSourcePath m_filter file in
    Ok (ei_emit (ElfOnLine rp lineNr (u64 (adjustAddressBySegment addr ei + ei_relocation ei))) ei).

(** *** Debug information *)

Definition tryDebugLink (path : bytes) ei : bytes :=
  if negb (ew_file_exists w path) then []
  else
    match ew_read_file w path with
    | None => []
    | Some p => if debugLinkCrc32 0 p =? ei_debuglinkCrc ei then path else []
    end.

Definition lookupDebuglinkFile ei : bytes :=
  let filePath := ew_dirname w (ei_filename ei) in
  let debugPath := tryDebugLink (filePath ++ str "/" ++ ei_debuglink ei) ei in
  if bool_decide (debugPath ≠ []) then debugPath
  else
    let debugPath := tryDebugLink (filePath ++ str "/.debug/" ++ ei_debuglink ei) ei in
    if bool_decide (debugPath ≠ []) then debugPath
    else tryDebugLink (str "/usr/lib/debug/" ++ ew_real_path w filePath ++ str "/" ++ ei_debuglink ei) ei.

(** The first part of [parseOneDwarf]: the calls of [dp.open]. *)
Definition build_id_file (buildId : bytes) : res bytes :=
  a ← substr buildId 0 2;
  b ← substr_from buildId 2;
  Ok (str "/usr/lib/debug/.build-id/" ++ a ++ str "/" ++ b ++ str ".debug").

Definition open_debug ei : res (option Dwarf) :=
  let dp := ew_dwarf w (ei_filename ei) in
  dp ← (match dp with
        | None => if (0 <? length (ei_buildId ei))%nat
                  then f ← build_id_file (ei_buildId ei); Ok (ew_dwarf w f) else Ok None
        | Some _ => Ok dp
        end);
  match dp with
  | None =>
      if (0 <? length (ei_debuglink ei))%nat then
        let debugPath := lookupDebuglinkFile ei in
        if bool_decide (debugPath = []) && ei_isMainFile ei then Ok None else Ok (ew_dwarf w debugPath)
      else Ok None
  | Some _ => Ok dp
  end.

Definition parseOneDwarf (relocation : Z) ei : res (bool * ElfInstance D) :=
  let ei := ei_set_relocation relocation ei in
  dp ← open_debug ei;
  match dp with
  | None => Ok (false, ei)
  | Some _ =>
      ei ← forEachLine elf_onLine dp ei;
      Ok (true, ei)
  end.

(** *** The file *)

Definition parseOneElf ei : res (bool * ElfInstance D) :=
  m_elf ← IElf_create e (ew_elf_memory w) (ew_read_file w (ei_filename ei));
  match m_elf with
  | None => Ok (false, ei)
  | Some (el, raw) =>
      _ ← buf_read raw EI_CLASS 1;
      d ← dis_setup (take 16 raw) (ei_addressVerifier ei);
      let segments := e_segments el in
      let cur := match ei_curSegments ei with [] => segments | c => c end in
      let '(link, crc) := match getDebugLink el with
                          | Some (link, crc) => (link, crc)
                          | None => (ei_debuglink ei, ei_debuglinkCrc ei)
                          end in
      Ok (true, ei_set_elf (e_buildId el) link crc cur (ei_executableSegments ei ++ segments)
                  (ei_set_verifier d (ei_invalidBreakpoints ei) ei))
  end.

Definition add_section (d : D) (s : Segment) : res D :=
  data ← or_fault (seg_data s);
  Ok (dis_addSection (take (Z.to_nat (seg_size s)) data) (seg_vaddr s) d).
Definition setupSections ei : res (ElfInstance D) :=
  d ← res_foldl add_section (ei_addressVerifier ei) (ei_executableSegments ei);
  Ok (ei_set_verifier d (ei_invalidBreakpoints ei) ei).

Definition doParse (relocation : Z) ei : res (bool * ElfInstance D) :=
  if negb (ew_lstat w (ei_filename ei)) then Ok (false, ei)
  else
    '(_, ei) ← parseOneElf ei;
    ei ← setupSections ei;
    '(_, ei) ← parseOneDwarf relocation ei;
    Ok (true, ei).

Definition setMainFileRelocation (relocation : Z) ei : res (bool * ElfInstance D) :=
  if ei_elfIsShared ei then doParse relocation ei else Ok (true, ei).

Definition elf_parse ei : res (bool * ElfInstance D) :=
  '(out, ei) ←
    (if ei_isMainFile ei && ei_elfIsShared ei then
       solibs ← keyAsInt conf (str "parse-solibs");
       if solibs =? 0 then '(_, ei) ← setMainFileRelocation 0 ei; Ok (true, ei) else Ok (true, ei)
     else doParse 0 ei);
  Ok (out, ei_not_main ei).

(** The class of the file, and whether libraries can be handled. *)
Definition read_ident (ident_class : option Z) ei : res (bool * Capabilities) :=
  match ident_class with
  | Some c =>
      let is32 := c =? ELFCLASS32 in
      caps ← (if bool_decide (negb is32 ≠ ew_machine_is_64bit w)
              then removeCapability (ei_capabilities ei) (str "handle-solibs")
              else addCapability (ei_capabilities ei) (str "handle-solibs"));
      Ok (is32, caps)
  | None => Ok (ei_elfIs32Bit ei, ei_capabilities ei)
  end.

Definition checkFile ei : res (bool * ElfInstance D) :=
  match ew_check w (ei_filename ei) with
  | NotOpened | NotBegun => Ok (false, ei)
  | Begun kind_none ident_class e_type32 e_type64 checksum32 checksum64 =>
      let out := negb kind_none in
      if negb (ei_isMainFile ei) then Ok (out, ei)
      else
        '(is32, caps) ← read_ident ident_class ei;
        let is32 : bool := is32 in
        e_type ← or_fault (if is32 then e_type32 else e_type64);
        let checksum := if ei_checksum ei =? 0 then (if is32 then checksum32 else checksum64)
                        else ei_checksum ei in
        Ok (out, ei_set_header checksum is32 (e_type =? ET_DYN) caps ei)
  end.

(** [data] is the entry of a library in what the preloaded library sends: the
    physical and virtual address and the size of its segments. *)
Definition addFile (filename : bytes) (data : option (list (Z * Z * Z))) ei : res (bool * ElfInstance D) :=
  verify ← (if ei_initialized ei then Ok (ei_verifyAddresses ei) else keyAsInt conf (str "verify"));
  let cur := (λ '(paddr, vaddr, size), mkSegment None paddr vaddr size) <$> default [] data in
  let ei := ei_new_file filename verify cur ei in
  '(ok, ei) ← checkFile ei;
  if negb (ok : bool) then Ok (false, ei)
  else Ok (true, ei_emit (ElfOnFile filename (negb (ei_isMainFile ei))) ei).
End parser.

(** The handler of shared libraries drives the parser. *)
Section solibs.
Context {D : Type} `{!IDisassembler D} {F : Type} `{!IFilter F} (m_filter : F).
Context (e : endian) (w : ElfWorld) (conf : Configuration).

Definition elf_solib_parser : ISolibParser (ElfInstance D) := {|
  sp_setMainFileRelocation r ei := '(_, ei) ← setMainFileRelocation m_filter e w r ei; Ok ei;
  sp_addFile name segments ei := '(_, ei) ← addFile w conf name (Some segments) ei; Ok ei;
  sp_parse ei := '(_, ei) ← elf_parse m_filter e w conf ei; Ok ei;
|}.
End solibs.

(** An address of a library, in any of the segments that are linked where they
    are loaded from, is moved by the address the library was loaded at. *)
Lemma library_address info (a : Z) :
  Forall (λ h, p_paddr h = p_vaddr h) (dlpi_phdr info) →
  let segments := (λ '(paddr, vaddr, size), mkSegment None paddr vaddr size) <$> loaded info in
  (∃ s, s ∈ segments ∧ addressIsWithinSegment s a = true) →
  adjustAddressBySegment_in segments a = u64 (dlpi_addr info + a).
Proof.
  intros Heq segments (s & Hs & Hw). unfold adjustAddressBySegment_in.
  destruct (list_find _ segments) as [[i s']|] eqn:E.
  - apply list_find_Some in E as (Hi & Hw' & _). unfold adjustAddress. rewrite Hw'.
    apply list_elem_of_lookup_2 in Hi. unfold segments, loaded in Hi.
    apply list_elem_of_fmap in Hi as ([[p v] z] & -> & Hi). apply list_elem_of_fmap in Hi as (h & [= -> -> ->] & Hi).
    apply list_elem_of_filter in Hi as [_ Hi]. rewrite Forall_forall in Heq. cbn. rewrite (Heq h Hi).
    rewrite uw_add_r. f_equal. lia.
  - apply list_find_None in E. rewrite Forall_forall in E. by destruct (E s Hs).
Qed.

(** ** The lines that are announced *)

Definition in_text (segments : list Segment) (a : Z) : bool :=
  existsb (λ s, addressIsWithinSegment s a) segments.

Section announcements.
Context {D : Type} `{!IDisassembler D} (fixes : D → (Z → option bool) → Prop) `{!VerifierSpec D fixes}.
Context {F : Type} `{!IFilter F} (m_filter : F) (w : ElfWorld).
Context (ans : Z → option bool).
Implicit Types ei : ElfInstance D.

(** An address is valid when it lies in the text and, with verification, the
    verifier accepts it. *)
Definition valid_address (verify : Z) (segments : list Segment) (a : Z) : bool :=
  in_text segments a && ((verify =? 0) || default false (ans a)).

(** What a line of the debug information becomes. *)
Definition announcement ei (ev : list (option bytes) * bytes * Z * Z) : option ElfCall :=
  let '(dirs, src, n, a) := ev in
  match fullPath dirs src with
  | Ok path =>
      if valid_address (ei_verifyAddresses ei) (ei_executableSegments ei) a
      then Some (ElfOnLine (mangleSourcePath m_filter path) n
                   (u64 (adjustAddressBySegment a ei + ei_relocation ei)))
      else None
  | _ => None
  end.

(** The parts of the state that do not change while lines are read. *)
Definition same_file ei ei' : Prop :=
  ei_verifyAddresses ei' = ei_verifyAddresses ei ∧ ei_executableSegments ei' = ei_executableSegments ei ∧
  ei_curSegments ei' = ei_curSegments ei ∧ ei_relocation ei' = ei_relocation ei.

Lemma announcement_same ei ei' ev : same_file ei ei' → announcement ei' ev = announcement ei ev.
Proof. intros (E1 & E2 & E3 & E4). unfold announcement, adjustAddressBySegment. by rewrite E1, E2, E3, E4. Qed.

Lemma addressIsValid_ok ei a :
  fixes (ei_addressVerifier ei) ans →
  (ei_verifyAddresses ei ≠ 0 → in_text (ei_executableSegments ei) a = true → is_Some (ans a)) →
  ∃ ei', addressIsValid a ei
         = Ok (valid_address (ei_verifyAddresses ei) (ei_executableSegments ei) a, ei') ∧
    fixes (ei_addressVerifier ei') ans ∧ ei_calls ei' = ei_calls ei ∧ same_file ei ei'.
Proof using VerifierSpec0.
  intros Hf. unfold addressIsValid, valid_address.
  assert (∀ segs, (ei_verifyAddresses ei ≠ 0 → in_text segs a = true → is_Some (ans a)) →
    ∃ ei', addressIsValid_loop segs a ei
    = Ok (in_text segs a && ((ei_verifyAddresses ei =? 0) || default false (ans a)), ei') ∧
    fixes (ei_addressVerifier ei') ans ∧ ei_calls ei' = ei_calls ei ∧ same_file ei ei') as H; [|by apply H].
  induction segs as [|s segs IH]; intros Hans; cbn [addressIsValid_loop in_text existsb].
  { by exists ei. }
  destruct (addressIsWithinSegment s a) eqn:Ew; cbn [orb andb].
  - destruct (Z.eqb_spec (ei_verifyAddresses ei) 0) as [|Hne]; cbn [negb orb]; [by exists ei|].
    destruct (Hans Hne) as [b Hb]; [cbn; by rewrite Ew|].
    destruct (dis_verify_spec _ _ a b Hf Hb) as (d' & -> & Hd'). cbn [mbind res_mbind res_bind].
    rewrite Hb. cbn. eexists. split; [done|]. by split_and!.
  - apply IH. intros Hne Ht. apply Hans; [done|]. cbn. by rewrite Ew.
Qed.

Lemma elf_onLine_ok ei dirs src path n a :
  fixes (ei_addressVerifier ei) ans → fullPath dirs src = Ok path →
  (ei_verifyAddresses ei ≠ 0 → in_text (ei_executableSegments ei) a = true → is_Some (ans a)) →
  ∃ ei', elf_onLine m_filter path n a ei = Ok ei' ∧ fixes (ei_addressVerifier ei') ans ∧ same_file ei ei' ∧
    ei_calls ei' = ei_calls ei ++ option_list (announcement ei (dirs, src, n, a)).
Proof using VerifierSpec0.
  intros Hf Hp Hans. destruct (addressIsValid_ok ei a Hf Hans) as (ei1 & E & Hf1 & Hc & Hs).
  unfold elf_onLine. rewrite E. cbn [mbind res_mbind res_bind]. unfold announcement. rewrite Hp.
  destruct Hs as (S1 & S2 & S3 & S4).
  destruct (valid_address _ _ a); cbn [negb].
  - eexists. split; [done|]. cbn. split_and!; [done|by split_and!|].
    rewrite Hc. unfold adjustAddressBySegment. by rewrite S3, S4.
  - exists ei1. split; [done|]. cbn. rewrite app_nil_r. by split_and!.
Qed.

(** All lines of the debug information, in their order. *)
Lemma parseOneDwarf_lines ei relocation dw dies :
  open_debug w ei = Ok (Some dw) → dies_found dw (dw_units dw) 0 dies →
  Forall (λ '(dirs, src, n, a),
    (∃ path, fullPath dirs src = Ok path) ∧
    (ei_verifyAddresses ei ≠ 0 → in_text (ei_executableSegments ei) a = true → is_Some (ans a)))
    (dies ≫= die_events) →
  fixes (ei_addressVerifier ei) ans →
  ∃ ei', parseOneDwarf m_filter w relocation ei = Ok (true, ei') ∧
    ei_calls ei' = ei_calls ei ++ omap (announcement (ei_set_relocation relocation ei)) (dies ≫= die_events).
Proof using VerifierSpec0.
  intros Ho Hdies Hev Hf. unfold parseOneDwarf. set (ei0 := ei_set_relocation relocation ei).
  assert (open_debug w ei0 = Ok (Some dw)) as -> by done. cbn [mbind res_mbind res_bind].
  rewrite (forEachLine_all _ _ dies) by done. revert Hev. generalize (dies ≫= die_events). intros evs Hev.
  destruct (res_foldl_prefix (λ pre ei', fixes (ei_addressVerifier ei') ans ∧ same_file ei0 ei' ∧
    ei_calls ei' = ei_calls ei ++ omap (announcement ei0) pre)
    (λ s '(dirs, src, n, a), path ← fullPath dirs src; elf_onLine m_filter path n a s) evs ei0)
    as (ei' & -> & _ & _ & Hc).
  - cbn. rewrite app_nil_r. by split_and!.
  - intros pre [[[dirs src] n] a] post ei1 -> (Hf1 & Hs1 & Hc1).
    apply Forall_app in Hev as [_ [[[path Hp] Hans] _]%Forall_cons].
    rewrite Hp. cbn [mbind res_mbind res_bind].
    destruct (elf_onLine_ok ei1 dirs src path n a Hf1 Hp) as (ei2 & -> & Hf2 & Hs2 & Hc2).
    { destruct Hs1 as (-> & -> & _). done. }
    exists ei2. split; [done|]. split_and!; [done| |].
    + destruct Hs1 as (? & ? & ? & ?), Hs2 as (? & ? & ? & ?). split_and!; congruence.
    + rewrite Hc2, Hc1, (announcement_same ei0 ei1), omap_app by done. rewrite <-app_assoc. do 2 f_equal.
  - cbn [mbind res_mbind res_bind]. by exists ei'.
Qed.
End announcements.

(** ** With the disassembler *)

Section with_disassembler.
Context (print_insn : bool → bytes → Z → Z * list bytes).
Context (count_int : ∀ m data pc, (print_insn m data pc).1 < 2 ^ 31).
#[local] Existing Instance BfdDisassembler.
#[local] Instance bfd : IDisassembler Disassembler := BfdDisassembler print_insn.

Definition fixes_text (d : Disassembler) (ans : Z → option bool) : Prop :=
  verifying print_insn d ∧
  ∀ a b, ans a = Some b →
    (b = true ↔ on_boundary print_insn d a) ∧ ∃ low, is_Some (d_cache d !! low) ∧ low ≤ a < 2 ^ 64.

#[local] Instance bfd_spec : VerifierSpec Disassembler fixes_text.
Proof using count_int.
  intros d ans a b [Hd Hans] Ha. destruct (Hans a b Ha) as [Hb (low & Hl & Hr)].
  destruct (verify_step print_insn count_int d a low Hd Hl Hr) as (b' & d' & E & Hd' & Hb' & Ht).
  exists d'. split.
  - change (verify print_insn a d = Ok (b, d')). rewrite E. do 2 f_equal.
    apply eq_true_iff_eq. by rewrite Hb', Hb.
  - split; [done|]. intros a1 b1 H1. destruct (Hans a1 b1 H1) as [-> (low1 & Hl1 & Hr1)]. split.
    + split; apply same_text_boundary; [done|by apply same_text_sym].
    + exists low1. split; [by eapply same_text_low|done].
Qed.

(** The text of a file: segments with their bytes, which do not overlap. *)
Definition text_segment (s : Segment) : Prop :=
  ∃ data, seg_data s = Some data ∧ data ≠ [] ∧ seg_size s = Z.of_nat (length data) ∧
    seg_paddr s = seg_vaddr s ∧ 0 ≤ seg_vaddr s ∧ seg_vaddr s + seg_size s < 2 ^ 63.
Definition text_ok (segments : list Segment) : Prop :=
  Forall text_segment segments ∧
  ∀ i j s s', segments !! i = Some s → segments !! j = Some s' → i ≠ j →
    seg_vaddr s + seg_size s ≤ seg_vaddr s' ∨ seg_vaddr s' + seg_size s' ≤ seg_vaddr s.

Definition sec_of (s : Segment) : Section_ := mkSection (default [] (seg_data s)) (seg_vaddr s) false.

(** An instruction of the text starts at the address. *)
Definition insn_at (mach : bool) (segments : list Segment) (a : Z) : Prop :=
  ∃ s, s ∈ segments ∧ addressIsWithinSegment s a = true ∧ insn_starts print_insn mach (sec_of s) a.

Lemma within_covers s a : text_segment s → addressIsWithinSegment s a = true ↔ covers (sec_of s) a.
Proof.
  intros (data & Hd & Hne & Hs & Hp & H0 & H1). unfold addressIsWithinSegment, covers, sec_of, getSize. cbn.
  rewrite Hd. cbn. rewrite Hp, uw_small by lia. rewrite andb_true_iff, Z.leb_le, Z.ltb_lt. lia.
Qed.

Lemma sections_added segments d :
  text_ok segments → verifying print_insn d → d_cache d = ∅ →
  ∃ d', res_foldl (add_section) d segments = Ok d' ∧ verifying print_insn d' ∧ d_64bit d' = d_64bit d ∧
    ∀ b s, d_cache d' !! b = Some s ↔ ∃ seg, seg ∈ segments ∧ b = seg_vaddr seg ∧ s = sec_of seg.
Proof.
  intros [Hseg Hdis] Hd Hc.
  destruct (res_foldl_prefix (λ pre d', verifying print_insn d' ∧ d_64bit d' = d_64bit d ∧
    ∀ b s, d_cache d' !! b = Some s ↔ ∃ seg, seg ∈ pre ∧ b = seg_vaddr seg ∧ s = sec_of seg)
    add_section segments d) as (d' & H1 & H2); [| |by exists d'].
  - split_and!; [done..|]. intros b s. rewrite Hc, lookup_empty. split; [done|].
    intros (seg & H & _). by inversion H.
  - intros pre seg post d1 E (Hd1 & Hm & Hc1).
    assert (segments !! length pre = Some seg) as Hi by (rewrite E; by apply list_lookup_middle).
    assert (text_segment seg) as (data & Hdat & Hne & Hs & Hp & H0 & H3).
    { rewrite Forall_forall in Hseg. apply Hseg. by eapply list_elem_of_lookup_2. }
    unfold add_section. rewrite Hdat. cbn [or_fault mbind res_mbind res_bind].
    rewrite Hs, Nat2Z.id, take_ge by lia.
    assert (fits data (seg_vaddr seg) d1 ∧ d_cache d1 !! seg_vaddr seg = None) as [Hfit Hnone].
    { assert (∀ b s, d_cache d1 !! b = Some s →
        seg_vaddr seg + Z.of_nat (length data) ≤ b ∨ b + getSize s ≤ seg_vaddr seg) as Hd2.
      { intros b s (seg' & Hin & -> & ->)%Hc1. apply list_elem_of_lookup in Hin as [j Hj].
        assert (segments !! j = Some seg') as Hj' by (rewrite E; by apply lookup_app_l_Some).
        assert (text_segment seg') as (data' & Hdat' & _ & Hs' & _).
        { rewrite Forall_forall in Hseg. apply Hseg. by eapply list_elem_of_lookup_2. }
        unfold getSize, sec_of. cbn. rewrite Hdat'. cbn. rewrite <-Hs, <-Hs'.
        apply (Hdis _ _ _ _ Hi Hj'). apply lookup_lt_Some in Hj. lia. }
      assert (0 < Z.of_nat (length data)) by (destruct data; cbn; [done|lia]).
      split.
      - split_and!; [done|lia..|]. intros b s Hb _. by apply Hd2.
      - destruct (d_cache d1 !! seg_vaddr seg) as [s|] eqn:Es; [|done]. exfalso.
        pose proof (Hd2 _ _ Es). apply Hc1 in Es as (seg' & Hin & Hv & ->).
        assert (text_segment seg') as (data' & Hdat' & Hne' & _).
        { rewrite Forall_forall in Hseg. apply Hseg. rewrite E. apply elem_of_app. by left. }
        unfold getSize, sec_of in *. cbn in *. rewrite Hdat' in *. cbn in *.
        destruct data'; cbn in *; [done|lia]. }
    change (dis_addSection data (seg_vaddr seg) d1) with (addSection data (seg_vaddr seg) d1).
    eexists. split; [done|]. split; [by apply verifying_add|]. unfold addSection. rewrite Hnone. cbn -[insert].
    split; [done|]. intros b s. rewrite lookup_insert. case_decide as Hb.
    + subst b. split.
      * intros [= <-]. exists seg. unfold sec_of. rewrite Hdat. split_and!; [|done..].
        apply elem_of_app. right. by left.
      * intros (seg' & [Hin|Hin%list_elem_of_singleton]%elem_of_app & Hv & ->); [|subst seg'; unfold sec_of; by rewrite Hdat].
        exfalso. assert (d_cache d1 !! seg_vaddr seg = Some (sec_of seg')) by (apply Hc1; by exists seg'). congruence.
    + rewrite Hc1. split; intros (seg' & Hin & Hv & ->); exists seg'; (split_and!; [|done..]).
      * apply elem_of_app. by left.
      * apply elem_of_app in Hin as [|Hin%list_elem_of_singleton]; [done|]. by subst.
Qed.

(** The verifier's answers about the text, once its sections are added. *)
Lemma text_answers segments d :
  text_ok segments → verifying print_insn d →
  (∀ b s, d_cache d !! b = Some s ↔ ∃ seg, seg ∈ segments ∧ b = seg_vaddr seg ∧ s = sec_of seg) →
  ∃ ans, fixes_text d ans ∧
    ∀ a, in_text segments a = true → ∃ b, ans a = Some b ∧ (b = true ↔ insn_at (d_64bit d) segments a).
Proof using count_int.
  intros [Hseg Hdis] Hd Hc. rewrite Forall_forall in Hseg.
  assert (∀ a, in_text segments a = true → ∃ seg, seg ∈ segments ∧ addressIsWithinSegment seg a = true ∧
    is_Some (d_cache d !! seg_vaddr seg) ∧ seg_vaddr seg ≤ a < 2 ^ 64) as Hin.
  { intros a (seg & Hseg1%list_elem_of_In & Hw)%existsb_exists. exists seg. do 2 (split; [done|]). split.
    - exists (sec_of seg). apply Hc. by exists seg.
    - destruct (Hseg seg Hseg1) as (data & _ & _ & Hs & Hp & H0 & H1). unfold addressIsWithinSegment in Hw.
      rewrite Hp, uw_small, andb_true_iff, Z.leb_le, Z.ltb_lt in Hw by lia. lia. }
  assert (∀ a, in_text segments a = true → on_boundary print_insn d a ↔ insn_at (d_64bit d) segments a) as Hon.
  { intros a Ha. destruct (Hin a Ha) as (seg & Hs & Hw & _). split.
    - intros Hb. exists seg. split_and!; [done..|]. apply (Hb (seg_vaddr seg)); [apply Hc; by exists seg|].
      apply within_covers; [by apply Hseg|done].
    - intros (seg' & Hs' & Hw' & Hst) base s (seg2 & Hs2 & -> & ->)%Hc C.
      apply within_covers in C; [|by apply Hseg].
      enough (seg2 = seg') as -> by done.
      apply list_elem_of_lookup in Hs2 as [i Hi], Hs' as [j Hj]. destruct (decide (i = j)); [congruence|].
      exfalso. pose proof (Hseg _ (list_elem_of_lookup_2 _ _ _ Hi)) as T2.
      pose proof (Hseg _ (list_elem_of_lookup_2 _ _ _ Hj)) as T'.
      apply within_covers in C; [|done]. apply within_covers in Hw'; [|done].
      destruct T2 as (d2 & E2 & _ & L2 & _), T' as (d' & E' & _ & L' & _).
      unfold covers, sec_of, getSize in *. cbn in *. rewrite E2, E' in *. cbn in *.
      destruct (Hdis _ _ _ _ Hi Hj); [done|lia..]. }
  exists (λ a, if in_text segments a then
    match verify print_insn a d with Ok (b, _) => Some b | _ => None end else None).
  assert (∀ a, in_text segments a = true → ∃ b, match verify print_insn a d with Ok (b, _) => Some b | _ => None end
    = Some b ∧ (b = true ↔ on_boundary print_insn d a)) as Hv.
  { intros a (seg & _ & _ & Hl & Hr)%Hin.
    destruct (verify_step print_insn count_int d a _ Hd Hl Hr) as (b & d' & -> & _ & Hb & _). by exists b. }
  split.
  - split; [done|]. intros a b Ha. destruct (in_text segments a) eqn:Et; [|done].
    destruct (Hv a Et) as (b' & E & Hb). simplify_eq. split; [congruence|].
    destruct (Hin a Et) as (seg & _ & _ & Hl & Hr). by exists (seg_vaddr seg).
  - intros a Ha. rewrite Ha. destruct (Hv a Ha) as (b & E & Hb). exists b. split; [done|]. by rewrite Hb, Hon.
Qed.

(** C4: When addresses are verified, parsing a file whose debug information is
    found announces, in the order of its line tables, exactly those lines whose
    address is the start of an instruction of the file's text - each once, with
    the path the filter makes of it and at the address it has in the process.
    No breakpoint is ever set into the middle of an instruction. *)
Theorem lines_on_instructions {F} `{!IFilter F} (m_filter : F) (e : endian) (w : ElfWorld)
    (ei ei1 : ElfInstance Disassembler) (relocation : Z) (dw : Dwarf) (dies : list Die) :
  ew_lstat w (ei_filename ei) = true → parseOneElf e w ei = Ok (true, ei1) →
  text_ok (ei_executableSegments ei1) → ei_verifyAddresses ei ≠ 0 →
  open_debug w ei1 = Ok (Some dw) → dies_found dw (dw_units dw) 0 dies →
  Forall (λ '(dirs, src, n, a), ∃ path, fullPath dirs src = Ok path) (dies ≫= die_events) →
  ∃ ei' (p : Z → bool), doParse m_filter e w relocation ei = Ok (true, ei') ∧
    (∀ a, p a = true ↔ insn_at (d_64bit (ei_addressVerifier ei1)) (ei_executableSegments ei1) a) ∧
    ei_calls ei' = ei_calls ei ++
      omap (λ '(dirs, src, n, a), match fullPath dirs src with
        | Ok path => if p a then Some (ElfOnLine (mangleSourcePath m_filter path) n
                       (u64 (adjustAddressBySegment a ei1 + relocation))) else None
        | _ => None end) (dies ≫= die_events).
Proof using count_int.
  intros Hl Hp Ht Hv Ho Hdies Hpaths. unfold doParse. rewrite Hl. cbn [negb]. rewrite Hp.
  cbn [mbind res_mbind res_bind].
  assert (verifying print_insn (ei_addressVerifier ei1) ∧ d_cache (ei_addressVerifier ei1) = ∅ ∧
    ei_verifyAddresses ei1 = ei_verifyAddresses ei ∧ ei_calls ei1 = ei_calls ei) as (Hd & Hc & Ev & Ecalls).
  { unfold parseOneElf in Hp. apply bind_Ok in Hp as (m & _ & Hp). destruct m as [[el raw]|]; [|done].
    apply bind_Ok in Hp as (_ & _ & Hp). apply bind_Ok in Hp as (d & Hd & Hp).
    assert (verifying print_insn d ∧ d_cache d = ∅) as [? ?].
    { change (setup (take 16 raw) = Ok d) in Hd.
      split; [by apply (verifying_setup _ (take 16 raw))|]. revert Hd. unfold setup.
      destruct (take 16 raw !! EI_CLASS); [|done]. by intros [= <-]. }
    destruct (getDebugLink el) as [[link crc]|]; injection Hp as <-; by split_and!. }
  destruct (sections_added _ _ Ht Hd Hc) as (d & Es & Hd' & Em & Hcd).
  unfold setupSections. rewrite Es. cbn [mbind res_mbind res_bind].
  destruct (text_answers _ d Ht Hd' Hcd) as (ans & Hfix & Hans).
  set (ei2 := ei_set_verifier d (ei_invalidBreakpoints ei1) ei1).
  destruct (parseOneDwarf_lines fixes_text m_filter w ans ei2 relocation dw dies) as (ei' & E & Hcalls).
  - done.
  - done.
  - eapply Forall_impl; [exact Hpaths|]. intros [[[dirs src] n] a] Hpath. split; [done|]. intros _ Hin.
    destruct (Hans a Hin) as (b & Hb & _). by exists b.
  - done.
  - rewrite E. cbn [mbind res_mbind res_bind].
    exists ei', (valid_address ans (ei_verifyAddresses ei) (ei_executableSegments ei1)). split; [done|]. split.
    + intros a. unfold valid_address. destruct (Z.eqb_spec (ei_verifyAddresses ei) 0) as [|_]; [done|].
      cbn [orb]. destruct (in_text (ei_executableSegments ei1) a) eqn:Ein; cbn [andb].
      * destruct (Hans a Ein) as (b & -> & Hb). cbn. by rewrite Hb, Em.
      * split; [done|]. intros (s & Hs & Hw & _).
        enough (in_text (ei_executableSegments ei1) a = true) by congruence.
        apply existsb_exists. exists s. by rewrite <-list_elem_of_In.
    + rewrite Hcalls. cbn. rewrite Ecalls. f_equal. apply list_omap_ext. 
      apply Forall_Forall2_diag, Forall_forall. intros [[[dirs src] n] a] _. cbn. by rewrite Ev.
Qed.
End with_disassembler.

(** ** Where the debug information is found *)

Section debug_files.
Context {D : Type} (w : ElfWorld).
Implicit Types ei : ElfInstance D.

(** The places where a debug link is looked up, in this order. *)
Definition debuglink_places ei : list bytes :=
  let dir := ew_dirname w (ei_filename ei) in
  [dir ++ str "/" ++ ei_debuglink ei; dir ++ str "/.debug/" ++ ei_debuglink ei;
   str "/usr/lib/debug/" ++ ew_real_path w dir ++ str "/" ++ ei_debuglink ei].

(** A file that has the checksum of the link. *)
Definition is_linked ei (path : bytes) : Prop :=
  ew_file_exists w path = true ∧
  ∃ content, ew_read_file w path = Some content ∧ debugLinkCrc32 0 content = ei_debuglinkCrc ei.

Lemma tryDebugLink_spec ei path :
  path ≠ [] →
  (tryDebugLink w path ei = path ∧ is_linked ei path) ∨ (tryDebugLink w path ei = [] ∧ ¬ is_linked ei path).
Proof.
  intros Hne. unfold tryDebugLink, is_linked. destruct (ew_file_exists w path); cbn [negb].
  - destruct (ew_read_file w path) as [p|].
    + destruct (Z.eqb_spec (debugLinkCrc32 0 p) (ei_debuglinkCrc ei)); [left|right]; (split; [done|]).
      * split; [done|]. by exists p.
      * intros (_ & c & [= <-] & ?). done.
    + right. split; [done|]. by intros (_ & c & ? & _).
  - right. split; [done|]. by intros [? _].
Qed.

Lemma lookupDebuglinkFile_spec ei :
  (lookupDebuglinkFile w ei = [] ∧ Forall (λ p, ¬ is_linked ei p) (debuglink_places ei)) ∨
  (∃ i, debuglink_places ei !! i = Some (lookupDebuglinkFile w ei) ∧
    is_linked ei (lookupDebuglinkFile w ei) ∧ lookupDebuglinkFile w ei ≠ [] ∧
    ∀ j p, (j < i)%nat → debuglink_places ei !! j = Some p → ¬ is_linked ei p).
Proof.
  unfold lookupDebuglinkFile, debuglink_places.
  set (dir := ew_dirname w (ei_filename ei)). set (p0 := dir ++ str "/" ++ _). set (p1 := dir ++ str "/.debug/" ++ _).
  set (p2 := str "/usr/lib/debug/" ++ _).
  assert (p0 ≠ []) by (unfold p0; destruct dir; done). assert (p1 ≠ []) by (unfold p1; destruct dir; done).
  assert (p2 ≠ []) by done. clearbody p0 p1 p2.
  destruct (tryDebugLink_spec ei p0) as [[-> ?]|[-> N0]]; [done| |].
  { rewrite bool_decide_eq_true_2 by done. right. exists 0%nat. split_and!; [done..|]. intros j p Hj. lia. }
  rewrite bool_decide_eq_false_2 by (intros Hn; by apply Hn).
  destruct (tryDebugLink_spec ei p1) as [[-> ?]|[-> N1]]; [done| |].
  { rewrite bool_decide_eq_true_2 by done. right. exists 1%nat. split_and!; [done..|].
    intros [|j] p Hj; [|lia]. by intros [= <-]. }
  rewrite bool_decide_eq_false_2 by (intros Hn; by apply Hn).
  destruct (tryDebugLink_spec ei p2) as [[-> ?]|[-> N2]]; [done| |].
  { right. exists 2%nat. split_and!; [done..|]. intros [|[|j]] p Hj; [by intros [= <-]..|lia]. }
  left. split; [done|]. by repeat constructor.
Qed.

(** The debug information of a program is its own; or that of its build-id; or
    that of the first file in the places for debug links that has the checksum
    the link names - and then no file that differs from it in one byte would
    have been taken for it. *)
Theorem debug_information_source ei (dw : Dwarf) :
  open_debug w ei = Ok (Some dw) → ei_isMainFile ei = true →
  ew_dwarf w (ei_filename ei) = Some dw ∨
  (ew_dwarf w (ei_filename ei) = None ∧
   ((∃ f, build_id_file (ei_buildId ei) = Ok f ∧ ew_dwarf w f = Some dw) ∨
    (∃ i path content,
      debuglink_places ei !! i = Some path ∧ ew_dwarf w path = Some dw ∧
      ew_read_file w path = Some content ∧ debugLinkCrc32 0 content = ei_debuglinkCrc ei ∧
      (∀ j p, (j < i)%nat → debuglink_places ei !! j = Some p → ¬ is_linked ei p) ∧
      ∀ a b x y, content = a ++ x :: b → x ≠ y → debugLinkCrc32 0 (a ++ y :: b) ≠ ei_debuglinkCrc ei))).
Proof.
  unfold open_debug. intros H Hmain. destruct (ew_dwarf w (ei_filename ei)) as [d0|]; cbn [mbind res_mbind res_bind] in H.
  { left. congruence. }
  right. split; [done|]. apply bind_Ok in H as (dp & Hdp & H). destruct dp as [d1|].
  { left. case_match; [|done]. apply bind_Ok in Hdp as (f & Hf & [= Hd]). exists f. by split; [|congruence]. }
  right. destruct (0 <? length (ei_debuglink ei))%nat; [|done]. cbv zeta in H. rewrite Hmain in H.
  destruct (lookupDebuglinkFile_spec ei) as [[E _]|(i & Hi & (He & content & Hc & Hcrc) & Hne & Hmin)].
  { rewrite E in H. done. }
  rewrite bool_decide_eq_false_2 in H by done. cbn [andb] in H. injection H as H.
  exists i, (lookupDebuglinkFile w ei), content. split_and!; [done..|].
  intros a b x y -> Hxy Heq. apply Hxy, (debugLinkCrc32_detects a b). congruence.
Qed.
End debug_files.

(** ** A concrete file *)

(** A header that says 64 bits, and the text of seven bytes. *)
Definition demo_raw : bytes := replicate 4 NUL ++ [byte_of 2] ++ zeros 11 ++ str "nj3nnj1".
Definition demo_elf : ElfHandle :=
  mkElfHandle true (Some 2) [mkScn None (Some (mkShdr 1 0x400 7 6 16)) (Some (Some (str "nj3nnj1"))) (Some (str ".text"))].
Definition demo_dwarf : Dwarf := mkDwarf [(100, 11)] (λ o, if o =? 11 then Some (plain_die
  [plain_line 3 (str "a.c") 0x400; plain_line 4 (str "a.c") 0x402; plain_line 5 (str "a.c") 0x403]) else None).
Definition demo_world : ElfWorld := {|
  ew_check _ := Begun false (Some 2) None (Some ET_DYN) 0 77;
  ew_lstat _ := true;
  ew_read_file f := if bool_decide (f = str "/bin/prog") then Some demo_raw
                    else if bool_decide (f = str "/bin/.debug/prog.dbg") then Some (str "123456789") else None;
  ew_elf_memory _ := Some demo_elf;
  ew_dwarf f := if bool_decide (f = str "/bin/.debug/prog.dbg") then Some demo_dwarf else None;
  ew_file_exists f := bool_decide (f = str "/bin/.debug/prog.dbg");
  ew_dirname _ := str "/bin";
  ew_real_path p := p;
  ew_machine_is_64bit := true;
|}.
Definition demo_instance : ElfInstance Disassembler :=
  mkElfInstance (str "/bin/prog") 77 false true true true 1 [] (str "prog.dbg") 0xcbf43926 0 0 [] []
    new_Disassembler ∅ [].
Definition demo_bfd : IDisassembler Disassembler := BfdDisassembler print_demo.
Definition demo_parsed : ElfInstance Disassembler :=
  match @parseOneElf _ demo_bfd LittleEndian demo_world demo_instance with
  | Ok (_, ei) => ei | _ => demo_instance end.
Definition calls_of {A} (r : res (A * ElfInstance Disassembler)) : list ElfCall :=
  match r with Ok (_, ei) => ei_calls ei | _ => [] end.

Lemma demo_text_ok : text_ok (ei_executableSegments demo_parsed).
Proof.
  assert (ei_executableSegments demo_parsed = [mkSegment (Some (str "nj3nnj1")) 0x400 0x400 7]) as -> by by vm_compute.
  split.
  - constructor; [|done]. by exists (str "nj3nnj1").
  - intros i j s s' Hi Hj Hne. apply list_lookup_singleton_Some in Hi as [-> _], Hj as [-> _]. done.
Qed.

Lemma lines_on_instructions_witness :
  calls_of (@doParse _ demo_bfd unit keep_all tt LittleEndian demo_world 0x10000 demo_instance)
  = [ElfOnLine (str "/work/a.c") 3 0x10400; ElfOnLine (str "/work/a.c") 5 0x10403] ∧
  ∃ ei' p, @doParse _ demo_bfd unit keep_all tt LittleEndian demo_world 0x10000 demo_instance = Ok (true, ei') ∧
    ∀ a, p a = true ↔ insn_at print_demo true (ei_executableSegments demo_parsed) a.
Proof.
  split; [by vm_compute|].
  destruct (@lines_on_instructions print_demo print_demo_int unit keep_all tt LittleEndian demo_world
    demo_instance demo_parsed 0x10000 demo_dwarf
    [plain_die [plain_line 3 (str "a.c") 0x400; plain_line 4 (str "a.c") 0x402; plain_line 5 (str "a.c") 0x403]])
    as (ei' & p & H1 & H2 & _).
  - reflexivity.
  - reflexivity.
  - apply demo_text_ok.
  - discriminate.
  - reflexivity.
  - by split.
  - repeat constructor; by eexists.
  - exists ei', p. split; [exact H1|exact H2].
Defined.

Lemma debug_information_source_witness :
  ∃ i path content, debuglink_places demo_world demo_instance !! i = Some path ∧ path = str "/bin/.debug/prog.dbg" ∧
    ew_read_file demo_world path = Some content ∧ debugLinkCrc32 0 content = 0xcbf43926.
Proof.
  destruct (debug_information_source demo_world demo_instance demo_dwarf) as [H|[_ [(f & Hf & _)|H]]].
  - reflexivity.
  - reflexivity.
  - discriminate H.
  - vm_compute in Hf. discriminate Hf.
  - destruct H as (i & path & content & H1 & H2 & H3 & H4 & _). exists i, path, content. split_and!; [exact H1| |exact H3|exact H4].
    unfold demo_world in H2. cbn in H2. case_bool_decide as Hp; [exact Hp|discriminate H2].
Defined.
